(* ===== verification/_CoqProject ===== *)
-Q . S2P
Prelude.v
Config.v
Machine.v
Ertrie.v
Liveness.v
Captbl.v
CaptblSpec.v
Retype.v
RetypeSpec.v
RetypeConc.v
Pgtbl.v
PgtblSpec.v
DList.v
Tcap.v
TcapSpec.v
CapOps.v
Thd.v
Inv.v
Capinv.v
Safety.v
KernelSafe.v
InvSpec.v
SwitchSpec.v
EventSpec.v
DeactSpec.v
Heap.v
Ring.v
Sl.v
SlSpec.v
SlTime.v
SlXcpu.v
Eos.v
EosSpec.v
Mca.v
McaSpec.v
EosChain.v
Fwp.v
FwpSpec.v
Ninf.v
NinfSpec.v
NinfRx.v
