(* ===== verification/Prelude.v ===== *)
(** * Verification of the Composite kernel and of the EOS components

    The repository holds the Composite microkernel for 32-bit x86
    ([src/src/kernel]), the libraries with which components schedule threads
    ([src/src/components/lib]), and EOS, a manager that runs chains of network
    functions as components, each isolated from the others
    ([src/src/components/implementation/no_interface/fwp_manager]).  This
    library translates the C code into Rocq functions and proves theorems
    about them.

    ** Method

    An operation is a function in the monad [M S A] (below): it takes a state
    and returns [Ok] with a value and the next state, or [Panic] with the
    reason for which the code stops (a failed [assert], a null pointer, an
    index out of range).  Integers are of type [Z] and are wrapped where the
    code stores them at their width.  Error codes are negative numbers, as in
    the code.  All definitions can be evaluated.  The reading of a clock is the
    next value of an arbitrary sequence in the state.  Code that is not part of
    the repository is a class of operations, with a second class for the
    behaviour that its documentation promises; every theorem over such a class
    comes with an instance.

    A step of a model with several threads of control is one call of an
    operation, as a whole, except in [RetypeConc], where it is one access to a
    shared word.

    ** The kernel

    - [Config], [Machine]: constants; the state of the kernel, with
      word-addressed memory for everything that the code reaches through
      casts, and records for threads and temporal capabilities.
    - [Ertrie]: the generic radix trie of [ertrie.h]; [Liveness], [Captbl] and
      [Pgtbl] instantiate it ([liveness_tbl.h], [captbl.h], [pgtbl.h]).
      [CaptblSpec]: a capability table is a partial map; what is added is
      found, what is deleted is not, others are not affected, and a slot is
      used again only after the quiescence period.  [PgtblSpec]: the same for
      mappings, whose frames are counted, and which are replaced only when no
      translation buffer can hold the old one.
    - [Retype]: types and reference counts of physical memory
      ([retype_tbl.c]).  [RetypeSpec]: each operation alone; [RetypeConc]: any
      number of cores, interleaved at each access to memory; a set is untyped
      only when no reference exists, and no assertion fails.
    - [DList]: the linked lists of [list.h], proved to be queues.
    - [Tcap]: temporal capabilities ([tcap.h], [tcap.c]).  [TcapSpec]: budgets
      are moved and consumed without loss, delegation computes priorities as
      specified, and the timer is set so that no budget is exceeded.
    - [CapOps], [Thd], [Inv], [Capinv]: capabilities to tables and kernel
      memory ([cap_ops.h]), threads and their invocation stacks ([thd.h]),
      components, synchronous invocations, end-points and requests between
      cores ([component.h], [inv.h], [hw.h], [ipi_cap.h]), and the handler of
      every system call and interrupt ([capinv.c]).
    - [Safety], [KernelSafe]: whatever registers and memory hold, a sequence of
      entries into the kernel keeps the structural invariant and stays within
      the kernel's arrays.  [InvSpec]: invocation and return are a round trip;
      the rings between cores are queues.  [SwitchSpec]: so is a switch of
      threads.  [EventSpec]: an asynchronous send reaches its scheduler, after
      the events before it.  [DeactSpec]: memory of tables is released only
      when it is quiescent; scheduler tokens are ordered.

    ** The scheduler of a component

    - [Heap]: the array heap of [heap.c] over any client, which is the class
      [HeapClient]; it refines a priority queue.
    - [Ring]: the interfaces of the rings of ConcurrencyKit and the lists of
      parsec.
    - [Sl]: the library [sl] with the earliest-deadline-first policy, timeouts,
      and requests between cores ([sl_sched.c], [sl.h], [sl_mod_edf.c], [sl_xcpu.c],
      [sl_raw.c], [eos_sched.c] and others).  [SlSpec]: a thread that blocks
      hands the processor to the runnable thread with the earliest deadline.
      [SlTime]: exactly the expired timeouts fire.  [SlXcpu]: wake-ups sent from
      another core arrive, in order.

    ** EOS

    - [Eos]: the rings of a network function ([eos_ring.h], [eos_pkt.h]).
      [EosSpec]: their invariant with the history of all batches, and what each
      operation does to it.
    - [Mca]: the core that moves batches between functions ([eos_mca.c]).
      [McaSpec]: a round moves the oldest batch, byte for byte, and wakes the
      receiver with its deadline.
    - [EosChain]: the composition; for every interleaving, what a function
      receives is a prefix of what the function before it sent, nothing is
      lost, and no call of a function fails.
    - [Fwp]: the manager ([fwp_manager.c], [fwp_chain_cache.c], [fwp_sinv.c]).
      [FwpSpec]: a chain is copied with its connections; the tables are too
      small for the chains that the start creates.
    - [Ninf]: the cores of the network interface ([ninf_rx.c], [ninf_tx.c],
      [ninf.c], the keys of [ninf_util.h] and [ninf_util.c]), over DPDK as the
      parameter [Dpdk], for the configuration with a chain per flow.
      [NinfSpec]: the sending core hands over every batch that waits, and a
      function gets a node back only when its packets have left.
      [NinfRx]: the receiving core puts a packet behind those of its flow or
      stops, its ring feeds the chain, and its unrolled loop is the loop over
      the packets; a burst with packets of several batches mixes their lengths.

    ** Bounds

    Loops with a bound in the code use it.  Other loops take [fuel], and
    theorems that the code returns state the fuel that is enough: one round
    more than there are entries in a ring, a queue or a trie ([collect_loop],
    [process_ring_loop], [swap_down_loop]); [spin] bounds the loops that wait
    for another core and is arbitrary but for the number of pending requests.
    Running out is [Panic NoFuel], so that no theorem about a result holds
    because a loop was cut off.

    ** Not modelled

    - The start of the kernel, consoles, interrupt controllers, firmware
      tables and timers ([src/src/platform]): they act on hardware.  Loading a
      page table and arming the timer are recorded in the state of the core.
    - The booter ([llbooter.c]) and the library [cos_kernel_api]: they issue
      sequences of system calls at start; the scheduler and the manager take
      them as the parameters [KernelApi] and [FwpKernel].
    - Scheduling policies that EOS does not link, and functions for threads
      with end-points of their own in [sl].
    - Weak memory: accesses of different cores are interleaved, and x86's
      store buffers are not modelled.
    - Of the network interface: the start of the devices and the check of
      their links ([ninf.c]), the printing of statistics, the flow tables
      ([ninf_util.c]) that the configuration does not use, and the endless
      loops, of which one round is modelled.  DPDK is not in the repository.
    - The network functions, and the ported libraries under
      [src/src/components/lib] (Click, C and C++ libraries). *)

From Stdlib Require Export ZArith Lia Bool.
From stdpp Require Export base tactics list gmap.

#[global] Open Scope Z_scope.

(** ** Machine integers

    The kernel runs on 32-bit x86: [unsigned long], pointers, [u32_t] and
    [capid_t] are 32 bits wide, [cycles_t] and [u64_t] 64 bits. *)

Definition wrap (w x : Z) : Z := x mod 2 ^ w.
Definition u8 (x : Z) : Z := x mod 256.
Definition u16 (x : Z) : Z := x mod 65536.
Definition u32 (x : Z) : Z := x mod 4294967296.
Definition u64 (x : Z) : Z := x mod 18446744073709551616.

(** Two's complement reading of a [w]-bit pattern. *)
Definition sext (w x : Z) : Z := (x + 2 ^ (w - 1)) mod 2 ^ w - 2 ^ (w - 1).
Definition i32 (x : Z) : Z := (x + 2147483648) mod 4294967296 - 2147483648.

Definition is_u32 (x : Z) : Prop := 0 <= x < 4294967296.

(** C truth value of a comparison. *)
Definition b2z (b : bool) : Z := if b then 1 else 0.

(** [bits v off n]: the [n]-bit field of [v] that starts at bit [off]. *)
Definition bits (v off n : Z) : Z := (v / 2 ^ off) mod 2 ^ n.

(** The C test [v & (1 << n)]. *)
Definition bit_set (v n : Z) : bool := Z.testbit v n.

(** ** Outcomes

    Kernel code either returns, with a value and the next state, or stops:
    [assert] calls [khalt], and a dereference of the first page faults. *)

Inductive halt : Type :=
| AssertFail   (** an [assert] of the source failed *)
| NullDeref    (** a load or store through [NULL] *)
| OutOfBounds  (** an array access out of range, which C leaves undefined *)
| BadLocal     (** the address of a dead stack variable escaped *)
| NoFuel.      (** a loop ran longer than the bound given to it *)

Inductive outcome (S A : Type) : Type :=
| Ok (a : A) (s : S)
| Panic (h : halt).
Arguments Ok {S A} a s.
Arguments Panic {S A} h.

Definition M (S A : Type) : Type := S -> outcome S A.

Definition ret {S A} (a : A) : M S A := fun s => Ok a s.
Definition bind {S A B} (m : M S A) (k : A -> M S B) : M S B :=
  fun s => match m s with Ok a s' => k a s' | Panic h => Panic h end.
Definition panic {S A} (h : halt) : M S A := fun _ => Panic h.
Definition gets {S A} (f : S -> A) : M S A := fun s => Ok (f s) s.
Definition modify {S} (f : S -> S) : M S unit := fun s => Ok tt (f s).

(** [assert(b)] *)
Definition massert {S} (b : bool) : M S unit := if b then ret tt else panic AssertFail.

Declare Scope k_scope.
Delimit Scope k_scope with k.
Notation "x <- c1 ;; c2" := (bind c1 (fun x => c2))
  (at level 100, c1 at next level, right associativity) : k_scope.
Notation "'let!' pat := c1 'in' c2" := (bind c1 (fun x => match x with pat => c2 end))
  (at level 100, pat pattern, c1 at level 200, right associativity) : k_scope.
Notation "c1 ;; c2" := (bind c1 (fun _ => c2))
  (at level 100, right associativity) : k_scope.
#[global] Open Scope k_scope.

(** [for (i = lo; n times; i++) body], without early exit. *)
Fixpoint for_n {S} (n : nat) (i : Z) (body : Z -> M S unit) : M S unit :=
  match n with
  | O => ret tt
  | Datatypes.S n' => body i ;; for_n n' (i + 1) body
  end.

(** The same with an early exit: the body returns [Some r] to leave the
    enclosing function with [r]. *)
Fixpoint for_ret {S R} (n : nat) (i : Z) (body : Z -> M S (option R)) : M S (option R) :=
  match n with
  | O => ret None
  | Datatypes.S n' =>
      r <- body i ;;
      match r with Some x => ret (Some x) | None => for_ret n' (i + 1) body end
  end.

(** ** Integers *)

Lemma u32_range x : is_u32 (u32 x).
Proof. by apply Z.mod_pos_bound. Qed.

Lemma u32_small x : is_u32 x -> u32 x = x.
Proof. apply Z.mod_small. Qed.

Lemma u32_u32 x : u32 (u32 x) = u32 x.
Proof. apply u32_small, u32_range. Qed.

Lemma lor_u32 a b : is_u32 a -> is_u32 b -> is_u32 (Z.lor a b).
Proof.
  unfold is_u32. intros Ha Hb. assert (0 <= Z.lor a b) as H0 by (apply Z.lor_nonneg; lia).
  split; [done|]. destruct (Z.eq_dec (Z.lor a b) 0) as [->|Hne]; [lia|].
  change 4294967296 with (2 ^ 32) in *. apply Z.log2_lt_pow2; [lia|].
  rewrite Z.log2_lor by lia. apply Z.max_lub_lt.
  - destruct (Z.eq_dec a 0) as [->|]; [done|]. apply Z.log2_lt_pow2; lia.
  - destruct (Z.eq_dec b 0) as [->|]; [done|]. apply Z.log2_lt_pow2; lia.
Qed.

Lemma bits_range v off n : 0 <= n -> 0 <= bits v off n < 2 ^ n.
Proof. intros. apply Z.mod_pos_bound, Z.pow_pos_nonneg; lia. Qed.

(** A decidable claim about finitely many integers, by computation. *)
Lemma forall_below (n : nat) (P : Z -> bool) :
  forallb P (map Z.of_nat (seq 0 n)) = true -> forall x, 0 <= x < Z.of_nat n -> P x = true.
Proof.
  intros H x Hx. apply forallb_forall with (x := x) in H; [done|].
  apply in_map_iff. exists (Z.to_nat x). split; [lia|]. apply in_seq. lia.
Qed.

(** ** Equational reasoning about outcomes *)

Lemma bind_Ok {S A B} (m : M S A) (k : A -> M S B) s a s' :
  m s = Ok a s' -> bind m k s = k a s'.
Proof. unfold bind. by intros ->. Qed.

Lemma bind_Panic {S A B} (m : M S A) (k : A -> M S B) s h :
  m s = Panic h -> bind m k s = Panic h.
Proof. unfold bind. by intros ->. Qed.

Lemma bind_inv {S A B} (m : M S A) (k : A -> M S B) s b s'' :
  bind m k s = Ok b s'' -> exists a s', m s = Ok a s' /\ k a s' = Ok b s''.
Proof. unfold bind. destruct (m s) as [a s'|]; [eauto|discriminate]. Qed.

Lemma bind_assoc {S A B C} (m : M S A) (k : A -> M S B) (l : B -> M S C) s :
  bind (bind m k) l s = bind m (fun a => bind (k a) l) s.
Proof. unfold bind. by destruct (m s). Qed.

(** The first step of [m] is the first step of what follows it. *)
Lemma bind_first {S A B C} (m : M S A) (k : A -> M S B) (m' : M S C) (k' : C -> M S A) s s' :
  m s = bind m' k' s' -> bind m k s = bind m' (fun x => bind (k' x) k) s'.
Proof. intros H. rewrite <- (bind_assoc m' k' k s'). unfold bind at 1 2. by rewrite H. Qed.

Lemma bind_ext {S A B} (m : M S A) (k l : A -> M S B) s :
  (forall a s', m s = Ok a s' -> k a s' = l a s') -> bind m k s = bind m l s.
Proof. unfold bind. destruct (m s); eauto. Qed.

Lemma Ok_val {S A} (a b : A) (s s' : S) : Ok a s = Ok b s' -> a = b.
Proof. by intros [=]. Qed.

Lemma massert_Ok {S} (b : bool) (s : S) : b = true -> massert b s = Ok tt s.
Proof. by intros ->. Qed.

Lemma massert_inv {S} (b : bool) (s : S) u s' :
  massert b s = Ok u s' -> b = true /\ s' = s.
Proof. destruct b; [by intros [= _ ->]|discriminate]. Qed.

(** How a run ended: its value, or why it stopped. *)
Definition result {S A} (o : outcome S A) : A + halt :=
  match o with Ok a _ => inl a | Panic h => inr h end.

(** [minv H] takes apart a hypothesis that a computation returned. *)
Ltac minv1 H :=
  lazymatch type of H with
  | bind _ _ _ = Ok _ _ =>
      let a := fresh "a" in let s := fresh "s" in
      let H1 := fresh "Hm" in let H2 := fresh "Hk" in
      apply bind_inv in H as (a & s & H1 & H2); minv1 H1; minv1 H2
  | ret _ _ = Ok _ _ => unfold ret in H; simplify_eq
  | gets _ _ = Ok _ _ => unfold gets in H; simplify_eq
  | modify _ _ = Ok _ _ => unfold modify in H; simplify_eq
  | massert _ _ = Ok _ _ =>
      let Hb := fresh "Hassert" in let Hs := fresh in
      apply massert_inv in H as [Hb Hs]; subst
  | panic _ _ = Ok _ _ => discriminate H
  | Panic _ = Ok _ _ => discriminate H
  | Ok _ _ = Ok _ _ => simplify_eq
  | (if ?b then _ else _) _ = Ok _ _ =>
      let E := fresh "E" in destruct b eqn:E; [try discriminate E | try discriminate E];
      minv1 H
  | (match ?x with Some _ => _ | None => _ end) _ = Ok _ _ =>
      let E := fresh "E" in destruct x eqn:E; minv1 H
  | (match ?x with (_, _) => _ end) _ = Ok _ _ => destruct x; minv1 H
  | (let x := _ in _) _ = Ok _ _ => cbv zeta in H; minv1 H
  | _ => idtac
  end.
Tactic Notation "minv" hyp(H) := minv1 H.

(** [mgo] runs the next step of a computation whose result is known. *)
Create HintDb kexec.
Ltac mside := first [assumption | reflexivity | lia | solve [eauto with kexec]].
Ltac mgo1 :=
  lazymatch goal with
  | |- context [bind (ret ?a) ?k ?s] => rewrite (bind_Ok (ret a) k s a s) by reflexivity
  | |- context [bind (gets ?f) ?k ?s] =>
      rewrite (bind_Ok (gets f) k s (f s) s) by reflexivity
  | |- context [bind (modify ?f) ?k ?s] =>
      rewrite (bind_Ok (modify f) k s tt (f s)) by reflexivity
  | |- context [bind (massert ?b) ?k ?s] =>
      rewrite (bind_Ok (massert b) k s tt s) by (apply massert_Ok; mside)
  | |- context [bind (bind ?m ?k) ?l ?s] => rewrite (bind_assoc m k l s)
  | |- context [bind ?m ?k ?s] => erewrite (bind_Ok m k s) by mside
  end; cbv beta.
Ltac mgo := repeat mgo1.

(** ** Computations that respect a relation between states

    [Respects R m]: whenever [m] returns, the states before and after are
    related by [R].  With [R := eq] the computation only reads.  The
    instances follow the structure of the code, so that a frame property of
    a composite operation is inferred from those of its parts. *)

Class Respects {S A} (R : S -> S -> Prop) (m : M S A) : Prop :=
  respects : forall s a s', m s = Ok a s' -> R s s'.

#[global] Hint Mode Respects - - ! ! : typeclass_instances.

#[export] Instance respects_ret {S A} (R : relation S) `{!Reflexive R} (a : A) :
  Respects R (ret a).
Proof. by intros s a' s' [= _ ->]. Qed.

#[export] Instance respects_gets {S A} (R : relation S) `{!Reflexive R} (f : S -> A) :
  Respects R (gets f).
Proof. by intros s a' s' [= _ ->]. Qed.

#[export] Instance respects_panic {S A} (R : relation S) h :
  Respects R (panic (S:=S) (A:=A) h).
Proof. by intros s a' s' [=]. Qed.

#[export] Instance respects_massert {S} (R : relation S) `{!Reflexive R} b :
  Respects R (massert b).
Proof. intros s a' s' H. by apply massert_inv in H as [_ ->]. Qed.

#[export] Instance respects_bind {S A B} (R : relation S) `{!Transitive R}
    (m : M S A) (k : A -> M S B) :
  Respects R m -> (forall a, Respects R (k a)) -> Respects R (bind m k).
Proof.
  intros Hm Hk s b s'' H. apply bind_inv in H as (a & s' & H1 & H2).
  etrans; [by eapply Hm|by eapply Hk].
Qed.

#[export] Instance respects_if {S A} (R : relation S) (b : bool) (m1 m2 : M S A) :
  Respects R m1 -> Respects R m2 -> Respects R (if b then m1 else m2).
Proof. by destruct b. Qed.

#[export] Instance respects_opt {S A B} (R : relation S) (o : option B)
    (f : B -> M S A) (m : M S A) :
  (forall b, Respects R (f b)) -> Respects R m ->
  Respects R (match o with Some b => f b | None => m end).
Proof. by destruct o. Qed.

#[export] Instance respects_pair {S A B C} (R : relation S) (p : B * C)
    (f : B -> C -> M S A) :
  (forall b c, Respects R (f b c)) ->
  Respects R (match p with (b, c) => f b c end).
Proof. by destruct p. Qed.

#[export] Instance respects_for_n {S} (R : relation S) `{!PreOrder R} n i
    (body : Z -> M S unit) :
  (forall j, Respects R (body j)) -> Respects R (for_n n i body).
Proof.
  intros Hb. revert i. induction n as [|n IH]; intros i; simpl; apply _.
Qed.

#[export] Instance respects_for_ret {S X} (R : relation S) `{!PreOrder R} n i
    (body : Z -> M S (option X)) :
  (forall j, Respects R (body j)) -> Respects R (for_ret n i body).
Proof.
  intros Hb. revert i. induction n as [|n IH]; intros i; simpl; apply _.
Qed.

Abbreviation ReadOnly := (Respects eq).

Lemma read_only {S A} (m : M S A) `{!ReadOnly m} s a s' : m s = Ok a s' -> s' = s.
Proof. intros H. symmetry. exact (ReadOnly0 s a s' H). Qed.

(** [ro H]: the state did not change in the step [H]. *)
Ltac ro H :=
  let E := fresh in
  pose proof (read_only _ _ _ _ H) as E; first [subst | rewrite E in *; clear E].

(** A computation that only reads respects every reflexive relation. *)
Lemma respects_of_ro {S A} (R : relation S) `{!Reflexive R} (m : M S A) :
  ReadOnly m -> Respects R m.
Proof. intros Hm s a s' H. by rewrite (Hm s a s' H). Qed.

#[export] Hint Extern 10 (Respects ?R _) =>
  lazymatch R with eq => fail | _ => eapply respects_of_ro end : typeclass_instances.

(** A loop that leaves early does so because one of its rounds did. *)
Lemma for_ret_Some {S R} n i (body : Z -> M S (option R)) s x s' :
  for_ret n i body s = Ok (Some x) s' ->
  exists j s1 s2, body j s1 = Ok (Some x) s2.
Proof.
  revert i s. induction n as [|n IH]; intros i s H; simpl in H; [by minv H|].
  apply bind_inv in H as (r & s1 & H1 & H2). destruct r as [y|].
  - injection H2 as -> ->. by eauto.
  - by eapply IH.
Qed.
