(* ===== verification/Config.v ===== *)
(** * Constants and pure helpers shared by the kernel and its components

    [kernel/include/shared/cos_config.h], [consts.h], [cos_errno.h] and
    [cos_types.h], with the page-table flags of [kernel/include/pgtbl.h].
    Enumerations whose values are stored in bit fields or compared with
    registers are numbers, as in the C code. *)

From S2P Require Import Prelude.

(** ** [cos_errno.h] *)
Definition EPERM : Z := 1.
Definition ENOENT : Z := 2.
Definition EAGAIN : Z := 11.
Definition ENOMEM : Z := 12.
Definition EFAULT : Z := 14.
Definition EBUSY : Z := 16.
Definition EEXIST : Z := 17.
Definition EINVAL : Z := 22.
Definition EOVERFLOW : Z := 75.
Definition EQUIESCENCE : Z := 256.
Definition ECASFAIL : Z := 257.

(** ** [consts.h], [cos_config.h] *)
Definition PAGE_SIZE : Z := 4096.
Definition NUM_CPU : Z := 16.
Definition NUM_CPU_COS : Z := if NUM_CPU >? 1 then NUM_CPU - 1 else 1.
Definition MAX_NUM_THREADS : Z := NUM_CPU + 10 + 200 * (NUM_CPU - 6).
Definition COS_MEM_KERN_PA : Z := 1048576.
Definition COS_MEM_KERN_PA_SZ : Z := 2 ^ 29 - 2 ^ 26.
Definition COS_MEM_KERN_START_VA : Z := 3221225472.
Definition COS_MEM_START : Z := COS_MEM_KERN_PA.
Definition COS_MAX_MEMORY : Z := COS_MEM_KERN_PA_SZ / PAGE_SIZE.
Definition COS_MEM_BOUND : Z := COS_MEM_KERN_PA + COS_MAX_MEMORY * PAGE_SIZE.
Definition COS_KERNEL_MEMORY : Z := COS_MEM_KERN_PA_SZ / PAGE_SIZE.
Definition RETYPE_MEM_NPAGES : Z := 1.
Definition RETYPE_MEM_SIZE : Z := RETYPE_MEM_NPAGES * PAGE_SIZE.
Definition KERN_QUIESCENCE_CYCLES : Z := 500 * 4000.

(** [round_to_pow2] and [round_up_to_pow2]: [p] is a power of two. *)
Definition round_to_pow2 (x p : Z) : Z := Z.land (u32 x) (u32 (Z.lnot (p - 1))).
Definition round_up_to_pow2 (x p : Z) : Z := round_to_pow2 (u32 (x + p - 1)) p.

(** ** Capability types and sizes, [cos_types.h] *)
Definition CAP_FREE : Z := 0.
Definition CAP_SINV : Z := 1.
Definition CAP_SRET : Z := 2.
Definition CAP_ASND : Z := 3.
Definition CAP_ARCV : Z := 4.
Definition CAP_THD : Z := 5.
Definition CAP_COMP : Z := 6.
Definition CAP_CAPTBL : Z := 7.
Definition CAP_PGTBL : Z := 8.
Definition CAP_FRAME : Z := 9.
Definition CAP_VM : Z := 10.
Definition CAP_QUIESCENCE : Z := 11.
Definition CAP_TCAP : Z := 12.
Definition CAP_HW : Z := 13.

Definition CAP_SZ_16B : Z := 0.
Definition CAP_SZ_32B : Z := 1.
Definition CAP_SZ_64B : Z := 2.
Definition CAP_SZ_ERR : Z := 3.
Definition CAP_SZ_OFF : Z := 4.
Definition CAP_MASK_16B : Z := 15.
Definition CAP_MASK_32B : Z := 5.
Definition CAP_MASK_64B : Z := 1.

Definition __captbl_cap2sz (c : Z) : Z :=
  if (c =? CAP_SRET) || (c =? CAP_THD) || (c =? CAP_TCAP) then CAP_SZ_16B
  else if (c =? CAP_CAPTBL) || (c =? CAP_PGTBL) || (c =? CAP_HW) then CAP_SZ_32B
  else if (c =? CAP_SINV) || (c =? CAP_COMP) || (c =? CAP_ASND) || (c =? CAP_ARCV)
  then CAP_SZ_64B
  else CAP_SZ_ERR.

Definition captbl_idsize (c : Z) : Z := Z.shiftl 1 (__captbl_cap2sz c).
Definition __captbl_cap2bytes (c : Z) : Z := Z.shiftl 1 (__captbl_cap2sz c + CAP_SZ_OFF).

(** [QUIESCENCE_CHECK]: a difference of two [u64_t] time stamps. *)
Definition QUIESCENCE_CHECK (curr past period : Z) : bool := u64 (curr - past) >? period.

(** ** Temporal-capability time, [cos_types.h] *)
Definition TCAP_TIME_QUANTUM_ORD : Z := 12.
Definition TCAP_TIME_MAX_ORD : Z := TCAP_TIME_QUANTUM_ORD + 32.
Definition TCAP_TIME_NIL : Z := 0.
Definition TCAP_RES_INF : Z := 4294967295.
Definition TCAP_RES_MAX : Z := TCAP_RES_INF - 1.
Definition TCAP_RES_IS_INF (r : Z) : bool := r =? TCAP_RES_INF.
Definition TCAP_TIME_MAX_BITS (c : Z) : Z :=
  Z.shiftl (Z.shiftr c TCAP_TIME_MAX_ORD) TCAP_TIME_MAX_ORD.
Definition tcap_time2cyc (c curr : Z) : Z :=
  Z.lor (u64 (Z.shiftl c TCAP_TIME_QUANTUM_ORD)) (TCAP_TIME_MAX_BITS curr).
Definition tcap_cyc2time (c : Z) : Z :=
  let t := u32 (Z.shiftr c TCAP_TIME_QUANTUM_ORD) in
  if t =? TCAP_TIME_NIL then 1 else t.
Definition cycles_same (a b diff_thresh : Z) : bool :=
  (if b <? a then a - b else b - a) <=? diff_thresh.
Definition tcap_time_lessthan (a b : Z) : bool := a <? b.

Definition RCV_NON_BLOCKING : Z := 1.
Definition RCV_ALL_PENDING : Z := 2.
Definition ARCV_NOTIF_DEPTH : Z := 8.

(** ** Page-table flags, [pgtbl.h] *)
Definition PGTBL_PRESENT : Z := 1.
Definition PGTBL_WRITABLE : Z := 2.
Definition PGTBL_USER : Z := 4.
Definition PGTBL_ACCESSED : Z := 32.
Definition PGTBL_MODIFIED : Z := 64.
Definition PGTBL_COSFRAME : Z := 512.
Definition PGTBL_COSKMEM : Z := 1024.
Definition PGTBL_QUIESCENCE : Z := 2048.
Definition PGTBL_USER_DEF : Z := 103.
Definition PGTBL_INTERN_DEF : Z := PGTBL_USER_DEF.
Definition PGTBL_PAGEIDX_SHIFT : Z := 12.
Definition PGTBL_FLAG_MASK : Z := 4095.
Definition PGTBL_FRAME_MASK : Z := 4294963200.
Definition PGTBL_DEPTH : Z := 2.
Definition PGTBL_ORD : Z := 10.

(** ** Lemmas *)

(** [CT_MSK], [round_to_pow2]: clearing the low bits subtracts the remainder. *)
Lemma land_mask_sub v o :
  0 <= v < 4294967296 -> 0 <= o <= 32 ->
  Z.land v (u32 (Z.lnot (2 ^ o - 1))) = v - v mod 2 ^ o.
Proof.
  intros Hv Ho.
  assert (Hm : u32 (Z.lnot (2 ^ o - 1)) = Z.land (Z.lnot (Z.ones o)) (Z.ones 32)).
  { unfold u32. rewrite Z.land_ones by lia. rewrite Z.ones_equiv.
    replace (Z.pred (2 ^ o)) with (2 ^ o - 1) by lia. reflexivity. }
  rewrite Hm, (Z.land_comm _ (Z.ones 32)), Z.land_assoc, Z.land_ones by lia.
  rewrite Z.mod_small by lia.
  rewrite <- Z.ldiff_land, Z.ldiff_ones_r by lia.
  rewrite Z.shiftl_mul_pow2, Z.shiftr_div_pow2 by lia.
  pose proof (Z.div_mod v (2 ^ o)) as Hd.
  assert (2 ^ o <> 0) by (apply Z.pow_nonzero; lia). lia.
Qed.

Lemma round_to_pow2_spec x o :
  0 <= x < 4294967296 -> 0 <= o <= 32 -> round_to_pow2 x (2 ^ o) = x - x mod 2 ^ o.
Proof.
  intros Hx Ho. unfold round_to_pow2, u32 at 1. rewrite Z.mod_small by lia.
  by apply land_mask_sub.
Qed.
