(* ===== verification/Machine.v ===== *)
(** * The kernel's state and its primitive operations

    Kernel memory that the code addresses through casts and pointer masks
    (capability tables, page tables, capability bodies, list nodes) is a map
    from 4-byte-aligned addresses to 32-bit words: struct fields are offsets,
    and compare-and-swap acts on the word.  The other kernel objects are
    records: threads and temporal capabilities by their kernel address, the
    liveness, retype and TLB tables by index, and the data of the current
    core.  Readings of the time-stamp counter come from the sequence [ktsc]. *)

From S2P Require Import Prelude Config.

(** ** Data *)

(** [struct liveness_entry], [struct liveness_data] (liveness_tbl.h) *)
Record liveness_entry := LEnt { epoch : Z; deact_timestamp : Z }.
Record liveness_data := LData { ld_epoch : Z; ld_id : Z }.

(** [struct retype_entry] (retype_tbl.h): [rt_v] is [refcnt_atom.v] *)
Record retype_entry := REnt { rt_v : Z; last_unmap : Z }.

(** [struct tlb_quiescence] (pgtbl.h) *)
Record tlb_quiescence := TlbQ { last_periodic_flush : Z; last_mandatory_flush : Z }.

(** [struct comp_info] (component.h) *)
Record comp_info :=
  CInfo { liveness : liveness_data; ci_pgtbl : Z; ci_captbl : Z; comp_nfo : Z }.

(** [struct pt_regs] (consts.h) *)
Record pt_regs := Regs {
  r_bx : Z; r_cx : Z; r_dx : Z; r_si : Z; r_di : Z; r_bp : Z; r_ax : Z;
  r_ds : Z; r_es : Z; r_fs : Z; r_gs : Z; r_orig_ax : Z;
  r_ip : Z; r_cs : Z; r_flags : Z; r_sp : Z; r_ss : Z }.

(** [struct invstk_entry] (thd.h) *)
Record invstk_entry := InvEnt { ie_ci : comp_info; ie_sp : Z; ie_ip : Z }.

(** [struct rcvcap_info] (thd.h) *)
Record rcvcap_info := RcvInfo {
  isbound : Z; pending : Z; rc_refcnt : Z; is_all_pending : Z;
  sched_count : Z; rcvcap_tcap : Z; rcvcap_thd_notif : Z }.

(** [struct thread] (thd.h), less the list nodes [event_head] and
    [event_list], which are words of memory at the thread's address, and less
    [fault_regs] and [fpu], which no kernel code uses *)
Record thread := Thd {
  tid : Z; invstk_top : Z; regs : pt_regs; invstk : list invstk_entry;
  state : Z; tls : Z; thd_cpuid : Z; thd_refcnt : Z; exec : Z; timeout : Z;
  interrupted_thread : Z; scheduler_thread : Z; rcvcap : rcvcap_info }.

(** [struct tcap_sched_info], [struct tcap] (tcap.h), less [active_list] *)
Record tcap_sched_info := SInfo { tcap_uid : Z; prio : Z }.
Record tcap := Tcap {
  arcv_ep : Z; tc_refcnt : Z; cycles : Z; ndelegs : Z; curr_sched_off : Z;
  tc_cpuid : Z; perm_prio : Z; delegations : list tcap_sched_info }.

(** [struct next_thdinfo], [struct cos_cpu_local_info] (cpuid.h) *)
Record next_thdinfo := NextTi { nt_thd : Z; nt_tc : Z; nt_prio : Z; nt_budget : Z }.
Record cos_cpu_local_info := Cli {
  cpuid : Z; curr_thd : Z; curr_tcap : Z; cli_tcaps : Z; cli_tcap_uid : Z;
  cli_cycles : Z; next_timer : Z; cli_invstk_top : Z; next_ti : next_thdinfo }.

(** Registers of the processor that kernel code writes: [cr3], the TLS
    segment base, and the one-shot timer ([None] when disabled). *)
Record hwregs := HwRegs { cr3 : Z; tls_base : Z; oneshot : option Z }.

(** [struct ipi_cap_data], [struct xcore_ring] (ipi_cap.h) *)
Record ipi_cap_data := IpiData { ipi_capid : Z; ipi_epoch : Z; ipi_ci : comp_info }.
Record xcore_ring := XRing { sender : Z; receiver : Z; ring : list ipi_cap_data }.

(** The rings by destination and source core, where each core starts its
    scan, the address of the array [hw_asnd_caps] (hw.h), and the calibrated
    number of cycles in a microsecond that [chal_cyc_usec] returns (hpet.c). *)
Record kextra := KX {
  IPI_source : gmap (Z * Z) xcore_ring; ipi_start : gmap Z Z; hw_asnd_caps : Z;
  cyc_usec : Z }.

Record kstate := KState {
  kmem : gmap Z Z;
  ktsc : nat -> Z;
  kticks : nat;
  kltbl : gmap Z liveness_entry;
  kretype : gmap (Z * Z) retype_entry;
  kglb : gmap Z Z;
  ktlbq : gmap Z tlb_quiescence;
  kkmem_pa : Z;
  kthd : gmap Z thread;
  ktcap : gmap Z tcap;
  kcli : cos_cpu_local_info;
  kregs : pt_regs;
  khw : hwregs;
  kcyc_thresh : Z;
  kx : kextra }.

Abbreviation K := (M kstate).

(** ** Updates of one part of the state *)

Definition with_mem (m : gmap Z Z) (s : kstate) : kstate :=
  KState m (ktsc s) (kticks s) (kltbl s) (kretype s) (kglb s) (ktlbq s) (kkmem_pa s)
    (kthd s) (ktcap s) (kcli s) (kregs s) (khw s) (kcyc_thresh s) (kx s).
Definition with_ticks (n : nat) (s : kstate) : kstate :=
  KState (kmem s) (ktsc s) n (kltbl s) (kretype s) (kglb s) (ktlbq s) (kkmem_pa s)
    (kthd s) (ktcap s) (kcli s) (kregs s) (khw s) (kcyc_thresh s) (kx s).
Definition with_ltbl (l : gmap Z liveness_entry) (s : kstate) : kstate :=
  KState (kmem s) (ktsc s) (kticks s) l (kretype s) (kglb s) (ktlbq s) (kkmem_pa s)
    (kthd s) (ktcap s) (kcli s) (kregs s) (khw s) (kcyc_thresh s) (kx s).
Definition with_retype (r : gmap (Z * Z) retype_entry) (s : kstate) : kstate :=
  KState (kmem s) (ktsc s) (kticks s) (kltbl s) r (kglb s) (ktlbq s) (kkmem_pa s)
    (kthd s) (ktcap s) (kcli s) (kregs s) (khw s) (kcyc_thresh s) (kx s).
Definition with_glb (g : gmap Z Z) (s : kstate) : kstate :=
  KState (kmem s) (ktsc s) (kticks s) (kltbl s) (kretype s) g (ktlbq s) (kkmem_pa s)
    (kthd s) (ktcap s) (kcli s) (kregs s) (khw s) (kcyc_thresh s) (kx s).
Definition with_tlbq (q : gmap Z tlb_quiescence) (s : kstate) : kstate :=
  KState (kmem s) (ktsc s) (kticks s) (kltbl s) (kretype s) (kglb s) q (kkmem_pa s)
    (kthd s) (ktcap s) (kcli s) (kregs s) (khw s) (kcyc_thresh s) (kx s).
Definition with_thd (t : gmap Z thread) (s : kstate) : kstate :=
  KState (kmem s) (ktsc s) (kticks s) (kltbl s) (kretype s) (kglb s) (ktlbq s) (kkmem_pa s)
    t (ktcap s) (kcli s) (kregs s) (khw s) (kcyc_thresh s) (kx s).
Definition with_tcap (t : gmap Z tcap) (s : kstate) : kstate :=
  KState (kmem s) (ktsc s) (kticks s) (kltbl s) (kretype s) (kglb s) (ktlbq s) (kkmem_pa s)
    (kthd s) t (kcli s) (kregs s) (khw s) (kcyc_thresh s) (kx s).
Definition with_cli (c : cos_cpu_local_info) (s : kstate) : kstate :=
  KState (kmem s) (ktsc s) (kticks s) (kltbl s) (kretype s) (kglb s) (ktlbq s) (kkmem_pa s)
    (kthd s) (ktcap s) c (kregs s) (khw s) (kcyc_thresh s) (kx s).
Definition with_regs (r : pt_regs) (s : kstate) : kstate :=
  KState (kmem s) (ktsc s) (kticks s) (kltbl s) (kretype s) (kglb s) (ktlbq s) (kkmem_pa s)
    (kthd s) (ktcap s) (kcli s) r (khw s) (kcyc_thresh s) (kx s).
Definition with_hw (h : hwregs) (s : kstate) : kstate :=
  KState (kmem s) (ktsc s) (kticks s) (kltbl s) (kretype s) (kglb s) (ktlbq s) (kkmem_pa s)
    (kthd s) (ktcap s) (kcli s) (kregs s) h (kcyc_thresh s) (kx s).

Definition with_kx (x : kextra) (s : kstate) : kstate :=
  KState (kmem s) (ktsc s) (kticks s) (kltbl s) (kretype s) (kglb s) (ktlbq s) (kkmem_pa s)
    (kthd s) (ktcap s) (kcli s) (kregs s) (khw s) (kcyc_thresh s) x.

(** ** Memory *)

(** Memory that was never written reads as zero. *)
Definition word (s : kstate) (a : Z) : Z := u32 (default 0 (kmem s !! a)).
Definition put (a v : Z) (s : kstate) : kstate := with_mem (<[a := u32 v]> (kmem s)) s.

(** The first page is not mapped. *)
Definition mapped (a : Z) : bool := PAGE_SIZE <=? a.

Definition load (a : Z) : K Z :=
  fun s => if mapped a then Ok (word s a) s else Panic NullDeref.
Definition store (a v : Z) : K unit :=
  fun s => if mapped a then Ok tt (put a v s) else Panic NullDeref.

(** [cos_cas]: 1 when the word held [old], and then it holds [updated]. *)
Definition CAS_SUCCESS : Z := 1.
Definition cos_cas (target old updated : Z) : K Z :=
  v <- load target ;;
  if v =? u32 old then store target updated ;; ret 1 else ret 0.

(** [cos_faa]: the value before the addition. *)
Definition cos_faa (var value : Z) : K Z :=
  v <- load var ;; store var (v + value) ;; ret (i32 v).

(** Little-endian 64-bit fields. *)
Definition load64 (a : Z) : K Z :=
  lo <- load a ;; hi <- load (a + 4) ;; ret (lo + 4294967296 * hi).
Definition store64 (a v : Z) : K unit :=
  store a v ;; store (a + 4) (u64 v / 4294967296).

(** [rdtscll] and [tsc] *)
Definition rdtscll : K Z :=
  t <- gets (fun s => u64 (ktsc s (kticks s))) ;;
  modify (fun s => with_ticks (S (kticks s)) s) ;; ret t.

Definition get_cpuid : K Z := gets (fun s => cpuid (kcli s)).

(** [chal_pa2va], [chal_va2pa] (platform/i386/chal.c) *)
Definition chal_pa2va (address : Z) : Z := u32 (address + COS_MEM_KERN_START_VA).
Definition chal_va2pa (address : Z) : Z := u32 (address - COS_MEM_KERN_START_VA).

(** ** Threads, temporal capabilities and the data of the core

    An object is read and written as a whole record; memory in which none was
    made yet reads as zeroes. *)

Definition regs0 : pt_regs := Regs 0 0 0 0 0 0 0 0 0 0 0 0 0 0 0 0 0.
Definition comp_info0 : comp_info := CInfo (LData 0 0) 0 0 0.
Definition rcvcap0 : rcvcap_info := RcvInfo 0 0 0 0 0 0 0.
Definition thread0 : thread :=
  Thd 0 0 regs0 (replicate 32 (InvEnt comp_info0 0 0)) 0 0 0 0 0 0 0 0 rcvcap0.
Definition tcap0 : tcap := Tcap 0 0 0 0 0 0 0 (replicate 16 (SInfo 0 0)).

Definition thd_at (s : kstate) (t : Z) : thread := default thread0 (kthd s !! t).
Definition tcap_at (s : kstate) (t : Z) : tcap := default tcap0 (ktcap s !! t).
Definition thd_put (t : Z) (v : thread) (s : kstate) : kstate := with_thd (<[t := v]> (kthd s)) s.
Definition tcap_put (t : Z) (v : tcap) (s : kstate) : kstate := with_tcap (<[t := v]> (ktcap s)) s.

Definition get_thd (t : Z) : K thread :=
  if mapped t then gets (fun s => thd_at s t) else panic NullDeref.
Definition set_thd (t : Z) (v : thread) : K unit :=
  if mapped t then modify (thd_put t v) else panic NullDeref.
Definition get_tcap (t : Z) : K tcap :=
  if mapped t then gets (fun s => tcap_at s t) else panic NullDeref.
Definition set_tcap (t : Z) (v : tcap) : K unit :=
  if mapped t then modify (tcap_put t v) else panic NullDeref.

(** [cos_cpu_local_info()] *)
Definition get_cli : K cos_cpu_local_info := gets kcli.
Definition set_cli (c : cos_cpu_local_info) : K unit := modify (with_cli c).

(** ** Laws of memory *)

Lemma word_put_eq a v s : word (put a v s) a = u32 v.
Proof. unfold word, put. simpl. rewrite lookup_insert_eq. simpl. apply u32_u32. Qed.

Lemma word_put_ne a b v s : a <> b -> word (put a v s) b = word s b.
Proof. intros ?. unfold word, put. simpl. by rewrite lookup_insert_ne. Qed.

Lemma word_u32 s a : is_u32 (word s a).
Proof. apply u32_range. Qed.

Lemma load_Ok a s : PAGE_SIZE <= a -> load a s = Ok (word s a) s.
Proof. intros. unfold load, mapped. by rewrite (proj2 (Z.leb_le _ _)). Qed.

Lemma store_Ok a v s : PAGE_SIZE <= a -> store a v s = Ok tt (put a v s).
Proof. intros. unfold store, mapped. by rewrite (proj2 (Z.leb_le _ _)). Qed.

Lemma load_inv a s v s' : load a s = Ok v s' -> PAGE_SIZE <= a /\ v = word s a /\ s' = s.
Proof.
  unfold load, mapped. destruct (Z.leb_spec PAGE_SIZE a); [|discriminate].
  by intros [= -> ->].
Qed.

Lemma store_inv a v s u s' : store a v s = Ok u s' -> PAGE_SIZE <= a /\ s' = put a v s.
Proof.
  unfold store, mapped. destruct (Z.leb_spec PAGE_SIZE a); [|discriminate].
  by intros [= _ ->].
Qed.

Lemma cas_success a o n s :
  PAGE_SIZE <= a -> word s a = u32 o -> cos_cas a o n s = Ok 1 (put a n s).
Proof.
  intros Ha Hw. unfold cos_cas. rewrite (bind_Ok _ _ _ _ _ (load_Ok a s Ha)).
  rewrite Hw, Z.eqb_refl. by rewrite (bind_Ok _ _ _ _ _ (store_Ok a n s Ha)).
Qed.

Lemma cas_inv a o n s r s' :
  cos_cas a o n s = Ok r s' ->
  PAGE_SIZE <= a /\ ((r = 1 /\ word s a = u32 o /\ s' = put a n s) \/
                     (r = 0 /\ word s a <> u32 o /\ s' = s)).
Proof.
  unfold cos_cas. intros H. apply bind_inv in H as (v & s1 & H1 & H2).
  apply load_inv in H1 as (Ha & -> & ->). split; [done|].
  destruct (Z.eqb_spec (word s a) (u32 o)).
  - apply bind_inv in H2 as (u & s2 & H2 & H3). apply store_inv in H2 as [_ ->].
    unfold ret in H3. left. by simplify_eq.
  - unfold ret in H2. right. by simplify_eq.
Qed.

Lemma rdtscll_Ok s :
  rdtscll s = Ok (u64 (ktsc s (kticks s))) (with_ticks (S (kticks s)) s).
Proof. reflexivity. Qed.

#[export] Instance load_ro a : ReadOnly (load a).
Proof. intros s v s' H. by apply load_inv in H as (_ & _ & ->). Qed.

#[export] Instance load64_ro a : ReadOnly (load64 a).
Proof. unfold load64. apply _. Qed.

#[export] Instance get_cpuid_ro : ReadOnly get_cpuid.
Proof. unfold get_cpuid. apply _. Qed.

(** ** What an operation may change *)

(** Everything but memory is the same, and memory is the same outside [P]. *)
Definition mem_frame (P : Z -> Prop) (s s' : kstate) : Prop :=
  (forall a, ~ P a -> word s' a = word s a) /\
  s' = with_mem (kmem s') s.

(** Only the clock advanced. *)
Definition clock_only (s s' : kstate) : Prop :=
  exists n, s' = with_ticks n s /\ (kticks s <= n)%nat.

Lemma with_mem_id s : with_mem (kmem s) s = s.
Proof. by destruct s. Qed.

Lemma with_ticks_id s : with_ticks (kticks s) s = s.
Proof. by destruct s. Qed.

Lemma mem_frame_refl P s : mem_frame P s s.
Proof. split; [done|]. by rewrite with_mem_id. Qed.

#[export] Instance clock_only_preorder : PreOrder clock_only.
Proof.
  split.
  - intros s. exists (kticks s). by rewrite with_ticks_id.
  - intros s1 s2 s3 (n & -> & Hn) (m & -> & Hm). exists m. simpl in *.
    split; [done|lia].
Qed.

#[export] Instance rdtscll_clock : Respects clock_only rdtscll.
Proof.
  intros s a s' H. rewrite rdtscll_Ok in H. simplify_eq.
  exists (S (kticks s)). split; [done|lia].
Qed.

Lemma clock_only_word s s' a : clock_only s s' -> word s' a = word s a.
Proof. by intros (n & -> & _). Qed.

#[export] Hint Resolve load_Ok store_Ok cas_success : kexec.
Create Rewrite HintDb kmem.
#[export] Hint Rewrite word_put_eq : kmem.
#[export] Hint Rewrite word_put_ne using (first [assumption | congruence | lia]) : kmem.

(** [kstep] runs the next load or store, whose address is in range by [lia]. *)
Ltac kside := unfold PAGE_SIZE in *; lia.
Ltac kstep :=
  lazymatch goal with
  | |- context [bind (load ?a) ?k ?s] =>
      rewrite (bind_Ok (load a) k s (word s a) s (load_Ok a s ltac:(kside)))
  | |- context [bind (store ?a ?v) ?k ?s] =>
      rewrite (bind_Ok (store a v) k s tt (put a v s) (store_Ok a v s ltac:(kside)))
  | |- context [load ?a ?s] => rewrite (load_Ok a s ltac:(kside))
  | |- context [store ?a ?v ?s] => rewrite (store_Ok a v s ltac:(kside))
  end; cbv beta.

(** ** Loops that fill a range *)

(** The state after storing [v j] at [f j] for each [j] of a range. *)
Lemma for_store_range n i (f v : Z -> Z) s :
  (forall j, i <= j < i + Z.of_nat n -> PAGE_SIZE <= f j) ->
  (forall j k, i <= j < i + Z.of_nat n -> i <= k < i + Z.of_nat n -> f j = f k -> j = k) ->
  exists m, for_n n i (fun j => store (f j) (v j)) s = Ok tt (with_mem m s) /\
    (forall j, i <= j < i + Z.of_nat n -> word (with_mem m s) (f j) = u32 (v j)) /\
    (forall a, (forall j, i <= j < i + Z.of_nat n -> a <> f j) ->
       word (with_mem m s) a = word s a).
Proof.
  revert i s. induction n as [|n IH]; intros i s Hm Hinj.
  - exists (kmem s). rewrite with_mem_id. split_and!; [done|lia|done].
  - simpl. rewrite (bind_Ok _ _ _ _ _ (store_Ok (f i) (v i) s (Hm i ltac:(lia)))).
    destruct (IH (i + 1) (put (f i) (v i) s)) as (m & -> & Hin & Hout);
      [intros; apply Hm; lia|intros; apply Hinj; [lia..|done]|].
    change (with_mem m (put (f i) (v i) s)) with (with_mem m s) in *.
    exists m. split_and!; [done| |].
    + intros j Hj. destruct (decide (j = i)) as [->|Hne]; [|apply Hin; lia].
      rewrite Hout, word_put_eq; [done|]. intros k Hk E. apply Hinj in E; lia.
    + intros a Ha. rewrite Hout, word_put_ne; [done| |].
      * intros E. by apply (Ha i); [lia|].
      * intros j Hj. apply Ha. lia.
Qed.

(** ** Concrete states, for examples *)

Definition cli0 : cos_cpu_local_info := Cli 0 0 0 0 1 0 0 0 (NextTi 0 0 0 0).

(** A machine with empty tables and memory, whose clock ticks by one million. *)
Definition kstate0 : kstate :=
  KState ∅ (fun n => 1000000 * Z.of_nat n) 1 ∅ ∅ ∅ ∅ 0 ∅ ∅ cli0 regs0 (HwRegs 0 0 None) 0
    (KX ∅ ∅ 2097152 2000).

Definition run_state {A} (d : kstate) (o : outcome kstate A) : kstate :=
  match o with Ok _ s => s | Panic _ => d end.

Lemma run_ok {A} d (o : outcome kstate A) (x : A) :
  match o with Ok a _ => a = x | Panic _ => False end -> o = Ok x (run_state d o).
Proof. destruct o; simpl; [by intros ->|done]. Qed.
