(* ===== verification/Ertrie.v ===== *)
(** * Embedded radix tries ([kernel/include/ertrie.h])

    The trie code is generic: [ERT_CREATE] instantiates it with constants and
    customization functions.  Here the constants and functions are the record
    [ert]; capability tables, page tables and the liveness table are its
    instances.  [struct ert_intern *] points to a word of memory or to the
    local variable from which a walk starts ([intern_ref]). *)

From S2P Require Import Prelude Config Machine.

Inductive intern_ref : Type :=
| RLocal (v : Z)   (** [struct ert_intern r] on the stack, [r.next = v] *)
| RMem (a : Z).    (** an entry of a node, at address [a] *)

(** [n->next] *)
Definition next (n : intern_ref) : K Z :=
  match n with RLocal v => ret v | RMem a => load a end.

(** The address of [n], when it outlives the walk. *)
Definition ref_addr (n : intern_ref) : K Z :=
  match n with RLocal _ => panic BadLocal | RMem a => ret a end.

(** [ERT_CONST_PARAMS].  The accumulator is passed and returned; so is the
    memory context of the allocation function, and the entry a set function
    writes when it is a local. *)
Record ert := Ert {
  depth : Z; order : Z; intern_sz : Z; last_order : Z; last_sz : Z; initval : Z;
  initfn : Z -> bool -> K unit;
  getfn : intern_ref -> Z -> bool -> K (Z * Z);
  isnullfn : intern_ref -> bool -> K bool;
  setfn : intern_ref -> Z -> bool -> K (Z * intern_ref);
  allocfn : Z -> Z -> bool -> K (Z * Z);
  setleaffn : Z -> Z -> K Z;
  getleaffn : intern_ref -> Z -> K (Z * Z);
  resolvefn : intern_ref -> bool -> Z -> Z -> K bool }.

(** ** The default customization functions *)

Definition ert_defget (a : intern_ref) (accum : Z) (leaf : bool) : K (Z * Z) :=
  v <- next a ;; ret (v, accum).
Definition ert_defgetleaf (a : intern_ref) (accum : Z) : K (Z * Z) :=
  v <- next a ;; ret (v, accum).
Definition ert_defisnull (a : intern_ref) (leaf : bool) : K bool :=
  v <- next a ;; ret (v =? 0).
Definition ert_defresolve (a : intern_ref) (leaf : bool) (order sz : Z) : K bool := ret true.
Definition ert_defset (a : intern_ref) (v : Z) (leaf : bool) : K (Z * intern_ref) :=
  match a with
  | RLocal _ => ret (0, RLocal v)
  | RMem p => store p v ;; ret (0, a)
  end.
Definition ert_defsetleaf (a v : Z) : K Z := store a v ;; ret 0.
Definition ert_definit (a : Z) (leaf : bool) : K unit := store a 0.

(** ** The trie operations *)

Definition __ert_maxid (e : ert) : Z :=
  let off := u32 (order e * (depth e - 1) + last_order e) in
  let maxoff := 32 in
  if off >? maxoff then u32 (Z.shiftl 1 maxoff) else u32 (Z.shiftl 1 off).

Definition __ert_init (e : ert) (vi : Z) (isleaf : bool) : K unit :=
  massert (negb (vi =? 0)) ;;
  let base := if isleaf then Z.shiftl 1 (last_order e) else Z.shiftl 1 (order e) in
  let sz := if isleaf then last_sz e else intern_sz e in
  for_n (Z.to_nat base) 0 (fun i => initfn e (u32 (vi + sz * i)) isleaf).

Definition ert_alloc (e : ert) (memctxt : Z) : K (Z * Z) :=
  massert (order e * (depth e - 1) + last_order e <? 32) ;;
  massert (1 <=? depth e) ;;
  let! (v, memctxt) :=
    (if depth e >? 1 then allocfn e memctxt (Z.shiftl 1 (order e) * intern_sz e) false
     else allocfn e memctxt (Z.shiftl 1 (last_order e) * last_sz e) true) in
  if v =? 0 then ret (0, memctxt) else
  __ert_init e v (depth e =? 1) ;;
  let! (_, r) := setfn e (RLocal 0) v (depth e =? 1) in
  nxt <- next r ;;
  ret (nxt, memctxt).

(** [ERT_M]: the low [o] bits of [id]. *)
Definition ERT_M (id o : Z) : Z := Z.land id (Z.shiftl 1 o - 1).

Definition __ert_walk (e : ert) (vi : intern_ref) (id accum lvl : Z) : K (intern_ref * Z) :=
  let! (vi, accum) := getfn e vi accum false in
  let last_off :=
    if lvl - 1 =? 0 then ERT_M id (last_order e) * last_sz e
    else ERT_M (Z.shiftr id (order e * (lvl - 2) + last_order e)) (order e) * intern_sz e in
  ret (RMem (u32 (vi + last_off)), accum).

(** The loop of [__ert_lookup]: [None] when an entry on the path is null. *)
Fixpoint ert_lookup_loop (e : ert) (fuel : nat) (i : Z) (n : intern_ref) (id accum : Z)
  : K (option intern_ref * Z) :=
  match fuel with
  | O => ret (Some n, accum)
  | S fuel =>
      null <- isnullfn e n false ;;
      if null : bool then ret (None, accum) else
      let! (n, accum) := __ert_walk e n id accum (depth e - i) in
      ert_lookup_loop e fuel (i + 1) n id accum
  end.

Definition __ert_lookup (e : ert) (v id dstart dlimit accum : Z) : K (Z * Z) :=
  massert (negb (v =? 0)) ;;
  massert (id <? __ert_maxid e) ;;
  massert (dlimit <=? depth e + 1) ;;
  massert (dstart <=? dlimit) ;;
  let limit := if dlimit <? depth e then dlimit else depth e in
  let! (r, accum) :=
    ert_lookup_loop e (Z.to_nat (limit - dstart)) dstart (RLocal v) id accum in
  match r with
  | None => ret (0, accum)
  | Some n =>
      let i := Z.max dstart limit in
      ok <- (if i =? depth e then resolvefn e n true (last_order e) (last_sz e)
             else if i <? depth e then resolvefn e n false (order e) (intern_sz e)
             else ret true) ;;
      if negb ok then ret (0, accum) else
      if dlimit =? depth e + 1 then getleaffn e n accum
      else a <- ref_addr n ;; ret (a, accum)
  end.

(** The loop of [__ert_expand]: [None] when the allocation failed, and
    otherwise the entry reached, with the accumulator and memory context. *)
Fixpoint ert_expand_loop (e : ert) (fuel : nat) (i : Z) (n : intern_ref)
    (id accum memctxt : Z) : K (option intern_ref * Z * Z) :=
  match fuel with
  | O => ret (Some n, accum, memctxt)
  | S fuel =>
      let! (n, accum) := __ert_walk e n id accum (depth e - i) in
      null <- isnullfn e n false ;;
      if negb null then ert_expand_loop e fuel (i + 1) n id accum memctxt else
      let! (new, memctxt) :=
        (if i + 2 <? depth e
         then allocfn e memctxt (Z.shiftl 1 (order e) * intern_sz e) false
         else allocfn e memctxt (Z.shiftl 1 (last_order e) * last_sz e) true) in
      if new =? 0 then ret (None, accum, memctxt) else
      __ert_init e new (negb (i + 2 <? depth e)) ;;
      setfn e n new false ;;
      ert_expand_loop e fuel (i + 1) n id accum memctxt
  end.

Definition __ert_expand (e : ert) (v id dstart dlimit accum memctxt data : Z) : K (Z * Z) :=
  massert (negb (v =? 0)) ;;
  massert (id <? __ert_maxid e) ;;
  massert (dlimit <=? depth e + 1) ;;
  massert (dstart <=? dlimit) ;;
  let limit := if dlimit <? depth e then dlimit else depth e in
  let last := u32 (limit - 1) in
  let! (r, accum, memctxt) :=
    ert_expand_loop e (Z.to_nat (last - dstart)) dstart (RLocal v) id accum memctxt in
  match r with
  | None => ret (-1, memctxt)
  | Some n =>
      if dlimit =? depth e + 1 then
        let! (n, accum) := __ert_walk e n id accum (depth e - Z.max dstart last) in
        null <- isnullfn e n false ;;
        if negb (data =? initval e) && negb null then ret (1, memctxt) else
        a <- ref_addr n ;;
        r <- setleaffn e a data ;;
        if negb (r =? 0) then ret (- ECASFAIL, memctxt) else ret (0, memctxt)
      else ret (0, memctxt)
  end.

(** ** Laws of the customization functions

    The theorems about tries hold for instances whose get and null functions
    read the entry and nothing else. *)

Class ErtLaws (e : ert) := {
  el_get : Z -> Z;
  el_acc : Z -> Z -> Z;
  el_null : Z -> bool;
  el_getfn : forall n acc leaf s,
    getfn e n acc leaf s = bind (next n) (fun v => ret (el_get v, el_acc acc v)) s;
  el_isnullfn : forall n leaf s,
    isnullfn e n leaf s = bind (next n) (fun v => ret (el_null v)) s;
  el_resolvefn : forall n leaf o sz s, resolvefn e n leaf o sz s = Ok true s }.

#[export] Instance next_ro n : ReadOnly (next n).
Proof. destruct n; simpl; apply _. Qed.

Lemma ert_m_mod id o : 0 <= o -> ERT_M id o = id mod 2 ^ o.
Proof.
  intros Ho. unfold ERT_M. rewrite Z.shiftl_1_l.
  replace (2 ^ o - 1) with (Z.ones o) by (rewrite Z.ones_equiv; lia).
  by apply Z.land_ones.
Qed.

Section Laws.
Context (e : ert) `{!ErtLaws e}.

Lemma ert_walk_local v id acc lvl s :
  __ert_walk e (RLocal v) id acc lvl s =
  Ok (RMem (u32 (el_get v +
    (if lvl - 1 =? 0 then ERT_M id (last_order e) * last_sz e
     else ERT_M (Z.shiftr id (order e * (lvl - 2) + last_order e)) (order e) * intern_sz e))),
    el_acc acc v) s.
Proof.
  unfold __ert_walk. erewrite (bind_Ok (getfn e _ _ _)); [|by rewrite el_getfn].
  reflexivity.
Qed.

Lemma ert_walk_mem a id acc lvl s :
  PAGE_SIZE <= a ->
  __ert_walk e (RMem a) id acc lvl s =
  Ok (RMem (u32 (el_get (word s a) +
    (if lvl - 1 =? 0 then ERT_M id (last_order e) * last_sz e
     else ERT_M (Z.shiftr id (order e * (lvl - 2) + last_order e)) (order e) * intern_sz e))),
    el_acc acc (word s a)) s.
Proof.
  intros Ha. unfold __ert_walk.
  rewrite (bind_Ok _ _ s (el_get (word s a), el_acc acc (word s a)) s); [reflexivity|].
  rewrite el_getfn. simpl. by rewrite (bind_Ok _ _ _ _ _ (load_Ok a s Ha)).
Qed.

#[export] Instance ert_walk_ro n id acc lvl : ReadOnly (__ert_walk e n id acc lvl).
Proof.
  intros s r s' H. unfold __ert_walk in H. apply bind_inv in H as ([] & s1 & H1 & H2).
  rewrite el_getfn in H1. minv H2. by ro H1.
Qed.

Lemma ert_lookup_loop_ro fuel i n id acc : ReadOnly (ert_lookup_loop e fuel i n id acc).
Proof.
  revert i n acc. induction fuel as [|fuel IH]; intros i n acc s r s' H; simpl in H.
  - by minv H.
  - apply bind_inv in H as (b & s1 & H1 & H2). rewrite el_isnullfn in H1.
    ro H1. destruct b; [by minv H2|].
    apply bind_inv in H2 as ([n' acc'] & s1 & H3 & H4).
    ro H3. by eapply IH.
Qed.

Lemma isnull_local v leaf s : isnullfn e (RLocal v) leaf s = Ok (el_null v) s.
Proof. by rewrite el_isnullfn. Qed.

Lemma isnull_mem a leaf s :
  PAGE_SIZE <= a -> isnullfn e (RMem a) leaf s = Ok (el_null (word s a)) s.
Proof.
  intros Ha. rewrite el_isnullfn. simpl. by rewrite (bind_Ok _ _ _ _ _ (load_Ok a s Ha)).
Qed.

(** *** Tries of depth two *)

(** The entry of the top node on the path to [id], and the slot of [id] in
    the leaf that entry leads to. *)
Definition ert_dir (v id : Z) : Z :=
  u32 (el_get v + (id / 2 ^ last_order e) mod 2 ^ order e * intern_sz e).
Definition ert_slot (leaf id : Z) : Z :=
  u32 (el_get leaf + id mod 2 ^ last_order e * last_sz e).

Context (Hdepth : depth e = 2) (Hord : 0 <= order e) (Hlord : 0 <= last_order e).

Lemma ert_walk_top v id acc s :
  __ert_walk e (RLocal v) id acc 2 s = Ok (RMem (ert_dir v id), el_acc acc v) s.
Proof.
  rewrite ert_walk_local. simpl. unfold ert_dir.
  rewrite !ert_m_mod by done. rewrite Z.shiftr_div_pow2 by lia.
  by replace (order e * (2 - 2) + last_order e) with (last_order e) by lia.
Qed.

Lemma ert_walk_leaf a id acc s :
  PAGE_SIZE <= a ->
  __ert_walk e (RMem a) id acc 1 s =
  Ok (RMem (ert_slot (word s a) id), el_acc acc (word s a)) s.
Proof.
  intros Ha. rewrite ert_walk_mem by done. simpl. unfold ert_slot.
  by rewrite !ert_m_mod by done.
Qed.

(** Lookup reaches exactly the slot that the digits of [id] select. *)
Lemma ert_lookup_two v id acc s :
  v <> 0 -> id < __ert_maxid e -> el_null v = false -> PAGE_SIZE <= ert_dir v id ->
  let leaf := word s (ert_dir v id) in
  __ert_lookup e v id 0 2 acc s =
  Ok (if el_null leaf then (0, el_acc acc v)
      else (ert_slot leaf id, el_acc (el_acc acc v) leaf)) s.
Proof.
  intros Hv Hid Hnull Hdir leaf. unfold __ert_lookup. rewrite Hdepth. mgo. simpl.
  rewrite !Hdepth. unfold bind. rewrite isnull_local, Hnull.
  change (2 - 0) with 2. rewrite ert_walk_top, isnull_mem by done. fold leaf.
  destruct (el_null leaf); [done|]. change (2 - (0 + 1)) with 1.
  rewrite ert_walk_leaf by done. unfold ret at 1. by rewrite el_resolvefn.
Qed.

(** A lookup that stops at the entry of the top node. *)
Lemma ert_lookup_dir v id acc s :
  v <> 0 -> id < __ert_maxid e -> el_null v = false ->
  __ert_lookup e v id 0 1 acc s = Ok (ert_dir v id, el_acc acc v) s.
Proof.
  intros Hv Hid Hnull. unfold __ert_lookup. rewrite Hdepth. mgo. simpl.
  rewrite !Hdepth. unfold bind. rewrite isnull_local, Hnull. change (2 - 0) with 2.
  rewrite ert_walk_top. unfold ret at 1. by rewrite el_resolvefn.
Qed.

(** The full lookup hands the slot to the leaf function. *)
Lemma ert_lookup_full v id acc s :
  v <> 0 -> id < __ert_maxid e -> el_null v = false -> PAGE_SIZE <= ert_dir v id ->
  let leaf := word s (ert_dir v id) in
  __ert_lookup e v id 0 3 acc s =
  if el_null leaf then Ok (0, el_acc acc v) s
  else getleaffn e (RMem (ert_slot leaf id)) (el_acc (el_acc acc v) leaf) s.
Proof.
  intros Hv Hid Hnull Hdir leaf. unfold __ert_lookup. rewrite Hdepth. mgo. simpl.
  rewrite !Hdepth. unfold bind. rewrite isnull_local, Hnull.
  change (2 - 0) with 2. rewrite ert_walk_top, isnull_mem by done. fold leaf.
  destruct (el_null leaf); [done|]. change (2 - (0 + 1)) with 1.
  rewrite ert_walk_leaf by done. unfold ret at 1. by rewrite el_resolvefn.
Qed.

(** A lookup of the leaf level alone, as [captbl_lkup_lvl(.., 1, 2)]. *)
Lemma ert_lookup_leaf v id acc s :
  v <> 0 -> id < __ert_maxid e -> el_null v = false ->
  __ert_lookup e v id 1 2 acc s = Ok (ert_slot v id, el_acc acc v) s.
Proof.
  intros Hv Hid Hnull. unfold __ert_lookup. rewrite Hdepth. mgo. simpl.
  rewrite !Hdepth. unfold bind. rewrite isnull_local, Hnull, ert_walk_local.
  unfold ret at 1. rewrite el_resolvefn. simpl. unfold ert_slot. by rewrite ert_m_mod.
Qed.

(** Expansion up to depth two of a path that is present changes nothing. *)
Lemma ert_expand_present v id acc mc data s :
  v <> 0 -> id < __ert_maxid e -> PAGE_SIZE <= ert_dir v id ->
  el_null (word s (ert_dir v id)) = false ->
  __ert_expand e v id 0 2 acc mc data s = Ok (0, mc) s.
Proof.
  intros Hv Hid Hdir Hnull. unfold __ert_expand. rewrite Hdepth. mgo. simpl.
  rewrite !Hdepth. change (2 - 0) with 2. unfold bind.
  rewrite ert_walk_top, isnull_mem, Hnull by done.
  done.
Qed.

(** Expansion of an absent path allocates, initializes and links one leaf. *)
Lemma ert_expand_absent v id acc mc data s new mc' s1 s2 r n :
  v <> 0 -> id < __ert_maxid e -> PAGE_SIZE <= ert_dir v id ->
  el_null (word s (ert_dir v id)) = true ->
  allocfn e mc (Z.shiftl 1 (last_order e) * last_sz e) true s = Ok (new, mc') s ->
  new <> 0 ->
  __ert_init e new true s = Ok tt s1 ->
  setfn e (RMem (ert_dir v id)) new false s1 = Ok (r, n) s2 ->
  __ert_expand e v id 0 2 acc mc data s = Ok (0, mc') s2.
Proof.
  intros Hv Hid Hdir Hnull Halloc Hnew Hinit Hset.
  unfold __ert_expand. rewrite Hdepth. mgo. simpl.
  rewrite !Hdepth. change (2 - 0) with 2. unfold bind.
  rewrite ert_walk_top, isnull_mem, Hnull by done.
  simpl. rewrite Halloc, (proj2 (Z.eqb_neq new 0)) by done. by rewrite Hinit, Hset.
Qed.

(** An absent path and no memory: expansion reports failure. *)
Lemma ert_expand_nomem v id acc mc data s mc' :
  v <> 0 -> id < __ert_maxid e -> PAGE_SIZE <= ert_dir v id ->
  el_null (word s (ert_dir v id)) = true ->
  allocfn e mc (Z.shiftl 1 (last_order e) * last_sz e) true s = Ok (0, mc') s ->
  __ert_expand e v id 0 2 acc mc data s = Ok (-1, mc') s.
Proof.
  intros Hv Hid Hdir Hnull Halloc. unfold __ert_expand. rewrite Hdepth. mgo. simpl.
  rewrite !Hdepth. change (2 - 0) with 2. unfold bind.
  rewrite ert_walk_top, isnull_mem, Hnull by done.
  simpl. by rewrite Halloc.
Qed.
End Laws.
