(* ===== verification/Liveness.v ===== *)
(** * The liveness table ([kernel/include/liveness_tbl.h], [kernel/liveness_tbl.c])

    A table of [LTBL_ENTS] epoch counters with the time of the last
    deactivation.  A capability that names a kernel object by its liveness
    data is valid while the epoch it recorded is the current one.  The table
    is a trie of depth one, so a lookup is an index into the array
    ([ltbl_lkup_entry], [ltbl_lkup_leaf]); the entries are [kltbl]. *)

From S2P Require Import Prelude Config Machine Ertrie.

Definition LTBL_ENT_ORDER : Z := 20.
Definition LTBL_ENTS : Z := Z.shiftl 1 LTBL_ENT_ORDER.

(** ** The trie instance *)

Definition __ltbl_allocfn (d sz : Z) (last_lvl : bool) : K (Z * Z) := panic AssertFail.
Definition __ltbl_isnull (a : intern_ref) (leaf : bool) : K bool := ret false.

(** The compare-and-swap is 32 bits wide: only the low half of the epoch. *)
Definition __ltbl_setleaf (a data : Z) : K Z :=
  old <- load64 a ;;
  let new := u64 (old + 1) in
  c <- cos_cas a (u32 old) (u32 new) ;;
  if c =? 0 then ret (- ECASFAIL) else ret 0.

(** The epoch is the first field of an entry: its address is [a] itself. *)
Definition __ltbl_getleaf (a : intern_ref) (accum : Z) : K (Z * Z) :=
  p <- ref_addr a ;; ret (p, accum).

Definition __ltbl : ert :=
  Ert 1 0 4 LTBL_ENT_ORDER 16 0 ert_definit ert_defget __ltbl_isnull ert_defset
    __ltbl_allocfn __ltbl_setleaf __ltbl_getleaf ert_defresolve.

(** ** The operations *)

Definition lent (s : kstate) (id : Z) : liveness_entry := default (LEnt 0 0) (kltbl s !! id).
Definition lput (id : Z) (e : liveness_entry) (s : kstate) : kstate :=
  with_ltbl (<[id := e]> (kltbl s)) s.

(** The entry of [id]: the lookup asserts that [id] is in range. *)
Definition ltbl_lkup (id : Z) : K liveness_entry :=
  massert (id <? LTBL_ENTS) ;; gets (fun s => lent s id).

(** [cos_cas] on the low word of the 64-bit epoch of entry [id]. *)
Definition ltbl_cas (id old new : Z) : K Z :=
  e <- ltbl_lkup id ;;
  if u32 (epoch e) =? old then
    modify (lput id (LEnt (epoch e - u32 (epoch e) + new) (deact_timestamp e))) ;; ret 1
  else ret 0.

Definition ltbl_isalive (ld : liveness_data) : K bool :=
  e <- ltbl_lkup (ld_id ld) ;;
  ret (epoch e =? ld_epoch ld).

Definition ltbl_expire (ld : liveness_data) : K Z :=
  ent <- ltbl_lkup (ld_id ld) ;;
  let old_v := epoch ent in
  t <- rdtscll ;;
  modify (lput (ld_id ld) (LEnt (epoch ent) t)) ;;
  c <- ltbl_cas (ld_id ld) (u32 old_v) (u32 (u64 (old_v + 1))) ;;
  if c =? 0 then ret (- ECASFAIL) else ret 0.

Definition ltbl_isfreeable (ld : liveness_data) (quiescence_period : Z) : K bool :=
  ent <- ltbl_lkup (ld_id ld) ;;
  ts <- rdtscll ;;
  ret (u64 (deact_timestamp ent + quiescence_period) <? ts).

(** The error, or the liveness data that [*ld] receives. *)
Definition ltbl_get (id : Z) : K (Z + liveness_data) :=
  if LTBL_ENTS <=? id then ret (inl (- EINVAL)) else
  e <- ltbl_lkup id ;;
  ret (inr (LData (epoch e) id)).

Definition ltbl_get_timestamp (id : Z) : K (Z + Z) :=
  if LTBL_ENTS <=? id then ret (inl (- EINVAL)) else
  ent <- ltbl_lkup id ;;
  ret (inr (deact_timestamp ent)).

Definition ltbl_timestamp_update (id : Z) : K Z :=
  if LTBL_ENTS <=? id then ret (- EINVAL) else
  ent <- ltbl_lkup id ;;
  t <- rdtscll ;;
  modify (lput id (LEnt (epoch ent) t)) ;;
  ret 0.

Definition ltbl_init : K unit :=
  for_n (Z.to_nat LTBL_ENTS) 0 (fun i => modify (lput i (LEnt 0 0))).

(** ** Lemmas *)

Lemma lent_lput_eq id e s : lent (lput id e s) id = e.
Proof. unfold lent, lput. simpl. by rewrite lookup_insert_eq. Qed.

Lemma lent_lput_ne id id' e s : id <> id' -> lent (lput id e s) id' = lent s id'.
Proof. intros. unfold lent, lput. simpl. by rewrite lookup_insert_ne. Qed.

Lemma lent_put a v s id : lent (put a v s) id = lent s id.
Proof. reflexivity. Qed.

#[export] Instance ltbl_lkup_ro id : ReadOnly (ltbl_lkup id).
Proof. unfold ltbl_lkup. apply _. Qed.

#[export] Instance ltbl_get_timestamp_ro id : ReadOnly (ltbl_get_timestamp id).
Proof. unfold ltbl_get_timestamp. apply _. Qed.

#[export] Instance ltbl_get_ro id : ReadOnly (ltbl_get id).
Proof. unfold ltbl_get. apply _. Qed.

#[export] Instance ltbl_isalive_ro ld : ReadOnly (ltbl_isalive ld).
Proof. unfold ltbl_isalive. apply _. Qed.

Lemma ltbl_lkup_Ok id s : id < LTBL_ENTS -> ltbl_lkup id s = Ok (lent s id) s.
Proof. intros H. unfold ltbl_lkup. mgo. reflexivity. Qed.

(** What [ltbl_timestamp_update] does to the table. *)
Lemma timestamp_update_Ok id s :
  id < LTBL_ENTS ->
  ltbl_timestamp_update id s =
  Ok 0 (lput id (LEnt (epoch (lent s id)) (u64 (ktsc s (kticks s))))
          (with_ticks (S (kticks s)) s)).
Proof.
  intros H. unfold ltbl_timestamp_update. rewrite (proj2 (Z.leb_gt _ _)) by lia.
  rewrite (bind_Ok _ _ _ _ _ (ltbl_lkup_Ok id s H)). reflexivity.
Qed.

(** The lookup function of the trie computes the address of array entry
    [id] when it stops at the entry ([maxdepth]) ... *)
Lemma ltbl_lkup_entry base id s :
  base <> 0 -> 0 <= id < LTBL_ENTS ->
  __ert_lookup __ltbl base id 0 1 0 s = Ok (u32 (base + 16 * id), 0) s.
Proof.
  intros Hb Hid. unfold __ert_lookup. change (__ert_maxid __ltbl) with LTBL_ENTS.
  unfold LTBL_ENTS in *. simpl in *. mgo. simpl.
  unfold __ert_walk. simpl. unfold bind, ret. simpl.
  rewrite ert_m_mod by (unfold LTBL_ENT_ORDER; lia).
  rewrite Z.mod_small by exact Hid. by rewrite Z.mul_comm.
Qed.

(** ... and at the leaf value ([maxdepth + 1]), the address of the epoch. *)
Lemma ltbl_lkup_leaf base id s :
  base <> 0 -> 0 <= id < LTBL_ENTS ->
  __ert_lookup __ltbl base id 0 2 0 s = Ok (u32 (base + 16 * id), 0) s.
Proof.
  intros Hb Hid. unfold __ert_lookup. change (__ert_maxid __ltbl) with LTBL_ENTS.
  unfold LTBL_ENTS in *. simpl in *. mgo. simpl.
  unfold __ert_walk. simpl. unfold bind, ret. simpl.
  rewrite ert_m_mod by (unfold LTBL_ENT_ORDER; lia).
  rewrite Z.mod_small by exact Hid. by rewrite Z.mul_comm.
Qed.

Lemma ltbl_expire_Ok ld s :
  ld_id ld < LTBL_ENTS ->
  let e := lent s (ld_id ld) in
  ltbl_expire ld s =
  Ok 0 (lput (ld_id ld)
          (LEnt (epoch e - u32 (epoch e) + u32 (u64 (epoch e + 1)))
             (u64 (ktsc s (kticks s))))
          (lput (ld_id ld) (LEnt (epoch e) (u64 (ktsc s (kticks s))))
             (with_ticks (S (kticks s)) s))).
Proof.
  intros Hid e. unfold ltbl_expire, ltbl_cas, bind. rewrite ltbl_lkup_Ok by done.
  rewrite rdtscll_Ok. unfold modify. rewrite ltbl_lkup_Ok by done.
  rewrite lent_lput_eq. simpl. by rewrite Z.eqb_refl.
Qed.

(** ** Expiry *)

(** Adding one to the low half of an epoch changes it. *)
Lemma epoch_bump_ne x : x - u32 x + u32 (u64 (x + 1)) <> x.
Proof. unfold u32, u64. Z.div_mod_to_equations. lia. Qed.

(** While the low half does not wrap, the bump is the increment by one. *)
Lemma epoch_bump_succ x :
  0 <= x < 18446744073709551615 -> u32 x <> 4294967295 ->
  x - u32 x + u32 (u64 (x + 1)) = x + 1.
Proof. unfold u32, u64. intros. Z.div_mod_to_equations. lia. Qed.

(** After a successful expiry the liveness data is not alive, the data that
    [ltbl_get] then returns is, and every other object is as alive as before;
    the entry has the time of the call. *)
Theorem ltbl_expire_kills ld s s' :
  ltbl_expire ld s = Ok 0 s' -> ld_epoch ld = epoch (lent s (ld_id ld)) ->
  ltbl_isalive ld s' = Ok false s' /\
  deact_timestamp (lent s' (ld_id ld)) = u64 (ktsc s (kticks s)) /\
  (exists ld', ltbl_get (ld_id ld) s' = Ok (inr ld') s' /\ ltbl_isalive ld' s' = Ok true s') /\
  (forall ld', ld_id ld' <> ld_id ld -> ld_id ld' < LTBL_ENTS ->
     exists b, ltbl_isalive ld' s = Ok b s /\ ltbl_isalive ld' s' = Ok b s').
Proof.
  intros H Hep. destruct (Z.lt_ge_cases (ld_id ld) LTBL_ENTS) as [Hid|Hid].
  2: { unfold ltbl_expire, ltbl_lkup in H. rewrite (proj2 (Z.ltb_ge _ _)) in H by lia.
       discriminate. }
  rewrite ltbl_expire_Ok in H by done. injection H as <-.
  unfold ltbl_isalive, ltbl_get, bind. rewrite !ltbl_lkup_Ok by done.
  rewrite (proj2 (Z.leb_gt _ _)) by lia. rewrite !lent_lput_eq. simpl. rewrite Hep.
  split_and!.
  - unfold ret. f_equal. apply Z.eqb_neq, epoch_bump_ne.
  - done.
  - eexists. rewrite ltbl_lkup_Ok by done. split; [reflexivity|]. simpl.
    rewrite ltbl_lkup_Ok by done. rewrite lent_lput_eq. simpl. by rewrite Z.eqb_refl.
  - intros ld' Hne Hid'. eexists. rewrite !ltbl_lkup_Ok by done. split; [done|].
    by rewrite !lent_lput_ne by done.
Qed.

Lemma ltbl_expire_kills_witness :
  ltbl_isalive (LData 0 5) (run_state kstate0 (ltbl_expire (LData 0 5) kstate0)) =
  Ok false (run_state kstate0 (ltbl_expire (LData 0 5) kstate0)).
Proof.
  apply (ltbl_expire_kills (LData 0 5) kstate0); [|done]. apply run_ok. by vm_compute.
Defined.

(** An object is freeable exactly when the period has passed since its
    entry was last stamped. *)
Lemma ltbl_isfreeable_spec ld q s :
  ld_id ld < LTBL_ENTS ->
  ltbl_isfreeable ld q s =
  Ok (u64 (deact_timestamp (lent s (ld_id ld)) + q) <? u64 (ktsc s (kticks s)))
     (with_ticks (S (kticks s)) s).
Proof.
  intros Hid. unfold ltbl_isfreeable, bind. by rewrite ltbl_lkup_Ok.
Qed.

(** The epoch of an entry whose low half is all ones goes back by 2^32 - 1:
    the carry is lost, because the compare-and-swap is one word wide. *)
Theorem ltbl_expire_carry_lost ld s :
  ld_id ld < LTBL_ENTS -> u32 (epoch (lent s (ld_id ld))) = 4294967295 ->
  exists s', ltbl_expire ld s = Ok 0 s' /\
    epoch (lent s' (ld_id ld)) = epoch (lent s (ld_id ld)) - 4294967295.
Proof.
  intros Hid Hlow. eexists. split; [by apply ltbl_expire_Ok|].
  rewrite lent_lput_eq. simpl. revert Hlow. unfold u32, u64. intros.
  Z.div_mod_to_equations. lia.
Qed.

Lemma ltbl_expire_carry_lost_witness :
  let s := lput 5 (LEnt 4294967295 0) kstate0 in
  exists s', ltbl_expire (LData 0 5) s = Ok 0 s' /\ epoch (lent s' 5) = 0.
Proof.
  apply (ltbl_expire_carry_lost (LData 0 5) (lput 5 (LEnt 4294967295 0) kstate0)); done.
Defined.
