(* ===== verification/Captbl.v ===== *)
(** * Capability tables ([kernel/include/captbl.h])

    A capability table is a trie of depth two whose leaves are arrays of
    16-byte slots.  Four slots share a cache line; the header at the start of
    the line records the size of all capabilities of the line and, in [amap],
    which slots hold one.  A capability is the word-level structure that
    starts with a [cap_header]; the bodies of the capability types follow. *)

From S2P Require Import Prelude Config Machine Ertrie Liveness.

Definition CACHELINE_SIZE : Z := 64.
Definition CACHELINE_ORDER : Z := 6.
Definition CAPTBL_DEPTH : Z := 2.
Definition CAPTBL_INTERNSZ : Z := 4.
Definition CAPTBL_INTERN_ORD : Z := 9.
Definition CAPTBL_LEAFSZ : Z := 16.
Definition CAPTBL_LEAF_ORD : Z := 7.

Definition CAP_FLAG_RO : Z := 1.
Definition CAP_HEAD_AMAP_SZ : Z := 4.
Definition CAP_MEM_REFCNT_SZ : Z := 30.
Definition CAP_REFCNT_MAX : Z := Z.shiftl 1 CAP_MEM_REFCNT_SZ - 1.
Definition CAP_MEM_FROZEN_FLAG : Z := Z.shiftl 1 CAP_MEM_REFCNT_SZ.
Definition CAP_MEM_SCAN_FLAG : Z := Z.shiftl 1 (CAP_MEM_REFCNT_SZ + 1).

(** ** [struct cap_header], one packed word *)
Record cap_header := Hdr {
  h_liveness_id : Z; h_amap : Z; h_size : Z; h_flags : Z; h_type : Z }.

Definition hdr_of (w : Z) : cap_header :=
  Hdr (bits w 0 16) (bits w 16 4) (bits w 20 2) (bits w 22 3) (bits w 25 7).
Definition word_of (l : cap_header) : Z :=
  h_liveness_id l + 65536 * h_amap l + 1048576 * h_size l + 4194304 * h_flags l
  + 33554432 * h_type l.

(** Assignments to bit fields keep the low bits. *)
Definition set_liveness_id (v : Z) (l : cap_header) : cap_header :=
  Hdr (u16 v) (h_amap l) (h_size l) (h_flags l) (h_type l).
Definition set_amap (v : Z) (l : cap_header) : cap_header :=
  Hdr (h_liveness_id l) (v mod 16) (h_size l) (h_flags l) (h_type l).
Definition set_size (v : Z) (l : cap_header) : cap_header :=
  Hdr (h_liveness_id l) (h_amap l) (v mod 4) (h_flags l) (h_type l).
Definition set_type (v : Z) (l : cap_header) : cap_header :=
  Hdr (h_liveness_id l) (h_amap l) (h_size l) (h_flags l) (v mod 128).

(** The header at [p], and the update of some of its fields in place *)
Definition load_hdr (p : Z) : K cap_header := w <- load p ;; ret (hdr_of w).
Definition store_hdr (p : Z) (l : cap_header) : K unit := store p (word_of l).

(** [struct cap_captbl] and [struct cap_pgtbl]: offsets of the fields *)
Definition CC_REFCNT : Z := 4.
Definition CC_TBL : Z := 8.
Definition CC_LVL : Z := 12.
Definition CC_PARENT : Z := 16.
Definition CC_FROZEN_TS : Z := 20.

(** ** Customization functions *)

Definition __captbl_allocfn (mem sz : Z) (last_lvl : bool) : K (Z * Z) :=
  massert (sz <=? PAGE_SIZE / 2) ;; ret (mem, 0).

Definition CT_MSK (v o : Z) : Z := Z.land v (u32 (Z.lnot (Z.shiftl 1 o - 1))).

Definition __captbl_init (a : Z) (leaf : bool) : K unit :=
  if leaf then ret tt else store a 0.

Definition captbl_init (node : Z) (leaf : bool) : K unit :=
  if negb leaf then
    for_n (Z.to_nat (Z.shiftl 1 CAPTBL_INTERN_ORD)) 0
      (fun i => store (node + i * CAPTBL_INTERNSZ) 0)
  else
    for_n (Z.to_nat (Z.shiftl 1 CAPTBL_LEAF_ORD)) 0
      (fun i => store_hdr (node + i * CAPTBL_LEAFSZ) (Hdr 0 0 CAP_SZ_64B 0 CAP_FREE)).

(** Shift counts are taken modulo 32, as the shift instruction does. *)
Definition __captbl_getleaf (a : intern_ref) (accum : Z) : K (Z * Z) :=
  a <- ref_addr a ;;
  let h := CT_MSK a CACHELINE_ORDER in
  l <- load_hdr h ;;
  let sz := __captbl_cap2sz CAP_SINV in
  let c := CT_MSK a (sz + CAP_SZ_OFF) in
  let off := u32 ((c - h) / CAPTBL_LEAFSZ) in
  if (h_size l =? sz) && negb (Z.land (h_amap l) (Z.shiftl 1 (off mod 32)) =? 0)
  then ret (c, accum) else
  let c := CT_MSK a (h_size l + CAP_SZ_OFF) in
  let off := u32 ((c - h) / CAPTBL_LEAFSZ) in
  let mask := Z.shiftr (Z.land (h_amap l) (Z.shiftl 1 (off mod 32))) (off mod 32) in
  let mask := u32 (mask - 1) in
  ret (Z.land c (u32 (Z.lnot mask)), accum).

Definition __captbl_setleaf (a v : Z) : K Z := panic AssertFail.

Definition __captbl_get (a : intern_ref) (accum : Z) (leaf : bool) : K (Z * Z) :=
  v <- next a ;; ret (v, accum).

Definition __captbl : ert :=
  Ert CAPTBL_DEPTH CAPTBL_INTERN_ORD CAPTBL_INTERNSZ CAPTBL_LEAF_ORD CAPTBL_LEAFSZ 0
    __captbl_init __captbl_get ert_defisnull ert_defset __captbl_allocfn __captbl_setleaf
    __captbl_getleaf ert_defresolve.

Definition __captbl_maxid : Z := __ert_maxid __captbl.
Definition captbl_maxdepth : Z := depth __captbl.

(** [__captbl_lkupani], [__captbl_lkupan], [__captbl_expandn] *)
Definition __captbl_lkupani (t cap dstart dlimit : Z) : K Z :=
  let! (p, _) := __ert_lookup __captbl t cap dstart dlimit 0 in ret p.
Definition __captbl_lkupan (t cap dlimit : Z) : K Z := __captbl_lkupani t cap 0 dlimit.
Definition __captbl_expandn (t cap dlimit memctxt : Z) : K (Z * Z) :=
  __ert_expand __captbl t cap 0 dlimit 0 memctxt 0.

Definition captbl_alloc (page : Z) : K Z :=
  let! (t, _) := ert_alloc __captbl page in ret t.

(** ** Operations *)

Definition __captbl_header_validate (h : cap_header) (sz : Z) : Z :=
  let mask := if sz =? CAP_SZ_16B then CAP_MASK_16B
              else if sz =? CAP_SZ_32B then CAP_MASK_32B
              else if sz =? CAP_SZ_64B then CAP_MASK_64B else 0 in
  if negb (sz =? h_size h) then 1 else Z.land (h_amap h) (Z.lnot mask).

Definition captbl_lkup_lvl (t cap start_lvl end_lvl : Z) : K Z :=
  __captbl_lkupani t (Z.land cap (__captbl_maxid - 1)) start_lvl end_lvl.

Definition captbl_lkup (t cap : Z) : K Z := captbl_lkup_lvl t cap 0 (CAPTBL_DEPTH + 1).

Definition __captbl_store (addr new old : Z) : K Z :=
  c <- cos_cas addr old new ;; if c =? 0 then ret (-1) else ret 0.

(** The quiescence check of one entry: the error, if any. *)
Definition captbl_quiescent (l : cap_header) (curr_ts : Z) : K (option Z) :=
  r <- ltbl_get_timestamp (h_liveness_id l) ;;
  match r with
  | inl _ => ret (Some (- EFAULT))
  | inr past_ts =>
      if negb (QUIESCENCE_CHECK curr_ts past_ts KERN_QUIESCENCE_CYCLES)
      then ret (Some (- EQUIESCENCE)) else ret None
  end.

Definition hdr_deactivated (l : cap_header) : bool :=
  negb (h_liveness_id l =? 0) && (h_type l =? CAP_QUIESCENCE).

(** The quiescence check of [captbl_add]: the whole line when it is to be
    resized, or the single entry. *)
Definition captbl_add_check (p h : Z) (l : cap_header) (sz : Z) : K (option Z) :=
  if (h_type l =? CAP_QUIESCENCE) && negb (h_size l =? sz) then
    massert (negb (h_size l =? 0)) ;;
    let ent_size := Z.shiftl 1 (h_size l + CAP_SZ_OFF) in
    curr_ts <- rdtscll ;;
    let n_ent := CACHELINE_SIZE / ent_size in
    for_ret (Z.to_nat n_ent) 0 (fun i =>
      let header_i := h + i * ent_size in
      massert (header_i <? h + CACHELINE_SIZE) ;;
      hi <- load_hdr header_i ;;
      if hdr_deactivated hi then captbl_quiescent hi curr_ts else ret None)
  else
    hp <- load_hdr p ;;
    if hdr_deactivated hp then
      curr_ts <- rdtscll ;;
      captbl_quiescent hp curr_ts
    else ret None.

(** The end of [captbl_add]: resize, validate and commit the line header
    [l], which was read as the word [o], then set the entry. *)
Definition captbl_add_commit (p h o : Z) (l : cap_header) (sz type : Z) : K (Z * Z) :=
  let l := if negb (h_size l =? sz) then set_size sz l else l in
  if negb (__captbl_header_validate l sz =? 0) then ret (0, - EINVAL) else
  let l := if p =? h then set_liveness_id 0 (set_type type l) else l in
  c <- __captbl_store h (word_of l) o ;;
  if negb (c =? 0) then ret (0, - EEXIST) else
  (if negb (p =? h) then
     hp <- load_hdr p ;; store_hdr p (set_liveness_id 0 (set_type type hp))
   else ret tt) ;;
  ret (p, 0).

(** The slot, or 0 with the error in [*retval]. *)
Definition captbl_add (t cap type : Z) : K (Z * Z) :=
  let sz := __captbl_cap2sz type in
  if sz =? CAP_SZ_ERR then ret (0, - EINVAL) else
  if __captbl_maxid <=? cap then ret (0, - EINVAL) else
  p <- __captbl_lkupan t cap CAPTBL_DEPTH ;;
  if p =? 0 then ret (0, - EPERM) else
  let h := CT_MSK p CACHELINE_ORDER in
  o <- load h ;;
  let l := hdr_of o in
  if negb (Z.land (h_flags l) CAP_FLAG_RO =? 0) then ret (0, - EPERM) else
  let off := (p - h) / CAPTBL_LEAFSZ in
  massert ((0 <=? off) && (off <? CAP_HEAD_AMAP_SZ)) ;;
  if negb (Z.land (h_amap l) (Z.shiftl 1 off) =? 0) then ret (0, - EEXIST) else
  if negb (h_amap l =? 0) && negb (h_size l =? sz) then ret (0, - EEXIST) else
  let l := set_amap (Z.lor (h_amap l) (Z.shiftl 1 off)) l in
  err <- captbl_add_check p h l sz ;;
  match err with
  | Some e => ret (0, e)
  | None => captbl_add_commit p h o l sz type
  end.

(** The part that [captbl_del] and [captbl_clear] share: find the slot and
    check it.  The error, or the slot [p], its line [h] and the line's word. *)
Definition captbl_find (t cap type : Z) : K (Z + Z * Z * Z) :=
  if __captbl_maxid <=? cap then ret (inl (- EINVAL)) else
  p <- __captbl_lkupan t cap CAPTBL_DEPTH ;;
  if p =? 0 then ret (inl (- EPERM)) else
  let! (c, _) := __captbl_getleaf (RMem p) 0 in
  if negb (p =? c) then ret (inl (- EINVAL)) else
  hp <- load_hdr p ;;
  if negb (h_type hp =? type) then ret (inl (- EINVAL)) else
  let h := CT_MSK p CACHELINE_ORDER in
  let off := (p - h) / CAPTBL_LEAFSZ in
  massert ((0 <=? off) && (off <? CAP_HEAD_AMAP_SZ)) ;;
  o <- load h ;;
  let l := hdr_of o in
  if negb (Z.land (h_flags l) CAP_FLAG_RO =? 0) then ret (inl (- EPERM)) else
  if Z.land (h_amap l) (Z.shiftl 1 off) =? 0 then ret (inl (- ENOENT)) else
  ret (inr (p, h, o)).

(** The rest of both: mark the slot with [lid] and [newtype], and commit the
    allocation map without it. *)
Definition captbl_release (p h o lid newtype : Z) : K Z :=
  let l := hdr_of o in
  let off := (p - h) / CAPTBL_LEAFSZ in
  (if h =? p then ret tt
   else hp <- load_hdr p ;; store_hdr p (set_type newtype (set_liveness_id lid hp))) ;;
  let l := if h =? p then set_type newtype (set_liveness_id lid l) else l in
  let l := set_amap (Z.land (h_amap l)
             (Z.land (Z.lnot (Z.shiftl 1 off)) (Z.shiftl 1 CAP_HEAD_AMAP_SZ - 1))) l in
  let l := if h_amap l =? 0 then set_type newtype l else l in
  c <- __captbl_store h (word_of l) o ;;
  if negb (c =? 0) then ret (- EEXIST) else ret 0.

Definition captbl_del (t cap type lid : Z) : K Z :=
  r <- captbl_find t cap type ;;
  match r with
  | inl e => ret e
  | inr (p, h, o) =>
      e <- ltbl_timestamp_update lid ;;
      if negb (e =? 0) then ret e else
      captbl_release p h o lid CAP_QUIESCENCE
  end.

Definition captbl_clear (t cap type lid : Z) : K Z :=
  r <- captbl_find t cap type ;;
  match r with
  | inl e => ret e
  | inr (p, h, o) => captbl_release p h o lid CAP_FREE
  end.

Definition captbl_expand (t cap depth memctxt : Z) : K Z :=
  if (__captbl_maxid <=? cap) || (captbl_maxdepth <? depth) then ret (- EINVAL) else
  let! (r, memctxt) := __captbl_expandn t cap depth memctxt in
  if negb (memctxt =? 0) then ret (- EEXIST) else
  if negb (r =? 0) then ret 1 else ret 0.

(** The pruned entry, with the error in [*retval]. *)
Definition captbl_prune (t cap depth : Z) : K (Z * Z) :=
  if (__captbl_maxid <=? cap) || (captbl_maxdepth <=? depth) then ret (0, - EINVAL) else
  intern <- __captbl_lkupan t cap depth ;;
  if intern =? 0 then ret (0, - EPERM) else
  p <- load intern ;;
  c <- __captbl_store intern 0 p ;;
  if negb (c =? 0) then ret (0, - EEXIST) else
  ret (p, 0).

Definition captbl_create (page : Z) : K Z :=
  massert (negb (page =? 0)) ;;
  ct <- captbl_alloc page ;;
  massert (negb (ct =? 0)) ;;
  captbl_init page false ;;
  captbl_init (page + PAGE_SIZE / 2) true ;;
  r <- captbl_expand ct 0 captbl_maxdepth (page + PAGE_SIZE / 2) ;;
  massert (r =? 0) ;;
  ret ct.

(** ** Reference definitions

    Where the digits of a capability id lead, and which capability of a line
    a slot belongs to, without pointer masks. *)

(** Capability bytes are a power of two: slot [off] of a line belongs to the
    capability that starts at the slot below, rounded to the size. *)
Definition cap_of_line (l : cap_header) (h off : Z) : Z :=
  let c := off - off mod 2 ^ h_size l in
  if Z.testbit (h_amap l) c then h + 16 * c else 0.

Definition captbl_leaf (s : kstate) (t cap : Z) : Z := word s (t + 4 * (cap / 128)).
Definition captbl_pos (s : kstate) (t cap : Z) : option Z :=
  let leaf := captbl_leaf s t cap in
  if leaf =? 0 then None else Some (leaf + 16 * (cap mod 128)).
Definition line_of (p : Z) : Z := p - p mod 64.
Definition slot_of (p : Z) : Z := p mod 64 / 16.
Definition line_hdr (s : kstate) (p : Z) : cap_header := hdr_of (word s (line_of p)).
Definition cap_at (s : kstate) (p : Z) : Z := cap_of_line (line_hdr s p) (line_of p) (slot_of p).
Definition captbl_ref_lkup (s : kstate) (t cap : Z) : Z :=
  match captbl_pos s t cap with None => 0 | Some p => cap_at s p end.

(** *** Well-formed tables *)

Definition cap_mask (sz : Z) : Z :=
  if sz =? CAP_SZ_16B then CAP_MASK_16B
  else if sz =? CAP_SZ_32B then CAP_MASK_32B else CAP_MASK_64B.

(** A line has a proper size, and only slots where a capability of that size
    can start are allocated. *)
Definition line_ok (l : cap_header) : bool :=
  (h_size l <=? 2) && (Z.land (h_amap l) (Z.lnot (cap_mask (h_size l))) =? 0).

(** Nodes are half pages in mapped memory. *)
Definition node_ok (a : Z) : Prop := a mod 2048 = 0 /\ PAGE_SIZE <= a < 4294967296.

Definition leaf_ok (s : kstate) (a : Z) : Prop :=
  node_ok a /\ forall i, 0 <= i < 32 -> line_ok (hdr_of (word s (a + 64 * i))) = true.

Definition captbl_wf (s : kstate) (t : Z) : Prop :=
  node_ok t /\ forall i, 0 <= i < 512 ->
    word s (t + 4 * i) = 0 \/ (word s (t + 4 * i) <> t /\ leaf_ok s (word s (t + 4 * i))).

(** ** The header codec *)

Definition hdr_ok (l : cap_header) : Prop :=
  0 <= h_liveness_id l < 65536 /\ 0 <= h_amap l < 16 /\ 0 <= h_size l < 4 /\
  0 <= h_flags l < 8 /\ 0 <= h_type l < 128.

Lemma hdr_of_ok w : hdr_ok (hdr_of w).
Proof. unfold hdr_ok, hdr_of; simpl. repeat split; apply bits_range; lia. Qed.

Lemma word_of_u32 l : hdr_ok l -> u32 (word_of l) = word_of l.
Proof. unfold hdr_ok, word_of. intros. apply u32_small. unfold is_u32. lia. Qed.

Lemma hdr_of_word_of l : hdr_ok l -> hdr_of (word_of l) = l.
Proof.
  destruct l as [a b c d e]. unfold hdr_ok, hdr_of, word_of, bits; simpl.
  intros (Ha & Hb & Hc & Hd & He).
  change (2 ^ 0) with 1; change (2 ^ 16) with 65536; change (2 ^ 20) with 1048576;
  change (2 ^ 22) with 4194304; change (2 ^ 25) with 33554432;
  change (2 ^ 4) with 16; change (2 ^ 2) with 4; change (2 ^ 3) with 8;
  change (2 ^ 7) with 128.
  f_equal; Z.div_mod_to_equations; lia.
Qed.

Lemma word_of_hdr_of w : is_u32 w -> word_of (hdr_of w) = w.
Proof.
  unfold is_u32, hdr_of, word_of, bits; simpl.
  change (2 ^ 0) with 1; change (2 ^ 16) with 65536; change (2 ^ 20) with 1048576;
  change (2 ^ 22) with 4194304; change (2 ^ 25) with 33554432;
  change (2 ^ 4) with 16; change (2 ^ 2) with 4; change (2 ^ 3) with 8;
  change (2 ^ 7) with 128.
  intros. Z.div_mod_to_equations. lia.
Qed.

Lemma set_ok_liveness v l : hdr_ok l -> hdr_ok (set_liveness_id v l).
Proof. unfold hdr_ok; simpl. intros. pose proof (Z.mod_pos_bound v 65536). unfold u16. lia. Qed.
Lemma set_ok_type v l : hdr_ok l -> hdr_ok (set_type v l).
Proof. unfold hdr_ok; simpl. intros. pose proof (Z.mod_pos_bound v 128). lia. Qed.
Lemma set_ok_amap v l : hdr_ok l -> hdr_ok (set_amap v l).
Proof. unfold hdr_ok; simpl. intros. pose proof (Z.mod_pos_bound v 16). lia. Qed.
Lemma set_ok_size v l : hdr_ok l -> hdr_ok (set_size v l).
Proof. unfold hdr_ok; simpl. intros. pose proof (Z.mod_pos_bound v 4). lia. Qed.

Create HintDb hdr.
#[export] Hint Resolve hdr_of_ok set_ok_liveness set_ok_type set_ok_amap set_ok_size : hdr.

Lemma load_hdr_Ok p s : PAGE_SIZE <= p -> load_hdr p s = Ok (hdr_of (word s p)) s.
Proof. intros. unfold load_hdr. by rewrite (bind_Ok _ _ _ _ _ (load_Ok p s H)). Qed.

Lemma store_hdr_Ok p l s : PAGE_SIZE <= p -> store_hdr p l s = Ok tt (put p (word_of l) s).
Proof. apply store_Ok. Qed.

Lemma hdr_put_eq p l s : hdr_ok l -> hdr_of (word (put p (word_of l) s) p) = l.
Proof. intros. rewrite word_put_eq, word_of_u32, hdr_of_word_of; done. Qed.

#[export] Instance load_hdr_ro p : ReadOnly (load_hdr p).
Proof. unfold load_hdr. apply _. Qed.

(** ** Geometry of lines and slots *)

Lemma CT_MSK_sub v o : is_u32 v -> 0 <= o <= 32 -> CT_MSK v o = v - v mod 2 ^ o.
Proof. intros. unfold CT_MSK. rewrite Z.shiftl_1_l. by apply land_mask_sub. Qed.

(** A slot address in mapped memory. *)
Definition slot_ok (p : Z) : Prop := PAGE_SIZE <= p < 4294967296 /\ p mod 16 = 0.

Lemma slot_line p : slot_ok p ->
  p = line_of p + 16 * slot_of p /\ 0 <= slot_of p < 4 /\
  PAGE_SIZE <= line_of p < 4294967296 /\ line_of p mod 64 = 0 /\ slot_of (line_of p) = 0 /\
  line_of (line_of p) = line_of p.
Proof.
  unfold slot_ok, line_of, slot_of, PAGE_SIZE. intros [H1 H2].
  Z.div_mod_to_equations. lia.
Qed.

Lemma slot_mask p sz : slot_ok p -> 0 <= sz <= 2 ->
  CT_MSK p (sz + CAP_SZ_OFF) = line_of p + 16 * (slot_of p - slot_of p mod 2 ^ sz).
Proof.
  unfold slot_ok, CAP_SZ_OFF, PAGE_SIZE. intros [H1 H2] Hsz.
  rewrite CT_MSK_sub by (unfold is_u32; lia).
  assert (sz = 0 \/ sz = 1 \/ sz = 2) as [->|[->| ->]] by lia;
    unfold line_of, slot_of; simpl; change (Z.pow_pos 2 4) with 16;
    change (Z.pow_pos 2 5) with 32; change (Z.pow_pos 2 6) with 64;
    change (Z.pow_pos 2 1) with 2; change (Z.pow_pos 2 2) with 4;
    Z.div_mod_to_equations; lia.
Qed.

Lemma slot_cacheline p : slot_ok p -> CT_MSK p CACHELINE_ORDER = line_of p.
Proof.
  intros [H1 H2]. unfold CACHELINE_ORDER. unfold PAGE_SIZE in *.
  by rewrite CT_MSK_sub by (unfold is_u32; lia).
Qed.

Lemma slot_offset p : slot_ok p -> (p - line_of p) / CAPTBL_LEAFSZ = slot_of p.
Proof.
  unfold slot_ok, line_of, slot_of, CAPTBL_LEAFSZ. intros [H1 H2].
  Z.div_mod_to_equations. lia.
Qed.

Lemma amap_bit (a off : Z) : 0 <= off ->
  Z.land a (Z.shiftl 1 off) = if Z.testbit a off then 2 ^ off else 0.
Proof.
  intros Ho. rewrite Z.shiftl_1_l. apply Z.bits_inj'. intros n Hn.
  rewrite Z.land_spec, Z.pow2_bits_eqb by done.
  destruct (Z.eqb_spec off n) as [<-|Hne].
  - rewrite andb_true_r. destruct (Z.testbit a off); [by rewrite Z.pow2_bits_true|by rewrite Z.bits_0].
  - rewrite andb_false_r. destruct (Z.testbit a off);
      [by rewrite Z.pow2_bits_false|by rewrite Z.bits_0].
Qed.

Lemma amap_bit_eqb (a off : Z) : 0 <= off ->
  (Z.land a (Z.shiftl 1 off) =? 0) = negb (Z.testbit a off).
Proof.
  intros Ho. rewrite amap_bit by done. pose proof (Z.pow_pos_nonneg 2 off).
  destruct (Z.testbit a off); simpl; [apply Z.eqb_neq; lia|done].
Qed.

(** The branch-free selection: [c] or [NULL]. *)
Lemma mask_select (b : bool) c : is_u32 c ->
  Z.land c (u32 (Z.lnot (u32 (b2z b - 1)))) = if b then c else 0.
Proof.
  intros Hc. destruct b; cbn [b2z].
  - change (u32 (Z.lnot (u32 (1 - 1)))) with (Z.ones 32). rewrite Z.land_ones by lia.
    by apply Z.mod_small.
  - change (u32 (Z.lnot (u32 (0 - 1)))) with 0. apply Z.land_0_r.
Qed.

(** [__captbl_getleaf], fast path and branch-free path, is [cap_at]. *)
Lemma getleaf_cap_at p acc s :
  slot_ok p -> h_size (line_hdr s p) <= 2 ->
  __captbl_getleaf (RMem p) acc s = Ok (cap_at s p, acc) s.
Proof.
  intros Hp Hsz. pose proof (slot_line p Hp) as (Hpl & Hso & Hl & _).
  assert (0 <= h_size (line_hdr s p)) as Hsz0 by apply hdr_of_ok.
  unfold __captbl_getleaf, ref_addr. rewrite (bind_Ok (ret p) _ _ _ _ eq_refl).
  cbv beta zeta. rewrite slot_cacheline by done.
  rewrite (bind_Ok _ _ _ _ _ (load_hdr_Ok _ s (proj1 Hl))). fold (line_hdr s p).
  set (l := line_hdr s p) in *.
  change (__captbl_cap2sz CAP_SINV) with 2. rewrite !slot_mask by lia || done.
  set (k := slot_of p - slot_of p mod 2 ^ h_size l).
  assert (0 <= k <= slot_of p) as Hk.
  { unfold k. pose proof (Z.mod_pos_bound (slot_of p) (2 ^ h_size l)).
    pose proof (Z.mod_le (slot_of p) (2 ^ h_size l)).
    pose proof (Z.pow_pos_nonneg 2 (h_size l)). lia. }
  assert (forall j, 0 <= j < 4 ->
    u32 ((line_of p + 16 * j - line_of p) / CAPTBL_LEAFSZ) mod 32 = j) as Hoff.
  { intros j Hj. unfold CAPTBL_LEAFSZ, u32.
    replace (line_of p + 16 * j - line_of p) with (j * 16) by lia.
    rewrite Z.div_mul by lia. rewrite !Z.mod_small by (rewrite ?Z.mod_small; lia). done. }
  assert (slot_of p - slot_of p mod 2 ^ 2 = 0) as H0.
  { change (2 ^ 2) with 4. rewrite Z.mod_small by lia. lia. }
  rewrite H0, !Hoff by lia. rewrite amap_bit_eqb, negb_involutive by lia.
  unfold cap_at, cap_of_line. fold l k.
  destruct (Z.eqb_spec (h_size l) 2) as [E|E]; cbn [andb].
  - assert (k = 0) as Hk0 by (unfold k; rewrite E; exact H0).
    rewrite !Hk0. destruct (Z.testbit (h_amap l) 0) eqn:Eb; [done|].
    rewrite amap_bit by lia. rewrite Eb. unfold ret. do 2 f_equal.
    apply (mask_select false). unfold is_u32, PAGE_SIZE in *. lia.
  - rewrite amap_bit by lia.
    replace (Z.shiftr (if Z.testbit (h_amap l) k then 2 ^ k else 0) k)
      with (b2z (Z.testbit (h_amap l) k)).
    + rewrite mask_select by (unfold is_u32, slot_ok, PAGE_SIZE in *; lia). done.
    + destruct (Z.testbit (h_amap l) k); simpl.
      * rewrite Z.shiftr_div_pow2, Z.div_same by (try apply Z.pow_nonzero; lia). done.
      * by rewrite Z.shiftr_0_l.
Qed.

(** ** Lookup *)

#[export] Instance captbl_laws : ErtLaws __captbl.
Proof. by refine {| el_get v := v; el_acc acc _ := acc; el_null v := v =? 0 |}. Defined.

Lemma captbl_maxid_eq : __captbl_maxid = 65536.
Proof. reflexivity. Qed.

Lemma captbl_dir t cap :
  node_ok t -> 0 <= cap < 65536 -> ert_dir __captbl t cap = t + 4 * (cap / 128).
Proof.
  intros [Ht1 Ht2] Hc. unfold ert_dir, PAGE_SIZE in *. cbn [el_get captbl_laws].
  change (2 ^ last_order __captbl) with 128. change (2 ^ order __captbl) with 512.
  change (intern_sz __captbl) with 4. unfold u32. Z.div_mod_to_equations. lia.
Qed.

Lemma captbl_leaf_slot leaf cap :
  node_ok leaf -> 0 <= cap < 65536 -> ert_slot __captbl leaf cap = leaf + 16 * (cap mod 128).
Proof.
  intros [Ht1 Ht2] Hc. unfold ert_slot, PAGE_SIZE in *. cbn [el_get captbl_laws].
  change (2 ^ last_order __captbl) with 128. change (last_sz __captbl) with 16.
  unfold u32. Z.div_mod_to_equations. lia.
Qed.

Ltac ct_side :=
  rewrite ?captbl_dir by done;
  change (__ert_maxid __captbl) with 65536; unfold PAGE_SIZE in *;
  first [lia | apply Z.eqb_neq; lia | Z.div_mod_to_equations; lia | reflexivity
        | by vm_compute].

(** The slot of [cap] lies in a leaf of [t]; its line is well formed. *)
Lemma captbl_pos_ok s t cap p :
  captbl_wf s t -> 0 <= cap < 65536 -> captbl_pos s t cap = Some p ->
  slot_ok p /\ line_ok (line_hdr s p) = true /\ t <> captbl_leaf s t cap /\
  leaf_ok s (captbl_leaf s t cap) /\
  captbl_leaf s t cap <= line_of p /\ p < captbl_leaf s t cap + 2048.
Proof.
  intros [Ht Hwf] Hc. unfold captbl_pos. destruct (Z.eqb_spec (captbl_leaf s t cap) 0) as [|Hl];
    [done|]. intros [= <-].
  destruct (Hwf (cap / 128)) as [|[Hne Hok]]; [Z.div_mod_to_equations; lia|done|].
  fold (captbl_leaf s t cap) in Hne, Hok. destruct Hok as [[Hm Hr] Hlines].
  set (leaf := captbl_leaf s t cap) in *.
  assert (line_of (leaf + 16 * (cap mod 128)) = leaf + 64 * (cap mod 128 / 4)) as Hline.
  { unfold line_of. Z.div_mod_to_equations. lia. }
  unfold line_hdr. rewrite Hline. unfold slot_ok, PAGE_SIZE in *.
  split_and!; try done; try (apply Hlines); Z.div_mod_to_equations; lia.
Qed.

Lemma captbl_lkupan_pos s t cap :
  captbl_wf s t -> 0 <= cap < 65536 ->
  __captbl_lkupan t cap CAPTBL_DEPTH s = Ok (default 0 (captbl_pos s t cap)) s.
Proof.
  intros Hwf Hc. pose proof Hwf as [Ht _]. pose proof Ht as [_ Hr].
  unfold __captbl_lkupan, __captbl_lkupani, bind, PAGE_SIZE in *.
  rewrite (ert_lookup_two __captbl) by
    ct_side.
  rewrite captbl_dir by done. fold (captbl_leaf s t cap).
  unfold captbl_pos. cbn [el_null captbl_laws].
  destruct (Z.eqb_spec (captbl_leaf s t cap) 0) as [|Hl]; [done|].
  destruct (captbl_pos_ok s t cap (captbl_leaf s t cap + 16 * (cap mod 128)))
    as (_ & _ & _ & [Hn _] & _); [done|done| |by rewrite captbl_leaf_slot].
  unfold captbl_pos. by rewrite (proj2 (Z.eqb_neq _ _)).
Qed.

Lemma cap_land_mod cap : Z.land cap (__captbl_maxid - 1) = cap mod 65536.
Proof. change (__captbl_maxid - 1) with (Z.ones 16). by rewrite Z.land_ones. Qed.

Lemma line_ok_size l : line_ok l = true -> h_size l <= 2.
Proof. unfold line_ok. intros [H _]%andb_prop. by apply Z.leb_le. Qed.

Lemma captbl_lkup_ref s t cap :
  captbl_wf s t -> captbl_lkup t cap s = Ok (captbl_ref_lkup s t (cap mod 65536)) s.
Proof.
  intros Hwf. pose proof Hwf as [Ht _]. pose proof Ht as [_ Hr].
  unfold captbl_lkup, captbl_lkup_lvl. rewrite cap_land_mod.
  pose proof (Z.mod_pos_bound cap 65536 eq_refl) as Hc. revert Hc.
  generalize (cap mod 65536) as c. clear cap. intros cap Hc.
  unfold __captbl_lkupani, bind, PAGE_SIZE in *.
  change (CAPTBL_DEPTH + 1) with 3.
  rewrite (ert_lookup_full __captbl) by
    ct_side.
  rewrite captbl_dir by done. fold (captbl_leaf s t cap).
  unfold captbl_ref_lkup. destruct (captbl_pos s t cap) as [p|] eqn:Ep.
  - destruct (captbl_pos_ok s t cap p) as (Hp & Hl & _ & [Hn _] & _); [done..|].
    unfold captbl_pos in Ep. cbn [el_null captbl_laws].
    destruct (captbl_leaf s t cap =? 0); [done|]. injection Ep as <-.
    rewrite captbl_leaf_slot by done. cbn [getleaffn __captbl el_acc captbl_laws].
    by rewrite getleaf_cap_at by (try apply line_ok_size; done).
  - unfold captbl_pos in Ep. cbn [el_null captbl_laws].
    by destruct (captbl_leaf s t cap =? 0).
Qed.

(** ** Adding a capability *)

(** The header that [captbl_add] commits for the line. *)
Definition add_hdr (l : cap_header) (off sz type : Z) : cap_header :=
  let l := set_amap (Z.lor (h_amap l) (Z.shiftl 1 off)) l in
  let l := if negb (h_size l =? sz) then set_size sz l else l in
  if off =? 0 then set_liveness_id 0 (set_type type l) else l.

(** The memory after a successful [captbl_add] at [p]. *)
Definition added (p type : Z) (s : kstate) : kstate :=
  let h := line_of p in
  let s1 := put h (word_of (add_hdr (line_hdr s p) (slot_of p) (__captbl_cap2sz type) type)) s in
  if p =? h then s1
  else put p (word_of (set_liveness_id 0 (set_type type (hdr_of (word s p))))) s1.

(** The conditions under which slot [p] accepts a capability of a type. *)
Definition addable (s : kstate) (p type : Z) : Prop :=
  let l := line_hdr s p in
  let sz := __captbl_cap2sz type in
  sz <= 2 /\ Z.testbit (h_amap l) (slot_of p) = false /\ (h_amap l = 0 \/ h_size l = sz) /\
  Z.land (h_flags l) CAP_FLAG_RO = 0 /\
  __captbl_header_validate (add_hdr l (slot_of p) sz type) sz = 0.

#[export] Instance captbl_quiescent_ro l ts : ReadOnly (captbl_quiescent l ts).
Proof.
  unfold captbl_quiescent. apply respects_bind; [apply _..|]. intros [e|past]; apply _.
Qed.

Lemma captbl_quiescent_err l ts s e s' :
  captbl_quiescent l ts s = Ok (Some e) s' -> e = - EFAULT \/ e = - EQUIESCENCE.
Proof.
  unfold captbl_quiescent. intros H. apply bind_inv in H as ([|] & ? & _ & H); minv H; auto.
Qed.

Lemma cap2sz_range c : 0 <= __captbl_cap2sz c <= 3.
Proof.
  unfold __captbl_cap2sz, CAP_SZ_16B, CAP_SZ_32B, CAP_SZ_64B, CAP_SZ_ERR.
  repeat case_match; lia.
Qed.

Lemma captbl_store_inv a n o s r s' :
  __captbl_store a n o s = Ok r s' ->
  (r = 0 /\ s' = put a n s) \/ (r = -1 /\ s' = s).
Proof.
  unfold __captbl_store. intros H. apply bind_inv in H as (c & s1 & H1 & H2).
  apply cas_inv in H1 as [_ [(-> & _ & ->)|(-> & _ & ->)]]; minv H2; auto.
Qed.

Lemma slot_eq_line p : slot_ok p -> (p =? line_of p) = (slot_of p =? 0).
Proof.
  intros Hp. destruct (slot_line p Hp) as (H1 & H2 & _).
  destruct (Z.eqb_spec p (line_of p)); destruct (Z.eqb_spec (slot_of p) 0); lia.
Qed.

#[export] Instance captbl_add_check_clock p h l sz :
  Respects clock_only (captbl_add_check p h l sz).
Proof. unfold captbl_add_check. cbv zeta. apply _. Qed.

Lemma captbl_add_check_err p h l sz s e s' :
  captbl_add_check p h l sz s = Ok (Some e) s' -> e = - EFAULT \/ e = - EQUIESCENCE.
Proof.
  unfold captbl_add_check. cbv zeta. intros H. case_match.
  - apply bind_inv in H as (? & ? & _ & H). apply bind_inv in H as (ts & ? & _ & H).
    apply for_ret_Some in H as (j & s1 & s2 & H).
    apply bind_inv in H as (? & ? & _ & H). apply bind_inv in H as (hi & ? & _ & H).
    case_match; [by eapply captbl_quiescent_err|minv H].
  - apply bind_inv in H as (hp & ? & _ & H). case_match; [|minv H].
    apply bind_inv in H as (ts & ? & _ & H). by eapply captbl_quiescent_err.
Qed.

Ltac addfail := let H := fresh in intros H; minv H; left; split_and!; reflexivity.

Lemma validate_add_hdr l off sz type :
  __captbl_header_validate (add_hdr l off sz type) sz =
  __captbl_header_validate
    (let l := set_amap (Z.lor (h_amap l) (Z.shiftl 1 off)) l in
     if negb (h_size l =? sz) then set_size sz l else l) sz.
Proof. unfold add_hdr, __captbl_header_validate. cbv zeta. by destruct (off =? 0). Qed.

Lemma captbl_add_commit_inv q type s p r s' :
  slot_ok q ->
  let sz := __captbl_cap2sz type in
  let l := line_hdr s q in
  captbl_add_commit q (line_of q) (word s (line_of q))
    (set_amap (Z.lor (h_amap l) (Z.shiftl 1 (slot_of q))) l) sz type s = Ok (p, r) s' ->
  (p = 0 /\ r < 0 /\ s' = s) \/
  (p = q /\ r = 0 /\ __captbl_header_validate (add_hdr l (slot_of q) sz type) sz = 0 /\
   s' = added q type s).
Proof.
  intros Hq sz l. pose proof (slot_line q Hq) as (Hql & Hso & Hlr & _). pose proof Hq as [Hqr _].
  unfold captbl_add_commit. cbv zeta. rewrite validate_add_hdr. cbv zeta.
  set (l1 := if negb _ then set_size _ _ else _).
  destruct (Z.eqb_spec (__captbl_header_validate l1 sz) 0) as [Hv|]; cbn [negb]; [|addfail].
  intros H. apply bind_inv in H as (c & s1 & Hc & H).
  apply captbl_store_inv in Hc as [[-> ->]|[-> ->]]; cbn [Z.eqb negb] in H; [|revert H; addfail].
  right. unfold added. rewrite slot_eq_line in * by done. fold l sz.
  assert (add_hdr l (slot_of q) sz type =
          if slot_of q =? 0 then set_liveness_id 0 (set_type type l1) else l1) as -> by done.
  destruct (Z.eqb_spec (slot_of q) 0) as [E|E]; cbn [negb] in H.
  - minv H. by split_and!.
  - rewrite !bind_assoc in H.
    rewrite (bind_Ok _ _ _ _ _ (load_hdr_Ok q _ (proj1 Hqr))) in H.
    rewrite (bind_Ok _ _ _ _ _ (store_hdr_Ok q _ _ (proj1 Hqr))) in H.
    minv H. rewrite word_put_ne by lia. by split_and!.
Qed.


(** [captbl_add] either fails and changes nothing but the clock, or has found
    the slot free and commits the line. *)
Lemma captbl_add_inv s t cap type p r s' :
  captbl_wf s t -> 0 <= cap -> captbl_add t cap type s = Ok (p, r) s' ->
  (p = 0 /\ r < 0 /\ clock_only s s') \/
  (r = 0 /\ cap < 65536 /\ captbl_pos s t cap = Some p /\ addable s p type /\
   exists s1, clock_only s s1 /\ s' = added p type s1).
Proof.
  intros Hwf Hc. unfold captbl_add. pose proof (cap2sz_range type) as Hszr.
  unfold CAP_SZ_ERR. destruct (Z.eqb_spec (__captbl_cap2sz type) 3) as [|Hsz]; [addfail|].
  rewrite captbl_maxid_eq. destruct (Z.leb_spec 65536 cap) as [|Hcap]; [addfail|].
  rewrite (bind_Ok _ _ _ _ _ (captbl_lkupan_pos s t cap Hwf (conj Hc Hcap))).
  destruct (captbl_pos s t cap) as [q|] eqn:Ep; cbn [from_option id]; [|addfail].
  destruct (captbl_pos_ok s t cap q Hwf (conj Hc Hcap) Ep) as (Hq & Hl & _).
  pose proof (slot_line q Hq) as (Hql & Hso & Hlr & _).
  pose proof Hq as [Hqr _]. unfold PAGE_SIZE in Hqr.
  rewrite (proj2 (Z.eqb_neq q 0)) by lia. cbv zeta.
  rewrite slot_cacheline, slot_offset by done.
  rewrite (bind_Ok _ _ _ _ _ (load_Ok _ s (proj1 Hlr))). fold (line_hdr s q).
  set (l := line_hdr s q). destruct (Z.eqb_spec (Z.land (h_flags l) CAP_FLAG_RO) 0) as [Hro|];
    cbn [negb]; [|addfail].
  rewrite (bind_Ok _ _ s tt s) by (apply massert_Ok; unfold CAP_HEAD_AMAP_SZ;
    apply andb_true_intro; split; [apply Z.leb_le|apply Z.ltb_lt]; lia).
  rewrite amap_bit_eqb, negb_involutive by lia.
  destruct (Z.testbit (h_amap l) (slot_of q)) eqn:Ebit; [addfail|].
  destruct (negb (h_amap l =? 0) && negb (h_size l =? __captbl_cap2sz type)) eqn:Esz;
    [addfail|].
  intros H. apply bind_inv in H as (err & s1 & Hchk & H).
  apply captbl_add_check_clock in Hchk as Hclk.
  destruct err as [e|].
  { apply captbl_add_check_err in Hchk as Herr. minv H. left.
    split_and!; [done|destruct Herr as [->| ->]; reflexivity|done]. }
  assert (l = line_hdr s1 q) as Hls1 by (unfold l, line_hdr; by rewrite (clock_only_word s s1)).
  rewrite Hls1, <- (clock_only_word s s1) in H by done.
  apply captbl_add_commit_inv in H as [(-> & Hr & ->)|(-> & -> & Hval & ->)];
    [by left| |done]. right.
  split_and!; [done..| |by exists s1].
  unfold addable. rewrite <- Hls1 in Hval. fold l.
  split_and!; [lia|done| |done|done].
  apply andb_false_iff in Esz as [Esz|Esz]; apply negb_false_iff, Z.eqb_eq in Esz; auto.
Qed.

(** ** Updates of one line

    [captbl_add], [captbl_del] and [captbl_clear] write the header of a line
    and the header of one slot in it. *)
Definition line_change (s s' : kstate) (p : Z) (l' : cap_header) : Prop :=
  line_hdr s' p = l' /\ forall a, a <> p -> a <> line_of p -> word s' a = word s a.

Lemma line_change_lines s s' p l' a i :
  line_change s s' p l' -> line_ok l' = true -> a mod 2048 = 0 ->
  line_ok (hdr_of (word s (a + 64 * i))) = true ->
  line_ok (hdr_of (word s' (a + 64 * i))) = true.
Proof.
  intros [Hl Hfr] Hok Ha Hold. destruct (decide (a + 64 * i = line_of p)) as [E|E].
  - rewrite E. fold (line_hdr s' p). by rewrite Hl.
  - rewrite Hfr; [done| |done]. intros E'. apply E. unfold line_of. rewrite <- E'.
    Z.div_mod_to_equations. lia.
Qed.

Lemma line_change_dir s s' t cap p l' i :
  captbl_wf s t -> 0 <= cap < 65536 -> captbl_pos s t cap = Some p ->
  line_change s s' p l' -> 0 <= i < 512 -> word s' (t + 4 * i) = word s (t + 4 * i).
Proof.
  intros Hwf Hc Hp [_ Hfr] Hi.
  destruct (captbl_pos_ok s t cap p Hwf Hc Hp) as (_ & _ & Hne & [[Hm _] _] & Hlo & Hhi).
  destruct Hwf as [[Ht _] _]. assert (line_of p <= p) by (unfold line_of; Z.div_mod_to_equations; lia).
  apply Hfr; Z.div_mod_to_equations; lia.
Qed.

Lemma line_change_wf s s' t cap p l' :
  captbl_wf s t -> 0 <= cap < 65536 -> captbl_pos s t cap = Some p ->
  line_change s s' p l' -> line_ok l' = true -> captbl_wf s' t.
Proof.
  intros Hwf Hc Hp Hch Hok. pose proof Hwf as [Ht Hdir]. split; [done|]. intros i Hi.
  rewrite (line_change_dir s s' t cap p l') by done.
  destruct (Hdir i Hi) as [|[Hne [Hn Hlines]]]; [by left|right]. split; [done|].
  split; [done|]. intros j Hj. eapply line_change_lines; [done..|apply Hn|by apply Hlines].
Qed.

Lemma line_change_pos s s' t cap p l' cap' :
  captbl_wf s t -> 0 <= cap < 65536 -> captbl_pos s t cap = Some p ->
  line_change s s' p l' -> 0 <= cap' < 65536 -> captbl_pos s' t cap' = captbl_pos s t cap'.
Proof.
  intros Hwf Hc Hp Hch Hc'. unfold captbl_pos, captbl_leaf.
  rewrite (line_change_dir s s' t cap p l'); [done..|].
  Z.div_mod_to_equations; lia.
Qed.

Lemma line_change_hdr s s' p l' q :
  line_change s s' p l' -> slot_ok p -> slot_ok q ->
  line_hdr s' q = if line_of q =? line_of p then l' else line_hdr s q.
Proof.
  intros [Hl Hfr] Hp Hq. unfold line_hdr. destruct (Z.eqb_spec (line_of q) (line_of p)) as [E|E].
  - rewrite E. exact Hl.
  - rewrite Hfr; [done| |done]. intros E'. apply E. rewrite <- E'.
    by destruct (slot_line q Hq) as (_ & _ & _ & _ & _ & ->).
Qed.

(** ** The effect of [captbl_add] *)

Lemma add_hdr_fields l off sz type :
  hdr_ok l -> 0 <= off < 4 -> 0 <= sz <= 2 ->
  h_amap (add_hdr l off sz type) = Z.lor (h_amap l) (Z.shiftl 1 off) /\
  h_size (add_hdr l off sz type) = sz /\ hdr_ok (add_hdr l off sz type) /\
  h_flags (add_hdr l off sz type) = h_flags l.
Proof.
  intros Hok Hoff Hsz.
  assert (Z.lor (h_amap l) (Z.shiftl 1 off) mod 16 = Z.lor (h_amap l) (Z.shiftl 1 off)) as Hm.
  { change 16 with (2 ^ 4). rewrite <- Z.land_ones, Z.land_lor_distr_l by lia.
    rewrite !Z.land_ones by lia. destruct Hok as (_ & Ha & _). f_equal; apply Z.mod_small; [lia|].
    rewrite Z.shiftl_1_l. split; [lia|]. apply Z.pow_lt_mono_r; lia. }
  assert (sz mod 4 = sz) as Hs by (apply Z.mod_small; lia).
  unfold add_hdr. split_and!.
  - destruct (off =? 0), (negb _); simpl; exact Hm.
  - destruct (Z.eqb_spec (h_size (set_amap (Z.lor (h_amap l) (1 ≪ off)) l)) sz) as [E|E];
      destruct (off =? 0); simpl in *; lia.
  - destruct (off =? 0), (negb _); auto with hdr.
  - by destruct (off =? 0), (negb _).
Qed.

Lemma validate_line_ok l sz :
  sz <= 2 -> 0 <= sz -> __captbl_header_validate l sz = 0 -> line_ok l = true.
Proof.
  unfold __captbl_header_validate, line_ok. intros H1 H0 H.
  destruct (Z.eqb_spec sz (h_size l)) as [<-|]; cbn [negb] in H; [|discriminate].
  rewrite (proj2 (Z.leb_le sz 2)) by done. unfold cap_mask.
  destruct (sz =? CAP_SZ_16B) eqn:E1; [by rewrite H|].
  destruct (sz =? CAP_SZ_32B) eqn:E2; [by rewrite H|].
  destruct (Z.eqb_spec sz CAP_SZ_64B) as [|E]; [by rewrite H|].
  unfold CAP_SZ_16B, CAP_SZ_32B, CAP_SZ_64B in *. lia.
Qed.

(** The start of an allocated slot is aligned to the size of its line. *)
Lemma line_ok_aligned l off :
  line_ok l = true -> 0 <= h_size l -> 0 <= off < 4 -> Z.testbit (h_amap l) off = true ->
  off mod 2 ^ h_size l = 0.
Proof.
  unfold line_ok. intros [Hs Hm]%andb_prop H0 Hoff Hb.
  apply Z.leb_le in Hs. apply Z.eqb_eq in Hm.
  assert (Z.testbit (Z.land (h_amap l) (Z.lnot (cap_mask (h_size l)))) off = false) as Hz
    by (rewrite Hm; apply Z.bits_0).
  rewrite Z.land_spec, Hb, Z.lnot_spec in Hz by lia. apply negb_false_iff in Hz.
  assert (h_size l = 0 \/ h_size l = 1 \/ h_size l = 2) as [E|[E|E]] by lia; rewrite E in *;
  assert (off = 0 \/ off = 1 \/ off = 2 \/ off = 3) as [->|[->|[->| ->]]] by lia;
    first [reflexivity | discriminate Hz].
Qed.

Lemma added_change s p type :
  slot_ok p -> addable s p type ->
  line_change s (added p type s) p
    (add_hdr (line_hdr s p) (slot_of p) (__captbl_cap2sz type) type).
Proof.
  intros Hp (Hsz & _). pose proof (slot_line p Hp) as (Hpl & Hso & _).
  destruct (add_hdr_fields (line_hdr s p) (slot_of p) (__captbl_cap2sz type) type)
    as (_ & _ & Hok & _); [apply hdr_of_ok|done|split; [apply cap2sz_range|done]|].
  unfold added, line_change, line_hdr at 1. rewrite slot_eq_line by done.
  destruct (Z.eqb_spec (slot_of p) 0); (split; [|intros a H1 H2; by rewrite !word_put_ne by done]).
  - by rewrite hdr_put_eq.
  - rewrite word_put_ne by lia. by rewrite hdr_put_eq.
Qed.

Lemma addable_line_ok s p type :
  addable s p type ->
  line_ok (add_hdr (line_hdr s p) (slot_of p) (__captbl_cap2sz type) type) = true.
Proof.
  intros (Hsz & _ & _ & _ & Hv). eapply validate_line_ok; [done|apply cap2sz_range|done].
Qed.

(** A capability of [16 * 2 ^ sz] bytes at an aligned slot stays in its line,
    and extends over the slots that round down to it. *)
Lemma slot_fits p sz :
  0 <= slot_of p < 4 -> 0 <= sz <= 2 -> slot_of p mod 2 ^ sz = 0 -> slot_of p + 2 ^ sz <= 4.
Proof.
  intros Hp Hsz. assert (sz = 0 \/ sz = 1 \/ sz = 2) as [->|[->| ->]] by lia.
  - change (2 ^ 0) with 1. lia.
  - change (2 ^ 1) with 2. Z.div_mod_to_equations. lia.
  - change (2 ^ 2) with 4. Z.div_mod_to_equations. lia.
Qed.

Lemma slot_in_cap p q sz :
  slot_ok p -> slot_ok q -> 0 <= sz <= 2 -> line_of q = line_of p ->
  slot_of p mod 2 ^ sz = 0 ->
  (slot_of q - slot_of q mod 2 ^ sz =? slot_of p) = (p <=? q) && (q <? p + 16 * 2 ^ sz).
Proof.
  intros Hp Hq Hsz E Hal. pose proof (slot_line p Hp) as (Hpl & Hpo & _).
  pose proof (slot_line q Hq) as (Hql & Hqo & _).
  apply eq_true_iff_eq. rewrite andb_true_iff, Z.eqb_eq, Z.leb_le, Z.ltb_lt.
  revert Hal. assert (sz = 0 \/ sz = 1 \/ sz = 2) as [->|[->| ->]] by lia;
    [change (2 ^ 0) with 1|change (2 ^ 1) with 2|change (2 ^ 2) with 4];
    Z.div_mod_to_equations; lia.
Qed.

(** Which capability each slot of the line belongs to afterwards: the new one
    for the slots it extends over, and the same as before for the others. *)
Lemma added_cap_at s p type q :
  slot_ok p -> slot_ok q -> addable s p type ->
  cap_at (added p type s) q =
  if (p <=? q) && (q <? p + __captbl_cap2bytes type) then p else cap_at s q.
Proof.
  intros Hp Hq Hadd. pose proof (added_change s p type Hp Hadd) as Hch.
  pose proof (addable_line_ok s p type Hadd) as Hlok. destruct Hadd as (Hsz & Hbit & Hold & _).
  pose proof (cap2sz_range type) as Hszr. set (sz := __captbl_cap2sz type) in *.
  pose proof (slot_line p Hp) as (Hpl & Hpo & _ & Hpm & _).
  pose proof (slot_line q Hq) as (Hql & Hqo & _ & Hqm & _).
  destruct (add_hdr_fields (line_hdr s p) (slot_of p) sz type) as (Ha & Hs & _);
    [apply hdr_of_ok|done|lia|].
  assert (slot_of p mod 2 ^ sz = 0) as Hal.
  { rewrite <- Hs. apply line_ok_aligned; [done|lia|done|]. rewrite Ha, Z.lor_spec, Z.shiftl_1_l.
    by rewrite Z.pow2_bits_true, orb_true_r by lia. }
  assert (__captbl_cap2bytes type = 16 * 2 ^ sz) as ->.
  { unfold __captbl_cap2bytes. fold sz. rewrite Z.shiftl_1_l, Z.pow_add_r by (unfold CAP_SZ_OFF; lia).
    change (2 ^ CAP_SZ_OFF) with 16. lia. }
  unfold cap_at. rewrite (line_change_hdr _ _ _ _ q Hch) by done.
  set (k := slot_of q - slot_of q mod 2 ^ sz).
  assert (0 < 2 ^ sz <= 4) as Hpow.
  { split; [apply Z.pow_pos_nonneg; lia|]. change 4 with (2 ^ 2). apply Z.pow_le_mono_r; lia. }
  destruct (Z.eqb_spec (line_of q) (line_of p)) as [E|E].
  - assert ((k =? slot_of p) = (p <=? q) && (q <? p + 16 * 2 ^ sz)) as Hin
      by (apply (slot_in_cap p q sz); done || lia).
    rewrite <- Hin. unfold cap_of_line. rewrite Hs, Ha. fold k.
    rewrite Z.lor_spec, Z.shiftl_1_l, Z.pow2_bits_eqb by lia.
    rewrite (Z.eqb_sym k). destruct (Z.eqb_spec (slot_of p) k) as [Ek|Ek].
    + rewrite orb_true_r. lia.
    + rewrite orb_false_r. unfold line_hdr in *. rewrite E. destruct Hold as [H0| ->]; [|done].
      rewrite H0, !Z.bits_0. done.
  - replace ((p <=? q) && (q <? p + 16 * 2 ^ sz)) with false; [done|].
    symmetry. apply andb_false_iff. rewrite Z.leb_gt, Z.ltb_ge.
    assert (slot_of p + 2 ^ sz <= 4) by (apply (slot_fits p sz); done || lia).
    Z.div_mod_to_equations. lia.
Qed.

(** [captbl_add] at a slot that accepts the capability: the outcome of the
    quiescence check decides. *)
Lemma captbl_store_Ok a n o s :
  PAGE_SIZE <= a -> word s a = o -> __captbl_store a n o s = Ok 0 (put a n s).
Proof.
  intros Ha <-. unfold __captbl_store. rewrite (bind_Ok _ _ _ _ _ (cas_success a _ n s Ha
    (eq_sym (u32_small _ (word_u32 s a))))). reflexivity.
Qed.

Lemma captbl_add_commit_Ok q type s :
  slot_ok q ->
  let sz := __captbl_cap2sz type in
  let l := line_hdr s q in
  __captbl_header_validate (add_hdr l (slot_of q) sz type) sz = 0 ->
  captbl_add_commit q (line_of q) (word s (line_of q))
    (set_amap (Z.lor (h_amap l) (Z.shiftl 1 (slot_of q))) l) sz type s =
  Ok (q, 0) (added q type s).
Proof.
  intros Hq sz l Hv. pose proof (slot_line q Hq) as (Hql & Hso & Hlr & _). pose proof Hq as [Hqr _].
  rewrite validate_add_hdr in Hv. unfold captbl_add_commit. cbv zeta in *.
  rewrite Hv, (slot_eq_line q) by done. cbn [negb Z.eqb].
  rewrite (bind_Ok _ _ _ _ _ (captbl_store_Ok _ _ _ s (proj1 Hlr) eq_refl)). cbn [negb Z.eqb].
  unfold added. rewrite slot_eq_line by done. fold l sz. unfold add_hdr. cbv zeta.
  destruct (Z.eqb_spec (slot_of q) 0); cbn [negb]; [done|].
  rewrite !bind_assoc, (bind_Ok _ _ _ _ _ (load_hdr_Ok q _ (proj1 Hqr))).
  rewrite (bind_Ok _ _ _ _ _ (store_hdr_Ok q _ _ (proj1 Hqr))).
  by rewrite word_put_ne by lia.
Qed.

Lemma captbl_add_run s t cap type p :
  captbl_wf s t -> 0 <= cap < 65536 -> captbl_pos s t cap = Some p -> addable s p type ->
  captbl_add t cap type s =
  bind (captbl_add_check p (line_of p)
          (set_amap (Z.lor (h_amap (line_hdr s p)) (Z.shiftl 1 (slot_of p))) (line_hdr s p))
          (__captbl_cap2sz type))
    (fun err s1 => match err with
                   | Some e => Ok (0, e) s1
                   | None => Ok (p, 0) (added p type s1) end) s.
Proof.
  intros Hwf Hc Hp (Hsz & Hbit & Hold & Hro & Hv).
  destruct (captbl_pos_ok s t cap p Hwf Hc Hp) as (Hq & _).
  pose proof (slot_line p Hq) as (Hpl & Hso & Hlr & _). pose proof Hq as [Hqr _].
  unfold captbl_add. cbv zeta. unfold CAP_SZ_ERR, PAGE_SIZE in *.
  rewrite (proj2 (Z.eqb_neq (__captbl_cap2sz type) 3)) by lia.
  rewrite captbl_maxid_eq, (proj2 (Z.leb_gt _ _)) by lia.
  rewrite (bind_Ok _ _ _ _ _ (captbl_lkupan_pos s t cap Hwf Hc)), Hp. cbn [from_option id].
  rewrite (proj2 (Z.eqb_neq p 0)), slot_cacheline, slot_offset by done || lia.
  rewrite (bind_Ok _ _ _ _ _ (load_Ok _ s (proj1 Hlr))). fold (line_hdr s p).
  rewrite Hro. cbn [negb Z.eqb].
  rewrite (bind_Ok _ _ s tt s) by (apply massert_Ok; unfold CAP_HEAD_AMAP_SZ;
    apply andb_true_intro; split; [apply Z.leb_le|apply Z.ltb_lt]; lia).
  rewrite amap_bit_eqb, Hbit by lia. cbn [negb].
  replace (negb (h_amap (line_hdr s p) =? 0) && negb (h_size (line_hdr s p) =? __captbl_cap2sz type))
    with false by (destruct Hold as [->| ->]; rewrite Z.eqb_refl; by rewrite ?andb_false_r).
  apply bind_ext. intros [e|] s1 Hchk; [done|].
  apply captbl_add_check_clock in Hchk as (n & -> & _).
  by apply (captbl_add_commit_Ok p type (with_ticks n s)).
Qed.

(** ** Removing a capability *)

(** The header that [captbl_del] and [captbl_clear] commit for the line. *)
Definition rel_hdr (l : cap_header) (off lid newtype : Z) : cap_header :=
  let l := if off =? 0 then set_type newtype (set_liveness_id lid l) else l in
  let l := set_amap (Z.land (h_amap l)
             (Z.land (Z.lnot (Z.shiftl 1 off)) (Z.shiftl 1 CAP_HEAD_AMAP_SZ - 1))) l in
  if h_amap l =? 0 then set_type newtype l else l.

Definition released (p lid newtype : Z) (s : kstate) : kstate :=
  let h := line_of p in
  put h (word_of (rel_hdr (line_hdr s p) (slot_of p) lid newtype))
    (if p =? h then s
     else put p (word_of (set_type newtype (set_liveness_id lid (hdr_of (word s p))))) s).

Lemma captbl_release_Ok p lid newtype s :
  slot_ok p ->
  captbl_release p (line_of p) (word s (line_of p)) lid newtype s =
  Ok 0 (released p lid newtype s).
Proof.
  intros Hp. pose proof (slot_line p Hp) as (Hpl & Hso & Hlr & _). pose proof Hp as [Hpr _].
  unfold captbl_release, released, rel_hdr. cbv zeta. rewrite slot_offset by done.
  fold (line_hdr s p). rewrite (Z.eqb_sym (line_of p)), slot_eq_line by done.
  destruct (Z.eqb_spec (slot_of p) 0).
  - rewrite (bind_Ok (ret tt) _ s tt s eq_refl).
    by rewrite (bind_Ok _ _ _ _ _ (captbl_store_Ok _ _ _ s (proj1 Hlr) eq_refl)).
  - rewrite !bind_assoc, (bind_Ok _ _ _ _ _ (load_hdr_Ok p _ (proj1 Hpr))).
    rewrite (bind_Ok _ _ _ _ _ (store_hdr_Ok p _ _ (proj1 Hpr))).
    rewrite (bind_Ok _ _ _ _ _ (captbl_store_Ok _ _ _ _ (proj1 Hlr)
      (word_put_ne p (line_of p) _ _ ltac:(lia)))).
    done.
Qed.

Lemma rel_hdr_fields l off lid newtype :
  hdr_ok l -> 0 <= off < 4 ->
  hdr_ok (rel_hdr l off lid newtype) /\ h_size (rel_hdr l off lid newtype) = h_size l /\
  h_flags (rel_hdr l off lid newtype) = h_flags l /\
  h_amap (rel_hdr l off lid newtype) = Z.land (h_amap l) (Z.lnot (Z.shiftl 1 off)).
Proof.
  intros Hok Hoff. destruct Hok as (H1 & H2 & Hrest) eqn:Eok. clear Eok.
  assert (forall m, m = h_amap l ->
    Z.land m (Z.land (Z.lnot (Z.shiftl 1 off)) (Z.shiftl 1 CAP_HEAD_AMAP_SZ - 1)) mod 16 =
    Z.land (h_amap l) (Z.lnot (Z.shiftl 1 off))) as Hm.
  { intros m ->. change (Z.shiftl 1 CAP_HEAD_AMAP_SZ - 1) with (Z.ones 4).
    change 16 with (2 ^ 4). rewrite <- Z.land_ones, Z.land_assoc by lia.
    rewrite <- Z.land_assoc, (Z.land_diag (Z.ones 4)).
    rewrite <- Z.land_assoc, (Z.land_comm (Z.lnot _)), Z.land_assoc, Z.land_ones by lia.
    rewrite (Z.mod_small (h_amap l)) by (change (2 ^ 4) with 16; lia). done. }
  unfold rel_hdr. split_and!.
  - case_match; case_match; auto 10 with hdr.
  - case_match; case_match; done.
  - case_match; case_match; done.
  - case_match; case_match; simpl; by apply Hm.
Qed.

Lemma released_change s p lid newtype :
  slot_ok p ->
  line_change s (released p lid newtype s) p (rel_hdr (line_hdr s p) (slot_of p) lid newtype).
Proof.
  intros Hp. pose proof (slot_line p Hp) as (_ & Hso & _).
  destruct (rel_hdr_fields (line_hdr s p) (slot_of p) lid newtype) as (Hok & _);
    [apply hdr_of_ok|done|].
  unfold released, line_change, line_hdr at 1. split.
  - by rewrite hdr_put_eq.
  - intros a H1 H2. rewrite word_put_ne by done. destruct (p =? line_of p); [done|].
    by rewrite word_put_ne.
Qed.

Lemma rel_hdr_line_ok l off lid newtype :
  hdr_ok l -> 0 <= off < 4 -> line_ok l = true -> line_ok (rel_hdr l off lid newtype) = true.
Proof.
  intros Hok Hoff Hl. destruct (rel_hdr_fields l off lid newtype Hok Hoff) as (_ & Hs & _ & Ha).
  unfold line_ok in *. rewrite Hs, Ha. apply andb_prop in Hl as [Hl1 Hl2].
  rewrite Hl1. cbn [andb]. apply Z.eqb_eq in Hl2. apply Z.eqb_eq.
  rewrite <- Z.land_assoc, (Z.land_comm (Z.lnot _)), Z.land_assoc, Hl2. done.
Qed.

(** Which capability each slot belongs to after a removal. *)
Lemma released_cap_at s p lid newtype q :
  slot_ok p -> slot_ok q -> line_ok (line_hdr s p) = true -> cap_at s p = p ->
  cap_at (released p lid newtype s) q =
  if (p <=? q) && (q <? p + 16 * 2 ^ h_size (line_hdr s p)) then 0 else cap_at s q.
Proof.
  intros Hp Hq Hlok Hcap. pose proof (released_change s p lid newtype Hp) as Hch.
  pose proof (slot_line p Hp) as (Hpl & Hpo & _ & Hpm & _).
  pose proof (slot_line q Hq) as (Hql & Hqo & _ & Hqm & _).
  set (l := line_hdr s p) in *.
  destruct (rel_hdr_fields l (slot_of p) lid newtype) as (_ & Hs & _ & Ha); [apply hdr_of_ok|done|].
  assert (0 <= h_size l <= 2) as Hsz by (split; [apply hdr_of_ok|by apply line_ok_size]).
  assert (slot_of p mod 2 ^ h_size l = 0) as Hal.
  { revert Hcap. unfold cap_at, cap_of_line. fold l. pose proof (proj1 Hp) as Hpr.
    unfold PAGE_SIZE in Hpr. destruct (Z.testbit _ _); lia. }
  assert (0 < 2 ^ h_size l <= 4) as Hpow.
  { split; [apply Z.pow_pos_nonneg; lia|]. change 4 with (2 ^ 2). apply Z.pow_le_mono_r; lia. }
  unfold cap_at. rewrite (line_change_hdr _ _ _ _ q Hch) by done.
  destruct (Z.eqb_spec (line_of q) (line_of p)) as [E|E].
  - rewrite <- (slot_in_cap p q (h_size l)) by (done || lia). unfold cap_of_line.
    rewrite Hs, Ha. unfold line_hdr. rewrite E. fold (line_hdr s p). fold l.
    set (k := slot_of q - slot_of q mod 2 ^ h_size l).
    assert (0 <= k) by (unfold k; pose proof (Z.mod_le (slot_of q) (2 ^ h_size l)); lia).
    rewrite Z.land_spec, Z.lnot_spec, Z.shiftl_1_l, Z.pow2_bits_eqb, (Z.eqb_sym k) by lia.
    destruct (Z.eqb_spec (slot_of p) k) as [Ek|Ek]; cbn [negb].
    + by rewrite andb_false_r.
    + by rewrite andb_true_r.
  - replace ((p <=? q) && (q <? p + 16 * 2 ^ h_size l)) with false; [done|].
    symmetry. apply andb_false_iff. rewrite Z.leb_gt, Z.ltb_ge.
    assert (slot_of p + 2 ^ h_size l <= 4) by (apply (slot_fits p (h_size l)); done || lia).
    Z.div_mod_to_equations. lia.
Qed.

Lemma captbl_find_inv s t cap type r s' :
  captbl_wf s t -> 0 <= cap -> captbl_find t cap type s = Ok r s' ->
  s' = s /\
  match r with
  | inl e => e < 0
  | inr (p, h, o) =>
      cap < 65536 /\ captbl_pos s t cap = Some p /\ h = line_of p /\ o = word s h /\
      cap_at s p = p /\ h_type (hdr_of (word s p)) = type /\
      Z.testbit (h_amap (line_hdr s p)) (slot_of p) = true /\
      Z.land (h_flags (line_hdr s p)) CAP_FLAG_RO = 0
  end.
Proof.
  intros Hwf Hc. unfold captbl_find. rewrite captbl_maxid_eq.
  destruct (Z.leb_spec 65536 cap) as [|Hcap]; [intros H'; by minv H'|].
  rewrite (bind_Ok _ _ _ _ _ (captbl_lkupan_pos s t cap Hwf (conj Hc Hcap))).
  destruct (captbl_pos s t cap) as [q|] eqn:Ep; cbn [from_option id]; [|intros H'; by minv H'].
  destruct (captbl_pos_ok s t cap q Hwf (conj Hc Hcap) Ep) as (Hq & Hl & _).
  pose proof (slot_line q Hq) as (Hql & Hso & Hlr & _). pose proof Hq as [Hqr _].
  unfold PAGE_SIZE in Hqr. rewrite (proj2 (Z.eqb_neq q 0)) by lia.
  rewrite (bind_Ok _ _ _ _ _ (getleaf_cap_at q 0 s Hq (line_ok_size _ Hl))).
  destruct (Z.eqb_spec q (cap_at s q)) as [Ecap|]; cbn [negb]; [|intros H'; by minv H'].
  rewrite (bind_Ok _ _ _ _ _ (load_hdr_Ok q s (proj1 Hqr))).
  destruct (Z.eqb_spec (h_type (hdr_of (word s q))) type); cbn [negb]; [|intros H'; by minv H'].
  cbv zeta. rewrite slot_cacheline, slot_offset by done.
  intros H. apply bind_inv in H as (? & s1 & Ha & H). apply massert_inv in Ha as [_ ->].
  rewrite (bind_Ok _ _ _ _ _ (load_Ok _ s (proj1 Hlr))) in H. fold (line_hdr s q) in H.
  destruct (Z.eqb_spec (Z.land (h_flags (line_hdr s q)) CAP_FLAG_RO) 0); cbn [negb] in H;
    [|by minv H].
  rewrite amap_bit_eqb in H by lia.
  destruct (Z.testbit (h_amap (line_hdr s q)) (slot_of q)) eqn:Eb; cbn [negb] in H; minv H;
    by split_and!.
Qed.
