(* ===== verification/CaptblSpec.v ===== *)
(** * What capability tables promise

    The theorems about [captbl_lkup], [captbl_add], [captbl_del],
    [captbl_clear], [captbl_expand], [captbl_prune] and [captbl_create]: the
    trie and the cache-line packing implement a partial map from capability
    ids to capabilities, and the allocation maps stay well formed. *)

From S2P Require Import Prelude Config Machine Ertrie Liveness Captbl.

(** ** Shared lemmas *)

Lemma captbl_pos_bounded s t cap p :
  captbl_pos s t cap = Some p -> 0 <= cap < 65536 -> captbl_wf s t -> slot_ok p.
Proof. intros Hp Hc Hwf. by destruct (captbl_pos_ok s t cap p Hwf Hc Hp). Qed.

Lemma cap2sz_type c : __captbl_cap2sz c <= 2 -> 0 <= c < 128.
Proof.
  unfold __captbl_cap2sz, CAP_SRET, CAP_THD, CAP_TCAP, CAP_CAPTBL, CAP_PGTBL, CAP_HW, CAP_SINV,
    CAP_COMP, CAP_ASND, CAP_ARCV, CAP_SZ_ERR.
  repeat case_match; rewrite ?orb_true_iff, ?Z.eqb_eq in *; lia.
Qed.

(** The header of the slot itself after [captbl_add]. *)
Lemma added_slot_hdr s p type :
  slot_ok p -> addable s p type ->
  h_type (hdr_of (word (added p type s) p)) = type /\
  h_liveness_id (hdr_of (word (added p type s) p)) = 0.
Proof.
  intros Hp Hadd. pose proof (added_change s p type Hp Hadd) as [Hl _].
  destruct Hadd as (Hsz & _). pose proof (cap2sz_type type Hsz) as Hty.
  pose proof (slot_line p Hp) as (Hpl & _). revert Hl. unfold line_hdr, added.
  rewrite slot_eq_line by done. destruct (Z.eqb_spec (slot_of p) 0) as [E|E]; intros Hl.
  - assert (p = line_of p) as Hpe by lia. rewrite <- Hpe in Hl at 2. rewrite Hl, E.
    unfold add_hdr. simpl. by rewrite Z.mod_small by lia.
  - rewrite hdr_put_eq by auto with hdr. simpl. by rewrite Z.mod_small by lia.
Qed.

(** The capability ids of [t] keep their slots, and [t] stays well formed. *)
Lemma added_table s t cap p type :
  captbl_wf s t -> 0 <= cap < 65536 -> captbl_pos s t cap = Some p -> addable s p type ->
  captbl_wf (added p type s) t /\
  forall cap', 0 <= cap' < 65536 -> captbl_pos (added p type s) t cap' = captbl_pos s t cap'.
Proof.
  intros Hwf Hc Hp Hadd. assert (slot_ok p) as Hs by by eapply captbl_pos_bounded.
  pose proof (added_change s p type Hs Hadd) as Hch. split.
  - eapply line_change_wf; [done..|by apply addable_line_ok].
  - intros cap' Hc'. exact (line_change_pos s _ t cap p _ cap' Hwf Hc Hp Hch Hc').
Qed.

Lemma released_table s t cap p lid newtype :
  captbl_wf s t -> 0 <= cap < 65536 -> captbl_pos s t cap = Some p ->
  captbl_wf (released p lid newtype s) t /\
  forall cap', 0 <= cap' < 65536 ->
    captbl_pos (released p lid newtype s) t cap' = captbl_pos s t cap'.
Proof.
  intros Hwf Hc Hp. destruct (captbl_pos_ok s t cap p Hwf Hc Hp) as (Hs & Hl & _).
  pose proof (slot_line p Hs) as (_ & Hso & _).
  pose proof (released_change s p lid newtype Hs) as Hch. split.
  - eapply line_change_wf; [done..|]. apply rel_hdr_line_ok; [apply hdr_of_ok|done|done].
  - intros cap' Hc'. exact (line_change_pos s _ t cap p _ cap' Hwf Hc Hp Hch Hc').
Qed.

Lemma captbl_add_wf s t cap type p s' :
  captbl_wf s t -> 0 <= cap -> captbl_add t cap type s = Ok (p, 0) s' -> captbl_wf s' t.
Proof.
  intros Hwf Hc0 H. apply captbl_add_inv in H as [(_ & H & _)|H]; [lia| |done..].
  destruct H as (_ & Hc & Hp & Hadd & s1 & (n & -> & _) & ->).
  by apply (added_table (with_ticks n s) t cap).
Qed.

(** The bytes of the capability at slot [p] of a line. *)
Definition in_cap (p bytes q : Z) : Prop := p <= q < p + bytes.
#[export] Instance in_cap_dec p bytes q : Decision (in_cap p bytes q).
Proof.
  unfold in_cap. apply _.
Defined.

Lemma in_cap_bool p b q : (p <=? q) && (q <? p + b) = bool_decide (in_cap p b q).
Proof.
  apply eq_true_iff_eq. rewrite andb_true_iff, bool_decide_eq_true, Z.leb_le, Z.ltb_lt. done.
Qed.

(** The state after a successful [captbl_del]. *)
Lemma captbl_del_inv s t cap type lid r s' :
  captbl_wf s t -> 0 <= cap -> captbl_del t cap type lid s = Ok r s' ->
  (r < 0 /\ s' = s) \/
  (r = 0 /\ cap < 65536 /\ lid < LTBL_ENTS /\ exists p, captbl_pos s t cap = Some p /\
   cap_at s p = p /\ h_type (hdr_of (word s p)) = type /\
   Z.land (h_flags (line_hdr s p)) CAP_FLAG_RO = 0 /\
   s' = released p lid CAP_QUIESCENCE
          (lput lid (LEnt (epoch (lent s lid)) (u64 (ktsc s (kticks s))))
             (with_ticks (S (kticks s)) s))).
Proof.
  intros Hwf Hc H. unfold captbl_del in H. apply bind_inv in H as (f & s1 & Hf & H).
  apply captbl_find_inv in Hf as [-> Hf]; [|done..]. destruct f as [e|[[p h] o]].
  { minv H. by left. }
  destruct Hf as (Hcap & Hp & -> & -> & Hat & Hty & Hbit & Hro).
  destruct (Z.lt_ge_cases lid LTBL_ENTS) as [Hlid|Hlid].
  - rewrite (bind_Ok _ _ _ _ _ (timestamp_update_Ok lid s Hlid)) in H. cbn [Z.eqb negb] in H.
    assert (slot_ok p) as Hs by by eapply captbl_pos_bounded.
    set (s1 := lput _ _ _) in *. change (word s (line_of p)) with (word s1 (line_of p)) in H.
    rewrite captbl_release_Ok in H by done. injection H as <- <-. right.
    split_and!; try done. exists p. by split_and!.
  - left. unfold ltbl_timestamp_update in H. rewrite (proj2 (Z.leb_le _ _)) in H by lia.
    by minv H.
Qed.

Lemma captbl_clear_inv s t cap type lid r s' :
  captbl_wf s t -> 0 <= cap -> captbl_clear t cap type lid s = Ok r s' ->
  (r < 0 /\ s' = s) \/
  (r = 0 /\ cap < 65536 /\ exists p, captbl_pos s t cap = Some p /\
   cap_at s p = p /\ h_type (hdr_of (word s p)) = type /\ s' = released p lid CAP_FREE s).
Proof.
  intros Hwf Hc H. unfold captbl_clear in H. apply bind_inv in H as (f & s1 & Hf & H).
  apply captbl_find_inv in Hf as [-> Hf]; [|done..]. destruct f as [e|[[p h] o]].
  { minv H. by left. }
  destruct Hf as (Hcap & Hp & -> & -> & Hat & Hty & Hbit & Hro).
  assert (slot_ok p) as Hs by by eapply captbl_pos_bounded.
  rewrite captbl_release_Ok in H by done. injection H as <- <-. right.
  split_and!; try done. exists p. by split_and!.
Qed.

Lemma captbl_del_wf s t cap type lid s' :
  captbl_wf s t -> 0 <= cap -> captbl_del t cap type lid s = Ok 0 s' -> captbl_wf s' t.
Proof.
  intros Hwf Hc0 H. apply captbl_del_inv in H as [[H _]|H]; [lia| |done..].
  destruct H as (_ & Hc & _ & p & Hp & _ & _ & _ & ->). set (s1 := lput _ _ _).
  by apply (released_table s1 t cap p).
Qed.

(** Lookups after a removal. *)
Lemma released_lkup s t cap p lid newtype cap' q :
  captbl_wf s t -> 0 <= cap < 65536 -> captbl_pos s t cap = Some p -> cap_at s p = p ->
  0 <= cap' < 65536 -> captbl_pos s t cap' = Some q ->
  captbl_lkup t cap' (released p lid newtype s) =
  Ok (if bool_decide (in_cap p (16 * 2 ^ h_size (line_hdr s p)) q) then 0
      else captbl_ref_lkup s t cap') (released p lid newtype s).
Proof.
  intros Hwf Hc Hp Hat Hc' Hq. destruct (captbl_pos_ok s t cap p Hwf Hc Hp) as (Hs & Hl & _).
  destruct (released_table s t cap p lid newtype) as [Hwf' Hpos]; [done..|].
  assert (slot_ok q) as Hqs by by eapply captbl_pos_bounded.
  rewrite captbl_lkup_ref by done. rewrite Z.mod_small by lia. unfold captbl_ref_lkup.
  rewrite Hpos, Hq by done. by rewrite released_cap_at, in_cap_bool by done.
Qed.

(** ** Reuse of a slot *)

(** After a removal the slot is marked. *)
Lemma released_slot_hdr s p lid newtype :
  slot_ok p -> 0 <= newtype < 128 ->
  h_type (hdr_of (word (released p lid newtype s) p)) = newtype /\
  h_liveness_id (hdr_of (word (released p lid newtype s) p)) = u16 lid.
Proof.
  intros Hp Hty. pose proof (released_change s p lid newtype Hp) as [Hl _].
  pose proof (slot_line p Hp) as (Hpl & _). revert Hl. unfold line_hdr, released.
  rewrite slot_eq_line by done. destruct (Z.eqb_spec (slot_of p) 0) as [E|E]; intros Hl.
  - assert (p = line_of p) as Hpe by lia. rewrite <- Hpe in Hl at 2. rewrite Hl, E.
    unfold rel_hdr. simpl. case_match; simpl; by rewrite Z.mod_small by lia.
  - rewrite word_put_ne by lia. rewrite hdr_put_eq by auto 10 with hdr. simpl.
    by rewrite Z.mod_small by lia.
Qed.

Lemma amap_drop_add a off :
  0 <= off -> Z.testbit a off = true ->
  Z.lor (Z.land a (Z.lnot (Z.shiftl 1 off))) (Z.shiftl 1 off) = a.
Proof.
  intros Ho Hb. rewrite Z.shiftl_1_l. apply Z.bits_inj'. intros n Hn.
  rewrite Z.lor_spec, Z.land_spec, Z.lnot_spec, Z.pow2_bits_eqb by done.
  destruct (Z.eqb_spec off n) as [<-|]; cbn [negb].
  - by rewrite orb_true_r, Hb.
  - by rewrite andb_true_r, orb_false_r.
Qed.

Lemma cap_at_bit s p :
  slot_ok p -> cap_at s p = p -> Z.testbit (h_amap (line_hdr s p)) (slot_of p) = true.
Proof.
  intros Hp. pose proof (slot_line p Hp) as (Hpl & _). pose proof (proj1 Hp) as Hpr.
  unfold PAGE_SIZE in Hpr. unfold cap_at, cap_of_line.
  destruct (Z.testbit _ _) eqn:E; [|lia]. intros H.
  by replace (slot_of p - slot_of p mod 2 ^ h_size (line_hdr s p)) with (slot_of p) in E by lia.
Qed.

(** A slot just removed accepts a capability of its old size again. *)
Lemma released_addable s p lid newtype type :
  slot_ok p -> line_ok (line_hdr s p) = true -> cap_at s p = p ->
  Z.land (h_flags (line_hdr s p)) CAP_FLAG_RO = 0 ->
  h_size (line_hdr s p) = __captbl_cap2sz type ->
  addable (released p lid newtype s) p type.
Proof.
  intros Hp Hl Hat Hro Hsz. pose proof (slot_line p Hp) as (_ & Hso & _).
  assert (h_size (line_hdr s p) <= 2) as Hs2 by by apply line_ok_size.
  pose proof (cap2sz_range type) as Hr.
  destruct (released_change s p lid newtype Hp) as [Hl' _].
  destruct (rel_hdr_fields (line_hdr s p) (slot_of p) lid newtype) as (Hok & Hs & Hf & Ha);
    [apply hdr_of_ok|done|]. unfold addable. cbv zeta. rewrite Hl', Hf, Ha, Hs.
  split_and!; [lia| |by right|done|].
  - rewrite Z.land_spec, Z.lnot_spec, Z.shiftl_1_l, Z.pow2_bits_true by lia. apply andb_false_r.
  - destruct (add_hdr_fields (rel_hdr (line_hdr s p) (slot_of p) lid newtype) (slot_of p)
      (__captbl_cap2sz type) type) as (Ha2 & Hs2' & _); [done|done|lia|].
    unfold __captbl_header_validate. rewrite Hs2', Z.eqb_refl, Ha2, Ha. cbn [negb].
    rewrite amap_drop_add by (lia || by apply cap_at_bit).
    unfold line_ok in Hl. apply andb_prop in Hl as [_ Hl]. apply Z.eqb_eq in Hl.
    rewrite Hsz in Hl. revert Hl. unfold cap_mask.
    unfold CAP_SZ_16B, CAP_SZ_32B, CAP_SZ_64B. repeat case_match; try done.
    rewrite ?Z.eqb_neq in *. lia.
Qed.

(** The single-entry check, on a slot of the right size. *)
Lemma add_check_same_size p h l sz s :
  PAGE_SIZE <= p -> h_size l = sz ->
  let hp := hdr_of (word s p) in
  h_liveness_id hp < LTBL_ENTS ->
  captbl_add_check p h l sz s =
  if hdr_deactivated hp then
    Ok (if QUIESCENCE_CHECK (u64 (ktsc s (kticks s)))
             (deact_timestamp (lent s (h_liveness_id hp))) KERN_QUIESCENCE_CYCLES
        then None else Some (- EQUIESCENCE)) (with_ticks (S (kticks s)) s)
  else Ok None s.
Proof.
  intros Hp Hsz hp Hlid. unfold captbl_add_check. rewrite Hsz, Z.eqb_refl, andb_false_r.
  rewrite (bind_Ok _ _ _ _ _ (load_hdr_Ok p s Hp)). fold hp.
  destruct (hdr_deactivated hp); [|done].
  rewrite (bind_Ok _ _ _ _ _ (rdtscll_Ok s)). unfold captbl_quiescent, ltbl_get_timestamp.
  rewrite (proj2 (Z.leb_gt _ _)) by lia. unfold bind. rewrite ltbl_lkup_Ok by done.
  unfold ret. by destruct (QUIESCENCE_CHECK _ _ _).
Qed.

(** What [captbl_add] does right after [captbl_add] and [captbl_del] of the
    same type under the same id. *)
Lemma captbl_readd s t cap type lid p s1 s2 :
  captbl_wf s t -> 0 <= cap -> captbl_add t cap type s = Ok (p, 0) s1 ->
  captbl_del t cap type lid s1 = Ok 0 s2 ->
  captbl_add t cap type s2 =
  let now := u64 (ktsc s1 (S (kticks s1))) in
  if (u16 lid =? 0) then Ok (p, 0) (added p type s2)
  else if QUIESCENCE_CHECK now (deact_timestamp (lent s2 (u16 lid))) KERN_QUIESCENCE_CYCLES
  then Ok (p, 0) (added p type (with_ticks (S (S (kticks s1))) s2))
  else Ok (0, - EQUIESCENCE) (with_ticks (S (S (kticks s1))) s2).
Proof.
  intros Hwf Hc0 Hadd Hdel.
  apply captbl_add_inv in Hadd as [(_ & H & _)|(_ & Hc & Hp & Had & s0 & (n & -> & _) & ->)];
    [lia| |done..].
  change (captbl_wf (with_ticks n s) t) in Hwf. change (addable (with_ticks n s) p type) in Had.
  change (captbl_pos (with_ticks n s) t cap = Some p) in Hp.
  generalize dependent (with_ticks n s). clear s n. intros s Hwf Hp Had Hdel.
  destruct (added_table s t cap p type) as [Hwf1 Hpos1]; [done..|].
  set (s1 := added p type s) in *.
  assert (slot_ok p) as Hs by by eapply captbl_pos_bounded.
  assert (h_size (line_hdr s1 p) = __captbl_cap2sz type) as Hsz.
  { unfold s1. destruct (added_change s p type Hs Had) as [-> _]. destruct Had as (Hsz & _).
    apply add_hdr_fields; [apply hdr_of_ok|apply (slot_line p Hs)|].
    pose proof (cap2sz_range type). lia. }
  apply captbl_del_inv in Hdel as [[H _]|H]; [lia| |done..].
  destruct H as (_ & _ & Hlid & p' & Hp' & Hat & _ & Hro & ->).
  rewrite Hpos1, Hp in Hp' by lia. injection Hp' as <-.
  set (s1' := lput _ _ _). set (s2 := released p lid _ s1').
  assert (captbl_pos s1' t cap = Some p) as Hp1 by (etrans; [exact (Hpos1 cap ltac:(lia))|done]).
  destruct (captbl_pos_ok s1 t cap p) as (_ & Hl & _); [done|lia|done|].
  destruct (released_table s1' t cap p lid CAP_QUIESCENCE) as [Hwf2 Hpos2]; [done|lia|done|].
  destruct (released_slot_hdr s1' p lid CAP_QUIESCENCE Hs) as [Hty Hli]; [done|].
  assert (addable s2 p type) as Had2 by (apply released_addable; done).
  rewrite (captbl_add_run s2 t cap type p) by (done || lia || by rewrite Hpos2 by lia).
  fold s2 in Hty, Hli. unfold bind.
  rewrite add_check_same_size; [|apply Hs| |].
  - unfold hdr_deactivated. rewrite Hty, Hli, Z.eqb_refl, andb_true_r.
    assert (kticks s2 = S (kticks s1)) as Hk by (unfold s2, released; by case_match).
    assert (ktsc s2 = ktsc s1) as Ht by (unfold s2, released; by case_match).
    rewrite Hk, Ht. cbv zeta. destruct (u16 lid =? 0); cbn [negb]; [done|].
    by destruct (QUIESCENCE_CHECK _ _ _).
  - cbn [h_size set_amap]. unfold s2. destruct (released_change s1' p lid CAP_QUIESCENCE Hs) as [-> _].
    rewrite <- Hsz. apply rel_hdr_fields; [apply hdr_of_ok|apply (slot_line p Hs)].
  - rewrite Hli. pose proof (Z.mod_pos_bound lid 65536 eq_refl). unfold u16.
    change LTBL_ENTS with 1048576. lia.
Qed.

(** ** Creation, expansion and pruning *)

Definition empty_hdr : cap_header := Hdr 0 0 CAP_SZ_64B 0 CAP_FREE.

(** A leaf as [captbl_init] leaves it. *)
Definition leaf_empty (s : kstate) (a : Z) : Prop :=
  node_ok a /\ forall i, 0 <= i < 128 -> word s (a + 16 * i) = word_of empty_hdr.

Lemma leaf_empty_ok s a : leaf_empty s a -> leaf_ok s a.
Proof.
  intros [Hn Hw]. split; [done|]. intros i Hi.
  replace (a + 64 * i) with (a + 16 * (4 * i)) by lia. rewrite Hw by lia. reflexivity.
Qed.

Lemma leaf_empty_cap_at s a i : leaf_empty s a -> 0 <= i < 128 -> cap_at s (a + 16 * i) = 0.
Proof.
  intros [[Ha _] Hw] Hi. unfold cap_at, line_hdr, cap_of_line, line_of.
  replace (a + 16 * i - (a + 16 * i) mod 64) with (a + 16 * (4 * (i / 4)))
    by (Z.div_mod_to_equations; lia).
  rewrite Hw by (Z.div_mod_to_equations; lia). change (h_amap (hdr_of (word_of empty_hdr))) with 0.
  by rewrite Z.bits_0.
Qed.

Lemma captbl_init_leaf a s :
  node_ok a ->
  exists m, captbl_init a true s = Ok tt (with_mem m s) /\ leaf_empty (with_mem m s) a /\
    forall b, ~ (a <= b < a + 2048) -> word (with_mem m s) b = word s b.
Proof.
  intros Hn. pose proof Hn as [_ Hr]. unfold PAGE_SIZE in Hr.
  destruct (for_store_range 128 0 (fun i => a + i * CAPTBL_LEAFSZ) (fun _ => word_of empty_hdr) s)
    as (m & H & Hin & Hout); unfold CAPTBL_LEAFSZ in *; [unfold PAGE_SIZE; lia|lia|].
  exists m. split; [exact H|]. split.
  - split; [done|]. intros i Hi. rewrite (Z.mul_comm 16), Hin by lia. reflexivity.
  - intros b Hb. apply Hout. lia.
Qed.

Lemma captbl_init_node a s :
  node_ok a ->
  exists m, captbl_init a false s = Ok tt (with_mem m s) /\
    (forall i, 0 <= i < 512 -> word (with_mem m s) (a + 4 * i) = 0) /\
    forall b, ~ (a <= b < a + 2048) -> word (with_mem m s) b = word s b.
Proof.
  intros Hn. pose proof Hn as [_ Hr]. unfold PAGE_SIZE in Hr.
  destruct (for_store_range 512 0 (fun i => a + i * CAPTBL_INTERNSZ) (fun _ => 0) s)
    as (m & H & Hin & Hout); unfold CAPTBL_INTERNSZ in *; [unfold PAGE_SIZE; lia|lia|].
  exists m. split; [exact H|]. split.
  - intros i Hi. rewrite (Z.mul_comm 4), Hin by lia. reflexivity.
  - intros b Hb. apply Hout. lia.
Qed.

(** The allocation initializes the root once more. *)
Lemma captbl_alloc_Ok a s :
  node_ok a ->
  exists m, captbl_alloc a s = Ok a (with_mem m s) /\
    forall b, ~ (a <= b < a + 2048) -> word (with_mem m s) b = word s b.
Proof.
  intros Hn. pose proof Hn as [Hm Hr]. unfold PAGE_SIZE in Hr.
  destruct (for_store_range 512 0 (fun i => u32 (a + 4 * i)) (fun _ => 0) s)
    as (m & H & Hin & Hout); [intros; unfold u32, PAGE_SIZE; Z.div_mod_to_equations; lia
    |intros j k Hj Hk; unfold u32; Z.div_mod_to_equations; lia|].
  exists m. split.
  - assert (__ert_init __captbl a false s = Ok tt (with_mem m s)) as Hinit.
    { unfold __ert_init. rewrite (proj2 (Z.eqb_neq a 0)) by lia. exact H. }
    unfold captbl_alloc, ert_alloc.
    change (order __captbl * (depth __captbl - 1) + last_order __captbl <? 32) with true.
    change (1 <=? depth __captbl) with true. change (depth __captbl >? 1) with true.
    change (depth __captbl =? 1) with false.
    change (allocfn __captbl a (1 ≪ order __captbl * intern_sz __captbl) false)
      with (ret (S:=kstate) (a, 0)).
    unfold massert, bind, ret. rewrite (proj2 (Z.eqb_neq a 0)) by lia. by rewrite Hinit.
  - intros b Hb. apply Hout. intros j Hj. unfold u32. Z.div_mod_to_equations. lia.
Qed.

Lemma captbl_leaf_init L s : L <> 0 -> __ert_init __captbl L true s = Ok tt s.
Proof.
  intros HL. unfold __ert_init. rewrite (proj2 (Z.eqb_neq L 0)) by done.
  assert (forall n i, for_n n i (fun _ => ret (S:=kstate) tt) s = Ok tt s) as Hskip
    by (intros n; induction n as [|n IH]; intros i; [done|apply IH]).
  cbn [negb]. rewrite (bind_Ok _ _ _ _ _ (massert_Ok true s eq_refl)). cbv zeta.
  change (fun i => initfn __captbl (u32 (L + last_sz __captbl * i)) true)
    with (fun _ : Z => ret (S:=kstate) tt). apply Hskip.
Qed.

(** Linking the leaf [L] for [cap] into the root [t]. *)
Definition linked (t cap L : Z) (s : kstate) : kstate := put (t + 4 * (cap / 128)) L s.

Lemma captbl_expand_cases s t cap L :
  captbl_wf s t -> 0 <= cap < 65536 -> L < 4294967296 ->
  captbl_expand t cap 2 L s =
  if captbl_leaf s t cap =? 0 then
    if L =? 0 then Ok 1 s else Ok 0 (linked t cap L s)
  else if L =? 0 then Ok 0 s else Ok (- EEXIST) s.
Proof.
  intros Hwf Hc HL. pose proof Hwf as [Ht _]. pose proof Ht as [_ Hr].
  unfold captbl_expand. rewrite captbl_maxid_eq, (proj2 (Z.leb_gt _ _)) by lia.
  change (captbl_maxdepth <? 2) with false. cbn [orb]. unfold __captbl_expandn, bind.
  assert (PAGE_SIZE <= t + 4 * (cap / 128)) as Hdir by (Z.div_mod_to_equations; lia).
  assert (0 <= order __captbl) as Ho by done. assert (0 <= last_order __captbl) as Hlo by done.
  assert (t <> 0) as Ht0 by (unfold PAGE_SIZE in *; lia).
  assert (cap < __ert_maxid __captbl) as Hid by (change (__ert_maxid __captbl) with 65536; lia).
  rewrite <- (captbl_dir t cap) in Hdir by done.
  assert (el_null (word s (ert_dir __captbl t cap)) = (captbl_leaf s t cap =? 0)) as Hnull
    by (by rewrite captbl_dir).
  destruct (Z.eqb_spec (captbl_leaf s t cap) 0) as [E|E].
  - destruct (Z.eqb_spec L 0) as [->|HL0].
    + by rewrite (ert_expand_nomem __captbl eq_refl Ho Hlo t cap 0 0 0 s 0 Ht0 Hid Hdir Hnull eq_refl).
    + rewrite (ert_expand_absent __captbl eq_refl Ho Hlo t cap 0 L 0 s L 0 s (linked t cap L s) 0
        (RMem (ert_dir __captbl t cap)) Ht0 Hid Hdir Hnull eq_refl HL0 (captbl_leaf_init L s HL0));
        [done|].
      cbn [setfn __captbl ert_defset]. rewrite (bind_Ok _ _ _ _ _ (store_Ok _ _ s Hdir)).
      by rewrite captbl_dir by done.
  - rewrite (ert_expand_present __captbl eq_refl Ho Hlo t cap 0 L 0 s Ht0 Hid Hdir Hnull).
    by destruct (Z.eqb_spec L 0).
Qed.

Lemma linked_dir s t cap L i :
  is_u32 L -> 0 <= i < 512 ->
  word (linked t cap L s) (t + 4 * i) = if i =? cap / 128 then L else word s (t + 4 * i).
Proof.
  intros HL Hi. unfold linked. destruct (Z.eqb_spec i (cap / 128)) as [->|Hne].
  - by rewrite word_put_eq, u32_small.
  - rewrite word_put_ne by lia. done.
Qed.

(** Words of other nodes than the root are not affected. *)
Lemma linked_other s t cap L a b :
  node_ok t -> node_ok a -> a <> t -> 0 <= cap < 65536 -> a <= b < a + 2048 ->
  word (linked t cap L s) b = word s b.
Proof.
  intros [Ht _] [Ha _] Hne Hc Hb. unfold linked. apply word_put_ne.
  Z.div_mod_to_equations. lia.
Qed.

Lemma linked_leaf_ok s t cap L a :
  node_ok t -> a <> t -> 0 <= cap < 65536 -> leaf_ok s a -> leaf_ok (linked t cap L s) a.
Proof.
  intros Ht Hne Hc [Hn Hl]. split; [done|]. intros i Hi.
  rewrite (linked_other s t cap L a) by (done || lia). by apply Hl.
Qed.

Lemma linked_wf s t cap L :
  captbl_wf s t -> 0 <= cap < 65536 -> leaf_ok s L -> L <> t -> captbl_wf (linked t cap L s) t.
Proof.
  intros Hwf Hc HL Hne. pose proof Hwf as [Ht Hdir]. pose proof HL as [[_ HLr] _].
  split; [done|]. intros i Hi.
  rewrite linked_dir by (done || unfold is_u32, PAGE_SIZE in *; lia).
  destruct (Z.eqb_spec i (cap / 128)) as [->|].
  - right. split; [done|]. by apply linked_leaf_ok.
  - destruct (Hdir i Hi) as [|[? ?]]; [by left|right]. split; [done|]. by apply linked_leaf_ok.
Qed.

Lemma linked_pos s t cap L cap' :
  0 <= cap' < 65536 -> node_ok L ->
  captbl_pos (linked t cap L s) t cap' =
  if cap' / 128 =? cap / 128 then Some (L + 16 * (cap' mod 128)) else captbl_pos s t cap'.
Proof.
  intros Hc' [_ HL]. unfold PAGE_SIZE in HL. unfold captbl_pos, captbl_leaf.
  rewrite linked_dir by (unfold is_u32; Z.div_mod_to_equations; lia).
  destruct (cap' / 128 =? cap / 128); [|done]. by rewrite (proj2 (Z.eqb_neq L 0)) by lia.
Qed.

Lemma linked_ref_lkup s t cap L cap' :
  node_ok t -> 0 <= cap < 65536 -> leaf_empty s L -> L <> t -> 0 <= cap' < 65536 ->
  captbl_wf s t ->
  captbl_ref_lkup (linked t cap L s) t cap' =
  if cap' / 128 =? cap / 128 then 0 else captbl_ref_lkup s t cap'.
Proof.
  intros Ht Hc HL Hne Hc' Hwf. unfold captbl_ref_lkup. rewrite linked_pos by (done || apply HL).
  destruct (cap' / 128 =? cap / 128).
  - apply leaf_empty_cap_at; [|Z.div_mod_to_equations; lia]. destruct HL as [Hn Hw].
    split; [done|]. intros i Hi. rewrite (linked_other s t cap L L) by (done || lia). by apply Hw.
  - destruct (captbl_pos s t cap') as [q|] eqn:Eq; [|done].
    destruct (captbl_pos_ok s t cap' q Hwf Hc' Eq) as (Hq & _ & Hnt & [Hn _] & Hlo & Hhi).
    pose proof (slot_line q Hq) as (Hql & Hqo & _).
    unfold cap_at, line_hdr. by rewrite (linked_other s t cap L (captbl_leaf s t cap')) by (done || lia).
Qed.

Lemma captbl_prune_Ok s t cap :
  captbl_wf s t -> 0 <= cap < 65536 ->
  captbl_prune t cap 1 s = Ok (captbl_leaf s t cap, 0) (linked t cap 0 s).
Proof.
  intros Hwf Hc. pose proof Hwf as [Ht _]. pose proof Ht as [_ Hr].
  assert (PAGE_SIZE <= t + 4 * (cap / 128)) as Hdir by (Z.div_mod_to_equations; lia).
  unfold captbl_prune. rewrite captbl_maxid_eq, (proj2 (Z.leb_gt _ _)) by lia.
  change (captbl_maxdepth <=? 1) with false. cbn [orb].
  assert (__captbl_lkupan t cap 1 s = Ok (t + 4 * (cap / 128)) s) as Hl.
  { unfold __captbl_lkupan, __captbl_lkupani, bind.
    rewrite (ert_lookup_dir __captbl) by ct_side. by rewrite captbl_dir. }
  rewrite (bind_Ok _ _ _ _ _ Hl). unfold PAGE_SIZE in *.
  rewrite (proj2 (Z.eqb_neq _ 0)) by lia.
  rewrite (bind_Ok _ _ _ _ _ (load_Ok _ s Hdir)).
  by rewrite (bind_Ok _ _ _ _ _ (captbl_store_Ok _ 0 _ s Hdir eq_refl)).
Qed.

Lemma captbl_create_ok page s :
  page mod 4096 = 0 -> PAGE_SIZE <= page < 4294967296 ->
  exists s', captbl_create page s = Ok page s' /\ captbl_wf s' page /\
    leaf_empty s' (page + 2048) /\
    (forall cap, 0 <= cap < 65536 -> captbl_pos s' page cap =
       if cap <? 128 then Some (page + 2048 + 16 * cap) else None) /\
    (forall a, ~ (page <= a < page + PAGE_SIZE) -> word s' a = word s a).
Proof.
  intros Hpg Hr. unfold PAGE_SIZE in *.
  assert (node_ok page) as Hn by (split; [Z.div_mod_to_equations; lia|unfold PAGE_SIZE; lia]).
  assert (node_ok (page + 2048)) as Hn2
    by (split; unfold PAGE_SIZE; Z.div_mod_to_equations; lia).
  destruct (captbl_alloc_Ok page s Hn) as (m1 & H1 & F1).
  destruct (captbl_init_node page (with_mem m1 s) Hn) as (m2 & H2 & Z2 & F2).
  destruct (captbl_init_leaf (page + 2048) (with_mem m2 s) Hn2) as (m3 & H3 & L3 & F3).
  change (with_mem m2 (with_mem m1 s)) with (with_mem m2 s) in *.
  change (with_mem m3 (with_mem m2 s)) with (with_mem m3 s) in *.
  assert (forall i, 0 <= i < 512 -> word (with_mem m3 s) (page + 4 * i) = 0) as Z3
    by (intros i Hi; rewrite F3 by lia; by apply Z2).
  assert (captbl_wf (with_mem m3 s) page) as Hwf by (split; [done|]; intros i Hi; left; by apply Z3).
  assert (captbl_leaf (with_mem m3 s) page 0 = 0) as Hl0 by (apply (Z3 0); lia).
  exists (linked page 0 (page + 2048) (with_mem m3 s)). split_and!.
  - unfold captbl_create. rewrite (proj2 (Z.eqb_neq page 0)) by lia. cbn [negb].
    rewrite (bind_Ok _ _ _ _ _ (massert_Ok true s eq_refl)), (bind_Ok _ _ _ _ _ H1).
    rewrite (proj2 (Z.eqb_neq page 0)) by lia. cbn [negb].
    rewrite (bind_Ok _ _ _ _ _ (massert_Ok true _ eq_refl)), (bind_Ok _ _ _ _ _ H2).
    change (PAGE_SIZE / 2) with 2048. rewrite (bind_Ok _ _ _ _ _ H3). unfold bind.
    change captbl_maxdepth with 2.
    rewrite captbl_expand_cases, Hl0, (proj2 (Z.eqb_neq (page + 2048) 0)); done || (destruct Hn2; lia).
  - apply linked_wf; [done|lia|by apply leaf_empty_ok|lia].
  - destruct L3 as [_ Hw]. split; [done|]. intros i Hi.
    rewrite (linked_other _ page 0 _ (page + 2048)) by (done || lia). by apply Hw.
  - intros cap Hc. rewrite linked_pos by done. change (0 / 128) with 0.
    unfold captbl_pos, captbl_leaf. rewrite Z3 by (Z.div_mod_to_equations; lia). cbn [Z.eqb].
    destruct (Z.ltb_spec cap 128).
    + rewrite Z.div_small, Z.mod_small by lia. done.
    + rewrite (proj2 (Z.eqb_neq _ 0)); [done|]. Z.div_mod_to_equations. lia.
  - intros a Ha. unfold linked. rewrite word_put_ne by (change (0 / 128) with 0; lia).
    rewrite F3, F2, F1 by lia. done.
Qed.

(** ** A sample table

    The page at 4 MiB, made a table and given one capability. *)

Definition ct_page : Z := 4194304.
Definition ct0 : kstate := run_state kstate0 (captbl_create ct_page kstate0).
Definition ct1 : kstate := run_state kstate0 (captbl_add ct_page 4 CAP_SINV ct0).
Definition ct2 : kstate := run_state kstate0 (captbl_del ct_page 4 CAP_SINV 7 ct1).

Lemma ct0_wf : captbl_wf ct0 ct_page.
Proof.
  destruct (captbl_create_ok ct_page kstate0) as (s' & H & Hwf & _); [done|done|].
  unfold ct0. by rewrite H.
Qed.

Lemma ct0_leaf : leaf_empty ct0 (ct_page + 2048) /\ captbl_pos ct0 ct_page 200 = None.
Proof.
  destruct (captbl_create_ok ct_page kstate0) as (s' & H & _ & HL & Hpos & _); [done|done|].
  unfold ct0. rewrite H. clear H. exact (conj HL (Hpos 200 ltac:(lia))).
Qed.

#[global] Opaque ct0.

Lemma ct1_eq : captbl_add ct_page 4 CAP_SINV ct0 = Ok (4196416, 0) ct1.
Proof. apply run_ok. by vm_compute. Qed.
#[global] Opaque ct1.

Lemma ct1_wf : captbl_wf ct1 ct_page.
Proof.
  exact (captbl_add_wf ct0 ct_page 4 CAP_SINV 4196416 ct1 ct0_wf ltac:(lia) ct1_eq).
Qed.

Lemma ct2_eq : captbl_del ct_page 4 CAP_SINV 7 ct1 = Ok 0 ct2.
Proof. apply run_ok. by vm_compute. Qed.
#[global] Opaque ct2.

(** ** Properties *)

(** Capability lookup: for every id, [captbl_lkup] returns, without
    changing any state, the capability that the digits of the id and the
    allocation map of the line select by the mask-free reference definition;
    ids are taken modulo the table size.  Both the fast path for 64-byte
    capabilities and the branch-free path of [__captbl_getleaf] are covered. *)
Theorem captbl_lkup_correct s t cap :
  captbl_wf s t -> captbl_lkup t cap s = Ok (captbl_ref_lkup s t (cap mod 65536)) s.
Proof. apply captbl_lkup_ref. Qed.

(** C13. A capability that [captbl_add] installed is the one that
    [captbl_lkup] finds under its id; its header has the requested type and
    no liveness id, and the table is still well formed. *)
Theorem captbl_add_lkup s t cap type p s' :
  captbl_wf s t -> 0 <= cap -> captbl_add t cap type s = Ok (p, 0) s' ->
  captbl_wf s' t /\ captbl_lkup t cap s' = Ok p s' /\
  h_type (hdr_of (word s' p)) = type /\ h_liveness_id (hdr_of (word s' p)) = 0.
Proof.
  intros Hwf Hc0 H. apply captbl_add_inv in H as [(_ & H & _)|(_ & Hc & Hp & Hadd & s1 & Hclk & ->)];
    [lia| |done..].
  destruct Hclk as (n & -> & _). change (captbl_wf (with_ticks n s) t) in Hwf.
  change (addable (with_ticks n s) p type) in Hadd.
  change (captbl_pos (with_ticks n s) t cap = Some p) in Hp.
  generalize dependent (with_ticks n s). clear s n. intros s Hwf Hp Hadd.
  destruct (added_table s t cap p type) as [Hwf' Hpos]; [done..|].
  assert (slot_ok p) as Hs by by eapply captbl_pos_bounded.
  destruct (added_slot_hdr s p type Hs Hadd) as [Hty Hlid]. split_and!; try done.
  rewrite captbl_lkup_ref by done. rewrite Z.mod_small by lia. unfold captbl_ref_lkup.
  rewrite Hpos, Hp by lia. rewrite added_cap_at, in_cap_bool, bool_decide_true; [done| |done..].
  unfold in_cap, __captbl_cap2bytes. rewrite Z.shiftl_1_l.
  pose proof (Z.pow_pos_nonneg 2 (__captbl_cap2sz type + CAP_SZ_OFF)).
  pose proof (cap2sz_range type). unfold CAP_SZ_OFF in *. lia.
Qed.

Lemma captbl_add_lkup_witness : captbl_lkup ct_page 4 ct1 = Ok 4196416 ct1.
Proof.
  apply (captbl_add_lkup ct0 ct_page 4 CAP_SINV 4196416 ct1 ct0_wf ltac:(lia) ct1_eq).
Defined.

Lemma captbl_lkup_correct_witness :
  captbl_lkup ct_page 4 ct1 = Ok 4196416 ct1 /\ captbl_lkup ct_page 6 ct1 = Ok 4196416 ct1.
Proof.
  split; rewrite (captbl_lkup_correct ct1 ct_page _ ct1_wf); f_equal; by vm_compute.
Defined.

(** C14. [captbl_add] affects no other capability: an id whose slot is not
    among the bytes of the new capability looks up to the same capability as
    before, even in the cache line whose size the operation changed; and
    only the words of the slot and of its line's header are written. *)
Theorem captbl_add_frame s t cap type p s' cap' q :
  captbl_wf s t -> 0 <= cap -> captbl_add t cap type s = Ok (p, 0) s' ->
  0 <= cap' < 65536 -> captbl_pos s t cap' = Some q ->
  ~ in_cap p (__captbl_cap2bytes type) q ->
  (forall r, captbl_lkup t cap' s = Ok r s -> captbl_lkup t cap' s' = Ok r s') /\
  (forall a, a <> p -> a <> line_of p -> word s' a = word s a).
Proof.
  intros Hwf Hc0 H Hc' Hq Hout.
  apply captbl_add_inv in H as [(_ & H & _)|(_ & Hc & Hp & Hadd & s1 & Hclk & ->)]; [lia| |done..].
  destruct Hclk as (n & -> & _). split.
  - intros r. rewrite captbl_lkup_ref by done. intros [= <-].
    change (captbl_wf (with_ticks n s) t) in Hwf. change (addable (with_ticks n s) p type) in Hadd.
    change (captbl_pos (with_ticks n s) t cap = Some p) in Hp.
    change (captbl_pos (with_ticks n s) t cap' = Some q) in Hq.
    change (captbl_ref_lkup s t (cap' mod 65536))
      with (captbl_ref_lkup (with_ticks n s) t (cap' mod 65536)).
    generalize dependent (with_ticks n s). clear s n. intros s Hwf Hp Hadd Hq.
    destruct (added_table s t cap p type) as [Hwf' Hpos]; [done..|].
    rewrite captbl_lkup_ref by done. rewrite Z.mod_small by lia. unfold captbl_ref_lkup.
    rewrite Hpos, Hq by done. rewrite added_cap_at, in_cap_bool, bool_decide_false; [done..| | |done];
      by eapply captbl_pos_bounded.
  - intros a H1 H2. assert (slot_ok p) as Hs by by eapply captbl_pos_bounded.
    by apply (added_change (with_ticks n s) p type).
Qed.

Lemma captbl_add_frame_witness : word ct1 ct_page = word ct0 ct_page.
Proof.
  apply (captbl_add_frame ct0 ct_page 4 CAP_SINV 4196416 ct1 12 4196544 ct0_wf);
    first [exact ct1_eq | lia | by vm_compute
          | unfold in_cap; change (__captbl_cap2bytes CAP_SINV) with 64; lia].
Defined.

(** A failing [captbl_add] returns no slot and a negative error, and
    changes neither memory nor any table. *)
Theorem captbl_add_error s t cap type p r s' :
  captbl_wf s t -> 0 <= cap -> captbl_add t cap type s = Ok (p, r) s' -> r <> 0 ->
  p = 0 /\ r < 0 /\ exists n, s' = with_ticks n s.
Proof.
  intros Hwf Hc0 H Hr.
  apply captbl_add_inv in H as [(-> & H & n & -> & _)|(-> & _)]; eauto; done.
Qed.

Lemma captbl_add_error_witness : exists n, ct1 = with_ticks n ct1.
Proof.
  apply (captbl_add_error ct1 ct_page 4 CAP_SINV 0 (- EEXIST) ct1 ct1_wf);
    first [lia | done | by vm_compute].
Defined.

(** C15. A successful [captbl_del] removes exactly the capability: its id, and
    every id among its bytes, then looks up to [NULL]; every other id looks
    up as before; the table is well formed; and the liveness entry [lid]
    has the time of the removal. *)
Theorem captbl_del_correct s t cap type lid s' :
  captbl_wf s t -> 0 <= cap -> captbl_del t cap type lid s = Ok 0 s' ->
  exists p, captbl_pos s t cap = Some p /\ captbl_wf s' t /\
    captbl_lkup t cap s = Ok p s /\ captbl_lkup t cap s' = Ok 0 s' /\
    deact_timestamp (lent s' lid) = u64 (ktsc s (kticks s)) /\
    forall cap' q, 0 <= cap' < 65536 -> captbl_pos s t cap' = Some q ->
      captbl_lkup t cap' s' =
      Ok (if bool_decide (in_cap p (16 * 2 ^ h_size (line_hdr s p)) q) then 0
          else captbl_ref_lkup s t cap') s'.
Proof.
  intros Hwf Hc0 H. apply captbl_del_inv in H as [[H _]|H]; [lia| |done..].
  destruct H as (_ & Hc & _ & p & Hp & Hat & _ & _ & ->). exists p.
  set (s1 := lput _ _ _). change (captbl_wf s1 t) in Hwf.
  change (captbl_pos s1 t cap = Some p) in Hp. change (cap_at s1 p = p) in Hat.
  assert (captbl_lkup t cap s = Ok p s) as Hlk.
  { rewrite captbl_lkup_ref by done. rewrite Z.mod_small by lia. unfold captbl_ref_lkup.
    change (captbl_pos s t cap) with (captbl_pos s1 t cap). rewrite Hp.
    change (cap_at s p) with (cap_at s1 p). by rewrite Hat. }
  split_and!; try done.
  - by apply (released_table s1 t cap p).
  - rewrite (released_lkup s1 t cap p _ _ cap p) by (done || lia). rewrite bool_decide_true; [done|].
    unfold in_cap. pose proof (Z.pow_pos_nonneg 2 (h_size (line_hdr s1 p))).
    assert (0 <= h_size (line_hdr s1 p)) by apply hdr_of_ok. lia.
  - unfold released. case_match; rewrite ?lent_put; unfold s1; by rewrite lent_lput_eq.
  - intros cap' q Hc' Hq. by apply (released_lkup s1 t cap p).
Qed.

Lemma captbl_del_correct_witness :
  exists p, captbl_lkup ct_page 4 ct1 = Ok p ct1 /\ captbl_lkup ct_page 4 ct2 = Ok 0 ct2.
Proof.
  destruct (captbl_del_correct ct1 ct_page 4 CAP_SINV 7 ct2 ct1_wf ltac:(lia) ct2_eq)
    as (p & _ & _ & H1 & H2 & _).
  exact (ex_intro _ p (conj H1 H2)).
Defined.

(** [captbl_clear] removes exactly the capability, like [captbl_del],
    and leaves the liveness table alone. *)
Theorem captbl_clear_correct s t cap type lid s' :
  captbl_wf s t -> 0 <= cap -> captbl_clear t cap type lid s = Ok 0 s' ->
  exists p, captbl_pos s t cap = Some p /\ captbl_wf s' t /\ kltbl s' = kltbl s /\
    captbl_lkup t cap s = Ok p s /\
    forall cap' q, 0 <= cap' < 65536 -> captbl_pos s t cap' = Some q ->
      captbl_lkup t cap' s' =
      Ok (if bool_decide (in_cap p (16 * 2 ^ h_size (line_hdr s p)) q) then 0
          else captbl_ref_lkup s t cap') s'.
Proof.
  intros Hwf Hc0 H. apply captbl_clear_inv in H as [[H _]|H]; [lia| |done..].
  destruct H as (_ & Hc & p & Hp & Hat & _ & ->). exists p. split_and!; try done.
  - by apply (released_table s t cap p).
  - unfold released. by case_match.
  - rewrite captbl_lkup_ref by done. rewrite Z.mod_small by lia. unfold captbl_ref_lkup.
    by rewrite Hp, Hat.
  - intros cap' q Hc' Hq. by apply (released_lkup s t cap p).
Qed.

Lemma captbl_clear_correct_witness :
  captbl_wf (run_state kstate0 (captbl_clear ct_page 4 CAP_SINV 0 ct1)) ct_page.
Proof.
  destruct (captbl_clear_correct ct1 ct_page 4 CAP_SINV 0 _ ct1_wf ltac:(lia)
    (run_ok kstate0 (captbl_clear ct_page 4 CAP_SINV 0 ct1) 0 ltac:(by vm_compute)))
    as (p & _ & H & _). exact H.
Defined.

(** A failing [captbl_del] or [captbl_clear] changes nothing at all. *)
Theorem captbl_remove_error s t cap type lid :
  captbl_wf s t -> 0 <= cap ->
  (forall r s', captbl_del t cap type lid s = Ok r s' -> r <> 0 -> r < 0 /\ s' = s) /\
  (forall r s', captbl_clear t cap type lid s = Ok r s' -> r <> 0 -> r < 0 /\ s' = s).
Proof.
  intros Hwf Hc. split; intros r s' H Hr.
  - by apply captbl_del_inv in H as [H|(-> & _)].
  - by apply captbl_clear_inv in H as [H|(-> & _)].
Qed.

Lemma captbl_remove_error_witness :
  run_state kstate0 (captbl_del ct_page 4 CAP_THD 7 ct1) = ct1.
Proof.
  exact (proj2 (proj1 (captbl_remove_error ct1 ct_page 4 CAP_THD 7 ct1_wf ltac:(lia)) _ _
    (run_ok kstate0 (captbl_del ct_page 4 CAP_THD 7 ct1) (- EINVAL) ltac:(by vm_compute))
    ltac:(discriminate))).
Defined.



(** The liveness id in a capability header has 16 bits: a capability
    removed with a larger id whose low half is zero is not protected, and its
    slot is reused at once. *)
Theorem captbl_quiescence_truncated s t cap type lid p s1 s2 :
  captbl_wf s t -> 0 <= cap -> captbl_add t cap type s = Ok (p, 0) s1 ->
  lid mod 65536 = 0 -> captbl_del t cap type lid s1 = Ok 0 s2 ->
  exists s3, captbl_add t cap type s2 = Ok (p, 0) s3.
Proof.
  intros Hwf Hc Hadd Hlid Hdel. rewrite (captbl_readd s t cap type lid p s1 s2) by done.
  cbv zeta. unfold u16. rewrite Hlid. by eexists.
Qed.

Lemma captbl_quiescence_truncated_witness :
  exists s3, captbl_add ct_page 4 CAP_SINV
    (run_state kstate0 (captbl_del ct_page 4 CAP_SINV 65536 ct1)) = Ok (4196416, 0) s3.
Proof.
  apply (captbl_quiescence_truncated ct0 ct_page 4 CAP_SINV 65536 4196416 ct1 _ ct0_wf ltac:(lia)
    ct1_eq); [done|]. apply run_ok. by vm_compute.
Defined.

(** C36. Expansion of a table by a fresh leaf makes exactly the 128 ids of
    the new leaf available: they look up to [NULL] but have a slot, every
    other id looks up as before, and the table is well formed. *)
Theorem captbl_expand_correct s t cap L :
  captbl_wf s t -> 0 <= cap < 65536 -> captbl_pos s t cap = None ->
  leaf_empty s L -> L <> t ->
  exists s', captbl_expand t cap captbl_maxdepth L s = Ok 0 s' /\ captbl_wf s' t /\
    forall cap', 0 <= cap' < 65536 ->
      captbl_pos s' t cap' =
        (if cap' / 128 =? cap / 128 then Some (L + 16 * (cap' mod 128)) else captbl_pos s t cap') /\
      captbl_lkup t cap' s' =
        Ok (if cap' / 128 =? cap / 128 then 0 else captbl_ref_lkup s t cap') s'.
Proof.
  intros Hwf Hc Hpos HL Hne. pose proof Hwf as [Ht _]. pose proof HL as [[_ HLr] _].
  unfold PAGE_SIZE in HLr. exists (linked t cap L s).
  assert (captbl_wf (linked t cap L s) t) as Hwf'
    by (apply linked_wf; [done|done|by apply leaf_empty_ok|done]).
  split_and!; [|done|].
  - change captbl_maxdepth with 2. rewrite captbl_expand_cases by (done || lia).
    unfold captbl_pos in Hpos. destruct (captbl_leaf s t cap =? 0); [|done].
    by rewrite (proj2 (Z.eqb_neq L 0)) by lia.
  - intros cap' Hc'. split; [by apply linked_pos; [|apply HL]|].
    rewrite captbl_lkup_ref by done. rewrite Z.mod_small by lia.
    by rewrite linked_ref_lkup by done.
Qed.

Lemma captbl_expand_correct_witness :
  exists s', captbl_expand ct_page 200 captbl_maxdepth (ct_page + 2048) ct0 = Ok 0 s'.
Proof.
  destruct ct0_leaf as [HL Hpos].
  destruct (captbl_expand_correct ct0 ct_page 200 (ct_page + 2048) ct0_wf) as (s2 & H2 & _);
    [lia|exact Hpos|exact HL|lia|exact (ex_intro _ s2 H2)].
Defined.

(** Expansion of a range that is present fails with [-EEXIST], and
    without memory it reports 1; neither changes the table.  With no memory
    and the range present it returns 0. *)
Theorem captbl_expand_present_unchanged s t cap L :
  captbl_wf s t -> 0 <= cap < 65536 -> 0 <= L < 4294967296 ->
  captbl_pos s t cap <> None \/ L = 0 ->
  captbl_expand t cap captbl_maxdepth L s =
  Ok (match captbl_pos s t cap with
      | Some _ => if L =? 0 then 0 else - EEXIST
      | None => 1 end) s.
Proof.
  intros Hwf Hc HL Hor. change captbl_maxdepth with 2. rewrite captbl_expand_cases by (done || lia).
  revert Hor. unfold captbl_pos.
  destruct (captbl_leaf s t cap =? 0); destruct (Z.eqb_spec L 0); intros [|]; done.
Qed.

Lemma captbl_expand_present_unchanged_witness :
  captbl_expand ct_page 4 captbl_maxdepth 4202496 ct0 = Ok (- EEXIST) ct0.
Proof.
  rewrite (captbl_expand_present_unchanged ct0 ct_page 4 4202496 ct0_wf ltac:(lia) ltac:(lia));
    [f_equal; by vm_compute|left; by vm_compute].
Defined.

(** Pruning undoes an expansion: it returns the leaf that was added, and
    every word of memory is as before the expansion. *)
Theorem captbl_expand_prune s t cap L :
  captbl_wf s t -> 0 <= cap < 65536 -> captbl_pos s t cap = None ->
  leaf_empty s L -> L <> t ->
  exists s1 s2, captbl_expand t cap captbl_maxdepth L s = Ok 0 s1 /\
    captbl_prune t cap 1 s1 = Ok (L, 0) s2 /\ forall a, word s2 a = word s a.
Proof.
  intros Hwf Hc Hpos HL Hne. pose proof Hwf as [Ht _]. pose proof HL as [[_ HLr] _].
  unfold PAGE_SIZE in HLr. unfold captbl_pos in Hpos.
  destruct (Z.eqb_spec (captbl_leaf s t cap) 0) as [E|]; [|done].
  exists (linked t cap L s), (linked t cap 0 (linked t cap L s)). split_and!.
  - change captbl_maxdepth with 2. rewrite captbl_expand_cases by (done || lia).
    by rewrite E, (proj2 (Z.eqb_neq L 0)) by lia.
  - rewrite captbl_prune_Ok; [|apply linked_wf; try done; by apply leaf_empty_ok|done].
    unfold captbl_leaf. rewrite linked_dir, Z.eqb_refl; [done|unfold is_u32; lia|].
    Z.div_mod_to_equations; lia.
  - intros a. unfold linked. destruct (decide (a = t + 4 * (cap / 128))) as [->|].
    + rewrite word_put_eq. symmetry. exact E.
    + by rewrite !word_put_ne by done.
Qed.

Lemma captbl_expand_prune_witness :
  exists s1 s2, captbl_expand ct_page 200 captbl_maxdepth (ct_page + 2048) ct0 = Ok 0 s1 /\
    captbl_prune ct_page 200 1 s1 = Ok (ct_page + 2048, 0) s2.
Proof.
  destruct ct0_leaf as [HL Hpos].
  destruct (captbl_expand_prune ct0 ct_page 200 (ct_page + 2048) ct0_wf)
    as (s1 & s2 & H1 & H2 & _); [lia|exact Hpos|exact HL|lia|exists s1, s2; exact (conj H1 H2)].
Defined.

(** [captbl_create] turns a page into an empty, well-formed table: none
    of its assertions fails, the first 128 ids have slots and every id looks
    up to [NULL]; memory outside the page is not written. *)
Theorem captbl_create_correct page s :
  page mod 4096 = 0 -> PAGE_SIZE <= page < 4294967296 ->
  exists s', captbl_create page s = Ok page s' /\ captbl_wf s' page /\
    (forall cap, captbl_lkup page cap s' = Ok 0 s') /\
    (forall cap, 0 <= cap < 128 -> captbl_pos s' page cap = Some (page + 2048 + 16 * cap)) /\
    (forall a, ~ (page <= a < page + PAGE_SIZE) -> word s' a = word s a).
Proof.
  intros Hpg Hr. destruct (captbl_create_ok page s Hpg Hr) as (s' & H & Hwf & HL & Hpos & Hfr).
  exists s'. split_and!; try done.
  - intros cap. rewrite captbl_lkup_ref by done. pose proof (Z.mod_pos_bound cap 65536 eq_refl).
    unfold captbl_ref_lkup. rewrite Hpos by lia. destruct (Z.ltb_spec (cap mod 65536) 128); [|done].
    by rewrite leaf_empty_cap_at by (done || lia).
  - intros cap Hc. rewrite Hpos, (proj2 (Z.ltb_lt _ _)) by lia. done.
Qed.

Lemma captbl_create_correct_witness :
  exists s', captbl_create ct_page kstate0 = Ok ct_page s' /\ captbl_wf s' ct_page.
Proof.
  destruct (captbl_create_correct ct_page kstate0) as (s' & H1 & H2 & _); [done|done|].
  exact (ex_intro _ s' (conj H1 H2)).
Defined.

(** A cache line of 16-byte capabilities (threads, tcaps, return
    capabilities), all of them removed, can not be resized: adding a 32- or
    64-byte capability there fails the assertion that the line's size is not
    zero, although zero is the code of 16-byte lines. *)
Theorem captbl_resize_16B_halts s t cap type p :
  captbl_wf s t -> 0 <= cap < 65536 -> captbl_pos s t cap = Some p -> addable s p type ->
  h_size (line_hdr s p) = CAP_SZ_16B -> h_type (line_hdr s p) = CAP_QUIESCENCE ->
  __captbl_cap2sz type <> CAP_SZ_16B ->
  captbl_add t cap type s = Panic AssertFail.
Proof.
  intros Hwf Hc Hp Hadd Hs Hty Hsz. rewrite (captbl_add_run s t cap type p) by done.
  apply bind_Panic. unfold captbl_add_check. cbn [set_amap h_type h_size]. rewrite Hs, Hty.
  unfold CAP_SZ_16B in *. by rewrite (proj2 (Z.eqb_neq 0 _)) by done.
Qed.

Lemma captbl_resize_16B_halts_witness :
  let s1 := run_state kstate0 (captbl_add ct_page 4 CAP_THD ct0) in
  let s2 := run_state kstate0 (captbl_del ct_page 4 CAP_THD 7 s1) in
  captbl_add ct_page 4 CAP_SINV s2 = Panic AssertFail.
Proof.
  intros s1 s2.
  assert (captbl_add ct_page 4 CAP_THD ct0 = Ok (4196416, 0) s1) as H1 by (apply run_ok; by vm_compute).
  assert (captbl_del ct_page 4 CAP_THD 7 s1 = Ok 0 s2) as H2 by (apply run_ok; by vm_compute).
  pose proof (captbl_add_wf ct0 ct_page 4 CAP_THD _ s1 ct0_wf ltac:(lia) H1) as Hwf1.
  pose proof (captbl_del_wf s1 ct_page 4 CAP_THD 7 s2 Hwf1 ltac:(lia) H2) as Hwf2.
  clear H1 H2 Hwf1.
  apply (captbl_resize_16B_halts s2 ct_page 4 CAP_SINV 4196416 Hwf2); clear Hwf2;
    try (by vm_compute).
  unfold addable. split_and!; first [by vm_compute | left; by vm_compute].
Defined.

