(* ===== verification/Retype.v ===== *)
(** * The retype table ([kernel/include/retype_tbl.h], [kernel/retype_tbl.c])

    Physical memory is typed in sets of [RETYPE_MEM_NPAGES] pages: untyped
    frames, user memory or kernel memory.  Each core counts the mappings (or
    kernel objects) it made in a set; the count of one core may be negative,
    the sum over the cores is the number of references.  A set can become
    untyped again only when the sum is zero and stale TLB entries are gone.
    [kretype] holds the per-core entries, [kglb] the global types. *)

From S2P Require Import Prelude Config Machine.

(** ** Data *)

Definition RETYPETBL_UNTYPED : Z := 0.
Definition RETYPETBL_USER : Z := 1.
Definition RETYPETBL_KERN : Z := 2.
Definition RETYPETBL_RETYPING : Z := 3.

Definition RETYPE_ENT_TYPE_SZ : Z := 4.
Definition RETYPE_ENT_REFCNT_SZ : Z := 28.
Definition RETYPE_REFCNT_MAX : Z := Z.shiftl 1 RETYPE_ENT_REFCNT_SZ - 1.

(** [union refcnt_atom]: a 4-bit type and a signed 28-bit count in a word *)
Definition ra_type (v : Z) : Z := v mod 16.
Definition ra_ref_cnt (v : Z) : Z := sext 28 (v / 16).
Definition ra_set_type (t v : Z) : Z := v - v mod 16 + t mod 16.
Definition ra_set_ref_cnt (r v : Z) : Z := v mod 16 + 16 * (r mod 268435456).

Definition N_USER_MEM_SETS : Z := COS_MAX_MEMORY / RETYPE_MEM_NPAGES + 1.
Definition N_KERN_MEM_SETS : Z := COS_KERNEL_MEMORY / RETYPE_MEM_NPAGES + 1.
Definition N_MEM_SETS : Z := N_USER_MEM_SETS + N_KERN_MEM_SETS.

Definition COS_KMEM_BOUND (kmem_pa : Z) : Z := u32 (kmem_pa + PAGE_SIZE * COS_KERNEL_MEMORY).

(** The macros [FIXED_UMEM_PA_BOUNDARY_CHECK], [PA_BOUNDARY_CHECK] and
    [GET_MEM_IDX] *)
Definition fixed_umem (pa : Z) : bool := COS_MEM_BOUND <=? pa.
Definition pa_invalid (kmem_pa pa : Z) : bool :=
  negb ((COS_MEM_START <=? pa) && (pa <? COS_MEM_BOUND)) &&
  negb ((kmem_pa <=? pa) && (pa <? COS_KMEM_BOUND kmem_pa)).
Definition GET_MEM_IDX (kmem_pa pa : Z) : Z :=
  if COS_MEM_START <=? pa then (pa - COS_MEM_START) / RETYPE_MEM_SIZE
  else (pa - kmem_pa) / RETYPE_MEM_SIZE + N_USER_MEM_SETS.

(** [retype_tbl[cpu].mem_set[idx]] and [glb_retype_tbl[idx].type] *)
Definition rent (s : kstate) (cpu idx : Z) : retype_entry :=
  default (REnt 0 0) (kretype s !! (cpu, idx)).
Definition rput (cpu idx : Z) (e : retype_entry) (s : kstate) : kstate :=
  with_retype (<[(cpu, idx) := e]> (kretype s)) s.
Definition glb (s : kstate) (idx : Z) : Z := default 0 (kglb s !! idx).
Definition gput (idx t : Z) (s : kstate) : kstate := with_glb (<[idx := t]> (kglb s)) s.

Definition get_rent (cpu idx : Z) : K retype_entry := gets (fun s => rent s cpu idx).

(** [retypetbl_cas] on [refcnt_atom.v] of an entry and on a global type *)
Definition retypetbl_cas_ent (cpu idx old new : Z) : K Z :=
  e <- get_rent cpu idx ;;
  if rt_v e =? old then modify (rput cpu idx (REnt new (last_unmap e))) ;; ret 1 else ret 0.
Definition retypetbl_cas_glb (idx old new : Z) : K Z :=
  t <- gets (fun s => glb s idx) ;;
  if t =? old then modify (gput idx new) ;; ret 1 else ret 0.

(** ** TLB quiescence ([kernel/pgtbl.c]) *)

Definition tlbq (s : kstate) (cpu : Z) : tlb_quiescence := default (TlbQ 0 0) (ktlbq s !! cpu).

(** [1] when every core flushed its TLB after [timestamp]. *)
Definition tlb_quiescence_check (timestamp : Z) : K bool :=
  cpu <- get_cpuid ;;
  q <- gets (fun s => tlbq s cpu) ;;
  if timestamp >? last_periodic_flush q then
    r <- for_ret (Z.to_nat NUM_CPU_COS) 0 (fun i =>
      qi <- gets (fun s => tlbq s i) ;;
      if timestamp >? last_mandatory_flush qi then ret (Some false) else ret None) ;;
    ret (match r with Some b => b | None => true end)
  else ret true.

(** ** Operations *)

(** [op]: increment or decrement; [type_check] negative for any type *)
Definition mod_ref_cnt (pa : Z) (op : bool) (type_check : Z) : K Z :=
  if fixed_umem pa then ret 0 else
  kmem_pa <- gets kkmem_pa ;;
  if pa_invalid kmem_pa pa then ret (- EINVAL) else
  let idx := GET_MEM_IDX kmem_pa pa in
  massert (idx <? N_MEM_SETS) ;;
  cpu <- get_cpuid ;;
  e <- get_rent cpu idx ;;
  let old_v := rt_v e in
  if negb (ra_type old_v =? RETYPETBL_USER) && negb (ra_type old_v =? RETYPETBL_KERN)
  then ret (- EPERM) else
  if (0 <=? type_check) && negb (type_check =? ra_type old_v) then ret (- EPERM) else
  if ra_ref_cnt old_v =? RETYPE_REFCNT_MAX then ret (- EOVERFLOW) else
  new_v <-
    (if op then ret (ra_set_ref_cnt (ra_ref_cnt old_v + 1) old_v)
     else
       t <- rdtscll ;;
       e <- get_rent cpu idx ;;
       modify (rput cpu idx (REnt (rt_v e) t)) ;;
       ret (ra_set_ref_cnt (ra_ref_cnt old_v - 1) old_v)) ;;
  c <- retypetbl_cas_ent cpu idx old_v new_v ;;
  if negb (c =? CAS_SUCCESS) then ret (- ECASFAIL) else ret 0.

Definition retypetbl_kern_ref (pa : Z) : K Z := mod_ref_cnt pa true RETYPETBL_KERN.
Definition retypetbl_ref (pa : Z) : K Z := mod_ref_cnt pa true (-1).
Definition retypetbl_deref (pa : Z) : K Z := mod_ref_cnt pa false (-1).

(** [retype_tbl[i].mem_set[idx].refcnt_atom.type = type] *)
Definition set_ent_type (i idx type : Z) : K unit :=
  e <- get_rent i idx ;; modify (rput i idx (REnt (ra_set_type type (rt_v e)) (last_unmap e))).

Definition mod_mem_type (pa type : Z) : K Z :=
  massert (negb (pa =? 0)) ;;
  if fixed_umem pa then ret 0 else
  kmem_pa <- gets kkmem_pa ;;
  if pa_invalid kmem_pa pa then ret (- EINVAL) else
  let idx := GET_MEM_IDX kmem_pa pa in
  massert (idx <? N_MEM_SETS) ;;
  old_type <- gets (fun s => glb s idx) ;;
  if negb (old_type =? RETYPETBL_UNTYPED) then
    if old_type =? type then ret (- EEXIST) else ret (- EPERM)
  else
  if (type =? RETYPETBL_KERN) && (chal_pa2va pa =? 0) then ret (- EINVAL) else
  c <- retypetbl_cas_glb idx RETYPETBL_UNTYPED RETYPETBL_RETYPING ;;
  if negb (c =? CAS_SUCCESS) then ret (- ECASFAIL) else
  for_n (Z.to_nat NUM_CPU) 0 (fun i => set_ent_type i idx type) ;;
  c <- retypetbl_cas_glb idx RETYPETBL_RETYPING type ;;
  massert (c =? CAS_SUCCESS) ;;
  ret 0.

Definition retypetbl_retype2user (pa : Z) : K Z := mod_mem_type pa RETYPETBL_USER.
Definition retypetbl_retype2kern (pa : Z) : K Z := mod_mem_type pa RETYPETBL_KERN.

(** The locking loop of [retypetbl_retype2frame]: the core at which it
    stopped and the error (0 when it ran to the end), with the sum of the
    counts and the latest time of an unmap. *)
Fixpoint r2f_lock (fuel : nat) (cpu idx old_type ref_sum unmap : Z) : K (Z * Z * Z * Z) :=
  match fuel with
  | O => ret (cpu, 0, ref_sum, unmap)
  | S fuel =>
      e <- get_rent cpu idx ;;
      let old_v := rt_v e in
      massert ((ra_type old_v =? old_type) || (ra_type old_v =? RETYPETBL_RETYPING)) ;;
      let new_v := ra_set_type RETYPETBL_RETYPING old_v in
      c <- retypetbl_cas_ent cpu idx old_v new_v ;;
      if negb (c =? CAS_SUCCESS) then ret (cpu, - ECASFAIL, ref_sum, unmap) else
      let ref_sum := i32 (ref_sum + ra_ref_cnt new_v) in
      e <- get_rent cpu idx ;;
      let unmap := if unmap <? last_unmap e then last_unmap e else unmap in
      r2f_lock fuel (cpu + 1) idx old_type ref_sum unmap
  end.

(** The label [restore_all]: entries [cpu - 1] down to 0, then the global one *)
Definition r2f_restore (cpu idx old_type err : Z) : K Z :=
  for_n (Z.to_nat cpu) 0 (fun k =>
    let i := cpu - 1 - k in
    e <- get_rent i idx ;;
    retypetbl_cas_ent i idx (rt_v e) (ra_set_type old_type (rt_v e)) ;;
    ret tt) ;;
  c <- retypetbl_cas_glb idx RETYPETBL_RETYPING old_type ;;
  massert (c =? CAS_SUCCESS) ;;
  ret err.

(** "Legit to retype": all entries are locked *)
Definition r2f_commit (idx : Z) : K Z :=
  for_n (Z.to_nat NUM_CPU) 0 (fun i =>
    e <- get_rent i idx ;;
    modify (rput i idx (REnt (ra_set_type RETYPETBL_UNTYPED (ra_set_ref_cnt 0 (rt_v e)))
                          (last_unmap e)))) ;;
  c <- retypetbl_cas_glb idx RETYPETBL_RETYPING RETYPETBL_UNTYPED ;;
  massert (c =? CAS_SUCCESS) ;;
  ret 0.

Definition retypetbl_retype2frame (pa : Z) : K Z :=
  kmem_pa <- gets kkmem_pa ;;
  if pa_invalid kmem_pa pa then ret (- EINVAL) else
  let idx := GET_MEM_IDX kmem_pa pa in
  massert (idx <? N_MEM_SETS) ;;
  old_type <- gets (fun s => glb s idx) ;;
  if negb (old_type =? RETYPETBL_USER) && negb (old_type =? RETYPETBL_KERN)
  then ret (- EPERM) else
  c <- retypetbl_cas_glb idx old_type RETYPETBL_RETYPING ;;
  if negb (c =? CAS_SUCCESS) then ret c else
  let! (cpu, err, ref_sum, unmap) := r2f_lock (Z.to_nat NUM_CPU) 0 idx old_type 0 0 in
  if negb (err =? 0) then r2f_restore cpu idx old_type err else
  if negb (ref_sum =? 0) then r2f_restore cpu idx old_type (- EINVAL) else
  q <- tlb_quiescence_check unmap ;;
  if negb q then r2f_restore cpu idx old_type (- EQUIESCENCE) else
  r2f_commit idx.

Definition retype_tbl_init : K unit :=
  for_n (Z.to_nat NUM_CPU) 0 (fun i =>
    for_n (Z.to_nat N_MEM_SETS) 0 (fun j => modify (rput i j (REnt 0 0)))) ;;
  for_n (Z.to_nat N_MEM_SETS) 0 (fun i => modify (gput i RETYPETBL_UNTYPED)).
