(* ===== verification/RetypeSpec.v ===== *)
(** * What the retype table promises

    A memory set moves between untyped, user and kernel only by the retype
    operations; references are counted; a set with references, or whose stale
    TLB entries may still exist, does not become untyped. *)

From S2P Require Import Prelude Config Machine Retype.

(** ** The packed word *)

Lemma ra_type_set_type t v : 0 <= t < 16 -> ra_type (ra_set_type t v) = t.
Proof. unfold ra_type, ra_set_type. Z.div_mod_to_equations. lia. Qed.

Lemma ra_ref_set_type t v : ra_ref_cnt (ra_set_type t v) = ra_ref_cnt v.
Proof.
  unfold ra_ref_cnt, ra_set_type. f_equal. Z.div_mod_to_equations. lia.
Qed.

Lemma ra_type_set_ref r v : ra_type (ra_set_ref_cnt r v) = ra_type v.
Proof. unfold ra_type, ra_set_ref_cnt. Z.div_mod_to_equations. lia. Qed.

Lemma ra_ref_set_ref r v : ra_ref_cnt (ra_set_ref_cnt r v) = sext 28 r.
Proof.
  unfold ra_ref_cnt, ra_set_ref_cnt, sext. change (2 ^ (28 - 1)) with 134217728.
  change (2 ^ 28) with 268435456. Z.div_mod_to_equations. lia.
Qed.

Lemma ra_set_type_back t v : ra_set_type (ra_type v) (ra_set_type t v) = v.
Proof. unfold ra_type, ra_set_type. Z.div_mod_to_equations. lia. Qed.

Lemma ra_ref_range v : - 134217728 <= ra_ref_cnt v < 134217728.
Proof.
  unfold ra_ref_cnt, sext. change (2 ^ (28 - 1)) with 134217728.
  change (2 ^ 28) with 268435456. Z.div_mod_to_equations. lia.
Qed.

Lemma ra_untyped v : ra_set_type RETYPETBL_UNTYPED (ra_set_ref_cnt 0 v) = 0.
Proof.
  unfold ra_set_type, ra_set_ref_cnt, RETYPETBL_UNTYPED. Z.div_mod_to_equations. lia.
Qed.

Lemma sext28_small r : - 134217728 <= r < 134217728 -> sext 28 r = r.
Proof.
  unfold sext. change (2 ^ (28 - 1)) with 134217728. change (2 ^ 28) with 268435456.
  intros. rewrite Z.mod_small; lia.
Qed.

Lemma i32_small x : - 2147483648 <= x < 2147483648 -> i32 x = x.
Proof. unfold i32. intros. rewrite Z.mod_small; lia. Qed.

(** ** Entries *)

Lemma rent_rput_eq c i e s : rent (rput c i e s) c i = e.
Proof. unfold rent, rput. simpl. by rewrite lookup_insert_eq. Qed.

Lemma rent_rput_ne c i c' i' e s : (c, i) <> (c', i') -> rent (rput c i e s) c' i' = rent s c' i'.
Proof. intros. unfold rent, rput. simpl. by rewrite lookup_insert_ne. Qed.

Lemma glb_gput_eq i t s : glb (gput i t s) i = t.
Proof. unfold glb, gput. simpl. by rewrite lookup_insert_eq. Qed.

Lemma glb_gput_ne i i' t s : i <> i' -> glb (gput i t s) i' = glb s i'.
Proof. intros. unfold glb, gput. simpl. by rewrite lookup_insert_ne. Qed.

(** Only retype entries of set [idx] on the cores of [P] changed, by [g]. *)
Definition rt_upd (P : Z -> bool) (idx : Z) (g : retype_entry -> retype_entry)
    (s s' : kstate) : Prop :=
  (forall c i, rent s' c i = if (i =? idx) && P c then g (rent s c i) else rent s c i) /\
  s' = with_retype (kretype s') s.

Lemma rt_upd_glb P idx g s s' i : rt_upd P idx g s s' -> glb s' i = glb s i.
Proof. by intros [_ ->]. Qed.

Lemma rt_upd_one c idx g s :
  rt_upd (fun x => x =? c) idx g s (rput c idx (g (rent s c idx)) s).
Proof.
  split; [|done]. intros c' i'. destruct (decide ((c, idx) = (c', i'))) as [E|E].
  - injection E as <- <-. rewrite rent_rput_eq, !Z.eqb_refl. done.
  - rewrite rent_rput_ne by done. destruct (Z.eqb_spec i' idx); [|done].
    destruct (Z.eqb_spec c' c); [congruence|done].
Qed.

Lemma rt_upd_none P idx g s : (forall c, P c = false) -> rt_upd P idx g s s.
Proof.
  intros HP. split; [|by destruct s]. intros c i. rewrite HP. by rewrite andb_false_r.
Qed.

Lemma rt_upd_trans P Q R idx g s1 s2 s3 :
  rt_upd P idx g s1 s2 -> rt_upd Q idx g s2 s3 ->
  (forall c, R c = P c || Q c) -> (forall c, P c && Q c = false) -> rt_upd R idx g s1 s3.
Proof.
  intros [H1 E1] [H2 E2] HR HPQ. split; [|by rewrite E2, E1].
  intros c i. rewrite H2, H1, HR. specialize (HPQ c).
  destruct (i =? idx), (P c), (Q c); done.
Qed.

(** A loop that applies [g] to the entries of set [idx] on the cores [f j]. *)
Lemma for_rt_upd n i idx (f fi : Z -> Z) (body : Z -> K unit) g s :
  (forall j s, body j s = Ok tt (rput (f j) idx (g (rent s (f j) idx)) s)) ->
  (forall j, fi (f j) = j) -> (forall c, f (fi c) = c) ->
  exists s', for_n n i body s = Ok tt s' /\
    rt_upd (fun c => (i <=? fi c) && (fi c <? i + Z.of_nat n)) idx g s s'.
Proof.
  intros Hb Hfi Hf. revert i s. induction n as [|n IH]; intros i s.
  - exists s. split; [done|]. apply rt_upd_none. intros c.
    apply andb_false_iff. rewrite Z.leb_gt, Z.ltb_ge. lia.
  - simpl. rewrite (bind_Ok _ _ _ _ _ (Hb i s)).
    destruct (IH (i + 1) (rput (f i) idx (g (rent s (f i) idx)) s)) as (s' & -> & H).
    exists s'. split; [done|]. eapply rt_upd_trans; [apply rt_upd_one|exact H| |];
      intros c; cbv beta; destruct (Z.eqb_spec c (f i)) as [->|Hne].
    + rewrite Hfi. apply andb_true_iff. rewrite Z.leb_le, Z.ltb_lt. lia.
    + assert (fi c <> i) by (intros <-; by rewrite Hf in Hne). cbn [orb].
      apply eq_true_iff_eq. rewrite !andb_true_iff, !Z.leb_le, !Z.ltb_lt. lia.
    + rewrite Hfi. cbn [andb]. apply andb_false_iff. rewrite Z.leb_gt. lia.
    + done.
Qed.

(** ** The states of a memory set *)

Definition cpu_ok (c : Z) : Prop := 0 <= c < NUM_CPU.

(** Between operations: every core agrees with the global type, and untyped
    memory has no references. *)
Definition retype_ok (s : kstate) (idx : Z) : Prop :=
  0 <= glb s idx < 3 /\
  forall c, cpu_ok c -> ra_type (rt_v (rent s c idx)) = glb s idx /\
    (glb s idx = RETYPETBL_UNTYPED -> ra_ref_cnt (rt_v (rent s c idx)) = 0).

(** The sum of the counts, and the latest unmap, over [n] cores from [cpu]. *)
Fixpoint sum_refs (n : nat) (cpu : Z) (ent : Z -> retype_entry) : Z :=
  match n with
  | O => 0
  | S n => ra_ref_cnt (rt_v (ent cpu)) + sum_refs n (cpu + 1) ent
  end.
Fixpoint max_unmap (n : nat) (cpu : Z) (ent : Z -> retype_entry) (u : Z) : Z :=
  match n with
  | O => u
  | S n => max_unmap n (cpu + 1) ent
             (if u <? last_unmap (ent cpu) then last_unmap (ent cpu) else u)
  end.

(** The number of references to the set, and the time of its last unmap. *)
Definition ref_total (s : kstate) (idx : Z) : Z :=
  sum_refs (Z.to_nat NUM_CPU) 0 (fun c => rent s c idx).
Definition unmap_max (s : kstate) (idx : Z) : Z :=
  max_unmap (Z.to_nat NUM_CPU) 0 (fun c => rent s c idx) 0.

(** The page is in a memory set that can be retyped. *)
Definition pa_ok (s : kstate) (pa : Z) : Prop :=
  pa_invalid (kkmem_pa s) pa = false /\ GET_MEM_IDX (kkmem_pa s) pa < N_MEM_SETS.

(** Everything but the representation of the tables is the same. *)
Definition retype_eq (s s' : kstate) : Prop :=
  (forall c i, rent s' c i = rent s c i) /\ (forall i, glb s' i = glb s i) /\
  s' = with_glb (kglb s') (with_retype (kretype s') s).

Lemma get_rent_Ok c i s : get_rent c i s = Ok (rent s c i) s.
Proof. reflexivity. Qed.

Lemma cas_glb_Ok idx old new s :
  glb s idx = old -> retypetbl_cas_glb idx old new s = Ok 1 (gput idx new s).
Proof.
  intros <-. unfold retypetbl_cas_glb, bind, gets, modify. by rewrite Z.eqb_refl.
Qed.

Lemma cas_ent_Ok c idx new s :
  retypetbl_cas_ent c idx (rt_v (rent s c idx)) new s =
  Ok 1 (rput c idx (REnt new (last_unmap (rent s c idx))) s).
Proof.
  unfold retypetbl_cas_ent, get_rent, bind, gets, modify. by rewrite Z.eqb_refl.
Qed.

(** The effect of locking, unlocking and untyping an entry *)
Definition lock_ent (t : Z) (e : retype_entry) : retype_entry :=
  REnt (ra_set_type t (rt_v e)) (last_unmap e).

Lemma sum_refs_ext n cpu e1 e2 :
  (forall c, cpu <= c < cpu + Z.of_nat n -> e1 c = e2 c) -> sum_refs n cpu e1 = sum_refs n cpu e2.
Proof.
  revert cpu. induction n as [|n IH]; intros cpu H; simpl; [done|].
  rewrite (H cpu) by lia. f_equal. apply IH. intros. apply H. lia.
Qed.

Lemma max_unmap_ext n cpu e1 e2 u :
  (forall c, cpu <= c < cpu + Z.of_nat n -> e1 c = e2 c) ->
  max_unmap n cpu e1 u = max_unmap n cpu e2 u.
Proof.
  revert cpu u. induction n as [|n IH]; intros cpu u H; simpl; [done|].
  rewrite (H cpu) by lia. apply IH. intros. apply H. lia.
Qed.

Lemma sum_refs_range n cpu e :
  - 134217728 * Z.of_nat n <= sum_refs n cpu e <= 134217727 * Z.of_nat n.
Proof.
  revert cpu. induction n as [|n IH]; intros cpu; simpl; [lia|].
  pose proof (ra_ref_range (rt_v (e cpu))). specialize (IH (cpu + 1)). lia.
Qed.

(** The locking loop locks every entry, and computes the sum (which does not
    overflow) and the maximum. *)
Lemma r2f_lock_Ok n cpu idx t sum um s :
  0 <= cpu -> cpu + Z.of_nat n <= NUM_CPU ->
  (forall c, cpu_ok c -> ra_type (rt_v (rent s c idx)) = t \/ c < cpu) ->
  - 2147483648 + 134217728 * Z.of_nat n <= sum <= 2147483647 - 134217727 * Z.of_nat n ->
  exists s', rt_upd (fun c => (cpu <=? c) && (c <? cpu + Z.of_nat n)) idx
               (lock_ent RETYPETBL_RETYPING) s s' /\
    r2f_lock n cpu idx t sum um s =
    Ok (cpu + Z.of_nat n, 0, sum + sum_refs n cpu (fun c => rent s c idx),
        max_unmap n cpu (fun c => rent s c idx) um) s'.
Proof.
  revert cpu sum um s. induction n as [|n IH]; intros cpu sum um s H0 Hn Hty Hsum.
  - exists s. split.
    + apply rt_upd_none. intros c. apply andb_false_iff. rewrite Z.leb_gt, Z.ltb_ge. lia.
    + simpl. unfold ret. do 4 f_equal; lia.
  - cbn [r2f_lock]. set (e := rent s cpu idx).
    rewrite (bind_Ok _ _ _ _ _ (get_rent_Ok cpu idx s)). fold e. cbv zeta.
    assert (ra_type (rt_v e) = t) as Ht by (destruct (Hty cpu); [unfold cpu_ok; lia|done|lia]).
    rewrite (bind_Ok _ _ _ _ _ (massert_Ok _ s (orb_true_intro _ _ (or_introl (proj2 (Z.eqb_eq _ _) Ht))))).
    unfold e at 1. rewrite (bind_Ok _ _ _ _ _ (cas_ent_Ok cpu idx _ s)). fold e.
    set (s1 := rput cpu idx _ s). cbn [negb Z.eqb CAS_SUCCESS Pos.eqb].
    rewrite (bind_Ok _ _ _ _ _ (get_rent_Ok cpu idx s1)).
    assert (rent s1 cpu idx = lock_ent RETYPETBL_RETYPING e) as -> by apply rent_rput_eq.
    assert (forall c, c <> cpu -> rent s1 c idx = rent s c idx) as Hother
      by (intros c Hc; apply rent_rput_ne; congruence).
    cbn [last_unmap lock_ent]. rewrite ra_ref_set_type.
    pose proof (ra_ref_range (rt_v e)) as Hr. rewrite i32_small by lia.
    destruct (IH (cpu + 1) (sum + ra_ref_cnt (rt_v e))
      (if um <? last_unmap e then last_unmap e else um) s1) as (s' & Hu & ->); [lia|lia| |lia|].
    { intros c Hc. destruct (decide (c = cpu)) as [->|Hne]; [right; lia|].
      rewrite Hother by done. destruct (Hty c Hc); [by left|right; lia]. }
    exists s'. split.
    + eapply rt_upd_trans; [apply (rt_upd_one cpu idx (lock_ent RETYPETBL_RETYPING) s)|exact Hu| |];
        intros c; cbv beta; destruct (Z.eqb_spec c cpu); cbn [orb andb]; try done;
        [| |]; first [apply andb_true_iff; rewrite Z.leb_le, Z.ltb_lt; lia
          | apply eq_true_iff_eq; rewrite !andb_true_iff, !Z.leb_le, !Z.ltb_lt; lia
          | apply andb_false_iff; rewrite Z.leb_gt; lia].
    + simpl sum_refs. simpl max_unmap. fold e.
      rewrite (sum_refs_ext n (cpu + 1) (fun c => rent s1 c idx) (fun c => rent s c idx))
        by (intros; apply Hother; lia).
      rewrite (max_unmap_ext n (cpu + 1) (fun c => rent s1 c idx) (fun c => rent s c idx))
        by (intros; apply Hother; lia).
      replace (cpu + Z.of_nat (S n)) with (cpu + 1 + Z.of_nat n) by lia.
      by rewrite Z.add_assoc.
Qed.

Lemma r2f_restore_Ok cpu idx t err s :
  0 <= cpu -> glb s idx = RETYPETBL_RETYPING ->
  exists s0, rt_upd (fun c => (0 <=? c) && (c <? cpu)) idx (lock_ent t) s s0 /\
    r2f_restore cpu idx t err s = Ok err (gput idx t s0).
Proof.
  intros Hcpu Hg. unfold r2f_restore. cbv zeta.
  match goal with |- context [for_n _ 0 ?b] =>
    destruct (for_rt_upd (Z.to_nat cpu) 0 idx (fun k => cpu - 1 - k) (fun c => cpu - 1 - c) b
      (lock_ent t) s) as (s0 & Hs0 & Hu) end; [|intros; lia|intros; lia|].
  { intros j s'. rewrite (bind_Ok _ _ _ _ _ (get_rent_Ok _ idx s')).
    by rewrite (bind_Ok _ _ _ _ _ (cas_ent_Ok _ idx _ s')). }
  exists s0. split.
  - destruct Hu as [Hu1 Hu2]. split; [|done]. intros c i. rewrite Hu1.
    replace ((0 <=? cpu - 1 - c) && (cpu - 1 - c <? 0 + Z.of_nat (Z.to_nat cpu)))
      with ((0 <=? c) && (c <? cpu)); [done|].
    apply eq_true_iff_eq. rewrite !andb_true_iff, !Z.leb_le, !Z.ltb_lt. lia.
  - rewrite (bind_Ok _ _ _ _ _ Hs0). rewrite (bind_Ok _ _ _ _ _ (cas_glb_Ok idx RETYPETBL_RETYPING t s0
      ltac:(by rewrite (rt_upd_glb _ _ _ _ _ _ Hu)))). done.
Qed.

(** [n] cores from [i] on did a mandatory flush after [ts]. *)
Fixpoint flushed_after (n : nat) (i ts : Z) (s : kstate) : bool :=
  match n with
  | O => true
  | S n => (ts <=? last_mandatory_flush (tlbq s i)) && flushed_after n (i + 1) ts s
  end.

(** The TLBs of all cores were flushed after [ts], by the periodic flush or
    by a mandatory flush on every core. *)
Definition tlb_quiescent (s : kstate) (ts : Z) : bool :=
  (ts <=? last_periodic_flush (tlbq s (cpuid (kcli s)))) ||
  flushed_after (Z.to_nat NUM_CPU_COS) 0 ts s.

Lemma tlb_loop n i ts s :
  for_ret n i (fun i => qi <- gets (fun s => tlbq s i) ;;
    if ts >? last_mandatory_flush qi then ret (Some false) else ret None) s =
  Ok (if flushed_after n i ts s then None else Some false) s.
Proof.
  revert i. induction n as [|n IH]; intros i; [done|]. simpl.
  unfold bind, gets in *. rewrite Z.gtb_ltb, Z.ltb_antisym.
  destruct (ts <=? last_mandatory_flush (tlbq s i)); simpl; [|done]. apply IH.
Qed.

Lemma tlb_check_Ok ts s : tlb_quiescence_check ts s = Ok (tlb_quiescent s ts) s.
Proof.
  unfold tlb_quiescence_check, tlb_quiescent, get_cpuid.
  unfold bind at 1, gets at 1. unfold bind at 1, gets at 1.
  rewrite Z.gtb_ltb, Z.ltb_antisym. destruct (ts <=? _); [done|].
  cbn [negb orb]. rewrite (bind_Ok _ _ _ _ _ (tlb_loop _ 0 ts s)).
  by destruct (flushed_after _ _ _ _).
Qed.

Lemma rt_upd_tlb P idx g s s' ts :
  rt_upd P idx g s s' -> tlb_quiescent s' ts = tlb_quiescent s ts.
Proof.
  intros [_ ->]. unfold tlb_quiescent. f_equal.
Qed.

Lemma in_all_cpus c : cpu_ok c -> (0 <=? c) && (c <? 0 + Z.of_nat (Z.to_nat NUM_CPU)) = true.
Proof. unfold cpu_ok. intros. apply andb_true_iff. rewrite Z.leb_le, Z.ltb_lt. lia. Qed.

(** Locking every core and restoring gives back the table. *)
Lemma lock_restore_eq s s1 s2 idx :
  retype_ok s idx ->
  rt_upd (fun c => (0 <=? c) && (c <? 0 + Z.of_nat (Z.to_nat NUM_CPU))) idx
    (lock_ent RETYPETBL_RETYPING) (gput idx RETYPETBL_RETYPING s) s1 ->
  rt_upd (fun c => (0 <=? c) && (c <? 0 + Z.of_nat (Z.to_nat NUM_CPU))) idx
    (lock_ent (glb s idx)) s1 s2 ->
  retype_eq s (gput idx (glb s idx) s2).
Proof.
  intros [_ Hok] [H1 E1] [H2 E2]. split_and!.
  - intros c i. change (rent (gput idx (glb s idx) s2) c i) with (rent s2 c i).
    rewrite H2, H1. change (rent (gput idx RETYPETBL_RETYPING s) c i) with (rent s c i).
    destruct (Z.eqb_spec i idx) as [->|]; [|done].
    destruct ((0 <=? c) && (c <? 0 + Z.of_nat (Z.to_nat NUM_CPU))) eqn:Ec; [|done].
    cbn [andb]. apply andb_true_iff in Ec as [Ec1%Z.leb_le Ec2%Z.ltb_lt].
    destruct (Hok c) as [Ht _]; [unfold cpu_ok; lia|]. unfold lock_ent. cbn [rt_v last_unmap].
    rewrite <- Ht, ra_set_type_back. by destruct (rent s c idx).
  - intros i. destruct (decide (i = idx)) as [->|Hne]; [by rewrite glb_gput_eq|].
    rewrite glb_gput_ne by done. rewrite E2, E1. unfold glb. simpl. by rewrite lookup_insert_ne.
  - rewrite E2, E1. by destruct s.
Qed.

Lemma retype_eq_ok s s' idx : retype_eq s s' -> retype_ok s idx -> retype_ok s' idx.
Proof.
  intros (Hr & Hg & _) [H1 H2]. split; [by rewrite Hg|]. intros c Hc. rewrite Hr, Hg. by apply H2.
Qed.

Definition untype_ent (e : retype_entry) : retype_entry := REnt 0 (last_unmap e).

Lemma r2f_commit_Ok idx s :
  glb s idx = RETYPETBL_RETYPING ->
  exists s0, rt_upd (fun c => (0 <=? c) && (c <? 0 + Z.of_nat (Z.to_nat NUM_CPU))) idx untype_ent s s0 /\
    r2f_commit idx s = Ok 0 (gput idx RETYPETBL_UNTYPED s0).
Proof.
  intros Hg. unfold r2f_commit.
  match goal with |- context [for_n _ 0 ?b] =>
    destruct (for_rt_upd (Z.to_nat NUM_CPU) 0 idx (fun k => k) (fun c => c) b untype_ent s)
      as (s0 & Hs0 & Hu) end; [|done|done|].
  { intros j s'. rewrite (bind_Ok _ _ _ _ _ (get_rent_Ok j idx s')). unfold modify, untype_ent.
    by rewrite ra_untyped. }
  exists s0. split; [done|]. rewrite (bind_Ok _ _ _ _ _ Hs0).
  by rewrite (bind_Ok _ _ _ _ _ (cas_glb_Ok idx RETYPETBL_RETYPING RETYPETBL_UNTYPED s0
      ltac:(by rewrite (rt_upd_glb _ _ _ _ _ _ Hu)))).
Qed.

(** Locking every core and committing untypes the whole set, and no other. *)
Lemma lock_commit_untyped s s1 s2 idx :
  rt_upd (fun c => (0 <=? c) && (c <? 0 + Z.of_nat (Z.to_nat NUM_CPU))) idx
    (lock_ent RETYPETBL_RETYPING) (gput idx RETYPETBL_RETYPING s) s1 ->
  rt_upd (fun c => (0 <=? c) && (c <? 0 + Z.of_nat (Z.to_nat NUM_CPU))) idx untype_ent s1 s2 ->
  let s' := gput idx RETYPETBL_UNTYPED s2 in
  glb s' idx = RETYPETBL_UNTYPED /\
  (forall c, cpu_ok c -> rent s' c idx = REnt 0 (last_unmap (rent s c idx))) /\
  (forall i, i <> idx -> glb s' i = glb s i /\ forall c, rent s' c i = rent s c i).
Proof.
  intros [H1 E1] [H2 E2] s'. split_and!.
  - apply glb_gput_eq.
  - intros c Hc. change (rent s' c idx) with (rent s2 c idx).
    rewrite H2, H1, (in_all_cpus c Hc), Z.eqb_refl. done.
  - intros i Hi. split.
    + unfold s'. rewrite glb_gput_ne by done. rewrite E2, E1. unfold glb. simpl.
      by rewrite lookup_insert_ne.
    + intros c. change (rent s' c i) with (rent s2 c i). rewrite H2, H1.
      by rewrite (proj2 (Z.eqb_neq i idx)).
Qed.

(** The locking loop over all cores, after the global entry is locked. *)
Lemma r2f_lock_all s idx :
  (forall c, cpu_ok c -> ra_type (rt_v (rent s c idx)) = glb s idx) ->
  exists s1, rt_upd (fun c => (0 <=? c) && (c <? 0 + Z.of_nat (Z.to_nat NUM_CPU))) idx
      (lock_ent RETYPETBL_RETYPING) (gput idx RETYPETBL_RETYPING s) s1 /\
    r2f_lock (Z.to_nat NUM_CPU) 0 idx (glb s idx) 0 0 (gput idx RETYPETBL_RETYPING s) =
    Ok (0 + Z.of_nat (Z.to_nat NUM_CPU), 0, ref_total s idx, unmap_max s idx) s1.
Proof.
  intros He. destruct (r2f_lock_Ok (Z.to_nat NUM_CPU) 0 idx (glb s idx) 0 0
    (gput idx RETYPETBL_RETYPING s)) as (s1 & Hu & ->);
    [lia|done|intros c Hc; left; by apply He|done|].
  exists s1. split; [done|]. unfold ref_total, unmap_max. rewrite Z.add_0_l.
  rewrite (sum_refs_ext _ 0 (fun c => rent (gput idx RETYPETBL_RETYPING s) c idx)
    (fun c => rent s c idx)) by done.
  by rewrite (max_unmap_ext _ 0 (fun c => rent (gput idx RETYPETBL_RETYPING s) c idx)
    (fun c => rent s c idx)) by done.
Qed.

Lemma gput_tlb idx t s ts : tlb_quiescent (gput idx t s) ts = tlb_quiescent s ts.
Proof. reflexivity. Qed.

(** What [retypetbl_retype2frame] does to a well-formed set. *)
Lemma retype2frame_spec s pa :
  let idx := GET_MEM_IDX (kkmem_pa s) pa in
  pa_ok s pa -> retype_ok s idx ->
  exists r s', retypetbl_retype2frame pa s = Ok r s' /\
    (if glb s idx =? RETYPETBL_UNTYPED then r = - EPERM /\ s' = s
     else if negb (ref_total s idx =? 0) then r = - EINVAL /\ retype_eq s s'
     else if negb (tlb_quiescent s (unmap_max s idx)) then r = - EQUIESCENCE /\ retype_eq s s'
     else r = 0 /\ glb s' idx = RETYPETBL_UNTYPED /\
       (forall c, cpu_ok c -> rent s' c idx = REnt 0 (last_unmap (rent s c idx))) /\
       (forall i, i <> idx -> glb s' i = glb s i /\ forall c, rent s' c i = rent s c i)).
Proof.
  intros idx [Hpa Hidx] Hok. pose proof Hok as [Hg Hents]. unfold retypetbl_retype2frame.
  unfold bind at 1, gets at 1. rewrite Hpa. fold idx in Hidx |- *.
  rewrite (bind_Ok _ _ _ _ _ (massert_Ok _ s (proj2 (Z.ltb_lt _ _) Hidx))).
  unfold bind at 1, gets at 1. unfold RETYPETBL_USER, RETYPETBL_KERN, RETYPETBL_UNTYPED in *.
  destruct (Z.eqb_spec (glb s idx) 0) as [E|E].
  { rewrite E. cbn [negb andb Z.eqb]. by exists (- EPERM), s. }
  replace (negb (glb s idx =? 1) && negb (glb s idx =? 2)) with false
    by (symmetry; apply andb_false_iff; rewrite !negb_false_iff, !Z.eqb_eq; lia).
  rewrite (bind_Ok _ _ _ _ _ (cas_glb_Ok idx (glb s idx) RETYPETBL_RETYPING s eq_refl)).
  cbn [negb Z.eqb CAS_SUCCESS Pos.eqb].
  destruct (r2f_lock_all s idx) as (s1 & Hu1 & Hlock); [intros c Hc; by apply Hents|].
  rewrite (bind_Ok _ _ _ _ _ Hlock). cbn [negb Z.eqb]. clear Hlock.
  assert (glb s1 idx = RETYPETBL_RETYPING) as Hg1
    by (rewrite (rt_upd_glb _ _ _ _ _ _ Hu1); apply glb_gput_eq).
  assert (forall err, exists s', r2f_restore (0 + Z.of_nat (Z.to_nat NUM_CPU)) idx (glb s idx) err s1
    = Ok err s' /\ retype_eq s s') as Hrest.
  { intros err. destruct (r2f_restore_Ok (0 + Z.of_nat (Z.to_nat NUM_CPU)) idx (glb s idx) err s1)
      as (s2 & Hu2 & ->); [done|done|]. eexists. split; [done|]. by eapply lock_restore_eq. }
  destruct (Z.eqb_spec (ref_total s idx) 0) as [E0|E0]; cbn [negb].
  2: { destruct (Hrest (- EINVAL)) as (s' & -> & ?). by exists (- EINVAL), s'. }
  rewrite (bind_Ok _ _ _ _ _ (tlb_check_Ok _ s1)).
  rewrite (rt_upd_tlb _ _ _ _ _ _ Hu1), gput_tlb.
  destruct (tlb_quiescent s (unmap_max s idx)); cbn [negb].
  2: { destruct (Hrest (- EQUIESCENCE)) as (s' & -> & ?). by exists (- EQUIESCENCE), s'. }
  destruct (r2f_commit_Ok idx s1 Hg1) as (s2 & Hu2 & ->).
  eexists 0, _. split; [done|]. split; [done|]. by eapply lock_commit_untyped.
Qed.

(** *** References *)

Lemma sum_refs_point n cpu e e' c d :
  cpu <= c < cpu + Z.of_nat n ->
  ra_ref_cnt (rt_v (e' c)) = ra_ref_cnt (rt_v (e c)) + d -> (forall x, x <> c -> e' x = e x) ->
  sum_refs n cpu e' = sum_refs n cpu e + d.
Proof.
  revert cpu. induction n as [|n IH]; intros cpu Hc Hd He; [lia|]. simpl.
  destruct (decide (c = cpu)) as [->|Hne].
  - rewrite Hd. rewrite (sum_refs_ext n (cpu + 1) e' e) by (intros; apply He; lia). lia.
  - rewrite He by done. rewrite (IH (cpu + 1)) by (done || lia). lia.
Qed.

(** The state after a reference ([d = 1]) or dereference ([d = -1]). *)
Definition counted (cpu idx d um : Z) (s : kstate) : kstate :=
  let v := rt_v (rent s cpu idx) in
  rput cpu idx (REnt (ra_set_ref_cnt (ra_ref_cnt v + d) v) um) s.

Lemma mod_ref_cnt_Ok pa op tc s :
  let idx := GET_MEM_IDX (kkmem_pa s) pa in
  let cpu := cpuid (kcli s) in
  let v := rt_v (rent s cpu idx) in
  pa_ok s pa -> fixed_umem pa = false ->
  (ra_type v = RETYPETBL_USER \/ ra_type v = RETYPETBL_KERN) -> (tc < 0 \/ tc = ra_type v) ->
  mod_ref_cnt pa op tc s =
  if op then Ok 0 (counted cpu idx 1 (last_unmap (rent s cpu idx)) s)
  else Ok 0 (counted cpu idx (-1) (u64 (ktsc s (kticks s)))
               (rput cpu idx (REnt v (u64 (ktsc s (kticks s)))) (with_ticks (S (kticks s)) s))).
Proof.
  intros idx cpu v [Hpa Hidx] Hf Hty Htc. unfold mod_ref_cnt. rewrite Hf.
  unfold bind at 1, gets at 1. rewrite Hpa. fold idx in Hidx |- *.
  rewrite (bind_Ok _ _ _ _ _ (massert_Ok _ s (proj2 (Z.ltb_lt _ _) Hidx))).
  unfold get_cpuid. unfold bind at 1, gets at 1. fold cpu.
  rewrite (bind_Ok _ _ _ _ _ (get_rent_Ok cpu idx s)). fold v. cbv zeta.
  replace (negb (ra_type v =? RETYPETBL_USER) && negb (ra_type v =? RETYPETBL_KERN)) with false
    by (symmetry; apply andb_false_iff; rewrite !negb_false_iff, !Z.eqb_eq; done).
  replace ((0 <=? tc) && negb (tc =? ra_type v)) with false
    by (symmetry; apply andb_false_iff; rewrite negb_false_iff, Z.eqb_eq, Z.leb_gt; done).
  pose proof (ra_ref_range v) as Hr.
  rewrite (proj2 (Z.eqb_neq (ra_ref_cnt v) RETYPE_REFCNT_MAX))
    by (change RETYPE_REFCNT_MAX with 268435455; lia).
  destruct op.
  - rewrite (bind_Ok (ret _) _ s _ s eq_refl). unfold v at 1.
    by rewrite (bind_Ok _ _ _ _ _ (cas_ent_Ok cpu idx _ s)).
  - rewrite bind_assoc, (bind_Ok _ _ _ _ _ (rdtscll_Ok s)), bind_assoc.
    rewrite (bind_Ok _ _ _ _ _ (get_rent_Ok cpu idx _)), bind_assoc.
    unfold bind at 1, modify at 1. rewrite (bind_Ok (ret _) _ _ _ _ eq_refl).
    change (rt_v (rent (with_ticks (S (kticks s)) s) cpu idx)) with v.
    set (s1 := rput cpu idx _ _).
    assert (rent s1 cpu idx = REnt v (u64 (ktsc s (kticks s)))) as Hs1 by apply rent_rput_eq.
    replace v with (rt_v (rent s1 cpu idx)) at 1 by (by rewrite Hs1).
    rewrite (bind_Ok _ _ _ _ _ (cas_ent_Ok cpu idx _ s1)). unfold counted. by rewrite Hs1.
Qed.

Lemma mod_ref_cnt_untyped pa op tc s :
  let idx := GET_MEM_IDX (kkmem_pa s) pa in
  pa_ok s pa -> fixed_umem pa = false ->
  ra_type (rt_v (rent s (cpuid (kcli s)) idx)) = RETYPETBL_UNTYPED ->
  mod_ref_cnt pa op tc s = Ok (- EPERM) s.
Proof.
  intros idx [Hpa Hidx] Hf Ht. unfold mod_ref_cnt. rewrite Hf.
  unfold bind at 1, gets at 1. rewrite Hpa. fold idx in Hidx |- *.
  rewrite (bind_Ok _ _ _ _ _ (massert_Ok _ s (proj2 (Z.ltb_lt _ _) Hidx))).
  unfold get_cpuid, get_rent, bind, gets. by rewrite Ht.
Qed.

Lemma counted_total cpu idx d um s :
  cpu_ok cpu -> - 134217728 <= ra_ref_cnt (rt_v (rent s cpu idx)) + d < 134217728 ->
  ref_total (counted cpu idx d um s) idx = ref_total s idx + d.
Proof.
  intros Hc Hd. unfold ref_total, counted. apply (sum_refs_point _ _ _ _ cpu).
  - unfold cpu_ok in Hc. lia.
  - rewrite rent_rput_eq. cbn [rt_v]. by rewrite ra_ref_set_ref, sext28_small.
  - intros x Hx. apply rent_rput_ne. congruence.
Qed.

Lemma counted_ok cpu idx d um s :
  retype_ok s idx -> glb s idx <> RETYPETBL_UNTYPED -> retype_ok (counted cpu idx d um s) idx.
Proof.
  intros [Hg He] Hne. split; [done|]. intros c Hc.
  change (glb (counted cpu idx d um s) idx) with (glb s idx).
  split; [|by intros E; destruct Hne]. unfold counted. destruct (decide (c = cpu)) as [->|Hcne].
  - rewrite rent_rput_eq. cbn [rt_v]. rewrite ra_type_set_ref. by apply He.
  - rewrite rent_rput_ne by congruence. by apply He.
Qed.

(** *** Typing *)

Lemma mod_mem_type_Ok pa type s :
  let idx := GET_MEM_IDX (kkmem_pa s) pa in
  pa_ok s pa -> 0 < pa < COS_MEM_BOUND -> glb s idx = RETYPETBL_UNTYPED ->
  exists s1, rt_upd (fun c => (0 <=? c) && (c <? 0 + Z.of_nat (Z.to_nat NUM_CPU))) idx (lock_ent type)
      (gput idx RETYPETBL_RETYPING s) s1 /\
    mod_mem_type pa type s = Ok 0 (gput idx type s1).
Proof.
  intros idx [Hpa Hidx] Hr Hg. unfold mod_mem_type.
  rewrite (proj2 (Z.eqb_neq pa 0)) by lia. unfold massert at 1. unfold bind at 1, ret at 1. cbn [negb].
  unfold fixed_umem. rewrite (proj2 (Z.leb_gt _ _)) by lia.
  unfold bind at 1, gets at 1. rewrite Hpa. fold idx in Hidx |- *.
  rewrite (bind_Ok _ _ _ _ _ (massert_Ok _ s (proj2 (Z.ltb_lt _ _) Hidx))).
  unfold bind at 1, gets at 1. rewrite Hg. cbn [negb Z.eqb RETYPETBL_UNTYPED].
  assert ((chal_pa2va pa =? 0) = false) as ->.
  { apply Z.eqb_neq. unfold chal_pa2va. change COS_MEM_BOUND with 470810624 in Hr.
    rewrite u32_small; unfold is_u32, COS_MEM_KERN_START_VA; lia. }
  rewrite andb_false_r.
  rewrite (bind_Ok _ _ _ _ _ (cas_glb_Ok idx _ RETYPETBL_RETYPING s Hg)).
  cbn [negb Z.eqb CAS_SUCCESS Pos.eqb].
  match goal with |- context [for_n _ 0 ?b] =>
    destruct (for_rt_upd (Z.to_nat NUM_CPU) 0 idx (fun k => k) (fun c => c) b (lock_ent type)
      (gput idx RETYPETBL_RETYPING s)) as (s1 & Hs1 & Hu) end; [done|done|done|].
  exists s1. split; [done|]. rewrite (bind_Ok _ _ _ _ _ Hs1).
  by rewrite (bind_Ok _ _ _ _ _ (cas_glb_Ok idx RETYPETBL_RETYPING type s1
      ltac:(rewrite (rt_upd_glb _ _ _ _ _ _ Hu); apply glb_gput_eq))).
Qed.

(** The set after retyping an untyped one. *)
Lemma typed_ok s s1 idx type :
  retype_ok s idx -> glb s idx = RETYPETBL_UNTYPED -> 0 < type < 3 ->
  rt_upd (fun c => (0 <=? c) && (c <? 0 + Z.of_nat (Z.to_nat NUM_CPU))) idx (lock_ent type)
    (gput idx RETYPETBL_RETYPING s) s1 ->
  retype_ok (gput idx type s1) idx /\ ref_total (gput idx type s1) idx = 0.
Proof.
  intros [_ He] Hg Ht [Hu _].
  assert (forall c, cpu_ok c -> rent (gput idx type s1) c idx = lock_ent type (rent s c idx)) as Hr.
  { intros c Hc. change (rent (gput idx type s1) c idx) with (rent s1 c idx).
    by rewrite Hu, Z.eqb_refl, (in_all_cpus c Hc). }
  split.
  - split; [rewrite glb_gput_eq; lia|]. intros c Hc. rewrite Hr, glb_gput_eq by done.
    unfold lock_ent. cbn [rt_v]. rewrite ra_type_set_type by lia. split; [done|].
    unfold RETYPETBL_UNTYPED. lia.
  - unfold ref_total. assert (forall n cpu, 0 <= cpu -> cpu + Z.of_nat n <= NUM_CPU ->
      sum_refs n cpu (fun c => rent (gput idx type s1) c idx) = 0) as H0.
    { induction n as [|n IH]; intros cpu Hc Hn; simpl; [done|].
      rewrite IH, Hr by (unfold cpu_ok; lia). unfold lock_ent. cbn [rt_v].
      rewrite ra_ref_set_type. destruct (He cpu) as [_ ->]; [unfold cpu_ok; lia|done|done]. }
    by apply H0.
Qed.

(** ** Properties *)


(** Typing untyped memory succeeds, sets the type on every core and in
    the global table with no references; typed memory is refused with
    [-EEXIST] or [-EPERM] and nothing changes. *)
Theorem mod_mem_type_correct s pa type :
  let idx := GET_MEM_IDX (kkmem_pa s) pa in
  pa_ok s pa -> 0 < pa < COS_MEM_BOUND -> retype_ok s idx -> 0 < type < 3 ->
  exists s', mod_mem_type pa type s =
      Ok (if glb s idx =? RETYPETBL_UNTYPED then 0
          else if glb s idx =? type then - EEXIST else - EPERM) s' /\
    retype_ok s' idx /\
    (glb s idx = RETYPETBL_UNTYPED -> glb s' idx = type /\ ref_total s' idx = 0) /\
    (glb s idx <> RETYPETBL_UNTYPED -> s' = s).
Proof.
  intros idx Hpa Hr Hok Hty. destruct (Z.eqb_spec (glb s idx) RETYPETBL_UNTYPED) as [E|E].
  - destruct (mod_mem_type_Ok pa type s Hpa Hr E) as (s1 & Hu & ->). fold idx in Hu |- *.
    destruct (typed_ok s s1 idx type Hok E Hty Hu) as [Hok' H0].
    eexists. split; [done|]. split; [done|]. split; [|done]. intros _.
    split; [apply glb_gput_eq|done].
  - exists s. destruct Hpa as [Hpa Hidx]. split; [|by split_and!]. unfold mod_mem_type.
    rewrite (proj2 (Z.eqb_neq pa 0)) by lia. unfold massert at 1. unfold bind at 1, ret at 1. cbn [negb].
    unfold fixed_umem. rewrite (proj2 (Z.leb_gt _ _)) by lia.
    unfold bind at 1, gets at 1. rewrite Hpa. fold idx in Hidx |- *.
    rewrite (bind_Ok _ _ _ _ _ (massert_Ok _ s (proj2 (Z.ltb_lt _ _) Hidx))).
    unfold bind at 1, gets at 1. rewrite (proj2 (Z.eqb_neq _ RETYPETBL_UNTYPED)) by done.
    cbn [negb]. by destruct (glb s idx =? type).
Qed.


(** The count of a core is a signed 28-bit field, but the overflow check
    compares it with 2^28 - 1: it never fires, and the reference after
    2^27 - 1 others makes the count negative and reports success. *)
Theorem retype_ref_overflow s pa :
  let idx := GET_MEM_IDX (kkmem_pa s) pa in
  let cpu := cpuid (kcli s) in
  pa_ok s pa -> 0 <= pa < COS_MEM_BOUND -> cpu_ok cpu -> retype_ok s idx ->
  glb s idx <> RETYPETBL_UNTYPED -> ra_ref_cnt (rt_v (rent s cpu idx)) = 134217727 ->
  exists s', retypetbl_ref pa s = Ok 0 s' /\ ra_ref_cnt (rt_v (rent s' cpu idx)) = - 134217728.
Proof.
  intros idx cpu Hpa Hr Hcpu [Hg He] E Hcnt. destruct (He cpu Hcpu) as [Ht _].
  unfold retypetbl_ref. rewrite (mod_ref_cnt_Ok pa).
  - fold idx cpu. eexists. split; [done|]. unfold counted. rewrite rent_rput_eq. cbn [rt_v].
    by rewrite ra_ref_set_ref, Hcnt.
  - done.
  - apply Z.leb_gt. lia.
  - fold idx cpu. rewrite Ht. unfold RETYPETBL_UNTYPED, RETYPETBL_USER, RETYPETBL_KERN in *. lia.
  - by left.
Qed.

(** ** Examples *)

(** A page of the first memory set, typed as user memory and then mapped. *)
Definition rt_page : Z := 1048576.
Definition rt1 : kstate := run_state kstate0 (retypetbl_retype2user rt_page kstate0).
Definition rt2 : kstate := run_state kstate0 (retypetbl_ref rt_page rt1).

Lemma kstate0_retype_ok idx : retype_ok kstate0 idx.
Proof. split; [done|]. intros c Hc. done. Qed.

Lemma rt_pa_ok s : kkmem_pa s = 0 -> pa_ok s rt_page.
Proof. intros E. unfold pa_ok. rewrite E. done. Qed.

(** A check of [retype_ok] by computation. *)
Definition retype_okb (s : kstate) (idx : Z) : bool :=
  (0 <=? glb s idx) && (glb s idx <? 3) &&
  forallb (fun c => (ra_type (rt_v (rent s c idx)) =? glb s idx) &&
    (negb (glb s idx =? RETYPETBL_UNTYPED) || (ra_ref_cnt (rt_v (rent s c idx)) =? 0)))
    (map Z.of_nat (seq 0 16)).

Lemma retype_okb_ok s idx : retype_okb s idx = true -> retype_ok s idx.
Proof.
  unfold retype_okb. intros [[H1 H2]%andb_prop H3]%andb_prop.
  apply Z.leb_le in H1. apply Z.ltb_lt in H2. split; [done|]. intros c Hc.
  pose proof (forall_below 16 _ H3 c Hc) as [Ht Hr]%andb_prop. apply Z.eqb_eq in Ht.
  split; [done|]. intros E. rewrite E in Hr. by apply Z.eqb_eq in Hr.
Qed.

Lemma rt1_ok : retype_ok rt1 0.
Proof. apply retype_okb_ok. by vm_compute. Qed.

Lemma rt2_ok : retype_ok rt2 0.
Proof. apply retype_okb_ok. by vm_compute. Qed.


Lemma mod_mem_type_correct_witness :
  exists s', mod_mem_type rt_page RETYPETBL_USER kstate0 = Ok 0 s' /\ glb s' 0 = RETYPETBL_USER.
Proof.
  destruct (mod_mem_type_correct kstate0 rt_page RETYPETBL_USER) as (s' & H & _ & Hu & _);
    [by apply rt_pa_ok|done|apply kstate0_retype_ok|done|].
  exists s'. split; [exact H|]. by apply Hu.
Defined.


Lemma retype_ref_overflow_witness :
  let s := rput 0 0 (REnt (ra_set_ref_cnt 134217727 1) 0) rt1 in
  exists s', retypetbl_ref rt_page s = Ok 0 s' /\ ra_ref_cnt (rt_v (rent s' 0 0)) = - 134217728.
Proof.
  intros s. apply (retype_ref_overflow s rt_page);
    [by apply rt_pa_ok|done|done|apply retype_okb_ok; by vm_compute|by vm_compute|by vm_compute].
Defined.
