(* ===== verification/RetypeConc.v ===== *)
(** * Concurrent use of the retype table

    The operations of [kernel/retype_tbl.c] synchronize through
    compare-and-swap only.  Here each of their accesses to the shared words of
    one memory set is a step, and any number of threads, each on some core,
    interleave: [mod_ref_cnt] on the entry of its core, [mod_mem_type] and
    [retypetbl_retype2frame] on the global type and all entries.  The TLB
    check is a free choice.  The theorems hold in every reachable state. *)

From S2P Require Import Prelude Config Machine Retype RetypeSpec.

(** Where a thread is in the operation it runs; [Done r] when it returned. *)
Inductive pc : Type :=
| Idle
| RefCas (old_v new_v : Z)                        (** [mod_ref_cnt] before its CAS *)
| TypeCas (type : Z)                              (** [mod_mem_type] before the first CAS *)
| TypeSet (cpu type : Z)                          (** setting entry [cpu] *)
| FrameCas (old_type : Z)                         (** [retype2frame] before the first CAS *)
| FrameRead (cpu old_type ref_sum : Z)            (** at the top of the locking loop *)
| FrameLock (cpu old_type ref_sum old_v : Z)      (** before the CAS on entry [cpu] *)
| FrameCommit (cpu : Z)                           (** untyping entry [cpu] *)
| RestoreRead (cpu old_type err : Z)              (** [restore_all], entries below [cpu] *)
| RestoreCas (cpu old_type err old_v : Z)
| Done (r : Z).

Record cst := CSt { c_glb : Z; c_ent : Z -> Z; c_pc : nat -> pc }.

Definition upd {A B} `{EqDecision A} (f : A -> B) (a : A) (b : B) : A -> B :=
  fun x => if decide (x = a) then b else f x.
Definition set_pc (t : nat) (p : pc) (st : cst) : cst :=
  CSt (c_glb st) (c_ent st) (upd (c_pc st) t p).
Definition set_glb (g : Z) (st : cst) : cst := CSt g (c_ent st) (c_pc st).
Definition set_ent (c v : Z) (st : cst) : cst := CSt (c_glb st) (upd (c_ent st) c v) (c_pc st).

Section Steps.
(** The core on which each thread runs. *)
Context (core : nat -> Z).

(** One access of thread [t] to the shared words. *)
Inductive step : cst -> cst -> Prop :=
(** [mod_ref_cnt]: read the entry of this core, check its type, then CAS *)
| StRefRead t st (op : bool) :
    c_pc st t = Idle -> let v := c_ent st (core t) in
    ra_type v = RETYPETBL_USER \/ ra_type v = RETYPETBL_KERN ->
    step st (set_pc t (RefCas v (ra_set_ref_cnt (if op then ra_ref_cnt v + 1 else ra_ref_cnt v - 1) v)) st)
| StRefOk t st o n :
    c_pc st t = RefCas o n -> c_ent st (core t) = o ->
    step st (set_pc t (Done 0) (set_ent (core t) n st))
| StRefFail t st o n :
    c_pc st t = RefCas o n -> c_ent st (core t) <> o -> step st (set_pc t (Done (- ECASFAIL)) st)
(** [mod_mem_type] *)
| StTypeRead t st type :
    c_pc st t = Idle -> c_glb st = RETYPETBL_UNTYPED -> 0 < type < 3 ->
    step st (set_pc t (TypeCas type) st)
| StTypeOk t st type :
    c_pc st t = TypeCas type -> c_glb st = RETYPETBL_UNTYPED ->
    step st (set_pc t (TypeSet 0 type) (set_glb RETYPETBL_RETYPING st))
| StTypeFail t st type :
    c_pc st t = TypeCas type -> c_glb st <> RETYPETBL_UNTYPED ->
    step st (set_pc t (Done (- ECASFAIL)) st)
| StTypeSet t st cpu type :
    c_pc st t = TypeSet cpu type -> cpu < NUM_CPU ->
    step st (set_pc t (TypeSet (cpu + 1) type) (set_ent cpu (ra_set_type type (c_ent st cpu)) st))
| StTypeEnd t st cpu type :
    c_pc st t = TypeSet cpu type -> NUM_CPU <= cpu -> c_glb st = RETYPETBL_RETYPING ->
    step st (set_pc t (Done 0) (set_glb type st))
(** [retypetbl_retype2frame]: lock the global entry; a failed CAS returns its result, 0 *)
| StFrameStart t st :
    c_pc st t = Idle -> c_glb st = RETYPETBL_USER \/ c_glb st = RETYPETBL_KERN ->
    step st (set_pc t (FrameCas (c_glb st)) st)
| StFrameGlb t st o :
    c_pc st t = FrameCas o -> c_glb st = o ->
    step st (set_pc t (FrameRead 0 o 0) (set_glb RETYPETBL_RETYPING st))
| StFrameGlbFail t st o :
    c_pc st t = FrameCas o -> c_glb st <> o -> step st (set_pc t (Done 0) st)
(** the locking loop *)
| StFrameRead t st cpu o sum :
    c_pc st t = FrameRead cpu o sum -> cpu < NUM_CPU ->
    ra_type (c_ent st cpu) = o \/ ra_type (c_ent st cpu) = RETYPETBL_RETYPING ->
    step st (set_pc t (FrameLock cpu o sum (c_ent st cpu)) st)
| StFrameLock t st cpu o sum v :
    c_pc st t = FrameLock cpu o sum v -> c_ent st cpu = v ->
    let new_v := ra_set_type RETYPETBL_RETYPING v in
    step st (set_pc t (FrameRead (cpu + 1) o (i32 (sum + ra_ref_cnt new_v))) (set_ent cpu new_v st))
| StFrameLockFail t st cpu o sum v :
    c_pc st t = FrameLock cpu o sum v -> c_ent st cpu <> v ->
    step st (set_pc t (RestoreRead cpu o (- ECASFAIL)) st)
| StFrameRefs t st cpu o sum :
    c_pc st t = FrameRead cpu o sum -> NUM_CPU <= cpu -> sum <> 0 ->
    step st (set_pc t (RestoreRead cpu o (- EINVAL)) st)
| StFrameTlb t st cpu o sum :
    c_pc st t = FrameRead cpu o sum -> NUM_CPU <= cpu -> sum = 0 ->
    step st (set_pc t (RestoreRead cpu o (- EQUIESCENCE)) st)
| StFrameLegit t st cpu o sum :
    c_pc st t = FrameRead cpu o sum -> NUM_CPU <= cpu -> sum = 0 ->
    step st (set_pc t (FrameCommit 0) st)
| StFrameUntype t st cpu :
    c_pc st t = FrameCommit cpu -> cpu < NUM_CPU ->
    step st (set_pc t (FrameCommit (cpu + 1))
      (set_ent cpu (ra_set_type RETYPETBL_UNTYPED (ra_set_ref_cnt 0 (c_ent st cpu))) st))
| StFrameEnd t st cpu :
    c_pc st t = FrameCommit cpu -> NUM_CPU <= cpu -> c_glb st = RETYPETBL_RETYPING ->
    step st (set_pc t (Done 0) (set_glb RETYPETBL_UNTYPED st))
(** [restore_all] *)
| StRestoreRead t st cpu o err :
    c_pc st t = RestoreRead cpu o err -> 0 < cpu ->
    step st (set_pc t (RestoreCas (cpu - 1) o err (c_ent st (cpu - 1))) st)
| StRestoreOk t st cpu o err v :
    c_pc st t = RestoreCas cpu o err v -> c_ent st cpu = v ->
    step st (set_pc t (RestoreRead cpu o err) (set_ent cpu (ra_set_type o v) st))
| StRestoreFail t st cpu o err v :
    c_pc st t = RestoreCas cpu o err v -> c_ent st cpu <> v ->
    step st (set_pc t (RestoreRead cpu o err) st)
| StRestoreEnd t st cpu o err :
    c_pc st t = RestoreRead cpu o err -> cpu <= 0 -> c_glb st = RETYPETBL_RETYPING ->
    step st (set_pc t (Done err) (set_glb o st))
(** a thread starts another operation *)
| StAgain t st r : c_pc st t = Done r -> step st (set_pc t Idle st).

(** The set starts typed with no references, or untyped. *)
Definition init (st : cst) : Prop :=
  0 <= c_glb st < 3 /\ (forall c, c_ent st c = c_glb st) /\ forall t, c_pc st t = Idle.

Inductive reachable : cst -> Prop :=
| ReachInit st : init st -> reachable st
| ReachStep st st' : reachable st -> step st st' -> reachable st'.
End Steps.

(** ** The invariant *)

(** Inside a critical section: between locking and committing the global type. *)
Definition crit (p : pc) : bool :=
  match p with
  | TypeSet _ _ | FrameRead _ _ _ | FrameLock _ _ _ _ | FrameCommit _
  | RestoreRead _ _ _ | RestoreCas _ _ _ _ => true
  | _ => false
  end.

(** Entries below [cpu] have type [a], the others [b]. *)
Definition types (ent : Z -> Z) (cpu a b : Z) : Prop :=
  forall j, cpu_ok j -> ra_type (ent j) = if decide (j < cpu) then a else b.

(** The references on the cores below [n]. *)
Definition refs_below (n : Z) (ent : Z -> Z) : Z :=
  sum_refs (Z.to_nat n) 0 (fun c => REnt (ent c) 0).

(** What the holder of the lock knows about the entries. *)
Definition holder_ok (p : pc) (ent : Z -> Z) : Prop :=
  match p with
  | TypeSet cpu ty => 0 <= cpu <= NUM_CPU /\ 0 < ty < 3 /\ types ent cpu ty RETYPETBL_UNTYPED
  | FrameRead cpu o sum =>
      0 <= cpu <= NUM_CPU /\ 0 < o < 3 /\ types ent cpu RETYPETBL_RETYPING o /\
      sum = refs_below cpu ent
  | FrameLock cpu o sum v =>
      0 <= cpu < NUM_CPU /\ 0 < o < 3 /\ types ent cpu RETYPETBL_RETYPING o /\
      sum = refs_below cpu ent
  | FrameCommit cpu =>
      0 <= cpu <= NUM_CPU /\ types ent cpu RETYPETBL_UNTYPED RETYPETBL_RETYPING /\
      (cpu = 0 -> refs_below NUM_CPU ent = 0)
  | RestoreRead cpu o err =>
      0 <= cpu <= NUM_CPU /\ 0 < o < 3 /\ types ent cpu RETYPETBL_RETYPING o
  | RestoreCas cpu o err v =>
      0 <= cpu < NUM_CPU /\ 0 < o < 3 /\ types ent (cpu + 1) RETYPETBL_RETYPING o /\ ent cpu = v
  | _ => False
  end.

(** What a thread outside of the critical sections remembers. *)
Definition local_ok (p : pc) : Prop :=
  match p with
  | RefCas o n => 0 < ra_type o < 3 /\ ra_type n = ra_type o
  | TypeCas ty => 0 < ty < 3
  | FrameCas o => 0 < o < 3
  | _ => True
  end.

Definition free (st : cst) : Prop :=
  (forall t, crit (c_pc st t) = false) /\ 0 <= c_glb st < 3 /\
  types (c_ent st) 0 RETYPETBL_UNTYPED (c_glb st).
Definition held (st : cst) (t : nat) : Prop :=
  crit (c_pc st t) = true /\ (forall t', crit (c_pc st t') = true -> t' = t) /\
  c_glb st = RETYPETBL_RETYPING /\ holder_ok (c_pc st t) (c_ent st).
Definition Inv (st : cst) : Prop :=
  (forall t, local_ok (c_pc st t)) /\ (free st \/ exists t, held st t).

(** *** Updates *)

Lemma upd_eq {A B} `{EqDecision A} (f : A -> B) a b : upd f a b a = b.
Proof. unfold upd. by rewrite decide_True. Qed.
Lemma upd_ne {A B} `{EqDecision A} (f : A -> B) a b x : x <> a -> upd f a b x = f x.
Proof. intros. unfold upd. by rewrite decide_False. Qed.

Lemma local_upd (pcs : nat -> pc) t p :
  (forall t, local_ok (pcs t)) -> local_ok p -> forall t', local_ok (upd pcs t p t').
Proof. intros H Hp t'. unfold upd. by destruct (decide (t' = t)). Qed.

Lemma refs_below_ext n e e' :
  (forall j, 0 <= j < n -> e' j = e j) -> refs_below n e' = refs_below n e.
Proof.
  intros H. unfold refs_below. apply sum_refs_ext. intros c Hc. rewrite H; [done|]. lia.
Qed.

Lemma refs_below_succ n e : 0 <= n -> refs_below (n + 1) e = refs_below n e + ra_ref_cnt (e n).
Proof.
  intros Hn. unfold refs_below. rewrite Z2Nat.inj_add by lia. change (Z.to_nat 1) with 1%nat.
  assert (forall k c, sum_refs (k + 1) c (fun x => REnt (e x) 0) =
    sum_refs k c (fun x => REnt (e x) 0) + ra_ref_cnt (e (c + Z.of_nat k))) as H.
  { induction k as [|k IH]; intros c; simpl; [rewrite !Z.add_0_r; lia|].
    rewrite IH. replace (c + 1 + Z.of_nat k) with (c + Z.of_nat (S k)) by lia. simpl. lia. }
  rewrite H. by rewrite Z.add_0_l, Z2Nat.id.
Qed.

Lemma types_upd ent cpu a b v :
  types ent cpu a b -> ra_type v = a -> types (upd ent cpu v) (cpu + 1) a b.
Proof.
  intros H Hv j Hj. destruct (decide (j = cpu)) as [->|Hne].
  - rewrite upd_eq, decide_True by lia. done.
  - rewrite upd_ne, H by done. destruct (decide (j < cpu)), (decide (j < cpu + 1)); try done; lia.
Qed.

Lemma types_upd_down ent cpu a b v :
  types ent (cpu + 1) a b -> ra_type v = b -> types (upd ent cpu v) cpu a b.
Proof.
  intros H Hv j Hj. destruct (decide (j = cpu)) as [->|Hne].
  - rewrite upd_eq, decide_False by lia. done.
  - rewrite upd_ne, H by done. destruct (decide (j < cpu)), (decide (j < cpu + 1)); try done; lia.
Qed.

Lemma types_same ent cpu a b c v :
  types ent cpu a b -> ra_type v = ra_type (ent c) -> types (upd ent c v) cpu a b.
Proof.
  intros H Hv j Hj. destruct (decide (j = c)) as [->|Hne].
  - rewrite upd_eq, Hv. by apply H.
  - rewrite upd_ne by done. by apply H.
Qed.

Lemma refs_below_range n e : 0 <= n <= NUM_CPU -> - 2147483648 <= refs_below n e <= 2147483632.
Proof.
  intros Hn. unfold refs_below. pose proof (sum_refs_range (Z.to_nat n) 0 (fun c => REnt (e c) 0)).
  change NUM_CPU with 16 in Hn. lia.
Qed.

(** *** How the steps move the invariant *)

Lemma inv_held st t : Inv st -> crit (c_pc st t) = true -> held st t.
Proof.
  intros [_ [[Hf _]|[t' Ht']]] Hc; [by rewrite Hf in Hc|].
  pose proof Ht' as (_ & Hu & _). by rewrite (Hu t Hc).
Qed.

(** A thread outside of the critical sections moves and changes nothing. *)
Lemma inv_outside st t p :
  Inv st -> crit (c_pc st t) = false -> crit p = false -> local_ok p -> Inv (set_pc t p st).
Proof.
  intros [Hl HI] Hc Hp Hlp. split; [by apply local_upd|]. destruct HI as [(Hf & Hg)|(h & H1 & H2 & H3)].
  - left. split; [|done]. intros t'. simpl. unfold upd. by destruct (decide (t' = t)).
  - right. exists h. assert (h <> t) by (intros ->; by rewrite H1 in Hc). unfold held; simpl.
    rewrite upd_ne by done. split_and!; try done; try apply H3. intros t'. unfold upd.
    destruct (decide (t' = t)); [by rewrite Hp|]. apply H2.
Qed.

(** The holder moves inside its critical section. *)
Lemma inv_inside st t p ent' :
  Inv st -> held st t -> crit p = true -> holder_ok p ent' -> local_ok p ->
  Inv (CSt (c_glb st) ent' (upd (c_pc st) t p)).
Proof.
  intros [Hl _] (_ & Hu & Hg & _) Hp Hh Hlp. split; [by apply local_upd|]. right. exists t.
  unfold held; simpl. rewrite upd_eq. split_and!; try done. intros t'. unfold upd.
  destruct (decide (t' = t)); [done|]. apply Hu.
Qed.

(** A thread takes the lock. *)
Lemma inv_acquire st t p :
  Inv st -> c_glb st <> RETYPETBL_RETYPING -> crit p = true ->
  (types (c_ent st) 0 RETYPETBL_UNTYPED (c_glb st) -> holder_ok p (c_ent st)) -> local_ok p ->
  Inv (set_pc t p (set_glb RETYPETBL_RETYPING st)).
Proof.
  intros [Hl HI] Hg Hp Hh Hlp. split; [by apply local_upd|].
  destruct HI as [(Hf & _ & Ht)|(h & _ & _ & E & _)]; [|done]. right. exists t.
  unfold held; simpl. rewrite upd_eq. split_and!; try done; [|by apply Hh]. intros t'. unfold upd.
  destruct (decide (t' = t)); [done|]. by rewrite Hf.
Qed.

(** The holder publishes a type. *)
Lemma inv_release st t p g :
  Inv st -> held st t -> crit p = false -> local_ok p -> 0 <= g < 3 ->
  types (c_ent st) 0 RETYPETBL_UNTYPED g -> Inv (set_pc t p (set_glb g st)).
Proof.
  intros [Hl _] (_ & Hu & _) Hp Hlp Hg Ht. split; [by apply local_upd|]. left.
  split; [|exact (conj Hg Ht)]. intros t'. simpl. unfold upd. destruct (decide (t' = t)); [done|].
  destruct (crit (c_pc st t')) eqn:E; [|done]. by apply Hu in E.
Qed.

(** A reference count changes: only on an entry that is not locked, so what
    the holder of the lock knows stays true. *)
Lemma inv_ref st c v t p :
  Inv st -> crit (c_pc st t) = false -> crit p = false -> local_ok p ->
  0 < ra_type (c_ent st c) < 3 -> ra_type v = ra_type (c_ent st c) ->
  Inv (set_pc t p (set_ent c v st)).
Proof.
  intros HI Hc Hp Hlp Hty Hv. apply (inv_outside (set_ent c v st)); [|done..].
  destruct HI as [Hl HI]. split; [done|]. destruct HI as [(Hf & Hg & Ht)|(h & H1 & H2 & H3 & Hh)].
  - left. split_and!; try done; try apply Hg. by apply types_same.
  - right. exists h. unfold held. simpl. split_and!; try done.
    assert (forall cpu b, types (c_ent st) cpu RETYPETBL_RETYPING b -> cpu_ok c -> cpu <= c) as Hlk.
    { intros cpu b Ht Hok. specialize (Ht c Hok). destruct (decide (c < cpu)); [|lia].
      unfold RETYPETBL_RETYPING in Ht. lia. }
    assert (forall n b, n <= NUM_CPU -> types (c_ent st) n RETYPETBL_RETYPING b ->
      refs_below n (upd (c_ent st) c v) = refs_below n (c_ent st)) as Hsum.
    { intros n b Hn Ht. apply refs_below_ext. intros j Hj. apply upd_ne. intros ->.
      specialize (Hlk n b Ht). unfold cpu_ok in Hlk. lia. }
    destruct (c_pc st h); try done; simpl in *.
    + destruct Hh as (? & ? & Ht). split_and!; try lia. by apply types_same.
    + destruct Hh as (? & ? & Ht & ->). split_and!; try lia; [by apply types_same|].
      symmetry. eapply Hsum; [|exact Ht]. lia.
    + destruct Hh as (? & ? & Ht & ->). split_and!; try lia; [by apply types_same|].
      symmetry. eapply Hsum; [|exact Ht]. lia.
    + destruct Hh as (? & Ht & H0). split_and!; try lia; [by apply types_same|]. intros ->.
      rewrite (refs_below_ext _ (c_ent st)); [by apply H0|]. intros j Hj. apply upd_ne. intros ->.
      specialize (Ht c Hj). rewrite decide_False in Ht by lia. unfold RETYPETBL_RETYPING in Ht. lia.
    + destruct Hh as (? & ? & Ht). split_and!; try lia. by apply types_same.
    + destruct Hh as (? & ? & Ht & He). split_and!; try lia; [by apply types_same|].
      rewrite upd_ne; [done|]. intros <-. specialize (Hlk _ _ Ht). unfold cpu_ok in Hlk. lia.
Qed.

Lemma types_all ent cpu a b : types ent cpu a b -> NUM_CPU <= cpu -> types ent 0 RETYPETBL_UNTYPED a.
Proof.
  intros H Hc j Hj. rewrite H by done. unfold cpu_ok in Hj.
  by rewrite decide_True, decide_False by lia.
Qed.

Lemma types_none ent cpu a b : types ent cpu a b -> cpu <= 0 -> types ent 0 RETYPETBL_UNTYPED b.
Proof.
  intros H Hc j Hj. rewrite H by done. unfold cpu_ok in Hj. by rewrite !decide_False by lia.
Qed.

(** [hold Hp Hok]: the thread whose position is [Hp] holds the lock. *)
Ltac hold HI Hp Hok :=
  let Hh := fresh "Hheld" in
  pose proof (inv_held _ _ HI ltac:(rewrite Hp; reflexivity)) as Hh;
  pose proof Hh as (_ & _ & _ & Hok); rewrite Hp in Hok; simpl in Hok.

(** Steps outside of the critical sections, and those that take the lock. *)
Lemma step_inv_outside core st st' t :
  Inv st -> step core st st' -> crit (c_pc st t) = false -> c_pc st' t <> c_pc st t -> Inv st'.
Proof.
  intros HI Hs Hc Hmove. pose proof HI as [Hl _].
  inversion Hs as
    [u ? op Hp v Hty|u ? o n Hp He|u ? o n Hp He|u ? ty Hp Hg Hty|u ? ty Hp Hg|u ? ty Hp Hg
    |u ? c ty Hp ?|u ? c ty Hp ? ?|u ? Hp Hg|u ? o Hp Hg|u ? o Hp Hg|u ? c o q Hp ? ?|u ? c o q w Hp ? x
    |u ? c o q w Hp ?|u ? c o q Hp ? ?|u ? c o q Hp ? ?|u ? c o q Hp ? ?|u ? c Hp ?|u ? c Hp ? ?
    |u ? c o e Hp ?|u ? c o e w Hp ?|u ? c o e w Hp ?|u ? c o e Hp ? ?|u ? r Hp]; subst;
    (assert (u = t) as -> by (destruct (decide (u = t)); [done|];
       exfalso; apply Hmove; simpl; by rewrite upd_ne by congruence));
    rewrite Hp in Hc; try discriminate Hc; pose proof (Hl t) as Hlt; rewrite Hp in Hlt; simpl in Hlt.
  - apply inv_outside; [done|by rewrite Hp|done|]. simpl. rewrite ra_type_set_ref.
    unfold v, RETYPETBL_USER, RETYPETBL_KERN in *. split; [lia|done].
  - apply inv_ref; [done|by rewrite Hp|done|done|lia|lia].
  - apply inv_outside; [done|by rewrite Hp|done|done].
  - apply inv_outside; [done|by rewrite Hp|done|done].
  - apply inv_acquire; [done|by rewrite Hg|done| |done]. rewrite Hg. intros Ht. simpl.
    split_and!; try done; try lia. intros j Hj. rewrite Ht by done.
    unfold cpu_ok in Hj. by rewrite !decide_False by lia.
  - apply inv_outside; [done|by rewrite Hp|done|done].
  - apply inv_outside; [done|by rewrite Hp|done|].
    simpl. unfold RETYPETBL_USER, RETYPETBL_KERN in *. lia.
  - apply inv_acquire; [done|unfold RETYPETBL_RETYPING; lia|done| |done]. intros Ht. simpl.
    split_and!; try done; try lia. intros j Hj. rewrite Ht by done.
    unfold cpu_ok in Hj. by rewrite !decide_False by lia.
  - apply inv_outside; [done|by rewrite Hp|done|done].
  - apply inv_outside; [done|by rewrite Hp|done|done].
Qed.

(** Steps of the holder of the lock. *)
Lemma step_inv_inside core st st' t :
  Inv st -> step core st st' -> crit (c_pc st t) = true -> c_pc st' t <> c_pc st t -> Inv st'.
Proof.
  intros HI Hs Hc Hmove.
  inversion Hs as
    [u ? op Hp v Hty|u ? o n Hp He|u ? o n Hp He|u ? ty Hp Hg Hty|u ? ty Hp Hg|u ? ty Hp Hg
    |u ? c ty Hp Hn|u ? c ty Hp Hn Hg|u ? Hp Hg|u ? o Hp Hg|u ? o Hp Hg|u ? c o q Hp Hn Hty
    |u ? c o q w Hp He x|u ? c o q w Hp He|u ? c o q Hp Hn Hq|u ? c o q Hp Hn Hq|u ? c o q Hp Hn Hq
    |u ? c Hp Hn|u ? c Hp Hn Hg|u ? c o e Hp Hn|u ? c o e w Hp He|u ? c o e w Hp He
    |u ? c o e Hp Hn Hg|u ? r Hp]; subst;
    (assert (u = t) as -> by (destruct (decide (u = t)); [done|];
       exfalso; apply Hmove; simpl; by rewrite upd_ne by congruence));
    rewrite Hp in Hc; try discriminate Hc; hold HI Hp Hok.
  - destruct Hok as (H1 & H2 & Ht). apply (inv_inside st t); try done. simpl.
    split_and!; try lia. apply types_upd; [done|]. apply ra_type_set_type. lia.
  - destruct Hok as (H1 & H2 & Ht). apply inv_release; try done; [lia|]. by eapply types_all.
  - destruct Hok as (H1 & H2 & Ht & Hsum). apply (inv_inside st t); try done; simpl;
    split_and!; lia || done.
  - destruct Hok as (H1 & H2 & Ht & Hsum). apply (inv_inside st t); try done.
    unfold x. rewrite ra_ref_set_type. simpl. split_and!; try lia.
    + apply types_upd; [done|]. by apply ra_type_set_type.
    + rewrite refs_below_succ, upd_eq, ra_ref_set_type by lia.
      rewrite (refs_below_ext c (c_ent st)) by (intros; apply upd_ne; lia). rewrite <- Hsum.
      rewrite i32_small; [done|]. pose proof (refs_below_range (c + 1) (c_ent st)) as Hr.
      rewrite refs_below_succ in Hr by lia. lia.
  - destruct Hok as (H1 & H2 & Ht & Hsum). apply (inv_inside st t); try done; simpl; split_and!; lia || done.
  - destruct Hok as (H1 & H2 & Ht & Hsum). apply (inv_inside st t); try done; simpl; split_and!; lia || done.
  - destruct Hok as (H1 & H2 & Ht & Hsum). apply (inv_inside st t); try done; simpl; split_and!; lia || done.
  - destruct Hok as (H1 & H2 & Ht & Hsum). apply (inv_inside st t); try done. simpl.
    split_and!; try lia.
    + intros j Hj. rewrite Ht by done. unfold cpu_ok in Hj. by rewrite decide_True, decide_False by lia.
    + intros _. replace NUM_CPU with c by lia. by rewrite <- Hsum.
  - destruct Hok as (H1 & Ht & H0). apply (inv_inside st t); try done. simpl.
    split_and!; try lia. apply types_upd; [done|]. by rewrite ra_untyped.
  - destruct Hok as (H1 & Ht & H0). apply inv_release; try done. by eapply types_all.
  - destruct Hok as (H1 & H2 & Ht). apply (inv_inside st t); try done. simpl.
    replace (c - 1 + 1) with c by lia. split_and!; try lia; done.
  - destruct Hok as (H1 & H2 & Ht & _). apply (inv_inside st t); try done. simpl.
    split_and!; try lia. apply types_upd_down; [done|]. apply ra_type_set_type. lia.
  - destruct Hok as (H1 & H2 & Ht & He'). by destruct He.
  - destruct Hok as (H1 & H2 & Ht). apply inv_release; try done; [lia|]. by eapply types_none.
Qed.

Lemma step_moves core st st' : step core st st' -> exists t, c_pc st' t <> c_pc st t.
Proof.
  intros Hs. inversion Hs as
    [u ? op Hp v Hty|u ? o n Hp He|u ? o n Hp He|u ? ty Hp Hg Hty|u ? ty Hp Hg|u ? ty Hp Hg
    |u ? c ty Hp Hn|u ? c ty Hp Hn Hg|u ? Hp Hg|u ? o Hp Hg|u ? o Hp Hg|u ? c o q Hp Hn Hty
    |u ? c o q w Hp He x|u ? c o q w Hp He|u ? c o q Hp Hn Hq|u ? c o q Hp Hn Hq|u ? c o q Hp Hn Hq
    |u ? c Hp Hn|u ? c Hp Hn Hg|u ? c o e Hp Hn|u ? c o e w Hp He|u ? c o e w Hp He
    |u ? c o e Hp Hn Hg|u ? r Hp]; exists u; simpl; rewrite upd_eq, Hp; try discriminate;
    intros E; injection E; lia.
Qed.

Lemma step_inv core st st' : Inv st -> step core st st' -> Inv st'.
Proof.
  intros HI Hs. destruct (step_moves core st st' Hs) as [t Ht].
  destruct (crit (c_pc st t)) eqn:E; [by eapply step_inv_inside|by eapply step_inv_outside].
Qed.

Lemma init_inv st : init st -> Inv st.
Proof.
  intros (Hg & He & Hp). split; [intros t; by rewrite Hp|]. left.
  split; [intros t; by rewrite Hp|]. split; [done|]. intros j Hj. rewrite He.
  unfold cpu_ok in Hj. rewrite decide_False by lia. unfold ra_type. apply Z.mod_small. lia.
Qed.

Lemma reachable_inv core st : reachable core st -> Inv st.
Proof. induction 1; [by apply init_inv|by eapply step_inv]. Qed.

(** ** Properties *)

(** C17. No memory set loses its type while it is referenced: in every
    interleaving, when [retypetbl_retype2frame] starts to untype the entries,
    the entries of all cores are locked and the reference counts sum to zero
    at that moment, whatever the other cores did during the locking loop; and
    no other thread is in a critical section. *)
Theorem retype_commit_safe core st t :
  reachable core st -> c_pc st t = FrameCommit 0 ->
  refs_below NUM_CPU (c_ent st) = 0 /\
  (forall j, cpu_ok j -> ra_type (c_ent st j) = RETYPETBL_RETYPING) /\
  (forall t', crit (c_pc st t') = true -> t' = t).
Proof.
  intros Hr Hp. apply reachable_inv in Hr as HI. hold HI Hp Hok.
  destruct Hok as (_ & Ht & H0). split_and!; [by apply H0| |apply Hheld].
  intros j Hj. rewrite Ht by done. unfold cpu_ok in Hj. by rewrite decide_False by lia.
Qed.

(** A run of [retypetbl_retype2frame] alone, up to the lock of core [n]. *)
Lemma reach_lock (core : nat -> Z) n :
  (n <= Z.to_nat NUM_CPU)%nat ->
  exists st, reachable core st /\ c_pc st 0%nat = FrameRead (Z.of_nat n) RETYPETBL_USER 0 /\
    forall j, Z.of_nat n <= j -> c_ent st j = 1.
Proof.
  induction n as [|n IH]; intros Hn.
  - set (s0 := CSt RETYPETBL_USER (fun _ => 1) (fun _ => Idle)).
    assert (reachable core s0) as R0 by (apply ReachInit; split; [done|split; done]).
    set (s1 := set_pc 0 (FrameCas RETYPETBL_USER) s0).
    assert (step core s0 s1) as H1 by (apply (StFrameStart core 0 s0); [done|by left]).
    set (s2 := set_pc 0 (FrameRead 0 RETYPETBL_USER 0) (set_glb RETYPETBL_RETYPING s1)).
    assert (step core s1 s2) as H2 by by apply (StFrameGlb core 0 s1).
    exists s2. split; [exact (ReachStep _ _ _ (ReachStep _ _ _ R0 H1) H2)|]. split; reflexivity.
  - destruct IH as (st & Hr & Hp & He); [lia|]. change (Z.to_nat NUM_CPU) with 16%nat in Hn.
    assert (Z.of_nat n < NUM_CPU) as Hlt by (change NUM_CPU with 16; lia).
    pose proof (ReachStep _ _ _ Hr (StFrameRead core 0 st _ _ _ Hp Hlt
      (or_introl (f_equal ra_type (He (Z.of_nat n) ltac:(lia)))))) as R1.
    set (st1 := set_pc 0 _ st) in R1.
    pose proof (ReachStep _ _ _ R1 (StFrameLock core 0 st1 _ _ _ _ (upd_eq _ _ _) eq_refl)) as R2.
    eexists. split; [exact R2|]. simpl. rewrite upd_eq, (He (Z.of_nat n)) by lia. split.
    + by replace (Z.of_nat n + 1) with (Z.of_nat (S n)) by lia.
    + intros j Hj. rewrite upd_ne by lia. apply He. lia.
Qed.

Lemma retype_commit_safe_witness :
  exists st, reachable (fun _ => 0) st /\ refs_below NUM_CPU (c_ent st) = 0.
Proof.
  destruct (reach_lock (fun _ => 0) 16 ltac:(done)) as (st & Hr & Hp & _).
  pose proof (ReachStep _ _ _ Hr (StFrameLegit (fun _ => 0) 0 st _ _ _ Hp ltac:(done) eq_refl)) as R.
  eexists. split; [exact R|].
  exact (proj1 (retype_commit_safe _ _ 0 R (upd_eq _ _ _))).
Defined.

(** C18. None of the assertions of the retype operations fails in any
    interleaving: the entry read in the locking loop has the expected type,
    the final compare-and-swaps of all operations find the global entry
    locked, and those that restore an entry find it unchanged. *)
Theorem retype_asserts_hold core st t :
  reachable core st ->
  (forall cpu o sum, c_pc st t = FrameRead cpu o sum -> cpu < NUM_CPU ->
     ra_type (c_ent st cpu) = o \/ ra_type (c_ent st cpu) = RETYPETBL_RETYPING) /\
  (crit (c_pc st t) = true -> c_glb st = RETYPETBL_RETYPING) /\
  (forall cpu o err v, c_pc st t = RestoreCas cpu o err v -> c_ent st cpu = v).
Proof.
  intros Hr. apply reachable_inv in Hr as HI. split_and!.
  - intros cpu o sum Hp Hc. hold HI Hp Hok. destruct Hok as (H1 & _ & Ht & _). left.
    rewrite Ht by (unfold cpu_ok; lia). by rewrite decide_False by lia.
  - intros Hc. by apply (inv_held st t HI) in Hc as (_ & _ & ? & _).
  - intros cpu o err v Hp. hold HI Hp Hok. by destruct Hok as (_ & _ & _ & ?).
Qed.

Lemma retype_asserts_hold_witness :
  exists st, reachable (fun _ => 0) st /\ c_glb st = RETYPETBL_RETYPING.
Proof.
  destruct (reach_lock (fun _ => 0) 3 ltac:(apply Nat.leb_le; reflexivity)) as (st & Hr & Hp & _).
  exists st. split; [exact Hr|].
  apply (retype_asserts_hold _ st 0 Hr). by rewrite Hp.
Defined.

(** [retypetbl_retype2frame] reports success without retyping when it
    loses the race for the global entry: it returns the result of the failed
    compare-and-swap, which is 0.  Here the set still has a reference. *)
Theorem retype2frame_false_success :
  let core := fun _ : nat => 0 in
  exists st st', reachable core st /\ c_pc st 1%nat = FrameCas RETYPETBL_USER /\
    step core st st' /\ c_pc st' 1%nat = Done 0 /\
    c_glb st' <> RETYPETBL_UNTYPED /\ refs_below NUM_CPU (c_ent st') = 1.
Proof.
  intros core. set (s0 := CSt RETYPETBL_USER (fun _ => 1) (fun _ => Idle)).
  assert (reachable core s0) as R0 by (apply ReachInit; split; [done|split; done]).
  set (s1 := set_pc 0 (RefCas 1 17) s0).
  assert (step core s0 s1) as H1 by (apply (StRefRead core 0 s0 true); [done|by left]).
  set (s2 := set_pc 0 (Done 0) (set_ent 0 17 s1)).
  assert (step core s1 s2) as H2 by by apply (StRefOk core 0 s1 1 17).
  set (s3 := set_pc 0 Idle s2). assert (step core s2 s3) as H3 by by apply (StAgain core 0 s2 0).
  set (s4 := set_pc 0 (FrameCas RETYPETBL_USER) s3).
  assert (step core s3 s4) as H4 by (apply (StFrameStart core 0 s3); [done|by left]).
  set (s5 := set_pc 1 (FrameCas RETYPETBL_USER) s4).
  assert (step core s4 s5) as H5 by (apply (StFrameStart core 1 s4); [done|by left]).
  set (s6 := set_pc 0 (FrameRead 0 RETYPETBL_USER 0) (set_glb RETYPETBL_RETYPING s5)).
  assert (step core s5 s6) as H6 by by apply (StFrameGlb core 0 s5).
  assert (reachable core s6) as R6 by (do 6 (eapply ReachStep; [|eassumption]); exact R0).
  exists s6, (set_pc 1 (Done 0) s6). split; [exact R6|].
  split; [reflexivity|].
  split; [by apply (StFrameGlbFail core 1 s6 RETYPETBL_USER)|].
  split_and!; [reflexivity|discriminate|reflexivity].
Qed.
