(* ===== verification/Pgtbl.v ===== *)
(** * Page tables ([kernel/include/pgtbl.h], part of [kernel/pgtbl.c])

    A page table is a trie of depth two over the words the MMU reads: the
    entries hold physical frames and flags, and the get function translates
    to kernel virtual addresses.  A page table is named by the physical
    address of its directory.  Flags that a lookup passes through are
    returned with the result, as the code does through a pointer. *)

From S2P Require Import Prelude Config Machine Ertrie Liveness Captbl Retype.

(** ** Customization functions *)

Definition __pgtbl_a (mem sz : Z) (leaf : bool) : K (Z * Z) :=
  massert (sz =? PAGE_SIZE) ;;
  if mem =? 0 then ret (0, mem) else ret (mem, 0).

Definition __pgtbl_get (a : intern_ref) (accum : Z) (isleaf : bool) : K (Z * Z) :=
  v <- next a ;;
  ret (chal_pa2va (Z.land v PGTBL_FRAME_MASK), Z.land v PGTBL_FLAG_MASK).

Definition __pgtbl_isnull (a : intern_ref) (isleaf : bool) : K bool :=
  v <- next a ;; ret (Z.land v (Z.lor PGTBL_PRESENT PGTBL_COSFRAME) =? 0).

Definition __pgtbl_init (a : Z) (isleaf : bool) : K unit := store a 0.

Definition __pgtbl_setleaf (a v : Z) : K Z :=
  old <- load a ;;
  c <- cos_cas a old v ;;
  if c =? 0 then ret (- ECASFAIL) else ret 0.

Definition __pgtbl_update_leaf (a v old : Z) : K Z :=
  c <- cos_cas a old v ;;
  if c =? 0 then ret (- ECASFAIL) else ret 0.

(** The value that a directory entry for the page at [v] holds. *)
Definition pgd_entry (v : Z) : Z :=
  Z.lor (chal_va2pa (Z.land v PGTBL_FRAME_MASK)) PGTBL_INTERN_DEF.

Definition __pgtbl_set (a : intern_ref) (v : Z) (isleaf : bool) : K (Z * intern_ref) :=
  massert (negb isleaf) ;;
  let new := pgd_entry v in
  match a with
  | RLocal _ => ret (0, RLocal new)
  | RMem p =>
      old <- load p ;;
      c <- cos_cas p old new ;;
      if c =? 0 then ret (- ECASFAIL, a) else ret (0, a)
  end.

Definition __pgtbl_getleaf (a : intern_ref) (accum : Z) : K (Z * Z) :=
  match a with
  | RMem p => if p =? 0 then ret (0, accum) else __pgtbl_get a accum true
  | RLocal _ => __pgtbl_get a accum true
  end.

Definition __pgtbl : ert :=
  Ert PGTBL_DEPTH PGTBL_ORD 4 PGTBL_ORD 4 0 __pgtbl_init __pgtbl_get __pgtbl_isnull __pgtbl_set
    __pgtbl_a __pgtbl_setleaf __pgtbl_getleaf ert_defresolve.

(** [__pgtbl_lkupani] and [__pgtbl_lkupan], with the flags they store *)
Definition __pgtbl_lkupani (pt id dstart dlimit flags : Z) : K (Z * Z) :=
  __ert_lookup __pgtbl pt id dstart dlimit flags.
Definition __pgtbl_lkupan (pt id dlimit flags : Z) : K (Z * Z) :=
  __pgtbl_lkupani pt id 0 dlimit flags.
Definition __pgtbl_expandn (pt id dlimit accum memctxt data : Z) : K (Z * Z) :=
  __ert_expand __pgtbl pt id 0 dlimit accum memctxt data.

(** ** Operations *)

Definition pgtbl_alloc (page : Z) : K Z :=
  let! (pt, _) := ert_alloc __pgtbl page in ret (Z.land pt PGTBL_FRAME_MASK).

Definition pgtbl_init_pte (pte : Z) : K unit :=
  for_n (Z.to_nat (Z.shiftl 1 PGTBL_ORD)) 0 (fun i => store (pte + i * 4) 0).

Definition addr2id (addr : Z) : Z := Z.shiftr addr PGTBL_PAGEIDX_SHIFT.

Definition pgtbl_intern_expand (pt addr pte flags : Z) : K Z :=
  massert (negb (pt =? 0)) ;;
  massert (Z.land PGTBL_FLAG_MASK pte =? 0) ;;
  massert (Z.land PGTBL_FRAME_MASK flags =? 0) ;;
  if pte =? 0 then ret (- EINVAL) else
  let! (r, pte) := __pgtbl_expandn pt (addr2id addr) PGTBL_DEPTH flags pte 0 in
  if (r =? 0) && negb (pte =? 0) then ret (- EEXIST) else
  massert (negb (negb (r =? 0) && (pte =? 0))) ;;
  ret r.

Definition pgtbl_intern_prune (pt addr : Z) : K Z :=
  massert (negb (pt =? 0)) ;;
  massert (Z.land PGTBL_FLAG_MASK addr =? 0) ;;
  let! (pgd, accum) := __pgtbl_lkupan (Z.lor pt PGTBL_PRESENT) (addr2id addr) 1 0 in
  if pgd =? 0 then ret 0 else
  let! (page, _) := __pgtbl_get (RMem pgd) accum false in
  let! (r, _) := __pgtbl_set (RMem pgd) 0 false in
  if negb (r =? 0) then ret 0 else
  ret page.

Definition pgtbl_get_pgd (pt addr : Z) : K Z :=
  massert (negb (pt =? 0)) ;;
  let! (pgd, _) := __pgtbl_lkupan (Z.lor pt PGTBL_PRESENT) (addr2id addr) 1 0 in ret pgd.

Definition pgtbl_check_pgd_absent (pt addr : Z) : K bool :=
  pgd <- pgtbl_get_pgd pt addr ;; __pgtbl_isnull (RMem pgd) false.

Definition pgtbl_quie_check (orig_v : Z) : K Z :=
  if negb (Z.land orig_v PGTBL_QUIESCENCE =? 0) then
    let lid := Z.shiftr orig_v PGTBL_PAGEIDX_SHIFT in
    massert (lid <? LTBL_ENTS) ;;
    r <- ltbl_get_timestamp lid ;;
    match r with
    | inl _ => ret (- EFAULT)
    | inr ts =>
        q <- tlb_quiescence_check ts ;;
        if negb q then ret (- EQUIESCENCE) else ret 0
    end
  else ret 0.

(** The page-table entry of [addr], or 0 *)
Definition pgtbl_pte (pt addr : Z) : K Z :=
  let! (pte, _) := __pgtbl_lkupan (Z.lor pt PGTBL_PRESENT) (addr2id addr) PGTBL_DEPTH 0 in ret pte.

Definition pgtbl_mapping_add (pt addr page flags : Z) : K Z :=
  massert (negb (pt =? 0)) ;;
  massert (Z.land PGTBL_FLAG_MASK page =? 0) ;;
  massert (Z.land PGTBL_FRAME_MASK flags =? 0) ;;
  pte <- pgtbl_pte pt addr ;;
  if pte =? 0 then ret (- ENOENT) else
  orig_v <- load pte ;;
  if negb (Z.land orig_v PGTBL_PRESENT =? 0) then ret (- EEXIST) else
  if negb (Z.land orig_v PGTBL_COSFRAME =? 0) then ret (- EPERM) else
  r <- pgtbl_quie_check orig_v ;;
  if negb (r =? 0) then ret r else
  r <- retypetbl_ref page ;;
  if negb (r =? 0) then ret r else
  r <- __pgtbl_update_leaf pte (Z.lor page flags) orig_v ;;
  (if negb (r =? 0) then retypetbl_deref page ;; ret tt else ret tt) ;;
  ret r.

Definition kmem_add_hack (pt addr page flags : Z) : K Z :=
  massert (negb (pt =? 0)) ;;
  massert (Z.land PGTBL_FLAG_MASK page =? 0) ;;
  massert (Z.land PGTBL_FRAME_MASK flags =? 0) ;;
  pte <- pgtbl_pte pt addr ;;
  orig_v <- load pte ;;
  if negb (Z.land orig_v PGTBL_PRESENT =? 0) then ret (- EEXIST) else
  if negb (Z.land orig_v PGTBL_COSFRAME =? 0) then ret (- EPERM) else
  __pgtbl_update_leaf pte (Z.lor page flags) orig_v.

Definition pgtbl_cosframe_add (pt addr page flags : Z) : K Z :=
  massert (negb (pt =? 0)) ;;
  massert (Z.land PGTBL_FLAG_MASK page =? 0) ;;
  massert (Z.land PGTBL_FRAME_MASK flags =? 0) ;;
  pte <- pgtbl_pte pt addr ;;
  orig_v <- load pte ;;
  massert (orig_v =? 0) ;;
  __pgtbl_update_leaf pte (Z.lor page flags) 0.

(** The result and the previous flags *)
Definition pgtbl_mapping_mod (pt addr flags prevflags : Z) : K (Z * Z) :=
  massert (negb (pt =? 0)) ;;
  massert (Z.land PGTBL_FLAG_MASK addr =? 0) ;;
  massert (Z.land PGTBL_FRAME_MASK flags =? 0) ;;
  pte <- pgtbl_pte pt addr ;;
  null <- __pgtbl_isnull (RMem pte) false ;;
  if null : bool then ret (- ENOENT, prevflags) else
  orig_v <- load pte ;;
  r <- __pgtbl_update_leaf pte
         (Z.lor (Z.land orig_v PGTBL_FRAME_MASK) (Z.land flags PGTBL_FLAG_MASK)) orig_v ;;
  ret (r, Z.land orig_v PGTBL_FLAG_MASK).

Definition pgtbl_mapping_del (pt addr liv_id : Z) : K Z :=
  massert (negb (pt =? 0)) ;;
  massert (Z.land PGTBL_FLAG_MASK addr =? 0) ;;
  if Z.shiftl 1 (32 - PGTBL_PAGEIDX_SHIFT) <=? liv_id then ret (- EINVAL) else
  r <- ltbl_timestamp_update liv_id ;;
  if negb (r =? 0) then ret r else
  pte <- pgtbl_pte pt addr ;;
  orig_v <- load pte ;;
  if Z.land orig_v PGTBL_PRESENT =? 0 then ret (- EEXIST) else
  if negb (Z.land orig_v PGTBL_COSFRAME =? 0) then ret (- EPERM) else
  r <- __pgtbl_update_leaf pte
         (Z.lor (u32 (Z.shiftl liv_id PGTBL_PAGEIDX_SHIFT)) PGTBL_QUIESCENCE) orig_v ;;
  if negb (r =? 0) then ret r else
  retypetbl_deref (Z.land orig_v PGTBL_FRAME_MASK).

Definition pgtbl_mapping_del_direct (pt addr : Z) : K Z :=
  massert (negb (pt =? 0)) ;;
  massert (Z.land PGTBL_FLAG_MASK addr =? 0) ;;
  let! (r, _) := __pgtbl_expandn pt (addr2id addr) (PGTBL_DEPTH + 1) 0 0 0 in ret r.

Definition pgtbl_lkup_lvl (pt addr flags start_lvl end_lvl : Z) : K (Z * Z) :=
  __pgtbl_lkupani (Z.lor pt PGTBL_PRESENT) (addr2id addr) start_lvl end_lvl flags.

Definition pgtbl_ispresent (flags : Z) : bool :=
  negb (Z.land flags (Z.lor PGTBL_PRESENT PGTBL_COSFRAME) =? 0).

Definition pgtbl_lkup (pt addr flags : Z) : K (Z * Z) :=
  let! (r, flags) :=
    __pgtbl_lkupan (Z.lor pt PGTBL_PRESENT) (addr2id addr) (PGTBL_DEPTH + 1) flags in
  if negb (pgtbl_ispresent flags) then ret (0, flags) else ret (r, flags).

Definition pgtbl_lkup_pte (pt addr flags : Z) : K (Z * Z) :=
  __pgtbl_lkupan (Z.lor pt PGTBL_PRESENT) (addr2id addr) PGTBL_DEPTH flags.

Definition pgtbl_lookup (pt addr flags : Z) : K (Z * Z) :=
  let! (r, flags) := pgtbl_lkup pt addr flags in
  if r =? 0 then ret (0, flags) else ret (chal_va2pa r, flags).

(** The error, or the physical frame *)
Definition pgtbl_get_cosframe (pt frame_addr : Z) : K (Z + Z) :=
  let! (pte, _) := pgtbl_lkup_pte pt frame_addr 0 in
  if pte =? 0 then ret (inl (- EINVAL)) else
  v <- load pte ;;
  if Z.land v PGTBL_COSFRAME =? 0 then ret (inl (- EINVAL)) else
  ret (inr (Z.land v PGTBL_FRAME_MASK)).

(** [pgtbl_kmem_act] (pgtbl.c): the error, or the kernel address of the page
    and its page-table entry *)
Definition pgtbl_kmem_act (pt addr : Z) : K (Z + Z * Z) :=
  massert (negb (pt =? 0)) ;;
  massert (Z.land PGTBL_FLAG_MASK addr =? 0) ;;
  pte <- pgtbl_pte pt addr ;;
  if pte =? 0 then ret (inl (- ENOENT)) else
  null <- __pgtbl_isnull (RMem pte) false ;;
  if null : bool then ret (inl (- ENOENT)) else
  orig_v <- load pte ;;
  if Z.land orig_v PGTBL_COSFRAME =? 0 then ret (inl (- EINVAL)) else
  if negb (Z.land orig_v PGTBL_COSKMEM =? 0) then ret (inl (- EEXIST)) else
  massert (Z.land orig_v PGTBL_QUIESCENCE =? 0) ;;
  let kern_addr := chal_pa2va (Z.land orig_v PGTBL_FRAME_MASK) in
  let new_v := Z.lor orig_v PGTBL_COSKMEM in
  if kern_addr =? 0 then ret (inl (- EINVAL)) else
  r <- retypetbl_kern_ref (Z.land new_v PGTBL_FRAME_MASK) ;;
  if negb (r =? 0) then ret (inl (- EFAULT)) else
  c <- cos_cas pte orig_v new_v ;;
  if negb (c =? CAS_SUCCESS) then
    retypetbl_deref (Z.land orig_v PGTBL_FRAME_MASK) ;; ret (inl (- ECASFAIL))
  else ret (inr (kern_addr, pte)).
