(* ===== verification/PgtblSpec.v ===== *)
(** * What page tables promise

    Lookup follows the two levels that the MMU walks; a mapping is added only
    to an empty entry and with a reference on the frame; it is removed with
    the reference; an address is mapped again only when no TLB can hold the
    old translation; a frame becomes a kernel object once. *)

From S2P Require Import Prelude Config Machine Ertrie Liveness Captbl Retype RetypeSpec Pgtbl.

(** ** Words of page tables *)

Lemma frame_mask v : is_u32 v -> Z.land v PGTBL_FRAME_MASK = v - v mod 4096.
Proof. intros Hv. exact (land_mask_sub v 12 Hv ltac:(lia)). Qed.

Lemma flag_mask v : Z.land v PGTBL_FLAG_MASK = v mod 4096.
Proof. change PGTBL_FLAG_MASK with (Z.ones 12). by rewrite Z.land_ones. Qed.

Lemma flag_mask' v : Z.land PGTBL_FLAG_MASK v = v mod 4096.
Proof. by rewrite Z.land_comm, flag_mask. Qed.

Lemma testbit_low p n : p mod 4096 = 0 -> 0 <= n < 12 -> Z.testbit p n = false.
Proof.
  intros Hp Hn. rewrite <- (Z.mod_pow2_bits_low p 12 n) by lia. change (2 ^ 12) with 4096.
  rewrite Hp. apply Z.bits_0.
Qed.

Lemma testbit_high f n : 0 <= f < 4096 -> 12 <= n -> Z.testbit f n = false.
Proof.
  intros Hf Hn. rewrite <- (Z.mod_small f (2 ^ 12)) by (change (2 ^ 12) with 4096; lia).
  apply Z.mod_pow2_bits_high. lia.
Qed.

(** A frame and flags share no bits. *)
Lemma lor_page p f : p mod 4096 = 0 -> 0 <= f < 4096 -> Z.lor p f = p + f.
Proof.
  intros Hp Hf. assert (Z.land p f = 0) as H0.
  { apply Z.bits_inj'. intros n Hn. rewrite Z.land_spec, Z.bits_0.
    destruct (Z.lt_ge_cases n 12); [by rewrite testbit_low by lia|].
    by rewrite (testbit_high f), andb_false_r by lia. }
  by rewrite Z.add_nocarry_lxor, Z.lxor_lor.
Qed.

(** A flag test sees the low bits only. *)
Lemma land_flag v F : 0 <= F < 4096 -> Z.land v F = Z.land (v mod 4096) F.
Proof.
  intros HF. apply Z.bits_inj'. intros n Hn. rewrite !Z.land_spec.
  destruct (Z.lt_ge_cases n 12).
  - change 4096 with (2 ^ 12). by rewrite Z.mod_pow2_bits_low.
  - by rewrite (testbit_high F), !andb_false_r by lia.
Qed.

Lemma frame_flags p f :
  p mod 4096 = 0 -> 0 <= p -> p + 4096 <= 4294967296 -> 0 <= f < 4096 ->
  Z.land (p + f) PGTBL_FRAME_MASK = p /\ (p + f) mod 4096 = f /\ is_u32 (p + f).
Proof.
  intros Hp H0 H1 Hf. assert (is_u32 (p + f)) as Hu by (unfold is_u32; lia).
  split_and!; [rewrite frame_mask by done| |done]; Z.div_mod_to_equations; lia.
Qed.

(** ** Geometry *)

(** A page frame that the kernel maps. *)
Definition pa_page (p : Z) : Prop := p mod 4096 = 0 /\ 0 <= p < 1073741824.
Definition kva (p : Z) : Z := p + COS_MEM_KERN_START_VA.

Lemma pa2va_kva p : pa_page p -> chal_pa2va p = kva p.
Proof.
  intros [_ Hp]. unfold chal_pa2va, kva. apply u32_small.
  unfold is_u32, COS_MEM_KERN_START_VA. lia.
Qed.

Lemma va2pa_kva p : pa_page p -> chal_va2pa (kva p) = p.
Proof.
  intros [_ Hp]. unfold chal_va2pa, kva. rewrite Z.add_simpl_r. apply u32_small.
  unfold is_u32. lia.
Qed.

Definition entry_null (v : Z) : bool := Z.land v (Z.lor PGTBL_PRESENT PGTBL_COSFRAME) =? 0.
Definition entry_frame (v : Z) : Z := v - v mod 4096.

(** The directory entry of [addr], and the page-table entry below it. *)
Definition pgd_addr (pt addr : Z) : Z := kva pt + 4 * (addr / 4194304).
Definition pte_addr (s : kstate) (pt addr : Z) : Z :=
  let e := word s (pgd_addr pt addr) in
  if entry_null e then 0 else kva (entry_frame e) + 4 * (addr / 4096 mod 1024).

(** The path to [addr] in [pt] runs through pages that the kernel maps. *)
Definition path_ok (s : kstate) (pt addr : Z) : Prop :=
  pa_page pt /\ 0 < pt /\ is_u32 addr /\
  (entry_null (word s (pgd_addr pt addr)) = false ->
   pa_page (entry_frame (word s (pgd_addr pt addr)))).

#[export] Instance pgtbl_laws : ErtLaws __pgtbl.
Proof.
  by refine {| el_get v := chal_pa2va (Z.land v PGTBL_FRAME_MASK);
               el_acc _ v := Z.land v PGTBL_FLAG_MASK;
               el_null v := entry_null v |}.
Defined.

Lemma path_ok_frame s s' pt addr :
  path_ok s pt addr -> word s' (pgd_addr pt addr) = word s (pgd_addr pt addr) ->
  path_ok s' pt addr.
Proof. intros (? & ? & ? & ?) E. unfold path_ok. by rewrite E. Qed.

Lemma pt_present pt : pa_page pt -> Z.lor pt PGTBL_PRESENT = pt + 1.
Proof. intros [Hp _]. by apply lor_page. Qed.

Lemma pt_root pt : pa_page pt -> 0 < pt ->
  pt + 1 <> 0 /\ entry_null (pt + 1) = false /\
  chal_pa2va (Z.land (pt + 1) PGTBL_FRAME_MASK) = kva pt /\ (pt + 1) mod 4096 = 1.
Proof.
  intros Hp H0. pose proof Hp as [Hm Hr].
  destruct (frame_flags pt 1) as (Hf & Hl & Hu); [done|lia|lia|lia|].
  split_and!; [lia| |by rewrite Hf, pa2va_kva|done].
  unfold entry_null. rewrite land_flag by (by vm_compute). by rewrite Hl.
Qed.

Lemma pgtbl_dir pt addr :
  pa_page pt -> 0 < pt -> is_u32 addr ->
  ert_dir __pgtbl (pt + 1) (addr2id addr) = pgd_addr pt addr.
Proof.
  intros Hp H0 Ha. destruct (pt_root pt Hp H0) as (_ & _ & Hg & _). destruct Hp as [Hm Hr].
  unfold ert_dir. cbn [el_get pgtbl_laws]. rewrite Hg. unfold addr2id, PGTBL_PAGEIDX_SHIFT.
  rewrite Z.shiftr_div_pow2 by lia. change (2 ^ last_order __pgtbl) with 1024.
  change (2 ^ order __pgtbl) with 1024. change (intern_sz __pgtbl) with 4.
  change (2 ^ 12) with 4096. rewrite Z.div_div by lia. change (4096 * 1024) with 4194304.
  unfold is_u32 in Ha. rewrite Z.mod_small by (Z.div_mod_to_equations; lia).
  unfold pgd_addr, kva, COS_MEM_KERN_START_VA. rewrite u32_small; [lia|].
  unfold is_u32. Z.div_mod_to_equations. lia.
Qed.

Lemma pgtbl_slot e addr :
  is_u32 e -> pa_page (entry_frame e) -> is_u32 addr ->
  ert_slot __pgtbl e (addr2id addr) = kva (entry_frame e) + 4 * (addr / 4096 mod 1024).
Proof.
  intros He Hp Ha. unfold ert_slot. cbn [el_get pgtbl_laws]. rewrite frame_mask by done.
  fold (entry_frame e). rewrite pa2va_kva by done. destruct Hp as [Hm Hr].
  unfold addr2id, PGTBL_PAGEIDX_SHIFT. rewrite Z.shiftr_div_pow2 by lia.
  change (2 ^ last_order __pgtbl) with 1024. change (last_sz __pgtbl) with 4.
  change (2 ^ 12) with 4096. unfold kva, COS_MEM_KERN_START_VA. rewrite u32_small; [lia|].
  unfold is_u32. Z.div_mod_to_equations. lia.
Qed.

(** ** Lookup *)

Lemma addr2id_lt addr : is_u32 addr -> addr2id addr < __ert_maxid __pgtbl.
Proof.
  intros Ha. change (__ert_maxid __pgtbl) with 1048576. unfold addr2id, PGTBL_PAGEIDX_SHIFT.
  rewrite Z.shiftr_div_pow2 by lia. change (2 ^ 12) with 4096. unfold is_u32 in Ha.
  Z.div_mod_to_equations. lia.
Qed.

Lemma pgd_mapped pt addr : pa_page pt -> is_u32 addr -> PAGE_SIZE <= pgd_addr pt addr < 4294967296.
Proof.
  intros [Hmod Hp] Ha. unfold pgd_addr, kva, COS_MEM_KERN_START_VA, PAGE_SIZE, is_u32 in *.
  Z.div_mod_to_equations. lia.
Qed.

Lemma pgtbl_orders : 0 <= order __pgtbl /\ 0 <= last_order __pgtbl.
Proof. by vm_compute. Qed.

Lemma pgtbl_lkup_pte_Ok s pt addr flags :
  path_ok s pt addr ->
  pgtbl_lkup_pte pt addr flags s =
  Ok (pte_addr s pt addr,
      let e := word s (pgd_addr pt addr) in if entry_null e then 1 else e mod 4096) s.
Proof.
  intros (Hp & H0 & Ha & Hpath). destruct (pt_root pt Hp H0) as (Hv & Hn & _ & Hfl).
  pose proof (pgtbl_dir pt addr Hp H0 Ha) as Hdir. pose proof (pgd_mapped pt addr Hp Ha) as Hm.
  pose proof (addr2id_lt addr Ha) as Hid.
  unfold pgtbl_lkup_pte, __pgtbl_lkupan, __pgtbl_lkupani. rewrite pt_present by done.
  change PGTBL_DEPTH with 2. rewrite (ert_lookup_two __pgtbl (ErtLaws0 := pgtbl_laws) eq_refl (proj1 pgtbl_orders) (proj2 pgtbl_orders) (pt + 1)
    (addr2id addr) flags s Hv Hid Hn ltac:(rewrite Hdir; exact (proj1 Hm))).
  rewrite Hdir. cbn [el_null el_acc pgtbl_laws]. unfold pte_addr.
  destruct (entry_null (word s (pgd_addr pt addr))) eqn:E.
  - by rewrite flag_mask, Hfl.
  - rewrite pgtbl_slot by (try apply word_u32; auto). by rewrite flag_mask.
Qed.

Lemma pgtbl_pte_Ok s pt addr :
  path_ok s pt addr -> pgtbl_pte pt addr s = Ok (pte_addr s pt addr) s.
Proof.
  intros H. pose proof (pgtbl_lkup_pte_Ok s pt addr 0 H) as Hl.
  unfold pgtbl_lkup_pte in Hl. unfold pgtbl_pte. by rewrite (bind_Ok _ _ _ _ _ Hl).
Qed.

Lemma pte_mapped s pt addr :
  path_ok s pt addr -> pte_addr s pt addr <> 0 -> PAGE_SIZE <= pte_addr s pt addr < 4294967296.
Proof.
  intros (Hp & H0 & Ha & Hpath). unfold pte_addr. destruct (entry_null _) eqn:E; [done|].
  intros _. destruct (Hpath eq_refl) as [Hm Hr]. unfold kva, COS_MEM_KERN_START_VA, PAGE_SIZE.
  Z.div_mod_to_equations. lia.
Qed.

(** The translation of [addr]: the kernel address of its frame and the flags
    of its entry; [NULL] when an entry on the path is absent. *)
Lemma pgtbl_lkup_Ok s pt addr flags :
  path_ok s pt addr ->
  exists fl, pgtbl_lkup pt addr flags s =
    Ok (if pte_addr s pt addr =? 0 then 0
        else let v := word s (pte_addr s pt addr) in
             if entry_null v then 0 else chal_pa2va (entry_frame v), fl) s /\
    (pte_addr s pt addr <> 0 -> fl = word s (pte_addr s pt addr) mod 4096).
Proof.
  intros Hok. pose proof Hok as (Hp & H0 & Ha & Hpath).
  destruct (pt_root pt Hp H0) as (Hv & Hn & _ & Hfl).
  pose proof (pgtbl_dir pt addr Hp H0 Ha) as Hdir. pose proof (pgd_mapped pt addr Hp Ha) as Hm.
  pose proof (addr2id_lt addr Ha) as Hid.
  unfold pgtbl_lkup, __pgtbl_lkupan, __pgtbl_lkupani. rewrite pt_present by done.
  change (PGTBL_DEPTH + 1) with 3. unfold bind.
  rewrite (ert_lookup_full __pgtbl (ErtLaws0 := pgtbl_laws) eq_refl (proj1 pgtbl_orders) (proj2 pgtbl_orders) (pt + 1)
    (addr2id addr) flags s Hv Hid Hn ltac:(rewrite Hdir; exact (proj1 Hm))).
  rewrite Hdir. cbn [el_null el_acc pgtbl_laws]. pose proof (pte_mapped s pt addr Hok) as Hpm.
  revert Hpm. unfold pte_addr. destruct (entry_null (word s (pgd_addr pt addr))) eqn:E; intros Hpm.
  - rewrite flag_mask, Hfl. exists 1. done.
  - rewrite pgtbl_slot by (try apply word_u32; auto).
    set (pte := kva _ + _) in *. assert (pte <> 0) as Hne
      by (destruct (Hpath eq_refl) as [_ Hr]; unfold pte, kva, COS_MEM_KERN_START_VA;
          Z.div_mod_to_equations; lia).
    rewrite (proj2 (Z.eqb_neq pte 0)) by done. cbn [getleaffn __pgtbl]. unfold __pgtbl_getleaf.
    rewrite (proj2 (Z.eqb_neq pte 0)) by done. unfold __pgtbl_get. cbn [next].
    rewrite (bind_Ok _ _ _ _ _ (load_Ok pte s (proj1 (Hpm Hne)))). unfold ret.
    rewrite flag_mask, frame_mask by apply word_u32. unfold pgtbl_ispresent.
    exists (word s pte mod 4096). split; [|done].
    rewrite <- land_flag by (by vm_compute). fold (entry_null (word s pte)).
    by destruct (entry_null (word s pte)).
Qed.

(** ** What operations on other tables leave alone *)

(** Only the per-core retype entries and the clock changed. *)
Definition rt_only (s s' : kstate) : Prop :=
  exists r n, s' = with_retype r (with_ticks n s).

#[export] Instance rt_only_preorder : PreOrder rt_only.
Proof.
  split.
  - intros s. exists (kretype s), (kticks s). by destruct s.
  - intros s1 s2 s3 (r1 & n1 & ->) (r2 & n2 & ->). by exists r2, n2.
Qed.

Lemma rt_only_word s s' a : rt_only s s' -> word s' a = word s a.
Proof. by intros (r & n & ->). Qed.

#[export] Instance rdtscll_rt : Respects rt_only rdtscll.
Proof.
  intros s a s' H. rewrite rdtscll_Ok in H. simplify_eq. exists (kretype s), (S (kticks s)).
  by destruct s.
Qed.

#[export] Instance rput_rt c i e : Respects rt_only (modify (rput c i e)).
Proof.
  intros s a s' H. unfold modify in H. simplify_eq. eexists _, (kticks s). unfold rput.
  by rewrite with_ticks_id.
Qed.

#[export] Instance get_rent_ro c i : ReadOnly (get_rent c i).
Proof. unfold get_rent. apply _. Qed.

#[export] Instance cas_ent_rt c i o n : Respects rt_only (retypetbl_cas_ent c i o n).
Proof. unfold retypetbl_cas_ent. apply _. Qed.

#[export] Instance mod_ref_cnt_rt pa op tc : Respects rt_only (mod_ref_cnt pa op tc).
Proof. unfold mod_ref_cnt. cbv zeta. apply _. Qed.

#[export] Instance tlb_check_ro ts : ReadOnly (tlb_quiescence_check ts).
Proof. intros s b s' H. rewrite tlb_check_Ok in H. by injection H. Qed.

#[export] Instance quie_check_ro v : ReadOnly (pgtbl_quie_check v).
Proof.
  unfold pgtbl_quie_check. cbv zeta. apply respects_if; [|apply _].
  apply respects_bind; [apply _..|]. intros _. apply respects_bind; [apply _..|].
  intros [e|ts]; apply _.
Qed.

Lemma update_leaf_Ok a v s :
  PAGE_SIZE <= a -> __pgtbl_update_leaf a v (word s a) s = Ok 0 (put a v s).
Proof.
  intros Ha. unfold __pgtbl_update_leaf.
  by rewrite (bind_Ok _ _ _ _ _ (cas_success a (word s a) v s Ha (eq_sym (u32_small _ (word_u32 s a))))).
Qed.

(** ** Adding and removing mappings *)

Lemma mapping_add_inv s pt addr page flags r s' :
  path_ok s pt addr -> page mod 4096 = 0 -> 0 <= flags < 4096 ->
  pgtbl_mapping_add pt addr page flags s = Ok r s' ->
  (r <> 0 /\ rt_only s s') \/
  (r = 0 /\ pte_addr s pt addr <> 0 /\
   let v := word s (pte_addr s pt addr) in
   Z.land v PGTBL_PRESENT = 0 /\ Z.land v PGTBL_COSFRAME = 0 /\
   pgtbl_quie_check v s = Ok 0 s /\
   exists s1, retypetbl_ref page s = Ok 0 s1 /\
     s' = put (pte_addr s pt addr) (page + flags) s1).
Proof.
  intros Hok Hpg Hfl H. unfold pgtbl_mapping_add in H.
  apply bind_inv in H as (? & ? & H1 & H). apply massert_inv in H1 as [_ ->].
  apply bind_inv in H as (? & ? & H1 & H). apply massert_inv in H1 as [_ ->].
  apply bind_inv in H as (? & ? & H1 & H). apply massert_inv in H1 as [_ ->].
  rewrite (bind_Ok _ _ _ _ _ (pgtbl_pte_Ok s pt addr Hok)) in H.
  destruct (Z.eqb_spec (pte_addr s pt addr) 0) as [E|E]; [by minv H; left|].
  pose proof (pte_mapped s pt addr Hok E) as Hm. set (pte := pte_addr s pt addr) in *.
  rewrite (bind_Ok _ _ _ _ _ (load_Ok pte s (proj1 Hm))) in H.
  destruct (Z.eqb_spec (Z.land (word s pte) PGTBL_PRESENT) 0) as [E1|]; cbn [negb] in H; [|by minv H; left].
  destruct (Z.eqb_spec (Z.land (word s pte) PGTBL_COSFRAME) 0) as [E2|]; cbn [negb] in H; [|by minv H; left].
  apply bind_inv in H as (q & s0 & Hq & H). apply read_only in Hq as Hs0; [|apply _]. subst s0.
  destruct (Z.eqb_spec q 0) as [E3|]; cbn [negb] in H; [rewrite E3 in Hq|by minv H; left].
  apply bind_inv in H as (rr & s1 & Href & H).
  assert (rt_only s s1) as Hms by exact (mod_ref_cnt_rt page true (-1) s rr s1 Href).
  destruct (Z.eqb_spec rr 0) as [E4|]; cbn [negb] in H; [rewrite E4 in Href|by minv H; left].
  rewrite <- (rt_only_word s s1 pte Hms) in H.
  rewrite (bind_Ok _ _ _ _ _ (update_leaf_Ok pte _ s1 (proj1 Hm))) in H.
  rewrite lor_page in H by done. cbn [Z.eqb negb] in H. minv H. right.
  exact (conj eq_refl (conj E (conj E1 (conj E2 (conj Hq (ex_intro _ s1 (conj Href eq_refl))))))).
Qed.

Lemma mapping_del_inv s pt addr lid r s' :
  path_ok s pt addr -> pgtbl_mapping_del pt addr lid s = Ok r s' ->
  (r <> 0 /\ forall a, word s' a = word s a) \/
  (lid < 1048576 /\ pte_addr s pt addr <> 0 /\
   let v := word s (pte_addr s pt addr) in
   Z.land v PGTBL_PRESENT <> 0 /\ Z.land v PGTBL_COSFRAME = 0 /\
   let s1 := lput lid (LEnt (epoch (lent s lid)) (u64 (ktsc s (kticks s))))
               (with_ticks (S (kticks s)) s) in
   retypetbl_deref (entry_frame v)
     (put (pte_addr s pt addr) (Z.lor (u32 (Z.shiftl lid 12)) PGTBL_QUIESCENCE) s1) = Ok r s').
Proof.
  intros Hok H. unfold pgtbl_mapping_del in H.
  apply bind_inv in H as (? & ? & H1 & H). apply massert_inv in H1 as [_ ->].
  apply bind_inv in H as (? & ? & H1 & H). apply massert_inv in H1 as [_ ->].
  change (Z.shiftl 1 (32 - PGTBL_PAGEIDX_SHIFT)) with 1048576 in H.
  destruct (Z.leb_spec 1048576 lid) as [|Hlid]; [by minv H; left|].
  rewrite (bind_Ok _ _ _ _ _ (timestamp_update_Ok lid s Hlid)) in H. cbn [Z.eqb negb] in H.
  set (s1 := lput _ _ _) in *. assert (path_ok s1 pt addr) as Hok1 by exact Hok.
  rewrite (bind_Ok _ _ _ _ _ (pgtbl_pte_Ok s1 pt addr Hok1)) in H.
  apply bind_inv in H as (v & s2 & Hl & H). apply load_inv in Hl as (Hm & -> & ->).
  change (pte_addr s1 pt addr) with (pte_addr s pt addr) in *.
  set (pte := pte_addr s pt addr) in *. change (word s1 pte) with (word s pte) in H.
  destruct (Z.eqb_spec (Z.land (word s pte) PGTBL_PRESENT) 0); [by minv H; left|].
  destruct (Z.eqb_spec (Z.land (word s pte) PGTBL_COSFRAME) 0); cbn [negb] in H; [|by minv H; left].
  right. change (word s pte) with (word s1 pte) in H at 1.
  rewrite (bind_Ok _ _ _ _ _ (update_leaf_Ok pte _ s1 Hm)) in H. cbn [Z.eqb negb] in H.
  rewrite frame_mask in H by apply word_u32. split_and!; try done.
  unfold PAGE_SIZE in Hm. lia.
Qed.

(** ** Properties *)


(** *** Removal *)

(** The entry that a removal leaves: the liveness id and the quiescence flag. *)
Definition quiescent_entry (lid : Z) : Z := lid * 4096 + 2048.

Lemma quiescent_entry_eq lid :
  0 <= lid < 1048576 ->
  Z.lor (u32 (Z.shiftl lid 12)) PGTBL_QUIESCENCE = quiescent_entry lid /\
  is_u32 (quiescent_entry lid).
Proof.
  intros Hl. rewrite Z.shiftl_mul_pow2 by lia. change (2 ^ 12) with 4096. unfold quiescent_entry.
  rewrite u32_small by (unfold is_u32; lia). rewrite lor_page; [|apply Z.mod_mul; lia|by vm_compute].
  split; [done|unfold is_u32; lia].
Qed.

Lemma quiescent_entry_facts lid :
  0 <= lid < 1048576 ->
  quiescent_entry lid mod 4096 = 2048 /\ Z.shiftr (quiescent_entry lid) 12 = lid /\
  forall F, 0 <= F < 2048 -> Z.land (quiescent_entry lid) F = 0.
Proof.
  intros Hl. unfold quiescent_entry. rewrite Z.shiftr_div_pow2 by lia. change (2 ^ 12) with 4096.
  assert ((lid * 4096 + 2048) mod 4096 = 2048) as Hm by (Z.div_mod_to_equations; lia).
  split_and!; [done|Z.div_mod_to_equations; lia|].
  intros F HF. rewrite land_flag, Hm by lia. change 2048 with (2 ^ 11) in *.
  apply Z.bits_inj'. intros n Hn. rewrite Z.land_spec, Z.bits_0, Z.pow2_bits_eqb by lia.
  destruct (Z.eqb_spec 11 n) as [<-|]; [|done].
  rewrite <- (Z.mod_small F (2 ^ 11)) by lia. by rewrite Z.mod_pow2_bits_high.
Qed.

(** The state of the entry after a successful removal. *)
Lemma mapping_del_state s pt addr lid s' :
  path_ok s pt addr -> pgd_addr pt addr <> pte_addr s pt addr -> 0 <= lid ->
  pgtbl_mapping_del pt addr lid s = Ok 0 s' ->
  lid < 1048576 /\ pte_addr s pt addr <> 0 /\
  Z.land (word s (pte_addr s pt addr)) PGTBL_PRESENT <> 0 /\
  (exists s1, retypetbl_deref (entry_frame (word s (pte_addr s pt addr))) s1 = Ok 0 s') /\
  path_ok s' pt addr /\ pte_addr s' pt addr = pte_addr s pt addr /\
  word s' (pte_addr s pt addr) = quiescent_entry lid /\
  (forall a, a <> pte_addr s pt addr -> word s' a = word s a) /\
  deact_timestamp (lent s' lid) = u64 (ktsc s (kticks s)) /\ ktlbq s' = ktlbq s /\ kcli s' = kcli s.
Proof.
  intros Hok Hne Hl H. apply mapping_del_inv in H as [[? _]|(Hlid & Hpte & Hp & _ & H)]; [done| |done].
  destruct (quiescent_entry_eq lid) as [Hq Hu]; [lia|].
  set (pte := pte_addr s pt addr) in *. rewrite Hq in H. cbv zeta in H.
  set (s1 := put pte (quiescent_entry lid) _) in H.
  pose proof (mod_ref_cnt_rt _ _ _ _ _ _ H) as (r & n & Hs').
  assert (forall a, a <> pte -> word s' a = word s a) as Hother.
  { intros a Ha. rewrite Hs'. change (word s1 a = word s a). unfold s1. by rewrite word_put_ne. }
  assert (word s' pte = quiescent_entry lid) as Hw.
  { rewrite Hs'. change (word s1 pte = quiescent_entry lid). unfold s1.
    by rewrite word_put_eq, u32_small. }
  split_and!; try done.
  - by exists s1.
  - apply (path_ok_frame s); [done|by apply Hother].
  - unfold pte_addr. rewrite Hother by done. done.
  - rewrite Hs'. change (deact_timestamp (lent (lput lid (LEnt (epoch (lent s lid))
      (u64 (ktsc s (kticks s)))) (with_ticks (S (kticks s)) s)) lid) = u64 (ktsc s (kticks s))).
    by rewrite lent_lput_eq.
  - by rewrite Hs'.
  - by rewrite Hs'.
Qed.



(** *** Kernel objects *)

(** What [pgtbl_kmem_act] does when it succeeds. *)
Lemma kmem_act_inv s pt addr ka pte s' :
  path_ok s pt addr -> pgtbl_kmem_act pt addr s = Ok (inr (ka, pte)) s' ->
  pte = pte_addr s pt addr /\ pte <> 0 /\
  let v := word s pte in
  Z.land v PGTBL_COSFRAME <> 0 /\ Z.land v PGTBL_COSKMEM = 0 /\ ka = chal_pa2va (entry_frame v) /\
  exists s1, retypetbl_kern_ref (Z.land (Z.lor v PGTBL_COSKMEM) PGTBL_FRAME_MASK) s = Ok 0 s1 /\
    s' = put pte (Z.lor v PGTBL_COSKMEM) s1.
Proof.
  intros Hok H. unfold pgtbl_kmem_act in H.
  apply bind_inv in H as (? & ? & H1 & H). apply massert_inv in H1 as [_ ->].
  apply bind_inv in H as (? & ? & H1 & H). apply massert_inv in H1 as [_ ->].
  rewrite (bind_Ok _ _ _ _ _ (pgtbl_pte_Ok s pt addr Hok)) in H.
  destruct (Z.eqb_spec (pte_addr s pt addr) 0) as [E|E]; [by minv H|].
  pose proof (pte_mapped s pt addr Hok E) as Hm. set (p := pte_addr s pt addr) in *.
  unfold __pgtbl_isnull in H. cbn [next] in H. rewrite bind_assoc in H.
  rewrite (bind_Ok _ _ _ _ _ (load_Ok p s (proj1 Hm))) in H.
  rewrite (bind_Ok (ret _) _ _ _ _ eq_refl) in H. fold (entry_null (word s p)) in H.
  destruct (entry_null (word s p)); [by minv H|].
  rewrite (bind_Ok _ _ _ _ _ (load_Ok p s (proj1 Hm))) in H.
  destruct (Z.eqb_spec (Z.land (word s p) PGTBL_COSFRAME) 0) as [|E1]; [by minv H|].
  destruct (Z.eqb_spec (Z.land (word s p) PGTBL_COSKMEM) 0) as [E2|]; cbn [negb] in H; [|by minv H].
  apply bind_inv in H as (? & ? & H1 & H). apply massert_inv in H1 as [_ ->]. cbv zeta in H.
  rewrite frame_mask in H by apply word_u32. fold (entry_frame (word s p)) in H.
  destruct (chal_pa2va (entry_frame (word s p)) =? 0); [by minv H|].
  apply bind_inv in H as (r & s1 & Href & H).
  destruct (Z.eqb_spec r 0) as [Er|]; cbn [negb] in H; [rewrite Er in Href|by minv H].
  pose proof (mod_ref_cnt_rt _ _ _ _ _ _ Href) as Hrt.
  rewrite (bind_Ok _ _ _ _ _ (cas_success p (word s p) _ s1 (proj1 Hm)
    ltac:(rewrite (rt_only_word s s1) by done; by rewrite u32_small by apply word_u32))) in H.
  cbn [Z.eqb negb CAS_SUCCESS Pos.eqb] in H. minv H.
  exact (conj eq_refl (conj E (conj E1 (conj E2 (conj eq_refl (ex_intro _ s1 (conj Href eq_refl))))))).
Qed.


(** *** Expansion and pruning *)

Lemma pgtbl_dir0 pt addr :
  pa_page pt -> 0 < pt -> is_u32 addr -> ert_dir __pgtbl pt (addr2id addr) = pgd_addr pt addr.
Proof.
  intros Hp H0 Ha. rewrite <- pgtbl_dir by done. unfold ert_dir. cbn [el_get pgtbl_laws].
  destruct (pt_root pt Hp H0) as (_ & _ & -> & _). rewrite frame_mask by (destruct Hp; unfold is_u32; lia).
  destruct Hp as [Hm Hr]. rewrite Hm, Z.sub_0_r. rewrite pa2va_kva by done. done.
Qed.

Lemma pgtbl_init_leaf q s :
  pa_page q ->
  exists m, __ert_init __pgtbl (kva q) true s = Ok tt (with_mem m s) /\
    (forall i, 0 <= i < 1024 -> word (with_mem m s) (kva q + 4 * i) = 0) /\
    (forall b, ~ (kva q <= b < kva q + 4096) -> word (with_mem m s) b = word s b).
Proof.
  intros [Hm Hr]. unfold kva, COS_MEM_KERN_START_VA.
  destruct (for_store_range 1024 0 (fun i => u32 (q + 3221225472 + 4 * i)) (fun _ => 0) s)
    as (m & H & Hin & Hout).
  - intros j Hj. unfold u32, PAGE_SIZE. Z.div_mod_to_equations. lia.
  - intros j k Hj Hk. unfold u32. Z.div_mod_to_equations. lia.
  - exists m. split_and!.
    + unfold __ert_init. rewrite (proj2 (Z.eqb_neq (q + 3221225472) 0)) by lia. exact H.
    + intros i Hi. specialize (Hin i ltac:(lia)). rewrite u32_small in Hin; [exact Hin|].
      unfold is_u32. Z.div_mod_to_equations. lia.
    + intros b Hb. apply Hout. intros j Hj. rewrite u32_small; [lia|].
      unfold is_u32. Z.div_mod_to_equations. lia.
Qed.

Lemma pgd_entry_kva q : pa_page q -> pgd_entry (kva q) = q + PGTBL_INTERN_DEF.
Proof.
  intros Hq. pose proof Hq as [Hm Hr]. unfold pgd_entry.
  rewrite frame_mask by (unfold is_u32, kva, COS_MEM_KERN_START_VA; lia).
  replace (kva q - kva q mod 4096) with (kva q)
    by (unfold kva, COS_MEM_KERN_START_VA; Z.div_mod_to_equations; lia).
  rewrite va2pa_kva by done. apply lor_page; [done|by vm_compute].
Qed.

Lemma intern_expand_Ok s pt addr q :
  path_ok s pt addr -> pa_page q -> q <> pt -> entry_null (word s (pgd_addr pt addr)) = true ->
  exists m, pgtbl_intern_expand pt addr (kva q) 0 s =
      Ok 0 (put (pgd_addr pt addr) (q + PGTBL_INTERN_DEF) (with_mem m s)) /\
    (forall i, 0 <= i < 1024 -> word (with_mem m s) (kva q + 4 * i) = 0) /\
    (forall b, ~ (kva q <= b < kva q + 4096) -> word (with_mem m s) b = word s b).
Proof.
  intros (Hp & H0 & Ha & _) Hq Hne Hnull. pose proof (pgd_mapped pt addr Hp Ha) as Hm.
  destruct (pgtbl_init_leaf q s Hq) as (m & Hinit & Hz & Hfr). exists m. split; [|by split].
  pose proof Hq as [Hqm Hqr]. pose proof (pgtbl_dir0 pt addr Hp H0 Ha) as Hdir.
  assert (kva q <> 0) as Hk by (unfold kva, COS_MEM_KERN_START_VA; lia).
  assert (setfn __pgtbl (RMem (pgd_addr pt addr)) (kva q) false (with_mem m s) =
    Ok (0, RMem (pgd_addr pt addr)) (put (pgd_addr pt addr) (q + PGTBL_INTERN_DEF) (with_mem m s))) as Hset.
  { cbn [setfn __pgtbl]. unfold __pgtbl_set. unfold bind at 1, massert, ret at 1. cbn [negb].
    cbv zeta. rewrite (bind_Ok _ _ _ _ _ (load_Ok _ _ (proj1 Hm))).
    rewrite (bind_Ok _ _ _ _ _ (cas_success _ _ _ (with_mem m s) (proj1 Hm)
      (eq_sym (u32_small _ (word_u32 _ _))))). by rewrite pgd_entry_kva. }
  unfold pgtbl_intern_expand. rewrite (proj2 (Z.eqb_neq pt 0)), flag_mask' by lia.
  replace (kva q mod 4096) with 0 by (unfold kva, COS_MEM_KERN_START_VA; Z.div_mod_to_equations; lia).
  unfold bind at 1 2 3, massert at 1 2 3, ret at 1 2 3. rewrite Z.land_0_r. cbn [negb Z.eqb].
  rewrite (proj2 (Z.eqb_neq (kva q) 0)) by done. unfold __pgtbl_expandn. change PGTBL_DEPTH with 2.
  rewrite <- Hdir in Hset, Hnull, Hm |- *.
  assert (allocfn __pgtbl (kva q) (Z.shiftl 1 (last_order __pgtbl) * last_sz __pgtbl) true s
    = Ok (kva q, 0) s) as Halloc.
  { cbn [allocfn __pgtbl]. unfold __pgtbl_a, bind, massert, ret. cbn [negb].
    change (Z.shiftl 1 PGTBL_ORD * 4 =? PAGE_SIZE) with true. cbv iota.
    by rewrite (proj2 (Z.eqb_neq (kva q) 0)). }
  by rewrite (bind_Ok _ _ _ _ _ (ert_expand_absent __pgtbl (ErtLaws0 := pgtbl_laws) eq_refl
    (proj1 pgtbl_orders) (proj2 pgtbl_orders) pt (addr2id addr) 0 (kva q) 0 s (kva q) 0 _ _ _ _
    ltac:(lia) (addr2id_lt addr Ha) (proj1 Hm) Hnull Halloc Hk Hinit Hset)).
Qed.

(** C37. Expanding a page table by a page makes the entries of that range
    present and empty: every address of the range has an entry in the new
    page, which translates to nothing; only the directory entry and the page
    are written. *)
Theorem pgtbl_intern_expand_correct s pt addr q :
  path_ok s pt addr -> pa_page q -> 0 < q -> q <> pt ->
  entry_null (word s (pgd_addr pt addr)) = true ->
  exists s', pgtbl_intern_expand pt addr (kva q) 0 s = Ok 0 s' /\
    (forall addr', is_u32 addr' -> addr' / 4194304 = addr / 4194304 ->
       path_ok s' pt addr' /\ pte_addr s' pt addr' = kva q + 4 * (addr' / 4096 mod 1024) /\
       exists fl, pgtbl_lkup pt addr' 0 s' = Ok (0, fl) s') /\
    (forall a, a <> pgd_addr pt addr -> ~ (kva q <= a < kva q + 4096) -> word s' a = word s a).
Proof.
  intros Hok Hq Hq0 Hne Hnull. destruct (intern_expand_Ok s pt addr q) as (m & H & Hz & Hfr); [done..|].
  destruct Hok as (Hp & H0 & Ha & _). pose proof (pgd_mapped pt addr Hp Ha) as Hm.
  pose proof Hq as [Hqm Hqr]. pose proof Hp as [Hpm Hpr].
  destruct (frame_flags q PGTBL_INTERN_DEF) as (Hf & Hl & Hu); [done|lia|lia|by vm_compute|].
  set (s' := put (pgd_addr pt addr) (q + PGTBL_INTERN_DEF) (with_mem m s)) in *.
  exists s'. split; [done|].
  assert (word s' (pgd_addr pt addr) = q + PGTBL_INTERN_DEF) as Hw
    by (unfold s'; by rewrite word_put_eq, u32_small).
  assert (entry_null (q + PGTBL_INTERN_DEF) = false) as Hn0.
  { unfold entry_null. rewrite land_flag by (by vm_compute). by rewrite Hl. }
  assert (entry_frame (q + PGTBL_INTERN_DEF) = q) as Hfr0 by (unfold entry_frame; lia).
  split.
  - intros addr' Ha' Hsame.
    assert (pgd_addr pt addr' = pgd_addr pt addr) as Hpgd by (unfold pgd_addr; by rewrite Hsame).
    assert (path_ok s' pt addr') as Hok'.
    { split_and!; try done; try apply Ha'. rewrite Hpgd, Hw, Hfr0. done. }
    assert (pte_addr s' pt addr' = kva q + 4 * (addr' / 4096 mod 1024)) as Hpa.
    { unfold pte_addr. by rewrite Hpgd, Hw, Hn0, Hfr0. }
    split_and!; [done|done|]. destruct (pgtbl_lkup_Ok s' pt addr' 0 Hok') as (fl & -> & _).
    exists fl. rewrite Hpa. set (i := addr' / 4096 mod 1024).
    assert (0 <= i < 1024) as Hi by (apply Z.mod_pos_bound; lia).
    assert (word s' (kva q + 4 * i) = 0) as ->; [|by destruct (_ =? 0)].
    unfold s'. rewrite word_put_ne; [by apply Hz|].
    unfold pgd_addr, kva, is_u32 in *. Z.div_mod_to_equations. lia.
  - intros a H1 H2. unfold s'. rewrite word_put_ne by done. by apply Hfr.
Qed.

(** A lookup through a directory entry that holds the frame of [NULL]. *)
Lemma lkup_null_frame s pt addr :
  pa_page pt -> 0 < pt -> is_u32 addr -> word s (pgd_addr pt addr) = 1073741927 ->
  addr / 4096 mod 1024 <> 0 -> pgtbl_lkup pt addr 0 s = Panic NullDeref.
Proof.
  intros Hp H0 Ha Hw Hi. destruct (pt_root pt Hp H0) as (Hv & Hn & _).
  pose proof (pgtbl_dir pt addr Hp H0 Ha) as Hdir. pose proof (pgd_mapped pt addr Hp Ha) as Hm.
  pose proof (addr2id_lt addr Ha) as Hid. pose proof (proj1 Hm) as Hm1. rewrite <- Hdir in Hm1.
  unfold pgtbl_lkup, __pgtbl_lkupan, __pgtbl_lkupani. rewrite pt_present by done.
  change (PGTBL_DEPTH + 1) with 3. apply bind_Panic.
  rewrite (ert_lookup_full __pgtbl (ErtLaws0 := pgtbl_laws) eq_refl (proj1 pgtbl_orders)
    (proj2 pgtbl_orders) (pt + 1) (addr2id addr) 0 s Hv Hid Hn Hm1), Hdir, Hw.
  change (el_null 1073741927) with false. cbv iota. cbn [getleaffn __pgtbl]. unfold __pgtbl_getleaf.
  unfold ert_slot. change (el_get 1073741927) with 0. change (2 ^ last_order __pgtbl) with 1024.
  change (last_sz __pgtbl) with 4. unfold addr2id, PGTBL_PAGEIDX_SHIFT in *.
  rewrite Z.shiftr_div_pow2 by lia. change (2 ^ 12) with 4096.
  pose proof (Z.mod_pos_bound (addr / 4096) 1024 eq_refl) as Hb.
  rewrite u32_small by (unfold is_u32; lia). rewrite (proj2 (Z.eqb_neq _ 0)) by lia.
  unfold __pgtbl_get. cbn [next]. apply bind_Panic. unfold load, mapped, PAGE_SIZE.
  by rewrite (proj2 (Z.leb_gt _ _)) by lia.
Qed.

(** [pgtbl_intern_prune] does not make the range absent: it stores the
    physical address of [NULL] with the present flag, and a later lookup in
    the range dereferences the first page. *)
Theorem pgtbl_prune_leaves_present s pt addr :
  path_ok s pt addr -> addr mod 4096 = 0 ->
  exists page s', pgtbl_intern_prune pt addr s = Ok page s' /\
    Z.land (word s' (pgd_addr pt addr)) PGTBL_PRESENT <> 0 /\
    forall addr', is_u32 addr' -> addr' / 4194304 = addr / 4194304 ->
      addr' / 4096 mod 1024 <> 0 -> pgtbl_lkup pt addr' 0 s' = Panic NullDeref.
Proof.
  intros (Hp & H0 & Ha & _) Hal. destruct (pt_root pt Hp H0) as (Hv & Hn & _ & Hfl).
  pose proof (pgtbl_dir pt addr Hp H0 Ha) as Hdir. pose proof (pgd_mapped pt addr Hp Ha) as Hm.
  pose proof (addr2id_lt addr Ha) as Hid.
  set (pgd := pgd_addr pt addr) in *. set (s' := put pgd 1073741927 s).
  assert (word s' pgd = 1073741927) as Hw by (unfold s'; by rewrite word_put_eq).
  exists (chal_pa2va (Z.land (word s pgd) PGTBL_FRAME_MASK)), s'. split_and!; [|by rewrite Hw|].
  - unfold pgtbl_intern_prune. rewrite (proj2 (Z.eqb_neq pt 0)), flag_mask', Hal by lia.
    unfold bind at 1 2, massert at 1 2, ret at 1 2. cbn [negb Z.eqb].
    unfold __pgtbl_lkupan, __pgtbl_lkupani. rewrite pt_present by done.
    rewrite (bind_Ok _ _ _ _ _ (ert_lookup_dir __pgtbl (ErtLaws0 := pgtbl_laws) eq_refl
      (proj1 pgtbl_orders) (proj2 pgtbl_orders) (pt + 1) (addr2id addr) 0 s Hv Hid Hn)), Hdir.
    unfold PAGE_SIZE in Hm. rewrite (proj2 (Z.eqb_neq pgd 0)) by lia.
    unfold __pgtbl_get, __pgtbl_set. cbn [next negb]. rewrite bind_assoc.
    rewrite (bind_Ok _ _ _ _ _ (load_Ok pgd s (proj1 Hm))), (bind_Ok (ret _) _ _ _ _ eq_refl).
    unfold bind at 1, bind at 1, massert, ret at 1. cbv zeta.
    rewrite (bind_Ok _ _ _ _ _ (load_Ok pgd s (proj1 Hm))).
    rewrite (bind_Ok _ _ _ _ _ (cas_success pgd _ (pgd_entry 0) s (proj1 Hm)
      (eq_sym (u32_small _ (word_u32 _ _))))). done.
  - intros addr' Ha' Hsame Hi. apply lkup_null_frame; try done.
    unfold pgd_addr. rewrite Hsame. exact Hw.
Qed.

(** ** Examples *)

(** A page table at 2 MiB, with a second level at 2 MiB + 4 KiB for the first
    4 MiB; the frame at 1 MiB is user memory. *)
Definition pt_pa : Z := 2097152.
Definition pt0 : kstate :=
  run_state kstate0 (pgtbl_alloc (kva pt_pa) (run_state kstate0 (retypetbl_retype2user 1048576 kstate0))).
Definition pt1 : kstate := run_state kstate0 (pgtbl_intern_expand pt_pa 8192 (kva 2101248) 0 pt0).
Definition pt2 : kstate :=
  run_state kstate0 (pgtbl_mapping_add pt_pa 8192 1048576 PGTBL_USER_DEF pt1).
Definition pt3 : kstate := run_state kstate0 (pgtbl_mapping_del pt_pa 8192 9 pt2).

(** A check of [path_ok] by computation. *)
Definition path_okb (s : kstate) (pt addr : Z) : bool :=
  let f := entry_frame (word s (pgd_addr pt addr)) in
  (pt mod 4096 =? 0) && (0 <? pt) && (pt <? 1073741824) && (0 <=? addr) && (addr <? 4294967296) &&
  (entry_null (word s (pgd_addr pt addr)) || ((f mod 4096 =? 0) && (0 <=? f) && (f <? 1073741824))).

Lemma path_okb_ok s pt addr : path_okb s pt addr = true -> path_ok s pt addr.
Proof.
  unfold path_okb. rewrite !andb_true_iff, orb_true_iff, !andb_true_iff, !Z.eqb_eq, !Z.ltb_lt, !Z.leb_le.
  intros (((((H1 & H2) & H3) & H4) & H5) & H6). unfold path_ok, pa_page, is_u32.
  split_and!; try lia; intros E; destruct H6 as [H6|H6]; try congruence; lia.
Qed.

Lemma pt0_path : path_ok pt0 pt_pa 8192.
Proof. apply path_okb_ok. by vm_compute. Qed.
Lemma pt1_path : path_ok pt1 pt_pa 8192.
Proof. apply path_okb_ok. by vm_compute. Qed.
Lemma pt2_path : path_ok pt2 pt_pa 8192.
Proof. apply path_okb_ok. by vm_compute. Qed.
Lemma pt2_eq : pgtbl_mapping_add pt_pa 8192 1048576 PGTBL_USER_DEF pt1 = Ok 0 pt2.
Proof. apply run_ok. by vm_compute. Qed.
Lemma pt3_eq : pgtbl_mapping_del pt_pa 8192 9 pt2 = Ok 0 pt3.
Proof. apply run_ok. by vm_compute. Qed.
#[global] Opaque pt0 pt1 pt2 pt3.




(** The frame at 1 MiB as kernel memory, entered as an untyped frame. *)
Definition pt4 : kstate :=
  run_state kstate0 (pgtbl_cosframe_add pt_pa 8192 1048576 PGTBL_COSFRAME
    (run_state kstate0 (pgtbl_intern_expand pt_pa 8192 (kva 2101248) 0
      (run_state kstate0 (pgtbl_alloc (kva pt_pa)
        (run_state kstate0 (retypetbl_retype2kern 1048576 kstate0))))))).
Definition pt5 : kstate := run_state kstate0 (pgtbl_kmem_act pt_pa 8192 pt4).

Lemma pt4_path : path_ok pt4 pt_pa 8192.
Proof. apply path_okb_ok. by vm_compute. Qed.
Lemma pt5_eq : pgtbl_kmem_act pt_pa 8192 pt4 = Ok (inr (kva 1048576, kva 2101248 + 8)) pt5.
Proof. apply run_ok. by vm_compute. Qed.
#[global] Opaque pt4 pt5.


Lemma pgtbl_intern_expand_correct_witness :
  exists s', pgtbl_intern_expand pt_pa 8192 (kva 2101248) 0 pt0 = Ok 0 s'.
Proof.
  destruct (pgtbl_intern_expand_correct pt0 pt_pa 8192 2101248 pt0_path) as (s' & H & _);
    [done|lia|done|by vm_compute|exact (ex_intro _ s' H)].
Defined.

Lemma pgtbl_prune_leaves_present_witness :
  exists page s', pgtbl_intern_prune pt_pa 8192 pt2 = Ok page s' /\
    pgtbl_lkup pt_pa 8192 0 s' = Panic NullDeref.
Proof.
  destruct (pgtbl_prune_leaves_present pt2 pt_pa 8192 pt2_path) as (page & s' & H1 & _ & H2); [done|].
  exists page, s'. split; [exact H1|]. clear H1. apply H2; by vm_compute.
Defined.
