(* ===== verification/DList.v ===== *)
(** * Doubly linked lists

    [kernel/include/list.h]: circular lists of nodes [{next, prev, container}]
    that are embedded in threads (events) and temporal capabilities (the
    active list of a core).  The nodes are words of kernel memory, so that the
    aliasing of a node with its neighbours or with the head is the code's.

    [dlist s hd ns] says that [hd] heads a well-linked list of the nodes [ns];
    the theorems show that each operation is the corresponding one on [ns]
    and touches no other memory. *)

From S2P Require Import Prelude Config Machine.

(** ** Operations *)

Definition list_init (l obj : Z) : K unit :=
  store (l + 4) l ;; store l l ;; store (l + 8) obj.

Definition list_add_before (l new : Z) : K unit :=
  store new l ;;
  p <- load (l + 4) ;; store (new + 4) p ;;
  p <- load (l + 4) ;; store p new ;;
  store (l + 4) new.

Definition list_add_after (l new : Z) : K unit :=
  n <- load l ;; store new n ;;
  store (new + 4) l ;;
  n <- load l ;; store (n + 4) new ;;
  store l new.

Definition list_rem (n : Z) : K unit :=
  nx <- load n ;; pv <- load (n + 4) ;; store (nx + 4) pv ;;
  pv <- load (n + 4) ;; nx <- load n ;; store pv nx ;;
  store n n ;; store (n + 4) n.

Definition list_empty (l : Z) : K bool := n <- load l ;; ret (n =? l).

Definition list_head_init (h : Z) : K unit := list_init h 0.

Definition list_enqueue (hd l : Z) : K unit := p <- load (hd + 4) ;; list_add_after p l.

Definition list_add (hd l : Z) : K unit := list_add_after hd l.

Definition list_dequeue (h : Z) : K Z := n <- load h ;; list_rem n ;; load (n + 8).

Definition list_next (n : Z) : K Z := nx <- load n ;; load (nx + 8).

Definition list_first (h : Z) : K Z := list_next h.

Definition list_isempty (h : Z) : K bool := c <- list_first h ;; ret (c =? 0).

(** ** Well-linked lists *)

(** Consecutive nodes of [l] point at each other. *)
Fixpoint linked (s : kstate) (l : list Z) : Prop :=
  match l with
  | a :: (b :: _) as l' => word s a = b /\ word s (b + 4) = a /\ linked s l'
  | _ => True
  end.

(** Nodes are 12 bytes long and do not overlap. *)
Definition apart (x y : Z) : Prop := x + 12 <= y \/ y + 12 <= x.
Definition node_addr (x : Z) : Prop := PAGE_SIZE <= x /\ x + 12 <= 4294967296.
Definition nodes_ok (l : list Z) : Prop :=
  NoDup l /\ (forall x, x ∈ l -> node_addr x) /\
  (forall x y, x ∈ l -> y ∈ l -> x <> y -> apart x y).

Definition dlist (s : kstate) (hd : Z) (ns : list Z) : Prop :=
  nodes_ok (hd :: ns) /\ linked s (hd :: ns ++ [hd]).

(** [new] can be linked into a list of the nodes [l]. *)
Definition fresh_node (new : Z) (l : list Z) : Prop :=
  node_addr new /\ (forall x, x ∈ l -> apart x new).

(** Words that are links of the nodes [l]. *)
Definition links (l : list Z) (a : Z) : Prop := exists x, x ∈ l /\ (a = x \/ a = x + 4).

(** ** Lemmas: cycles *)

(** A cycle of nodes, from any of them. *)
Definition cyc (s : kstate) (c : list Z) : Prop :=
  match c with [] => True | a :: t => linked s (a :: t ++ [a]) end.

Lemma linked_app s xs a ys :
  linked s (xs ++ a :: ys) <-> linked s (xs ++ [a]) /\ linked s (a :: ys).
Proof.
  induction xs as [|x xs IH]; simpl; [tauto|].
  destruct xs as [|y xs]; simpl in *; tauto.
Qed.

Lemma linked_frame s s' a t :
  linked s (a :: t) ->
  (forall x, x ∈ removelast (a :: t) -> word s' x = word s x) ->
  (forall x, x ∈ t -> word s' (x + 4) = word s (x + 4)) -> linked s' (a :: t).
Proof.
  revert a. induction t as [|b t IH]; intros a; [done|].
  intros (H1 & H2 & H3) Hn Hp. change (linked s' (a :: b :: t)) with
    (word s' a = b /\ word s' (b + 4) = a /\ linked s' (b :: t)).
  rewrite Hn, Hp by set_solver. split_and!; [done..|]. apply IH; [done| |set_solver].
  intros x Hx. apply Hn. change (removelast (a :: b :: t)) with (a :: removelast (b :: t)).
  set_solver.
Qed.

Lemma cyc_rotate s xs ys : cyc s (xs ++ ys) -> cyc s (ys ++ xs).
Proof.
  destruct xs as [|x xs], ys as [|y ys]; simpl; rewrite ?app_nil_r; try done.
  rewrite <- !app_assoc. intros H. change (linked s ((y :: ys) ++ x :: xs ++ [y])).
  change (linked s ((x :: xs) ++ y :: ys ++ [x])) in H.
  apply linked_app in H as [H1 H2]. by apply linked_app.
Qed.

(** The only words an insertion after [a] writes. *)
Definition inserted (s s' : kstate) (a b new : Z) : Prop :=
  word s' new = b /\ word s' (new + 4) = a /\ word s' (b + 4) = new /\ word s' a = new /\
  (forall w, w <> a -> w <> b + 4 -> w <> new -> w <> new + 4 -> word s' w = word s w).

Lemma nodes_ok_cons_inv a l :
  nodes_ok (a :: l) -> a ∉ l /\ node_addr a /\ (forall x, x ∈ l -> apart a x) /\ nodes_ok l.
Proof.
  intros (Hd & Ha & Hs). inversion Hd; subst. split_and!; try done.
  - apply Ha. set_solver.
  - intros x Hx. apply Hs; set_solver.
  - split_and!; [done|set_solver|]. intros x y Hx Hy. apply Hs; set_solver.
Qed.

Lemma nodes_ok_perm l l' : l ≡ₚ l' -> nodes_ok l -> nodes_ok l'.
Proof.
  intros Hp (Hd & Ha & Hs). split_and!; [by rewrite <- Hp| |].
  - intros x Hx. apply Ha. by rewrite Hp.
  - intros x y Hx Hy. apply Hs; by rewrite Hp.
Qed.

Lemma nodes_ok_fresh new l : nodes_ok l -> fresh_node new l -> nodes_ok (new :: l).
Proof.
  intros (Hd & Ha & Hs) (Hn & Hf). split_and!.
  - constructor; [|done]. intros Hin. apply Hf in Hin. unfold apart in Hin. lia.
  - intros x [->|Hx]%elem_of_cons; [done|by apply Ha].
  - intros x y [->|Hx]%elem_of_cons [->|Hy]%elem_of_cons ?; [done| | |by apply Hs].
    + apply Hf in Hy. unfold apart in *. lia.
    + by apply Hf.
Qed.

Lemma cyc_insert s s' a t new :
  nodes_ok (new :: a :: t) -> cyc s (a :: t) ->
  inserted s s' a (hd a t) new -> cyc s' (a :: new :: t).
Proof.
  intros Hn Hc (H1 & H2 & H3 & H4 & Hf).
  apply nodes_ok_cons_inv in Hn as (Hna & _ & Hap & Hn).
  apply nodes_ok_cons_inv in Hn as (Haa & _ & Hap2 & Hn).
  assert (Apart : forall x, x ∈ a :: t -> apart new x) by exact Hap.
  destruct t as [|b t]; simpl in *; [by split_and!|].
  destruct Hc as (Hc1 & Hc2 & Hc3). split_and!; [done..|].
  apply nodes_ok_cons_inv in Hn as (Hb & _ & Hap3 & _).
  apply (linked_frame s); [done| |].
  - intros x Hx. change (b :: t ++ [a]) with ((b :: t) ++ [a]) in Hx.
    rewrite removelast_last in Hx. pose proof (Apart x ltac:(set_solver)).
    pose proof (Hap2 x Hx). unfold apart in *. apply Hf; try lia.
    intros ->. apply elem_of_cons in Hx as [?|Hx]; [lia|].
    specialize (Hap3 _ Hx). lia.
  - intros x Hx. pose proof (Apart x ltac:(set_solver)). unfold apart in *.
    assert (x <> b) by (intros ->; set_solver).
    apply Hf; [|lia..]. apply elem_of_app in Hx as [Hx|Hx];
      [|apply list_elem_of_singleton in Hx; lia].
    pose proof (Hap2 x ltac:(set_solver)). lia.
Qed.

(** The only words a removal of [n], between [a] and [b], writes. *)
Definition removed (s s' : kstate) (a n b : Z) : Prop :=
  word s' (b + 4) = a /\ word s' a = b /\ word s' n = n /\ word s' (n + 4) = n /\
  (forall w, w <> a -> w <> b + 4 -> w <> n -> w <> n + 4 -> word s' w = word s w).

Lemma cyc_remove s s' a n t :
  nodes_ok (n :: a :: t) -> cyc s (a :: n :: t) ->
  removed s s' a n (hd a t) -> cyc s' (a :: t) /\ cyc s' [n].
Proof.
  intros Hn Hc (H1 & H2 & H3 & H4 & Hf). split; [|by split_and!].
  apply nodes_ok_cons_inv in Hn as (Hna & _ & Hap & Hn).
  apply nodes_ok_cons_inv in Hn as (Haa & _ & Hap2 & Hn).
  assert (Apart : forall x, x ∈ a :: t -> apart n x) by exact Hap.
  destruct t as [|b t]; simpl in *; [by split_and!|].
  destruct Hc as (Hc1 & Hc2 & Hc3 & Hc4 & Hc5). split_and!; [done..|].
  apply nodes_ok_cons_inv in Hn as (Hb & _ & Hap3 & _).
  apply (linked_frame s); [done| |].
  - intros x Hx. change (b :: t ++ [a]) with ((b :: t) ++ [a]) in Hx.
    rewrite removelast_last in Hx. pose proof (Apart x ltac:(set_solver)).
    pose proof (Hap2 x Hx). unfold apart in *. apply Hf; try lia.
    intros ->. apply elem_of_cons in Hx as [?|Hx]; [lia|].
    specialize (Hap3 _ Hx). lia.
  - intros x Hx. pose proof (Apart x ltac:(set_solver)). unfold apart in *.
    assert (x <> b) by (intros ->; set_solver).
    apply Hf; [|lia..]. apply elem_of_app in Hx as [Hx|Hx];
      [|apply list_elem_of_singleton in Hx; lia].
    pose proof (Hap2 x ltac:(set_solver)). lia.
Qed.

(** ** Lemmas: the operations on cycles *)

(** The memory after writing some words, of which the addresses [P]. *)
Definition writes (P : Z -> Prop) (m : K unit) (s s' : kstate) : Prop :=
  m s = Ok tt s' /\ s' = with_mem (kmem s') s /\ (forall w, ~ P w -> word s' w = word s w).

Lemma cyc_next s a t : cyc s (a :: t) -> word s a = hd a t.
Proof. destruct t; simpl; tauto. Qed.

Lemma cyc_prev s a t : cyc s (a :: t) -> word s (hd a t + 4) = a.
Proof. destruct t; simpl; tauto. Qed.

Lemma hd_in a (t : list Z) : hd a t ∈ a :: t.
Proof. destruct t; set_solver. Qed.

Ltac dl_words := autorewrite with kmem; try (rewrite ?u32_small by (unfold is_u32; lia)).

(** The facts about a node, its successor and a node outside that the proofs
    below need. *)
Lemma nodes_ok_facts new a t :
  nodes_ok (new :: a :: t) -> let b := hd a t in
  node_addr new /\ node_addr a /\ node_addr b /\ apart new a /\ apart new b /\
  (b = a \/ apart a b).
Proof.
  intros Hn b. destruct (nodes_ok_cons_inv _ _ Hn) as (_ & Hn1 & Hap & (_ & Ha & Hs)).
  pose proof (hd_in a t) as Hb. split_and!; [done|set_solver..|].
  destruct (decide (b = a)); [by left|right]. apply Hs; set_solver.
Qed.

Lemma list_add_after_Ok s a t new :
  nodes_ok (new :: a :: t) -> cyc s (a :: t) ->
  exists s', list_add_after a new s = Ok tt s' /\ s' = with_mem (kmem s') s /\
    inserted s s' a (hd a t) new.
Proof.
  intros Hn Hc. pose proof (cyc_next _ _ _ Hc) as Hnx.
  pose proof (nodes_ok_facts _ _ _ Hn) as F. set (b := hd a t) in *.
  unfold node_addr, apart, PAGE_SIZE in F. unfold list_add_after.
  kstep. rewrite Hnx. do 3 kstep. autorewrite with kmem. rewrite Hnx. do 2 kstep.
  eexists. split_and!; [reflexivity|done|..].
  split_and!; [..|intros; by dl_words]; dl_words; done.
Qed.

Lemma list_add_before_Ok s a t new :
  nodes_ok (new :: a :: t) -> cyc s (a :: t) ->
  exists s', list_add_before (hd a t) new s = Ok tt s' /\ s' = with_mem (kmem s') s /\
    inserted s s' a (hd a t) new.
Proof.
  intros Hn Hc. pose proof (cyc_prev _ _ _ Hc) as Hpv.
  pose proof (nodes_ok_facts _ _ _ Hn) as F. set (b := hd a t) in *.
  unfold node_addr, apart, PAGE_SIZE in F. unfold list_add_before.
  do 2 kstep. autorewrite with kmem. rewrite Hpv. do 2 kstep. autorewrite with kmem.
  rewrite Hpv. do 2 kstep. eexists. split_and!; [reflexivity|done|..].
  split_and!; [..|intros; by dl_words]; dl_words; done.
Qed.

Lemma list_rem_Ok s a n t :
  nodes_ok (n :: a :: t) -> cyc s (a :: n :: t) ->
  exists s', list_rem n s = Ok tt s' /\ s' = with_mem (kmem s') s /\
    removed s s' a n (hd a t).
Proof.
  intros Hn Hc. assert (Hnx : word s n = hd a t).
  { rewrite (cyc_next s n (t ++ [a])); [by destruct t|]. exact (cyc_rotate s [a] (n :: t) Hc). }
  pose proof (cyc_prev _ _ _ Hc) as Hpv. simpl in Hpv.
  pose proof (nodes_ok_facts _ _ _ Hn) as F. set (b := hd a t) in *.
  unfold node_addr, apart, PAGE_SIZE in F. unfold list_rem.
  do 2 kstep. rewrite Hnx, Hpv. do 3 kstep. autorewrite with kmem. rewrite Hnx, Hpv. do 3 kstep. eexists. split_and!; [reflexivity|done|..].
  split_and!; [..|intros; by dl_words]; dl_words; done.
Qed.

(** ** Lemmas: the operations on lists *)

Lemma dlist_inv s hd ns : dlist s hd ns -> nodes_ok (hd :: ns) /\ cyc s (hd :: ns).
Proof. done. Qed.

Lemma dlist_intro s hd ns : nodes_ok (hd :: ns) -> cyc s (hd :: ns) -> dlist s hd ns.
Proof. done. Qed.

(** A node of a list, with the list rotated to start there. *)
Lemma cyc_at s xs x ys : cyc s (xs ++ x :: ys) -> cyc s (x :: ys ++ xs).
Proof. apply (cyc_rotate s xs (x :: ys)). Qed.

Lemma cyc_from s xs x ys : cyc s (x :: ys ++ xs) -> cyc s (xs ++ x :: ys).
Proof. apply (cyc_rotate s (x :: ys) xs). Qed.

Lemma inserted_frame s s' a b new l :
  inserted s s' a b new -> a ∈ l -> b ∈ l -> new ∈ l ->
  forall w, ~ links l w -> word s' w = word s w.
Proof.
  intros (_ & _ & _ & _ & Hf) Ha Hb Hn w Hw.
  apply Hf; intros ->; apply Hw; [exists a|exists b|exists new|exists new]; auto.
Qed.

Lemma removed_frame s s' a n b l :
  removed s s' a n b -> a ∈ l -> b ∈ l -> n ∈ l ->
  forall w, ~ links l w -> word s' w = word s w.
Proof.
  intros (_ & _ & _ & _ & Hf) Ha Hb Hn w Hw.
  apply Hf; intros ->; apply Hw; [exists a|exists b|exists n|exists n]; auto.
Qed.

Lemma dlist_add_after s h ns xs x ys new :
  dlist s h ns -> h :: ns = xs ++ x :: ys -> fresh_node new (h :: ns) ->
  exists s', list_add_after x new s = Ok tt s' /\ mem_frame (links (new :: h :: ns)) s s' /\
    nodes_ok (new :: h :: ns) /\ cyc s' (xs ++ x :: new :: ys).
Proof.
  intros [Hok Hc]%dlist_inv E Hf. pose proof (nodes_ok_fresh _ _ Hok Hf) as Hok'.
  assert (Hp : h :: ns ≡ₚ x :: ys ++ xs) by (rewrite E; apply Permutation_app_comm).
  rewrite E in Hc. apply cyc_at in Hc.
  assert (Hok2 : nodes_ok (new :: x :: ys ++ xs)) by (eapply nodes_ok_perm, Hok'; by rewrite Hp).
  destruct (list_add_after_Ok _ _ _ _ Hok2 Hc) as (s' & Hr & Hs & Hi).
  exists s'. split_and!; [done| |done|].
  - split; [|done]. eapply inserted_frame; [done|rewrite Hp; set_solver| |set_solver].
    rewrite Hp. apply elem_of_cons. right. apply hd_in.
  - apply cyc_from. by apply (cyc_insert s s' x (ys ++ xs) new).
Qed.

Lemma dlist_rem s h ns n :
  dlist s h ns -> n ∈ ns ->
  exists s' xs ys, list_rem n s = Ok tt s' /\ mem_frame (links (h :: ns)) s s' /\
    ns = xs ++ n :: ys /\ dlist s' h (xs ++ ys) /\ dlist s' n [].
Proof.
  intros [Hok Hc]%dlist_inv (xs & ys & ->)%list_elem_of_split.
  destruct (exists_last (l := h :: xs) ltac:(done)) as (zs & a & Ez).
  assert (Hp : h :: xs ++ n :: ys ≡ₚ n :: a :: ys ++ zs).
  { change (h :: xs ++ n :: ys) with ((h :: xs) ++ n :: ys). rewrite Ez.
    rewrite <- Permutation_middle, <- app_assoc. simpl. f_equiv.
    rewrite <- Permutation_middle. f_equiv. apply Permutation_app_comm. }
  pose proof (nodes_ok_perm _ _ Hp Hok) as Hok2.
  change (h :: xs ++ n :: ys) with ((h :: xs) ++ n :: ys) in Hc. rewrite Ez, <- app_assoc in Hc.
  apply (cyc_at s zs a) in Hc. simpl in Hc.
  destruct (list_rem_Ok s a n (ys ++ zs) Hok2 Hc) as (s' & Hr & Hs & Hm).
  destruct (cyc_remove _ _ _ _ _ Hok2 Hc Hm) as [Hc1 Hc2].
  exists s', xs, ys. split_and!; [done| |done| |].
  - split; [|done]. eapply removed_frame; [done|rewrite Hp; set_solver| |rewrite Hp; set_solver].
    rewrite Hp. apply elem_of_cons. right. apply hd_in.
  - apply nodes_ok_cons_inv in Hok2 as (_ & _ & _ & Hok2). apply dlist_intro.
    + eapply nodes_ok_perm, Hok2. rewrite Permutation_app_comm.
      change (h :: xs ++ ys) with ((h :: xs) ++ ys). rewrite Ez, <- app_assoc.
      apply Permutation_middle.
    + change (h :: xs ++ ys) with ((h :: xs) ++ ys). rewrite Ez, <- app_assoc.
      by apply (cyc_from s' zs a ys).
  - apply dlist_intro; [|done]. apply (nodes_ok_perm _ _ Hp) in Hok as (_ & Ha & _).
    split_and!; [apply NoDup_singleton|intros x Hx; apply Ha; set_solver|set_solver].
Qed.

Lemma dlist_enqueue s h ns new :
  dlist s h ns -> fresh_node new (h :: ns) ->
  exists s', list_enqueue h new s = Ok tt s' /\ mem_frame (links (new :: h :: ns)) s s' /\
    dlist s' h (ns ++ [new]).
Proof.
  intros Hd Hf. destruct (exists_last (l := h :: ns) ltac:(done)) as (zs & p & Ez).
  destruct (dlist_add_after s h ns zs p [] new Hd Ez Hf) as (s' & Hr & Hm & Hok & Hc).
  apply dlist_inv in Hd as [Hok0 Hc0].
  assert (Hl : word s (h + 4) = p).
  { rewrite Ez in Hc0. apply cyc_at in Hc0. pose proof (cyc_prev _ _ _ Hc0) as Hp.
    destruct zs as [|z zs]; simpl in *; by simplify_eq. }
  exists s'. split_and!; [|done|].
  - unfold list_enqueue. destruct Hok0 as (_ & Ha & _).
    destruct (Ha h ltac:(set_solver)) as [Hh _]. kstep. by rewrite Hl.
  - assert (En : h :: ns ++ [new] = zs ++ [p; new])
      by (change (h :: ns ++ [new]) with ((h :: ns) ++ [new]); rewrite Ez; by rewrite <- app_assoc).
    apply dlist_intro; rewrite En; [|done].
    eapply nodes_ok_perm, Hok. rewrite Ez. change [p; new] with ([p] ++ [new]).
    rewrite app_assoc. by rewrite (Permutation_app_comm _ [new]).
Qed.

Lemma dlist_add_before s h ns xs x ys new :
  dlist s h ns -> ns = xs ++ x :: ys -> fresh_node new (h :: ns) ->
  exists s', list_add_before x new s = Ok tt s' /\ mem_frame (links (new :: h :: ns)) s s' /\
    dlist s' h (xs ++ new :: x :: ys).
Proof.
  intros [Hok Hc]%dlist_inv E Hf. pose proof (nodes_ok_fresh _ _ Hok Hf) as Hok'.
  destruct (exists_last (l := h :: xs) ltac:(done)) as (zs & a & Ez).
  assert (E2 : h :: ns = zs ++ a :: x :: ys).
  { rewrite E. change (h :: xs ++ x :: ys) with ((h :: xs) ++ x :: ys). rewrite Ez.
    by rewrite <- app_assoc. }
  assert (Hp : h :: ns ≡ₚ a :: x :: ys ++ zs) by (rewrite E2; apply Permutation_app_comm).
  rewrite E2 in Hc. apply cyc_at in Hc.
  assert (Hok2 : nodes_ok (new :: a :: x :: ys ++ zs))
    by (eapply nodes_ok_perm, Hok'; by rewrite Hp).
  destruct (list_add_before_Ok _ _ _ _ Hok2 Hc) as (s' & Hr & Hs & Hi). simpl in Hr, Hi.
  exists s'. split_and!; [done| |].
  - split; [|done]. eapply inserted_frame; [done|rewrite Hp; set_solver..].
  - assert (E3 : h :: xs ++ new :: x :: ys = zs ++ a :: new :: x :: ys).
    { change (h :: xs ++ new :: x :: ys) with ((h :: xs) ++ new :: x :: ys). rewrite Ez.
      by rewrite <- app_assoc. }
    apply dlist_intro.
    + eapply nodes_ok_perm, Hok'. rewrite E. change (h :: xs ++ x :: ys) with ((h :: xs) ++ x :: ys).
      change (h :: xs ++ new :: x :: ys) with ((h :: xs) ++ new :: x :: ys).
      apply Permutation_middle.
    + rewrite E3. apply cyc_from. by apply (cyc_insert s s' a (x :: ys ++ zs) new).
Qed.

(** Lists that share no link with what changed. *)
Lemma dlist_frame s s' h ns (P : Z -> Prop) :
  dlist s h ns -> (forall w, ~ P w -> word s' w = word s w) ->
  (forall w, links (h :: ns) w -> ~ P w) -> dlist s' h ns.
Proof.
  intros [Hok Hl] Hf Hd. split; [done|]. apply (linked_frame s); [done| |].
  - intros x Hx. apply Hf, Hd. exists x. change (h :: ns ++ [h]) with ((h :: ns) ++ [h]) in Hx.
    rewrite removelast_last in Hx. auto.
  - intros x Hx. apply Hf, Hd. exists x. split; [set_solver|auto].
Qed.

Lemma links_disjoint l l' w :
  (forall x y, x ∈ l -> y ∈ l' -> apart x y) -> links l w -> ~ links l' w.
Proof.
  intros H (x & Hx & E1) (y & Hy & E2). specialize (H x y Hx Hy). unfold apart in H. lia.
Qed.

Lemma dlist_empty_iff s h ns x :
  dlist s h ns -> x ∈ h :: ns -> (word s x = x <-> ns = []).
Proof.
  intros [Hok Hc]%dlist_inv (xs & ys & E)%list_elem_of_split.
  rewrite E in Hc. apply cyc_at, cyc_next in Hc. rewrite E in Hok. destruct Hok as (Hd & _).
  split; intros H.
  - destruct ys as [|y ys]; [destruct xs as [|z xs]|]; simpl in *; [by simplify_eq| |].
    + rewrite Hc in H. subst z. apply NoDup_cons_1_1 in Hd. set_solver.
    + rewrite Hc in H. subst y. apply NoDup_app in Hd as (_ & _ & Hd).
      apply NoDup_cons_1_1 in Hd. set_solver.
  - subst ns. destruct xs as [|? [|]]; simplify_eq/=. done.
Qed.

(** A container is not a link. *)
Lemma container_frame s s' l n :
  nodes_ok l -> n ∈ l -> (forall w, ~ links l w -> word s' w = word s w) ->
  word s' (n + 8) = word s (n + 8).
Proof.
  intros (_ & _ & Hs) Hn Hf. apply Hf. intros (x & Hx & [E|E]).
  - destruct (Hs n x Hn Hx ltac:(lia)); lia.
  - destruct (Hs n x Hn Hx ltac:(lia)); lia.
Qed.

Lemma dlist_dequeue s h n ns :
  dlist s h (n :: ns) ->
  exists s', list_dequeue h s = Ok (word s (n + 8)) s' /\
    mem_frame (links (h :: n :: ns)) s s' /\ dlist s' h ns /\ dlist s' n [].
Proof.
  intros Hd. destruct (dlist_rem s h (n :: ns) n Hd ltac:(set_solver))
    as (s' & xs & ys & Hr & Hm & E & Hd1 & Hd2).
  apply dlist_inv in Hd as [Hok Hc].
  assert (xs = []) as ->.
  { destruct xs as [|x xs]; [done|]. simplify_eq. destruct Hok as (Hnd & _).
    apply NoDup_cons_1_2, NoDup_cons_1_1 in Hnd. set_solver. }
  simpl in E, Hd1. injection E as <-. exists s'. split_and!; [|done..].
  unfold list_dequeue. destruct Hok as (Hnd & Ha & Hs).
  destruct (Ha h ltac:(set_solver)) as [Hh _]. destruct (Ha n ltac:(set_solver)) as [Hn _].
  kstep. rewrite (cyc_next s h (n :: ns) Hc). simpl. rewrite (bind_Ok _ _ _ _ _ Hr).
  kstep. f_equal. apply (container_frame s s' (h :: n :: ns)); [done|set_solver|apply Hm].
Qed.

Lemma dlist_dequeue_nil s h :
  dlist s h [] ->
  exists s', list_dequeue h s = Ok (word s (h + 8)) s' /\
    mem_frame (links [h]) s s' /\ dlist s' h [].
Proof.
  intros [Hok Hc]%dlist_inv. destruct Hc as (H1 & H2 & _). destruct Hok as (Hnd & Ha & Hs).
  destruct (Ha h ltac:(set_solver)) as [Hh1 Hh2]. unfold PAGE_SIZE in *.
  unfold list_dequeue, list_rem. kstep. rewrite H1. rewrite bind_assoc. kstep.
  rewrite H1. rewrite !bind_assoc. kstep. rewrite H2. rewrite bind_assoc. kstep.
  rewrite bind_assoc. kstep. rewrite bind_assoc. kstep. autorewrite with kmem.
  rewrite H1. rewrite u32_small by (unfold is_u32; lia).
  rewrite bind_assoc. kstep. rewrite bind_assoc. do 3 kstep. autorewrite with kmem.
  eexists. split_and!; [reflexivity| |].
  - split; [|done]. intros w Hw. assert (w <> h) by (intros ->; apply Hw; exists h; set_solver).
    assert (w <> h + 4) by (intros ->; apply Hw; exists h; set_solver). by autorewrite with kmem.
  - apply dlist_intro; [done|]. simpl.
    split_and!; [..|done]; autorewrite with kmem; apply u32_small; unfold is_u32; lia.
Qed.

(** ** The list is a FIFO queue *)

Inductive qop : Type := Enq (n : Z) | Deq.

(** The operations on the list of [h], with what the dequeues returned. *)
Fixpoint run_queue (h : Z) (ops : list qop) : K (list Z) :=
  match ops with
  | [] => ret []
  | Enq n :: ops' => list_enqueue h n ;; run_queue h ops'
  | Deq :: ops' =>
      c <- list_dequeue h ;; rs <- run_queue h ops' ;; ret (c :: rs)
  end.

(** The same on a queue of nodes from [U] whose containers are [c]: an
    enqueued node must not be queued already, and a dequeue from the empty
    queue gives NULL. *)
Fixpoint queue_spec (U : list Z) (c : Z -> Z) (ops : list qop) (q : list Z) :
    option (list Z * list Z) :=
  match ops with
  | [] => Some ([], q)
  | Enq n :: ops' =>
      if bool_decide (n ∈ U) && negb (bool_decide (n ∈ q))
      then queue_spec U c ops' (q ++ [n]) else None
  | Deq :: ops' =>
      let (r, q') := match q with [] => (0, []) | n :: q' => (c n, q') end in
      match queue_spec U c ops' q' with
      | Some (rs, q'') => Some (r :: rs, q'')
      | None => None
      end
  end.

Lemma nodes_ok_sub l l' : NoDup l' -> (forall x, x ∈ l' -> x ∈ l) -> nodes_ok l -> nodes_ok l'.
Proof. intros Hd Hi (_ & Ha & Hs). split_and!; [done|auto|auto]. Qed.

Lemma nodes_fresh h U n q :
  nodes_ok (h :: U) -> n ∈ U -> n ∉ q -> (forall x, x ∈ q -> x ∈ U) -> fresh_node n (h :: q).
Proof.
  intros (Hd & Ha & Hs) Hn Hq Hi. split; [apply Ha; set_solver|].
  intros x Hx. apply Hs; [set_solver|set_solver|]. intros ->.
  apply NoDup_cons_1_1 in Hd. set_solver.
Qed.

(** What the induction below carries: containers are those of the start. *)
Lemma containers_kept h U s s' l :
  nodes_ok (h :: U) -> (forall x, x ∈ l -> x ∈ h :: U) -> mem_frame (links l) s s' ->
  forall x, x ∈ h :: U -> word s' (x + 8) = word s (x + 8).
Proof.
  intros Hok Hi [Hf _] x Hx. apply (container_frame s s' (h :: U)); [done..|].
  intros w Hw. apply Hf. intros (y & Hy & E). apply Hw. exists y. auto.
Qed.

Lemma run_queue_spec h U ops : forall q s rs q' (c : Z -> Z),
  nodes_ok (h :: U) -> (forall x, x ∈ q -> x ∈ U) -> dlist s h q -> word s (h + 8) = 0 ->
  (forall x, x ∈ U -> word s (x + 8) = c x) ->
  queue_spec U c ops q = Some (rs, q') ->
  exists s', run_queue h ops s = Ok rs s' /\ dlist s' h q'.
Proof.
  induction ops as [|[n|] ops IH]; intros q s rs q' c Hok Hi Hd H0 Hc Hq; simpl in Hq.
  - simplify_eq. by exists s.
  - case_bool_decide as HnU; [|done]. case_bool_decide as Hnq; [done|]. simpl in Hq.
    destruct (dlist_enqueue s h q n Hd) as (s1 & Hr & Hm & Hd1); [by eapply nodes_fresh|].
    pose proof (containers_kept h U s s1 (n :: h :: q) Hok ltac:(set_solver) Hm) as Hk.
    simpl. rewrite (bind_Ok _ _ _ _ _ Hr).
    apply (IH (q ++ [n]) s1 rs q' c); [done| |done|rewrite Hk; set_solver|intros; rewrite Hk; set_solver|done].
    intros x [?|?%list_elem_of_singleton]%elem_of_app; subst; auto.
  - assert (exists s1, list_dequeue h s = Ok (match q with [] => 0 | n :: _ => c n end) s1 /\
      mem_frame (links (h :: q)) s s1 /\ dlist s1 h (tail q)) as (s1 & Hr & Hm & Hd1).
    { destruct q as [|n q].
      - rewrite <- H0. by apply dlist_dequeue_nil.
      - destruct (dlist_dequeue s h n q Hd) as (s1 & Hr & Hm & Hd1 & _).
        exists s1. rewrite <- Hc by set_solver. auto. }
    pose proof (containers_kept h U s s1 (h :: q) Hok ltac:(set_solver) Hm) as Hk.
    assert (queue_spec U c ops (tail q) = Some (tail rs, q') /\
      rs = match q with [] => 0 | n :: _ => c n end :: tail rs) as [Hq1 Ers].
    { destruct q as [|n q]; simpl in *; destruct (queue_spec U c ops _) as [[]|]; by simplify_eq. }
    destruct (IH (tail q) s1 (tail rs) q' c) as (s' & Hr' & Hd');
      [done| |done|rewrite Hk; set_solver|intros; rewrite Hk; set_solver|done|].
    { intros x Hx. apply Hi. destruct q; set_solver. }
    exists s'. split; [|done]. rewrite Ers. simpl. rewrite (bind_Ok _ _ _ _ _ Hr).
    by rewrite (bind_Ok _ _ _ _ _ Hr').
Qed.

(** C32. A list is a first-in first-out queue: for every sequence of
    [list_enqueue] and [list_dequeue] in which no node is enqueued twice, the
    dequeues return the containers in the order of the enqueues, and NULL when
    nothing is queued; the list stays well linked. *)
Theorem list_queue_refines h U q s ops rs q' :
  nodes_ok (h :: U) -> (forall x, x ∈ q -> x ∈ U) -> dlist s h q -> word s (h + 8) = 0 ->
  queue_spec U (fun n => word s (n + 8)) ops q = Some (rs, q') ->
  exists s', run_queue h ops s = Ok rs s' /\ dlist s' h q'.
Proof.
  intros Hok Hi Hd H0 Hq.
  exact (run_queue_spec h U ops q s rs q' _ Hok Hi Hd H0 (fun x _ => eq_refl) Hq).
Qed.

(** A head and two nodes. *)
Definition dl0 : kstate :=
  run_state kstate0
    ((list_head_init 4096 ;; list_init 8192 7 ;; list_init 8208 9) kstate0).

Lemma list_queue_refines_witness :
  exists s', run_queue 4096 [Enq 8208; Enq 8192; Deq; Deq; Deq] dl0 = Ok [9; 7; 0] s' /\
    dlist s' 4096 [].
Proof.
  assert (nodes_ok [4096; 8192; 8208]) as Hok.
  { split_and!.
    - by apply (bool_decide_unpack _), I.
    - intros x Hx. unfold node_addr, PAGE_SIZE. set_unfold. lia.
    - intros x y Hx Hy. unfold apart. set_unfold. lia. }
  apply (list_queue_refines 4096 [8192; 8208] []); [done|set_solver| | |].
  - split; [|by vm_compute]. eapply nodes_ok_sub, Hok; [apply NoDup_singleton|set_solver].
  - by vm_compute.
  - by vm_compute.
Defined.
