(* ===== verification/Tcap.v ===== *)
(** * Temporal capabilities

    [kernel/include/tcap.h] and [kernel/tcap.c]: budgets of processor time
    with a list of (scheduler, priority) pairs, their transfer and delegation
    between schedulers, the comparison of priorities that decides on
    preemption, and the one-shot timer.  [tcap_activate] is with the other
    capability constructors.

    A temporal capability is the record [Machine.tcap] at its address, and its
    node of the active list is 280 bytes into it.  An index past the sixteen
    delegations stops with [OutOfBounds]. *)

From S2P Require Import Prelude Config Machine DList.

Definition TCAP_MAX_DELEGATIONS : Z := 16.
Definition TCAP_TIMER_DIFF : Z := 512.
Definition TCAP_GET_BUDGET : Z := 0.

(** ** Fields *)

Definition active_list (t : Z) : Z := t + 280.

Definition tc_set_arcv (v : Z) (t : tcap) : tcap :=
  Tcap v (tc_refcnt t) (cycles t) (ndelegs t) (curr_sched_off t) (tc_cpuid t) (perm_prio t)
    (delegations t).
Definition tc_set_refcnt (v : Z) (t : tcap) : tcap :=
  Tcap (arcv_ep t) v (cycles t) (ndelegs t) (curr_sched_off t) (tc_cpuid t) (perm_prio t)
    (delegations t).
Definition tc_set_cycles (v : Z) (t : tcap) : tcap :=
  Tcap (arcv_ep t) (tc_refcnt t) v (ndelegs t) (curr_sched_off t) (tc_cpuid t) (perm_prio t)
    (delegations t).
Definition tc_set_sched (n off pp : Z) (ds : list tcap_sched_info) (t : tcap) : tcap :=
  Tcap (arcv_ep t) (tc_refcnt t) (cycles t) n off (tc_cpuid t) pp ds.

Definition deleg (t : tcap) (i : Z) : K tcap_sched_info :=
  match delegations t !! Z.to_nat i with Some d => ret d | None => panic OutOfBounds end.

(** [t->delegations[i] = v] *)
Definition set_deleg (t i : Z) (v : tcap_sched_info) : K unit :=
  tc <- get_tcap t ;;
  _ <- deleg tc i ;;
  set_tcap t (tc_set_sched (ndelegs tc) (curr_sched_off tc) (perm_prio tc)
                (<[Z.to_nat i := v]> (delegations tc)) tc).

(** ** [tcap.h] *)

(** What [tcap_sched_info] points at. *)
Definition sched_info (t : Z) : K tcap_sched_info :=
  tc <- get_tcap t ;; deleg tc (curr_sched_off tc).

Definition tcap_ref_take (t : Z) : K unit :=
  tc <- get_tcap t ;; set_tcap t (tc_set_refcnt (u32 (tc_refcnt tc + 1)) tc).

Definition tcap_ref_release (t : Z) : K unit :=
  tc <- get_tcap t ;; set_tcap t (tc_set_refcnt (u32 (tc_refcnt tc - 1)) tc).

Definition tcap_ref (t : Z) : K Z := tc <- get_tcap t ;; ret (i32 (tc_refcnt tc)).

Definition tcap_rcvcap_thd (t : Z) : K Z := tc <- get_tcap t ;; ret (arcv_ep tc).

Definition tcap_is_active (t : Z) : K bool := b <- list_empty (active_list t) ;; ret (negb b).

Definition tcap_active_add_before (existing t : Z) : K unit :=
  list_add_before (active_list existing) (active_list t).

Definition tcap_active_add_after (existing t : Z) : K unit :=
  list_add_after (active_list existing) (active_list t).

Definition tcap_active_next : K Z := c <- get_cli ;; list_first (cli_tcaps c).

Definition tcap_active_rem (t : Z) : K unit := list_rem (active_list t).

Definition tcap_cycles_same (a b : Z) : K bool :=
  thresh <- gets kcyc_thresh ;; ret (cycles_same a b (u64 thresh)).

(** [amount] is a [tcap_res_t]: callers truncate to 32 bits. *)
Definition tcap_consume (t amount : Z) : K Z :=
  massert (negb (t =? 0)) ;;
  tc <- get_tcap t ;;
  if TCAP_RES_IS_INF (cycles tc) then ret 0 else
  same <- tcap_cycles_same amount (cycles tc) ;;
  (if (amount >=? cycles tc) || same then
     set_tcap t (tc_set_cycles 0 tc) ;;
     tcap_active_rem t ;;
     tc <- get_tcap t ;;
     set_tcap t (tc_set_sched 1 (curr_sched_off tc) (perm_prio tc) (delegations tc) tc) ;;
     tc <- get_tcap t ;;
     (if negb (curr_sched_off tc =? 0) then
        si <- sched_info t ;;
        set_deleg t 0 si ;;
        tc <- get_tcap t ;;
        set_tcap t (tc_set_sched (ndelegs tc) 0 (perm_prio tc) (delegations tc) tc)
      else ret tt)
   else set_tcap t (tc_set_cycles (u32 (cycles tc - amount)) tc)) ;;
  tc <- get_tcap t ;; ret (cycles tc).

Definition tcap_left (t : Z) : K Z := tc <- get_tcap t ;; ret (cycles tc).

Definition tcap_expended (t : Z) : K bool := c <- tcap_left t ;; ret (c =? 0).

Definition tcap_setprio (t p : Z) : K unit :=
  massert (negb (t =? 0)) ;;
  tc <- get_tcap t ;;
  si <- sched_info t ;;
  set_deleg t (curr_sched_off tc) (SInfo (tcap_uid si) p).

Definition tcap_current : K Z := c <- get_cli ;; ret (curr_tcap c).

Definition cli_set_tcap (t : Z) (c : cos_cpu_local_info) : cos_cpu_local_info :=
  Cli (cpuid c) (curr_thd c) t (cli_tcaps c) (cli_tcap_uid c) (cli_cycles c) (next_timer c)
    (cli_invstk_top c) (next_ti c).

(** A transient priority of the current temporal capability is removed. *)
Definition tcap_current_set (t : Z) : K unit :=
  curr <- tcap_current ;;
  tc <- get_tcap curr ;;
  si <- sched_info curr ;;
  (if negb (perm_prio tc =? prio si) then tcap_setprio curr (perm_prio tc) else ret tt) ;;
  c <- get_cli ;; set_cli (cli_set_tcap t c).

Definition cli_set_cycles (v : Z) (c : cos_cpu_local_info) : cos_cpu_local_info :=
  Cli (cpuid c) (curr_thd c) (curr_tcap c) (cli_tcaps c) (cli_tcap_uid c) v (next_timer c)
    (cli_invstk_top c) (next_ti c).
Definition cli_set_timer (v : Z) (c : cos_cpu_local_info) : cos_cpu_local_info :=
  Cli (cpuid c) (curr_thd c) (curr_tcap c) (cli_tcaps c) (cli_tcap_uid c) (cli_cycles c) v
    (cli_invstk_top c) (next_ti c).
Definition cli_set_uid (v : Z) (c : cos_cpu_local_info) : cos_cpu_local_info :=
  Cli (cpuid c) (curr_thd c) (curr_tcap c) (cli_tcaps c) v (cli_cycles c) (next_timer c)
    (cli_invstk_top c) (next_ti c).
Definition cli_set_next (v : next_thdinfo) (c : cos_cpu_local_info) : cos_cpu_local_info :=
  Cli (cpuid c) (curr_thd c) (curr_tcap c) (cli_tcaps c) (cli_tcap_uid c) (cli_cycles c)
    (next_timer c) (cli_invstk_top c) v.

(** [__thd_exec_add] (tcap.c): [exec] is 32 bits wide. *)
Definition __thd_exec_add (t cyc : Z) : K unit :=
  th <- get_thd t ;;
  set_thd t (Thd (tid th) (invstk_top th) (regs th) (invstk th) (state th) (tls th)
               (thd_cpuid th) (thd_refcnt th) (u32 (exec th + cyc)) (timeout th)
               (interrupted_thread th) (scheduler_thread th) (rcvcap th)).

(** Whether the current budget is expended, and [*now]. *)
Definition tcap_budgets_update (t next : Z) : K (bool * Z) :=
  curr <- tcap_current ;;
  cyc <- rdtscll ;;
  c <- get_cli ;;
  let expended := u64 (cyc - cli_cycles c) in
  set_cli (cli_set_cycles cyc c) ;;
  __thd_exec_add t expended ;;
  tcap_consume curr (u32 expended) ;;
  e <- tcap_expended curr ;; ret (e, cyc).

(** [chal_timer_set], [chal_timer_disable] (lapic.c): the one-shot timer. *)
Definition chal_timer (v : option Z) : K unit :=
  modify (fun s => with_hw (HwRegs (cr3 (khw s)) (tls_base (khw s)) v) s).

Definition tcap_timer_update (next timeout now : Z) : K unit :=
  left <- tcap_left next ;;
  if (timeout =? TCAP_TIME_NIL) && TCAP_RES_IS_INF left then
    c <- get_cli ;; set_cli (cli_set_timer 0 c) ;; chal_timer None
  else
    let timer := u64 (now + left) in
    let timeout_cyc := tcap_time2cyc timeout now in
    let timer :=
      if negb (timeout =? TCAP_TIME_NIL) && (timeout_cyc <? timer) then
        if tcap_time_lessthan timeout (tcap_cyc2time now) then now else timeout_cyc
      else timer in
    let timer := if cycles_same now timer TCAP_TIMER_DIFF then u64 (now + TCAP_TIMER_DIFF)
                 else timer in
    c <- get_cli ;;
    if cycles_same (next_timer c) timer TCAP_TIMER_DIFF && negb (next_timer c =? 0)
    then ret tt
    else massert (negb (timer =? 0)) ;;
         set_cli (cli_set_timer timer c) ;; chal_timer (Some timer).

(** The loop of [tcap_higher_prio], whose state is [i] and [j]; each round
    advances one of them, so [ndelegs a + ndelegs c] rounds suffice. *)
Fixpoint higher_loop (fuel : nat) (a c : tcap) (i j : Z) : K bool :=
  match fuel with
  | O => ret true
  | S fuel' =>
      if (i <? ndelegs a) && (j <? ndelegs c) then
        x <- deleg a i ;; y <- deleg c j ;;
        if tcap_uid x >? tcap_uid y then higher_loop fuel' a c i (j + 1)
        else if tcap_uid x <? tcap_uid y then higher_loop fuel' a c (i + 1) j
        else if prio x >? prio y then ret false
        else higher_loop fuel' a c (i + 1) (j + 1)
      else ret true
  end.

Definition tcap_higher_prio (a c : Z) : K bool :=
  e <- tcap_expended a ;;
  if e then ret false else
  if a =? c then ret true else
  ta <- get_tcap a ;; tc <- get_tcap c ;;
  higher_loop (Z.to_nat (ndelegs ta + ndelegs tc)) ta tc 0 0.

Definition tcap_introspect (t op : Z) : K (Z + Z) :=
  if op =? TCAP_GET_BUDGET then tc <- get_tcap t ;; ret (inr (cycles tc))
  else ret (inl (- EINVAL)).

(** ** [tcap.c] *)

(** [thd_next_thdinfo_update] (thd.h) *)
Definition thd_next_thdinfo_update (thd tc prio budget : Z) : K unit :=
  c <- get_cli ;; set_cli (cli_set_next (NextTi thd tc prio budget) c).

(** The uid that [tcap_uid_get] points at is incremented. *)
Definition tcap_uid_next : K Z :=
  c <- get_cli ;; set_cli (cli_set_uid (u64 (cli_tcap_uid c + 1)) c) ;; ret (cli_tcap_uid c).

Definition __tcap_init (t : Z) : K unit :=
  tc <- get_tcap t ;;
  cpu <- get_cpuid ;;
  set_tcap t (Tcap (arcv_ep tc) (tc_refcnt tc) 0 1 (curr_sched_off tc) (u16 cpu)
                (perm_prio tc) (delegations tc)) ;;
  uid <- tcap_uid_next ;;
  tc <- get_tcap t ;; d0 <- deleg tc 0 ;;
  set_deleg t 0 (SInfo uid (prio d0)) ;;
  tc <- get_tcap t ;;
  set_tcap t (Tcap 0 1 (cycles tc) (ndelegs tc) 0 (tc_cpuid tc) 0 (delegations tc)) ;;
  tcap_setprio t 0 ;;
  list_init (active_list t) t.

Definition tcap_isactive (t : Z) : K bool :=
  tc <- get_tcap t ;; ret (negb (arcv_ep tc =? 0)).

Definition tcap_delete (t : Z) : K Z :=
  massert (negb (t =? 0)) ;;
  r <- tcap_ref t ;;
  if negb (r =? 1) then ret (-1) else
  tc <- get_tcap t ;;
  set_tcap t (Tcap (arcv_ep tc) (tc_refcnt tc) 0 0 0 0 0 (replicate 16 (SInfo 0 0))) ;;
  c <- get_cli ;;
  (if nt_tc (next_ti c) =? t then thd_next_thdinfo_update 0 0 0 0 else ret tt) ;;
  ret 0.

(** The budgets of [d] and [s] change; [false] is the early return. *)
Definition budget_move (d s amount : Z) : K bool :=
  ts <- get_tcap s ;; td <- get_tcap d ;;
  let amount := if amount =? 0 then cycles ts else amount in
  if TCAP_RES_IS_INF amount then
    if negb (TCAP_RES_IS_INF (cycles ts)) then ret false
    else set_tcap d (tc_set_cycles TCAP_RES_INF td) ;; ret true
  else
    let amount := if amount >? cycles ts then cycles ts else amount in
    (if negb (TCAP_RES_IS_INF (cycles td)) then
       let bd_cycs := u32 (cycles td + amount) in
       if (bd_cycs <? cycles td) || TCAP_RES_IS_INF bd_cycs
       then set_tcap d (tc_set_cycles TCAP_RES_MAX td)
       else set_tcap d (tc_set_cycles bd_cycs td)
     else ret tt) ;;
    ts <- get_tcap s ;;
    (if negb (TCAP_RES_IS_INF (cycles ts))
     then set_tcap s (tc_set_cycles (u32 (cycles ts - amount)) ts) else ret tt) ;;
    ret true.

Definition __tcap_budget_xfer (d s amount : Z) : K Z :=
  massert (negb (s =? 0) && negb (d =? 0)) ;;
  act <- tcap_is_active s ;; massert act ;;
  ts <- get_tcap s ;; td <- get_tcap d ;; cpu <- get_cpuid ;;
  if negb (tc_cpuid ts =? cpu) || negb (tc_cpuid td =? tc_cpuid ts) then ret (-1) else
  ok <- budget_move d s amount ;;
  if negb ok then ret (-1) else
  dact <- tcap_is_active d ;;
  (if negb dact then tcap_active_add_before s d else ret tt) ;;
  e <- tcap_expended s ;;
  (if e then tcap_active_rem s else ret tt) ;;
  ret 0.

Definition tcap_promote (t thd : Z) : K unit :=
  act <- tcap_isactive t ;;
  if act then ret tt else tc <- get_tcap t ;; set_tcap t (tc_set_arcv thd tc).

(** Where the loop of [tcap_delegate] found an entry: in one of the two
    arrays, or in its local copy. *)
Inductive deleg_ref : Type :=
| InArray (t i : Z)
| InLocal (v : tcap_sched_info).

Definition ref_get (r : deleg_ref) : K tcap_sched_info :=
  match r with
  | InArray t i => tc <- get_tcap t ;; deleg tc i
  | InLocal v => ret v
  end.

(** [n->prio = p] *)
Definition ref_set_prio (r : deleg_ref) (p : Z) : K deleg_ref :=
  match r with
  | InArray t i =>
      tc <- get_tcap t ;; x <- deleg tc i ;; set_deleg t i (SInfo (tcap_uid x) p) ;; ret r
  | InLocal v => ret (InLocal (SInfo (tcap_uid v) p))
  end.

(** The entry merged next, with the new [i] and [j]. *)
Definition deleg_pick (dst src i j : Z) : K (deleg_ref * Z * Z) :=
  td <- get_tcap dst ;; ts <- get_tcap src ;;
  if i =? ndelegs td then ret (InArray src j, i, j + 1)
  else if j =? ndelegs ts then ret (InArray dst i, i + 1, j)
  else
    x <- deleg td i ;; y <- deleg ts j ;;
    if tcap_uid x <? tcap_uid y then ret (InArray dst i, i + 1, j)
    else if tcap_uid x >? tcap_uid y then ret (InArray src j, i, j + 1)
    else
      massert (tcap_uid x =? tcap_uid y) ;;
      let p := if prio x >? prio y then prio x else prio y in
      ret (InLocal (SInfo (tcap_uid y) p), i + 1, j + 1).

(** The merge loop, with [deleg_tmp] and [si]; [None] is the return of
    [-ENOMEM].  A round that starts with sixteen entries returns, so
    seventeen rounds suffice. *)
Fixpoint delegate_loop (fuel : nat) (dst src d s p i j : Z)
    (tmp : list tcap_sched_info) (si : Z) : K (option (list tcap_sched_info * Z)) :=
  match fuel with
  | O => ret None
  | S fuel' =>
      td <- get_tcap dst ;; ts <- get_tcap src ;;
      if (i <? ndelegs td) || (j <? ndelegs ts) then
        let! (n, i', j') := deleg_pick dst src i j in
        v <- ref_get n ;;
        n <- (if tcap_uid v =? s then ref_set_prio n p else ret n) ;;
        if Z.of_nat (length tmp) =? TCAP_MAX_DELEGATIONS then ret None else
        v <- ref_get n ;;
        delegate_loop fuel' dst src d s p i' j' (tmp ++ [v])
          (if d =? tcap_uid v then Z.of_nat (length tmp) else si)
      else ret (Some (tmp, si))
  end.

(** The assertion on the page of the kernel stack that holds [deleg_tmp] is
    left out. *)
Definition tcap_delegate (dst src amount p : Z) : K Z :=
  massert (negb (dst =? 0) && negb (src =? 0)) ;;
  act <- tcap_isactive dst ;; massert act ;;
  td <- get_tcap dst ;;
  if ndelegs td >? TCAP_MAX_DELEGATIONS then ret (- ENOMEM) else
  ts <- get_tcap src ;; cpu <- get_cpuid ;;
  if negb (tc_cpuid ts =? cpu) || negb (tc_cpuid td =? tc_cpuid ts) then ret (- EINVAL) else
  sact <- tcap_is_active src ;;
  if negb sact then ret (- EPERM) else
  di <- sched_info dst ;; sinfo <- sched_info src ;;
  let d := tcap_uid di in
  let s := tcap_uid sinfo in
  if dst =? src then
    set_deleg dst (curr_sched_off td) (SInfo d p) ;;
    td <- get_tcap dst ;;
    set_tcap dst (tc_set_sched (ndelegs td) (curr_sched_off td) p (delegations td) td) ;;
    ret 0
  else
  let p := if p =? 0 then prio sinfo else p in
  r <- delegate_loop 17 dst src d s p 0 0 [] (-1) ;;
  match r with
  | None => ret (- ENOMEM)
  | Some (tmp, si) =>
      x <- __tcap_budget_xfer dst src amount ;;
      if negb (x =? 0) then ret (- EINVAL) else
      td <- get_tcap dst ;;
      let n := Z.of_nat (length tmp) in
      let ds := tmp ++ drop (length tmp) (delegations td) in
      massert (n >=? 2) ;; massert (negb (si =? -1)) ;;
      set_tcap dst (tc_set_sched n si p ds td) ;;
      tcap_setprio dst p ;;
      ret 0
  end.

Definition tcap_merge (dst rm : Z) : K Z :=
  if dst =? rm then ret (-1) else
  r <- tcap_ref rm ;;
  if r >? 1 then ret (-1) else
  di <- sched_info dst ;;
  x <- tcap_delegate dst rm 0 (prio di) ;;
  if negb (x =? 0) then ret (-1) else
  y <- tcap_delete rm ;;
  massert (y =? 0) ;; ret 0.

Definition tcap_wakeup (tc p budget thd : Z) : K Z :=
  si <- sched_info tc ;;
  c <- get_cli ;;
  let nti := next_ti c in
  let fixup := thd_next_thdinfo_update thd tc p budget ;; ret 0 in
  if nt_tc nti =? 0 then massert (nt_thd nti =? 0) ;; fixup
  else if (tc =? nt_tc nti) && (p >=? nt_prio nti) then fixup
  else
    tcap_setprio tc p ;;
    h <- tcap_higher_prio tc (nt_tc nti) ;;
    tcap_setprio tc (prio si) ;;
    if negb h then ret 0 else fixup.

Definition tcap_active_init : K unit := c <- get_cli ;; list_head_init (cli_tcaps c).
