(* ===== verification/TcapSpec.v ===== *)
(** * Temporal capabilities: correctness

    Theorems about [Tcap.v]: the comparison of priorities, the transfer and
    the consumption of budgets with the active list of the core, the merge of
    delegations, and the bounds of the one-shot timer. *)

From S2P Require Import Prelude Config Machine DList Tcap.
From Stdlib Require Import Sorting.Sorted.

(** ** Well-formed temporal capabilities *)

(** The delegations in use, in the order of the schedulers' identifiers. *)
Definition delegs (t : tcap) : list tcap_sched_info := take (Z.to_nat (ndelegs t)) (delegations t).

Definition uid_lt (x y : tcap_sched_info) : Prop := tcap_uid x < tcap_uid y.

Record tcap_ok (t : tcap) : Prop := {
  ok_array : length (delegations t) = 16%nat;
  ok_ndelegs : 1 <= ndelegs t <= 16;
  ok_off : 0 <= curr_sched_off t < ndelegs t;
  ok_sorted : StronglySorted uid_lt (delegs t);
  ok_cycles : 0 <= cycles t < 4294967296 }.

(** No scheduler that both have gives [c] a better priority than [a]. *)
Definition not_lower (a c : list tcap_sched_info) : Prop :=
  forall x y, x ∈ a -> y ∈ c -> tcap_uid x = tcap_uid y -> prio x <= prio y.

#[export] Instance sched_info_eq_dec : EqDecision tcap_sched_info.
Proof. solve_decision. Defined.

(** ** Lemmas: reading and writing records *)

Lemma get_tcap_Ok t s : PAGE_SIZE <= t -> get_tcap t s = Ok (tcap_at s t) s.
Proof. intros. unfold get_tcap, mapped. by rewrite (proj2 (Z.leb_le _ _)). Qed.

Lemma set_tcap_Ok t v s : PAGE_SIZE <= t -> set_tcap t v s = Ok tt (tcap_put t v s).
Proof. intros. unfold set_tcap, mapped. by rewrite (proj2 (Z.leb_le _ _)). Qed.

Lemma tcap_at_put_eq t v s : tcap_at (tcap_put t v s) t = v.
Proof. unfold tcap_at, tcap_put. simpl. by rewrite lookup_insert_eq. Qed.

Lemma tcap_at_put_ne t u v s : t <> u -> tcap_at (tcap_put t v s) u = tcap_at s u.
Proof. intros. unfold tcap_at, tcap_put. simpl. by rewrite lookup_insert_ne. Qed.

Lemma tcap_put_twice t v w s : tcap_put t v (tcap_put t w s) = tcap_put t v s.
Proof. unfold tcap_put, with_tcap. simpl. by rewrite insert_insert_eq. Qed.

Lemma deleg_Ok t i s x :
  delegations t !! Z.to_nat i = Some x -> deleg t i s = Ok x s.
Proof. unfold deleg. by intros ->. Qed.

Lemma delegs_lookup t i x :
  delegs t !! i = Some x <-> (Z.of_nat i < ndelegs t /\ delegations t !! i = Some x).
Proof.
  unfold delegs. rewrite lookup_take_Some. split; intros [H1 H2]; split; auto; lia.
Qed.

Lemma delegs_length t : tcap_ok t -> Z.of_nat (length (delegs t)) = ndelegs t.
Proof. intros [H1 H2 _ _ _]. unfold delegs. rewrite length_take, H1. lia. Qed.

(** ** Lemmas: priorities *)

Lemma sorted_cons_lt x l y : StronglySorted uid_lt (x :: l) -> y ∈ l -> tcap_uid x < tcap_uid y.
Proof.
  inversion 1 as [|? ? _ Hf]; subst. rewrite Forall_forall in Hf. intros Hy. by apply Hf.
Qed.

Lemma sorted_drop n l : StronglySorted uid_lt l -> StronglySorted uid_lt (drop n l).
Proof.
  revert n. induction l as [|x l IH]; intros [|n] H; simpl; try done.
  inversion H; subst. by apply IH.
Qed.

Lemma sorted_uid_inj l x y :
  StronglySorted uid_lt l -> x ∈ l -> y ∈ l -> tcap_uid x = tcap_uid y -> x = y.
Proof.
  induction 1 as [|z l Hs IH Hf]; [set_solver|]. rewrite Forall_forall in Hf. unfold uid_lt in Hf.
  intros [->|Hx]%elem_of_cons [->|Hy]%elem_of_cons E; [done| | |auto].
  - specialize (Hf _ Hy). lia.
  - specialize (Hf _ Hx). lia.
Qed.

Lemma not_lower_skip_r a y c :
  (forall x, x ∈ a -> tcap_uid x <> tcap_uid y) -> not_lower a c <-> not_lower a (y :: c).
Proof.
  intros H. split; intros Hn x z Hx Hz E.
  - apply elem_of_cons in Hz as [->|Hz]; [by destruct (H x Hx)|by apply Hn].
  - apply Hn; set_solver.
Qed.

Lemma not_lower_skip_l x a c :
  (forall y, y ∈ c -> tcap_uid y <> tcap_uid x) -> not_lower a c <-> not_lower (x :: a) c.
Proof.
  intros H. split; intros Hn z y Hz Hy E.
  - apply elem_of_cons in Hz as [->|Hz]; [by destruct (H y Hy)|by apply Hn].
  - apply Hn; set_solver.
Qed.

Lemma not_lower_both x a y c :
  tcap_uid x = tcap_uid y -> prio x <= prio y ->
  (forall z, z ∈ a -> tcap_uid z <> tcap_uid x) -> (forall z, z ∈ c -> tcap_uid z <> tcap_uid y) ->
  not_lower a c <-> not_lower (x :: a) (y :: c).
Proof.
  intros E Hp Ha Hc. split; intros Hn z w Hz Hw E'.
  - apply elem_of_cons in Hz as [->|Hz], Hw as [->|Hw]; [done| | |by apply Hn].
    + destruct (Hc w Hw). congruence.
    + destruct (Ha z Hz). congruence.
  - apply Hn; set_solver.
Qed.

Lemma higher_loop_spec fuel a c (i j : nat) s :
  StronglySorted uid_lt (delegs a) -> StronglySorted uid_lt (delegs c) ->
  Z.of_nat (length (delegs a)) = ndelegs a -> Z.of_nat (length (delegs c)) = ndelegs c ->
  (length (delegs a) - i + (length (delegs c) - j) <= fuel)%nat ->
  exists b, higher_loop fuel a c (Z.of_nat i) (Z.of_nat j) s = Ok b s /\
    (b = true <-> not_lower (drop i (delegs a)) (drop j (delegs c))).
Proof.
  intros Sa Sc La Lc. revert i j. induction fuel as [|fuel IH]; intros i j Hf.
  { exists true. split; [done|]. split; [|done]. intros _ x y.
    rewrite drop_ge by lia. set_solver. }
  simpl. destruct (Z.ltb_spec (Z.of_nat i) (ndelegs a)) as [Hi|Hi];
    [destruct (Z.ltb_spec (Z.of_nat j) (ndelegs c)) as [Hj|Hj]|]; cycle 1.
  { exists true. split; [done|]. split; [|done]. intros _ x y _.
    rewrite (drop_ge (delegs c)) by lia. set_solver. }
  { exists true. split; [done|]. split; [|done]. intros _ x y.
    rewrite drop_ge by lia. set_solver. }
  destruct (lookup_lt_is_Some_2 (delegs a) i ltac:(lia)) as [x Hx].
  destruct (lookup_lt_is_Some_2 (delegs c) j ltac:(lia)) as [y Hy].
  pose proof (drop_S _ _ _ Hx) as Da. pose proof (drop_S _ _ _ Hy) as Dc.
  pose proof (sorted_drop i _ Sa) as Ssa. pose proof (sorted_drop j _ Sc) as Ssc.
  rewrite Da in Ssa |- *. rewrite Dc in Ssc |- *.
  apply delegs_lookup in Hx as [_ Hx], Hy as [_ Hy].
  cbn [andb]. rewrite (bind_Ok _ _ _ _ _ (deleg_Ok a (Z.of_nat i) s x ltac:(by rewrite Nat2Z.id))).
  rewrite (bind_Ok _ _ _ _ _ (deleg_Ok c (Z.of_nat j) s y ltac:(by rewrite Nat2Z.id))).
  replace (Z.of_nat i + 1) with (Z.of_nat (S i)) by lia.
  replace (Z.of_nat j + 1) with (Z.of_nat (S j)) by lia.
  destruct (tcap_uid x >? tcap_uid y) eqn:E1; [|destruct (Z.ltb_spec (tcap_uid x) (tcap_uid y))].
  - destruct (IH i (S j) ltac:(lia)) as (b & -> & Hb). exists b. split; [done|].
    rewrite Hb, Da. apply not_lower_skip_r. intros z Hz.
    apply elem_of_cons in Hz as [->|Hz]; [lia|]. pose proof (sorted_cons_lt _ _ _ Ssa Hz). lia.
  - destruct (IH (S i) j ltac:(lia)) as (b & -> & Hb). exists b. split; [done|].
    rewrite Hb, Dc. apply not_lower_skip_l. intros z Hz.
    apply elem_of_cons in Hz as [->|Hz]; [lia|]. pose proof (sorted_cons_lt _ _ _ Ssc Hz). lia.
  - assert (E : tcap_uid x = tcap_uid y) by lia. destruct (prio x >? prio y) eqn:E2.
    + exists false. split; [done|]. split; [done|]. intros Hn.
      specialize (Hn x y ltac:(set_solver) ltac:(set_solver) E). lia.
    + destruct (IH (S i) (S j) ltac:(lia)) as (b & -> & Hb). exists b. split; [done|].
      rewrite Hb. apply not_lower_both; [done|lia| |].
      * intros z Hz. pose proof (sorted_cons_lt _ _ _ Ssa Hz). lia.
      * intros z Hz. pose proof (sorted_cons_lt _ _ _ Ssc Hz). lia.
Qed.

(** ** The active list of a core *)

(** [ts] are the temporal capabilities in the active list headed by [h], of
    those in [T]; the nodes of the others point at themselves. *)
Record alist (s : kstate) (h : Z) (T ts : list Z) : Prop := {
  al_nodes : nodes_ok (h :: map active_list T);
  al_list : dlist s h (map active_list ts);
  al_sub : forall t, t ∈ ts -> t ∈ T;
  al_idle : forall t, t ∈ T -> t ∉ ts -> dlist s (active_list t) [] }.

(** The invariant: exactly those with budget left are active. *)
Record active_inv (s : kstate) (T ts : list Z) : Prop := {
  ai_list : alist s (cli_tcaps (kcli s)) T ts;
  ai_addr : forall t, t ∈ T -> PAGE_SIZE <= t;
  ai_ok : forall t, t ∈ T -> tcap_ok (tcap_at s t);
  ai_budget : forall t, t ∈ T -> (t ∈ ts <-> cycles (tcap_at s t) <> 0) }.

Lemma elem_of_active t T : active_list t ∈ map active_list T <-> t ∈ T.
Proof.
  rewrite list_elem_of_fmap. split; [|eauto]. intros (u & E & Hu).
  unfold active_list in E. by replace t with u by lia.
Qed.

Lemma alist_word s h T ts t :
  alist s h T ts -> t ∈ T -> (word s (active_list t) = active_list t <-> t ∉ ts).
Proof.
  intros [Hn Hl Hs Hi] Ht. split.
  - intros E Hin. apply (dlist_empty_iff _ _ _ _ Hl) in E.
    + destruct ts; [set_solver|done].
    + apply elem_of_cons. right. by apply elem_of_active.
  - intros Hin. specialize (Hi t Ht Hin). by apply (dlist_empty_iff _ _ _ _ Hi); [set_solver|].
Qed.

Lemma alist_addr s h T ts t : alist s h T ts -> t ∈ T -> PAGE_SIZE <= active_list t.
Proof.
  intros [(_ & Ha & _) _ _ _] Ht. apply Ha. apply elem_of_cons. right. by apply elem_of_active.
Qed.

Lemma tcap_is_active_Ok s h T ts t :
  alist s h T ts -> t ∈ T -> tcap_is_active t s = Ok (bool_decide (t ∈ ts)) s.
Proof.
  intros Ha Ht. pose proof (alist_addr _ _ _ _ _ Ha Ht) as Hm.
  pose proof (alist_word _ _ _ _ _ Ha Ht) as Hw.
  unfold tcap_is_active, list_empty. rewrite bind_assoc. kstep. unfold ret, bind. f_equal.
  case_bool_decide as Hin; destruct (Z.eqb_spec (word s (active_list t)) (active_list t)) as [E|E];
    simpl; [by apply Hw in E|done|done|by destruct E; apply Hw].
Qed.

(** The list depends on memory only. *)
Lemma alist_mem s s' h T ts : kmem s' = kmem s -> alist s h T ts -> alist s' h T ts.
Proof.
  intros E [Hn Hl Hs Hi].
  assert (W : forall w, ~ False -> word s' w = word s w) by (intros w _; unfold word; by rewrite E).
  split; [done| |done|].
  - apply (dlist_frame s s' _ _ (fun _ => False) Hl W). auto.
  - intros t Ht Ht2. apply (dlist_frame s s' _ _ (fun _ => False) (Hi t Ht Ht2) W). auto.
Qed.

Lemma alist_NoDup s h T ts : alist s h T ts -> NoDup ts.
Proof.
  intros [_ [(Hd & _) _] _ _]. apply NoDup_cons_1_2 in Hd. by apply NoDup_fmap_1 in Hd.
Qed.

(** Idle nodes other than those involved keep pointing at themselves. *)
Lemma idle_frame s s' h T l t :
  nodes_ok (h :: map active_list T) -> t ∈ T ->
  (forall x, x ∈ l -> x ∈ h :: map active_list T) -> active_list t ∉ l ->
  mem_frame (links l) s s' -> dlist s (active_list t) [] -> dlist s' (active_list t) [].
Proof.
  intros (_ & _ & Hs) Ht Hl Hnot [Hf _] Hd. apply (dlist_frame s s' _ _ _ Hd Hf).
  intros w. apply links_disjoint. intros x y Hx Hy.
  apply list_elem_of_singleton in Hx as ->. apply Hs; [|by apply Hl|congruence].
  apply elem_of_cons. right. by apply elem_of_active.
Qed.

Lemma alist_add_before s h T ts x d :
  alist s h T ts -> x ∈ ts -> d ∈ T -> d ∉ ts ->
  exists s' ts', tcap_active_add_before x d s = Ok tt s' /\ s' = with_mem (kmem s') s /\
    alist s' h T ts' /\ ts' ≡ₚ d :: ts.
Proof.
  intros Ha Hx Hd Hd2. destruct Ha as [Hn Hl Hs Hi].
  apply list_elem_of_split in Hx as (xs & ys & ->). rewrite map_app in Hl. simpl in Hl.
  destruct (dlist_add_before s h _ (map active_list xs) (active_list x) (map active_list ys)
    (active_list d) Hl eq_refl) as (s' & Hr & Hm & Hd').
  { apply (nodes_fresh h (map active_list T)); [done|by apply elem_of_active| |].
    - intros Hin. apply Hd2. apply elem_of_active. by rewrite map_app.
    - intros y Hy. change (active_list x :: map active_list ys) with
        (map active_list (x :: ys)) in Hy. rewrite <- map_app in Hy.
      apply list_elem_of_fmap in Hy as (u & -> & Hu). apply elem_of_active. auto. }
  exists s', (xs ++ d :: x :: ys). split_and!; [done|apply Hm| |by rewrite Permutation_middle].
  split; [done|by rewrite map_app|set_solver|].
  intros t Ht Ht2. eapply (idle_frame s s' h T _ t); [done|done| | |exact Hm|apply Hi; set_solver].
  - intros y. rewrite !elem_of_cons, elem_of_app, elem_of_cons.
    assert (G : forall l, (forall u, u ∈ l -> u ∈ T) -> y ∈ map active_list l -> y ∈ map active_list T).
    { intros l Hl2 (u & -> & Hu)%list_elem_of_fmap. apply elem_of_active. auto. }
    intros [->|[->|[Hy|[->|Hy]]]]; [right; by apply elem_of_active|by left| | |].
    + right. eapply G, Hy. set_solver.
    + right. apply elem_of_active. set_solver.
    + right. eapply G, Hy. set_solver.
  - change (active_list x :: map active_list ys) with (map active_list (x :: ys)).
    rewrite <- map_app, !elem_of_cons, elem_of_active. intros [E|[E|E]].
    + unfold active_list in E. apply Ht2. replace t with d by lia. set_solver.
    + destruct Hn as (Hn & _). apply NoDup_cons_1_1 in Hn. apply Hn.
      rewrite <- E. by apply elem_of_active.
    + apply Ht2. set_solver.
Qed.

Lemma alist_rem s h T ts t :
  alist s h T ts -> t ∈ ts ->
  exists s' ts', tcap_active_rem t s = Ok tt s' /\ s' = with_mem (kmem s') s /\
    alist s' h T ts' /\ ts ≡ₚ t :: ts'.
Proof.
  intros [Hn Hl Hs Hi] Ht.
  destruct (dlist_rem s h _ (active_list t) Hl) as (s' & xs & ys & Hr & Hm & E & Hd1 & Hd2);
    [by apply elem_of_active|].
  apply fmap_app_inv in E as (us & vs' & -> & E & ->).
  destruct vs' as [|v vs]; [done|]. simpl in E. injection E as E ->.
  replace v with t in * by (unfold active_list in E; lia).
  exists s', (us ++ vs). split_and!; [done|apply Hm| |by rewrite <- Permutation_middle].
  split; [done|by rewrite map_app|set_solver|].
  intros u Hu Hu2. destruct (decide (u = t)) as [->|Hne]; [done|].
  eapply (idle_frame s s' h T _ u); [done|done| | |exact Hm|apply Hi; set_solver].
  - intros y [->|(z & -> & Hz)%list_elem_of_fmap]%elem_of_cons; [by left|].
    right. apply elem_of_active. auto.
  - rewrite elem_of_cons, elem_of_active. intros [E2|E2]; [|set_solver].
    destruct Hn as (Hn & _). apply NoDup_cons_1_1 in Hn. apply Hn.
    rewrite <- E2. by apply elem_of_active.
Qed.

(** ** Lemmas: budgets *)

(** The budgets of destination and source after a transfer of [amount]
    cycles: all when it is 0, at most what the source has, saturating. *)
Definition xfer_spec (bd bs amount : Z) : option (Z * Z) :=
  let n := if amount =? 0 then bs else amount in
  if n =? TCAP_RES_INF then
    if bs =? TCAP_RES_INF then Some (TCAP_RES_INF, TCAP_RES_INF) else None
  else
    let n := Z.min n bs in
    Some (if bd =? TCAP_RES_INF then bd else Z.min (bd + n) TCAP_RES_MAX,
          if bs =? TCAP_RES_INF then bs else bs - n).

(** Only the budgets of [d] and [s] changed. *)
Definition moved (d s bd bs : Z) (s0 s1 : kstate) : Prop :=
  s1 = with_tcap (ktcap s1) s0 /\
  tcap_at s1 d = tc_set_cycles bd (tcap_at s0 d) /\
  tcap_at s1 s = tc_set_cycles bs (tcap_at s0 s) /\
  (forall t, t <> d -> t <> s -> tcap_at s1 t = tcap_at s0 t).

Lemma tc_set_cycles_id t : tc_set_cycles (cycles t) t = t.
Proof. by destruct t. Qed.

Lemma with_tcap_id s : with_tcap (ktcap s) s = s.
Proof. by destruct s. Qed.

Definition put_if (c : bool) (t : Z) (v : tcap) (s : kstate) : kstate :=
  if c then tcap_put t v s else s.

Lemma set_tcap_if {A} (c : bool) t v (k : K A) s :
  PAGE_SIZE <= t -> ((if c then set_tcap t v else ret tt) ;; k) s = k (put_if c t v s).
Proof.
  intros Ht. destruct c; [|done]. by rewrite (bind_Ok _ _ _ _ _ (set_tcap_Ok t v s Ht)).
Qed.

(** A budget that is written unless it is infinite. *)
Lemma put_if_budget t (n : Z) s :
  tcap_at (put_if (negb (cycles (tcap_at s t) =? TCAP_RES_INF)) t
             (tc_set_cycles n (tcap_at s t)) s) t =
  tc_set_cycles (if cycles (tcap_at s t) =? TCAP_RES_INF then cycles (tcap_at s t) else n)
    (tcap_at s t).
Proof.
  unfold put_if. destruct (cycles (tcap_at s t) =? TCAP_RES_INF); simpl.
  - by rewrite tc_set_cycles_id.
  - apply tcap_at_put_eq.
Qed.

Lemma put_if_ne c t v s u : t <> u -> tcap_at (put_if c t v s) u = tcap_at s u.
Proof. intros. destruct c; [by apply tcap_at_put_ne|done]. Qed.

Lemma put_if_tcap c t v s : put_if c t v s = with_tcap (ktcap (put_if c t v s)) s.
Proof. destruct c; [done|]. simpl. by rewrite with_tcap_id. Qed.

Lemma sat_add bd n :
  0 <= bd < TCAP_RES_INF -> 0 <= n < TCAP_RES_INF ->
  (if (u32 (bd + n) <? bd) || TCAP_RES_IS_INF (u32 (bd + n)) then TCAP_RES_MAX else u32 (bd + n)) =
  Z.min (bd + n) TCAP_RES_MAX.
Proof.
  unfold TCAP_RES_IS_INF, TCAP_RES_MAX, TCAP_RES_INF, u32. intros Hb Hn.
  destruct (decide (bd + n < 4294967296)).
  - rewrite Z.mod_small by lia. destruct (Z.ltb_spec (bd + n) bd); [lia|].
    simpl. destruct (Z.eqb_spec (bd + n) 4294967295); lia.
  - assert ((bd + n) mod 4294967296 = bd + n - 4294967296) as -> by (Z.div_mod_to_equations; lia).
    destruct (Z.ltb_spec (bd + n - 4294967296) bd); simpl; lia.
Qed.

Lemma budget_move_Ok d s amount s0 :
  PAGE_SIZE <= d -> PAGE_SIZE <= s -> d <> s -> 0 <= amount < 4294967296 ->
  let td := tcap_at s0 d in let ts := tcap_at s0 s in
  0 <= cycles td < 4294967296 -> 0 <= cycles ts < 4294967296 ->
  match xfer_spec (cycles td) (cycles ts) amount with
  | None => budget_move d s amount s0 = Ok false s0
  | Some (bd, bs) => exists s1, budget_move d s amount s0 = Ok true s1 /\
      moved d s bd bs s0 s1
  end.
Proof.
  intros Hd Hs Hne Ha td ts Htd Hts. unfold budget_move, xfer_spec.
  rewrite (bind_Ok _ _ _ _ _ (get_tcap_Ok s s0 Hs)).
  rewrite (bind_Ok _ _ _ _ _ (get_tcap_Ok d s0 Hd)). fold td ts. cbv zeta.
  set (n := if amount =? 0 then cycles ts else amount).
  assert (Hn : 0 <= n < 4294967296) by (unfold n; destruct (amount =? 0); lia).
  unfold TCAP_RES_IS_INF. destruct (Z.eqb_spec n TCAP_RES_INF) as [En|En].
  - destruct (Z.eqb_spec (cycles ts) TCAP_RES_INF) as [Es|Es]; [|done]. simpl.
    rewrite (bind_Ok _ _ _ _ _ (set_tcap_Ok d _ s0 Hd)). eexists. split; [reflexivity|].
    split_and!; [done|apply tcap_at_put_eq| |intros; by apply tcap_at_put_ne].
    rewrite tcap_at_put_ne by done. fold ts. by rewrite <- Es, tc_set_cycles_id.
  - assert (Hm : (if n >? cycles ts then cycles ts else n) = Z.min n (cycles ts))
      by (destruct (n >? cycles ts) eqn:E; lia). rewrite Hm. set (m := Z.min n (cycles ts)) in *.
    set (bd := if cycles td =? TCAP_RES_INF then cycles td else Z.min (cycles td + m) TCAP_RES_MAX).
    assert (Hw : forall k : K bool,
      ((if negb (cycles td =? TCAP_RES_INF) then
          if (u32 (cycles td + m) <? cycles td) || (u32 (cycles td + m) =? TCAP_RES_INF)
          then set_tcap d (tc_set_cycles TCAP_RES_MAX td)
          else set_tcap d (tc_set_cycles (u32 (cycles td + m)) td) else ret tt) ;; k) s0 =
      k (put_if (negb (cycles td =? TCAP_RES_INF)) d
           (tc_set_cycles (Z.min (cycles td + m) TCAP_RES_MAX) td) s0)).
    { intros k. rewrite <- (set_tcap_if _ d _ k s0 Hd).
      destruct (Z.eqb_spec (cycles td) TCAP_RES_INF) as [|E]; [done|]. simpl. do 2 f_equal.
      rewrite <- sat_add by (unfold TCAP_RES_INF in *; lia). unfold TCAP_RES_IS_INF. by destruct (_ || _). }
    rewrite Hw. set (s1 := put_if _ d _ s0).
    assert (Es : tcap_at s1 s = ts) by (unfold s1; by rewrite put_if_ne).
    rewrite (bind_Ok _ _ _ _ _ (get_tcap_Ok s s1 Hs)), Es, set_tcap_if by done.
    eexists. split; [reflexivity|]. rewrite <- Es. split_and!.
    + rewrite put_if_tcap. unfold s1. by rewrite (put_if_tcap _ d).
    + rewrite put_if_ne by done. apply put_if_budget.
    + rewrite put_if_budget, Es. f_equal. unfold u32. destruct (cycles ts =? TCAP_RES_INF); [done|].
      apply Z.mod_small. lia.
    + intros t Ht1 Ht2. rewrite put_if_ne by done. by apply put_if_ne.
Qed.

Lemma tcap_expended_Ok t s :
  PAGE_SIZE <= t -> tcap_expended t s = Ok (cycles (tcap_at s t) =? 0) s.
Proof.
  intros Ht. unfold tcap_expended, tcap_left. rewrite bind_assoc.
  by rewrite (bind_Ok _ _ _ _ _ (get_tcap_Ok t s Ht)).
Qed.

(** After a transfer the destination has budget. *)
Lemma xfer_spec_facts bd bs amount bd' bs' :
  0 <= bd < 4294967296 -> 0 < bs < 4294967296 -> 0 <= amount < 4294967296 ->
  xfer_spec bd bs amount = Some (bd', bs') ->
  0 < bd' < 4294967296 /\ 0 <= bs' < 4294967296.
Proof.
  intros Hd Hs Ha. unfold xfer_spec, TCAP_RES_MAX, TCAP_RES_INF. cbv zeta.
  destruct (Z.eqb_spec amount 0), (Z.eqb_spec bs 4294967295), (Z.eqb_spec bd 4294967295),
    (Z.eqb_spec amount 4294967295); intros [= <- <-]; lia || (repeat case_match; simplify_eq; lia).
Qed.

(** What the end of [__tcap_budget_xfer] does to the active list: [d] is
    added before [s], and [s] is removed when nothing is left. *)
Definition xfer_tail (d s : Z) : K Z :=
  dact <- tcap_is_active d ;;
  (if negb dact then tcap_active_add_before s d else ret tt) ;;
  e <- tcap_expended s ;;
  (if e then tcap_active_rem s else ret tt) ;;
  ret 0.

Lemma xfer_tail_Ok d s h T ts s1 :
  alist s1 h T ts -> d ∈ T -> s ∈ ts -> d <> s -> PAGE_SIZE <= s ->
  exists s' ts', xfer_tail d s s1 = Ok 0 s' /\ s' = with_mem (kmem s') s1 /\
    alist s' h T ts' /\ (forall t, t ∈ ts' <-> t = d \/ t ∈ ts /\ (t <> s \/ cycles (tcap_at s1 s) <> 0)).
Proof.
  intros Ha Hd Hs Hne Hm. unfold xfer_tail.
  rewrite (bind_Ok _ _ _ _ _ (tcap_is_active_Ok _ _ _ _ _ Ha Hd)).
  assert (exists s2 ts2, (if negb (bool_decide (d ∈ ts)) then tcap_active_add_before s d else ret tt) s1
    = Ok tt s2 /\ s2 = with_mem (kmem s2) s1 /\ alist s2 h T ts2 /\
    (forall t, t ∈ ts2 <-> t = d \/ t ∈ ts)) as (s2 & ts2 & Hr2 & E2 & Ha2 & Hin2).
  { case_bool_decide as Hin; simpl.
    - exists s1, ts. rewrite with_mem_id. split_and!; [done..|naive_solver].
    - destruct (alist_add_before _ _ _ _ _ _ Ha Hs Hd Hin) as (s2 & ts2 & ? & ? & ? & Hp).
      exists s2, ts2. split_and!; [done..|]. intros t. rewrite Hp. set_solver. }
  rewrite (bind_Ok _ _ _ _ _ Hr2), (bind_Ok _ _ _ _ _ (tcap_expended_Ok s s2 Hm)).
  assert (Ec : tcap_at s2 s = tcap_at s1 s) by (by rewrite E2). rewrite Ec.
  destruct (Z.eqb_spec (cycles (tcap_at s1 s)) 0) as [E0|E0].
  - destruct (alist_rem _ _ _ _ s Ha2) as (s3 & ts3 & Hr3 & E3 & Ha3 & Hp3);
      [apply Hin2; by right|].
    rewrite (bind_Ok _ _ _ _ _ Hr3). exists s3, ts3. split_and!; [done| |done|].
    + rewrite E3, E2. done.
    + intros t. assert (Hnd : NoDup ts2) by (by eapply alist_NoDup).
      rewrite Hp3 in Hnd. apply NoDup_cons_1_1 in Hnd. specialize (Hin2 t). rewrite Hp3 in Hin2.
      rewrite elem_of_cons in Hin2. destruct (decide (t = s)); naive_solver.
  - exists s2, ts2. split_and!; [done..|]. intros t. rewrite Hin2. naive_solver.
Qed.

Lemma moved_list d s bd bs s0 s1 h T ts :
  moved d s bd bs s0 s1 -> alist s0 h T ts -> alist s1 h T ts.
Proof. intros (E & _). apply alist_mem. by rewrite E. Qed.

Lemma tc_set_cycles_ok v t : tcap_ok t -> 0 <= v < 4294967296 -> tcap_ok (tc_set_cycles v t).
Proof. intros [H1 H2 H3 H4 _] Hv. by split. Qed.

Lemma budget_xfer_fold d s amount s0 T ts :
  active_inv s0 T ts -> d ∈ T -> s ∈ ts ->
  tc_cpuid (tcap_at s0 s) = cpuid (kcli s0) -> tc_cpuid (tcap_at s0 d) = cpuid (kcli s0) ->
  __tcap_budget_xfer d s amount s0 =
  (ok <- budget_move d s amount ;; if negb ok then ret (-1) else xfer_tail d s) s0.
Proof.
  intros [Hl Ha Hok Hb] Hd Hs Cs Cd. unfold __tcap_budget_xfer.
  pose proof (al_sub _ _ _ _ Hl s Hs) as HsT.
  pose proof (Ha d Hd) as Hd0. pose proof (Ha s HsT) as Hs0. unfold PAGE_SIZE in *.
  assert (N0 : negb (s =? 0) && negb (d =? 0) = true) by lia.
  rewrite N0, (bind_Ok _ _ _ _ _ (massert_Ok true s0 eq_refl)).
  rewrite (bind_Ok _ _ _ _ _ (tcap_is_active_Ok _ _ _ _ _ Hl HsT)).
  rewrite bool_decide_true by done. rewrite (bind_Ok _ _ _ _ _ (massert_Ok true s0 eq_refl)).
  rewrite (bind_Ok _ _ _ _ _ (get_tcap_Ok s s0 Hs0)).
  rewrite (bind_Ok _ _ _ _ _ (get_tcap_Ok d s0 Hd0)).
  unfold get_cpuid. rewrite (bind_Ok (gets _) _ s0 (cpuid (kcli s0)) s0 eq_refl).
  by rewrite Cs, Cd, !Z.eqb_refl.
Qed.

Lemma budget_xfer_spec d s amount s0 T ts :
  active_inv s0 T ts -> d ∈ T -> s ∈ ts -> d <> s -> 0 <= amount < 4294967296 ->
  tc_cpuid (tcap_at s0 s) = cpuid (kcli s0) -> tc_cpuid (tcap_at s0 d) = cpuid (kcli s0) ->
  let bd := cycles (tcap_at s0 d) in let bs := cycles (tcap_at s0 s) in
  match xfer_spec bd bs amount with
  | None => __tcap_budget_xfer d s amount s0 = Ok (-1) s0
  | Some (bd', bs') =>
      exists s' ts', __tcap_budget_xfer d s amount s0 = Ok 0 s' /\ active_inv s' T ts' /\
        tcap_at s' d = tc_set_cycles bd' (tcap_at s0 d) /\
        tcap_at s' s = tc_set_cycles bs' (tcap_at s0 s) /\
        (forall t, t <> d -> t <> s -> tcap_at s' t = tcap_at s0 t)
  end.
Proof.
  intros Hi Hd Hs Hne Ham Cs Cd bd bs.
  rewrite (budget_xfer_fold _ _ _ _ _ _ Hi Hd Hs Cs Cd). destruct Hi as [Hl Ha Hok Hb].
  pose proof (al_sub _ _ _ _ Hl s Hs) as HsT.
  pose proof (ok_cycles _ (Hok d Hd)) as Rd. pose proof (ok_cycles _ (Hok s HsT)) as Rs.
  assert (Rs' : 0 < bs < 4294967296) 
    by (pose proof (proj1 (Hb s HsT) Hs); unfold bs; lia).
  pose proof (budget_move_Ok d s amount s0 (Ha d Hd) (Ha s HsT) Hne Ham Rd Rs) as Hm.
  fold bd bs in Hm. destruct (xfer_spec bd bs amount) as [[bd' bs']|] eqn:Ex;
    [|by rewrite (bind_Ok _ _ _ _ _ Hm)].
  destruct Hm as (s1 & Hr & Hmv). rewrite (bind_Ok _ _ _ _ _ Hr). cbn [negb].
  pose proof (moved_list _ _ _ _ _ _ _ _ _ Hmv Hl) as Hl1. destruct Hmv as (E1 & D1 & S1 & O1).
  destruct (xfer_tail_Ok d s _ T ts s1 Hl1 Hd Hs Hne (Ha s HsT)) as (s' & ts' & Hr' & E' & Hl' & Hin).
  assert (At : forall t, tcap_at s' t = tcap_at s1 t) by (intros; by rewrite E').
  pose proof (xfer_spec_facts bd bs amount bd' bs' Rd Rs' Ham Ex) as [Fd Fs].
  exists s', ts'. rewrite !At. split_and!; [done| |done|done|intros; rewrite At; auto].
  assert (Ek : kcli s' = kcli s0) by (rewrite E', E1; done).
  split; [by rewrite Ek|done| |]; intros t Ht; rewrite At;
      (destruct (decide (t = d)) as [->|N1]; [|destruct (decide (t = s)) as [->|N2]]);
      rewrite ?D1, ?S1, ?O1 by done.
  1-2: apply tc_set_cycles_ok; [by apply Hok|lia].
  - by apply Hok.
  - rewrite Hin. simpl. split; [lia|by left].
  - rewrite Hin, S1. simpl. naive_solver.
  - rewrite Hin. specialize (Hb t Ht). naive_solver.
Qed.

(** C25. [__tcap_budget_xfer] moves the requested cycles, all when 0 is asked
    for, and never more than the source has; the destination saturates below
    the infinite budget.  Finite budgets are conserved.  It keeps the
    invariant that the active list holds exactly the temporal capabilities
    with budget left, and changes nothing else; asking a finite source for an
    infinite budget fails without a change. *)
Theorem tcap_budget_xfer_correct d s amount s0 T ts :
  active_inv s0 T ts -> d ∈ T -> s ∈ ts -> d <> s -> 0 <= amount < 4294967296 ->
  tc_cpuid (tcap_at s0 s) = cpuid (kcli s0) -> tc_cpuid (tcap_at s0 d) = cpuid (kcli s0) ->
  let bd := cycles (tcap_at s0 d) in let bs := cycles (tcap_at s0 s) in
  match xfer_spec bd bs amount with
  | None => __tcap_budget_xfer d s amount s0 = Ok (-1) s0
  | Some (bd', bs') =>
      exists s' ts', __tcap_budget_xfer d s amount s0 = Ok 0 s' /\ active_inv s' T ts' /\
        tcap_at s' d = tc_set_cycles bd' (tcap_at s0 d) /\
        tcap_at s' s = tc_set_cycles bs' (tcap_at s0 s) /\
        (forall t, t <> d -> t <> s -> tcap_at s' t = tcap_at s0 t) /\
        (bd + bs < TCAP_RES_INF -> bd' + bs' = bd + bs)
  end.
Proof.
  intros Hi Hd Hs Hne Ham Cs Cd bd bs.
  pose proof (ok_cycles _ (ai_ok _ _ _ Hi d Hd)) as Rd. fold bd in Rd.
  pose proof (ok_cycles _ (ai_ok _ _ _ Hi s (al_sub _ _ _ _ (ai_list _ _ _ Hi) s Hs))) as Rs.
  fold bs in Rs.
  pose proof (budget_xfer_spec d s amount s0 T ts Hi Hd Hs Hne Ham Cs Cd) as H. cbv zeta in H.
  fold bd bs in H. destruct (xfer_spec bd bs amount) as [[bd' bs']|] eqn:Ex; [|done].
  destruct H as (s' & ts' & H). exists s', ts'. destruct H as (H1 & H2 & H3 & H4 & H5).
  split_and!; try done. unfold xfer_spec in Ex. cbv zeta in Ex.
  unfold TCAP_RES_MAX, TCAP_RES_INF in *. intros Hsum.
  destruct (Z.eqb_spec bd 4294967295), (Z.eqb_spec bs 4294967295); try lia;
    destruct (amount =? 0); destruct (_ =? 4294967295); simplify_eq; try lia.
Qed.

Lemma tcap_higher_prio_spec a c s :
  PAGE_SIZE <= a -> PAGE_SIZE <= c -> tcap_ok (tcap_at s a) -> tcap_ok (tcap_at s c) ->
  exists b, tcap_higher_prio a c s = Ok b s /\
    (b = true <-> cycles (tcap_at s a) <> 0 /\
       not_lower (delegs (tcap_at s a)) (delegs (tcap_at s c))).
Proof.
  intros Ha Hc Oa Oc. unfold tcap_higher_prio.
  rewrite (bind_Ok _ _ _ _ _ (tcap_expended_Ok a s Ha)).
  destruct (Z.eqb_spec (cycles (tcap_at s a)) 0) as [E|E]; [exists false; naive_solver|].
  destruct (Z.eqb_spec a c) as [->|Hne].
  { exists true. split; [done|]. split; [|done]. intros _. split; [done|].
    intros x y Hx Hy Ex. by rewrite (sorted_uid_inj _ x y (ok_sorted _ Oc) Hx Hy Ex). }
  rewrite (bind_Ok _ _ _ _ _ (get_tcap_Ok a s Ha)), (bind_Ok _ _ _ _ _ (get_tcap_Ok c s Hc)).
  pose proof (delegs_length _ Oa). pose proof (delegs_length _ Oc).
  destruct (higher_loop_spec (Z.to_nat (ndelegs (tcap_at s a) + ndelegs (tcap_at s c)))
    _ _ 0 0 s (ok_sorted _ Oa) (ok_sorted _ Oc)) as (b & Hr & Hb); [done|done|lia|].
  exists b. split; [done|]. rewrite Hb, !drop_0. naive_solver.
Qed.

(** [tcap_higher_prio a c] holds exactly when [a] has budget left and no
    scheduler that both share gives [c] a better priority (a smaller number)
    than [a].  The comparison walks both lists of delegations once and always
    terminates. *)
Theorem tcap_higher_prio_correct a c s :
  PAGE_SIZE <= a -> PAGE_SIZE <= c -> tcap_ok (tcap_at s a) -> tcap_ok (tcap_at s c) ->
  exists b, tcap_higher_prio a c s = Ok b s /\
    (b = true <-> cycles (tcap_at s a) <> 0 /\
       not_lower (delegs (tcap_at s a)) (delegs (tcap_at s c))).
Proof. apply tcap_higher_prio_spec. Qed.

(** ** Consumption *)

(** Only the priority under which it runs is left to an expended one. *)
Definition declassified (x : tcap_sched_info) (t : tcap) : tcap :=
  Tcap (arcv_ep t) (tc_refcnt t) 0 1 0 (tc_cpuid t) (perm_prio t) (<[0%nat := x]> (delegations t)).

Definition expends (s : kstate) (t amount : Z) : bool :=
  (amount >=? cycles (tcap_at s t)) ||
  cycles_same amount (cycles (tcap_at s t)) (u64 (kcyc_thresh s)).

Lemma sched_info_lookup t : tcap_ok t ->
  exists x, delegations t !! Z.to_nat (curr_sched_off t) = Some x.
Proof. intros [H1 H2 H3 _ _]. apply lookup_lt_is_Some_2. lia. Qed.

Lemma set_deleg_Ok t i v s x :
  PAGE_SIZE <= t -> delegations (tcap_at s t) !! Z.to_nat i = Some x ->
  let tc := tcap_at s t in
  set_deleg t i v s = Ok tt (tcap_put t (tc_set_sched (ndelegs tc) (curr_sched_off tc)
    (perm_prio tc) (<[Z.to_nat i := v]> (delegations tc)) tc) s).
Proof.
  intros Ht Hx tc. unfold set_deleg. rewrite (bind_Ok _ _ _ _ _ (get_tcap_Ok t s Ht)).
  rewrite (bind_Ok _ _ _ _ _ (deleg_Ok _ i s x Hx)). by apply set_tcap_Ok.
Qed.

Lemma sched_info_Ok t s x :
  PAGE_SIZE <= t -> delegations (tcap_at s t) !! Z.to_nat (curr_sched_off (tcap_at s t)) = Some x ->
  sched_info t s = Ok x s.
Proof.
  intros Ht Hx. unfold sched_info. rewrite (bind_Ok _ _ _ _ _ (get_tcap_Ok t s Ht)).
  by apply deleg_Ok.
Qed.

Ltac tstep :=
  lazymatch goal with
  | |- context [bind (get_tcap ?t) ?k ?s] =>
      rewrite (bind_Ok (get_tcap t) k s _ _ (get_tcap_Ok t s ltac:(assumption)))
  | |- context [bind (set_tcap ?t ?v) ?k ?s] =>
      rewrite (bind_Ok (set_tcap t v) k s _ _ (set_tcap_Ok t v s ltac:(assumption)))
  end; rewrite ?tcap_at_put_eq, ?tcap_put_twice; cbv beta.

Lemma declassified_ok x t :
  tcap_ok t -> tcap_ok (declassified x t).
Proof.
  intros [H1 H2 H3 H4 H5]. split; simpl; try lia.
  - by rewrite length_insert.
  - unfold delegs. simpl. destruct (delegations t); [done|]. simpl.
    rewrite take_0. repeat constructor.
Qed.

(** The invariant after a change of one temporal capability. *)
Lemma active_inv_upd t s0 s' T ts ts' :
  active_inv s0 T ts -> alist s' (cli_tcaps (kcli s0)) T ts' -> kcli s' = kcli s0 ->
  (forall u, u <> t -> tcap_at s' u = tcap_at s0 u) -> tcap_ok (tcap_at s' t) ->
  (t ∈ ts' <-> cycles (tcap_at s' t) <> 0) -> (forall u, u <> t -> (u ∈ ts' <-> u ∈ ts)) ->
  active_inv s' T ts'.
Proof.
  intros [Hl Ha Hok Hb] Hl' Ek Hu Ht Hc Hin. split; [by rewrite Ek|done| |]; intros u Hu'.
  - destruct (decide (u = t)) as [->|]; [done|]. rewrite Hu by done. by apply Hok.
  - destruct (decide (u = t)) as [->|]; [done|]. rewrite Hu, Hin by done. by apply Hb.
Qed.

(** What [tcap_consume] does once the budget is used up. *)
Definition declassify (t : Z) : K unit :=
  tc <- get_tcap t ;;
  set_tcap t (tc_set_sched 1 (curr_sched_off tc) (perm_prio tc) (delegations tc) tc) ;;
  tc <- get_tcap t ;;
  if negb (curr_sched_off tc =? 0) then
    si <- sched_info t ;;
    set_deleg t 0 si ;;
    tc <- get_tcap t ;;
    set_tcap t (tc_set_sched (ndelegs tc) 0 (perm_prio tc) (delegations tc) tc)
  else ret tt.

Lemma declassify_Ok t tc x s :
  PAGE_SIZE <= t -> tcap_ok tc -> tcap_at s t = tc_set_cycles 0 tc ->
  delegations tc !! Z.to_nat (curr_sched_off tc) = Some x ->
  declassify t s = Ok tt (tcap_put t (declassified x tc) s).
Proof.
  intros Ht Ok Et Hx. destruct Ok as [H1 H2 H3 _ _]. unfold declassify.
  tstep. tstep. tstep. rewrite Et. cbn [curr_sched_off tc_set_sched tc_set_cycles].
  destruct (Z.eqb_spec (curr_sched_off tc) 0) as [E|E]; cbn [negb].
  - unfold ret. do 2 f_equal. unfold declassified. rewrite E in Hx. simpl in Hx.
    rewrite list_insert_id by done. by rewrite <- E.
  - destruct (lookup_lt_is_Some_2 (delegations tc) 0 ltac:(lia)) as [y Hy].
    match goal with |- context [bind (sched_info t) _ ?u] => set (s1 := u) end.
    assert (E1 : tcap_at s1 t = tc_set_sched 1 (curr_sched_off tc) (perm_prio tc) (delegations tc)
      (tc_set_cycles 0 tc)) by apply tcap_at_put_eq.
    rewrite (bind_Ok _ _ _ _ _ (sched_info_Ok t s1 x Ht ltac:(by rewrite E1))).
    rewrite (bind_Ok _ _ _ _ _ (set_deleg_Ok t 0 x s1 y Ht ltac:(by rewrite E1))).
    rewrite E1. tstep. rewrite set_tcap_Ok by done. unfold s1. by rewrite !tcap_put_twice.
Qed.

(** C26. [tcap_consume] charges [amount] cycles to an active temporal
    capability.  A budget that is used up, or within the threshold of it,
    becomes 0: the capability leaves the active list and keeps only the
    priority of its own scheduler.  Otherwise exactly [amount] is taken; the
    budget never goes below 0.  An infinite budget is not charged.  The
    invariant of the active list holds afterwards. *)
Theorem tcap_consume_correct t amount s0 T ts :
  active_inv s0 T ts -> t ∈ ts -> 0 <= amount < 4294967296 ->
  exists r s' ts', tcap_consume t amount s0 = Ok r s' /\ active_inv s' T ts' /\
    (forall u, u <> t -> tcap_at s' u = tcap_at s0 u) /\
    let tc := tcap_at s0 t in
    if TCAP_RES_IS_INF (cycles tc) then r = 0 /\ s' = s0
    else if expends s0 t amount then
      r = 0 /\ t ∉ ts' /\ exists x, delegations tc !! Z.to_nat (curr_sched_off tc) = Some x /\
        tcap_at s' t = declassified x tc
    else r = cycles tc - amount /\ 0 < r /\ ts' = ts /\
      tcap_at s' t = tc_set_cycles (cycles tc - amount) tc.
Proof.
  intros Hi Ht Ham. destruct Hi as [Hl Ha Hok Hb].
  pose proof (al_sub _ _ _ _ Hl t Ht) as HtT. pose proof (Ha t HtT) as Hm.
  pose proof (Hok t HtT) as Okt. pose proof (ok_cycles _ Okt) as Hc. set (tc := tcap_at s0 t) in *.
  unfold tcap_consume. assert (N0 : negb (t =? 0) = true) by (unfold PAGE_SIZE in *; lia).
  rewrite N0, (bind_Ok _ _ _ _ _ (massert_Ok true s0 eq_refl)). tstep. fold tc.
  destruct (TCAP_RES_IS_INF (cycles tc)); [by exists 0, s0, ts|].
  unfold tcap_cycles_same. rewrite bind_assoc, (bind_Ok (gets _) _ s0 (kcyc_thresh s0) s0 eq_refl).
  rewrite (bind_Ok (ret _) _ s0 _ s0 eq_refl). unfold expends. fold tc.
  destruct ((amount >=? cycles tc) || _) eqn:Ex.
  - destruct (sched_info_lookup _ Okt) as [x Hx]. fold tc in Hx.
    rewrite bind_assoc. tstep. set (s1 := tcap_put t (tc_set_cycles 0 tc) s0).
    destruct (alist_rem s1 _ T ts t (alist_mem s0 s1 _ _ _ eq_refl Hl) Ht)
      as (s2 & ts2 & Hr2 & E2 & Hl2 & Hp2).
    rewrite bind_assoc, (bind_Ok _ _ _ _ _ Hr2).
    assert (At2 : forall u, tcap_at s2 u = tcap_at s1 u) by (intros; by rewrite E2).
    fold (declassify t).
    assert (Ht2 : tcap_at s2 t = tc_set_cycles 0 tc) by (rewrite At2; apply tcap_at_put_eq).
    rewrite (bind_Ok _ _ _ _ _ (declassify_Ok t tc x s2 Hm Okt Ht2 Hx)). tstep.
    assert (Hu : forall u, u <> t -> tcap_at (tcap_put t (declassified x tc) s2) u = tcap_at s0 u).
    { intros u Hu. rewrite tcap_at_put_ne, At2 by done. unfold s1. by rewrite tcap_at_put_ne. }
    assert (Hnin : t ∉ ts2) by (pose proof (alist_NoDup _ _ _ _ Hl) as Hnd; rewrite Hp2 in Hnd;
      by apply NoDup_cons_1_1 in Hnd).
    eexists _, _, ts2. split_and!; [reflexivity| |done|done|done|].
    + eapply (active_inv_upd t s0); [by split|by eapply alist_mem; [|exact Hl2]|by simpl; rewrite E2|
        done| | |]; rewrite ?tcap_at_put_eq; [by apply declassified_ok|simpl; naive_solver|].
      intros u Hne. rewrite Hp2. set_solver.
    + exists x. by rewrite tcap_at_put_eq.
  - assert (Hlt : 0 <= amount < cycles tc) by lia.
    tstep. tstep. cbn [cycles tc_set_cycles]. unfold u32. rewrite Z.mod_small by lia.
    eexists _, _, ts. split_and!; [reflexivity| | |done|lia|done|by rewrite tcap_at_put_eq].
    + eapply (active_inv_upd t s0); [by split|by eapply alist_mem; [|exact Hl]|done| | | |done];
        rewrite ?tcap_at_put_eq; [intros; by apply tcap_at_put_ne| |].
      * apply tc_set_cycles_ok; [done|lia].
      * simpl. split; [lia|done].
    + intros. by apply tcap_at_put_ne.
Qed.

(** ** Delegation *)

(** The entry of the delegating scheduler [s] gets the priority [p]. *)
Definition reprio (s p : Z) (x : tcap_sched_info) : tcap_sched_info :=
  if tcap_uid x =? s then SInfo (tcap_uid x) p else x.

(** The merge of two lists of delegations by identifier: the worse priority
    of a shared scheduler, then [reprio]. *)
Fixpoint merge_delegs (s p : Z) (ds : list tcap_sched_info) :
    list tcap_sched_info -> list tcap_sched_info :=
  fix go (ss : list tcap_sched_info) :=
    match ds, ss with
    | [], [] => []
    | [], y :: ss' => reprio s p y :: go ss'
    | x :: ds', [] => reprio s p x :: merge_delegs s p ds' []
    | x :: ds', y :: ss' =>
        if tcap_uid x <? tcap_uid y then reprio s p x :: merge_delegs s p ds' ss
        else if tcap_uid x >? tcap_uid y then reprio s p y :: go ss'
        else reprio s p (SInfo (tcap_uid y) (Z.max (prio x) (prio y))) :: merge_delegs s p ds' ss'
    end.

(** The last position of identifier [d], counted from [n]. *)
Fixpoint last_pos (d n : Z) (l : list tcap_sched_info) (si : Z) : Z :=
  match l with
  | [] => si
  | v :: l' => last_pos d (n + 1) l' (if d =? tcap_uid v then n else si)
  end.

(** [t'] is [t] but for priorities of entries below [i] with identifier [s],
    which are [p]. *)
Definition repriod (s p : Z) (i : nat) (t t' : tcap) : Prop :=
  t' = tc_set_sched (ndelegs t) (curr_sched_off t) (perm_prio t) (delegations t') t /\
  (forall k, delegations t' !! k = delegations t !! k \/
     (k < i)%nat /\ delegations t' !! k = reprio s p <$> delegations t !! k).

(** The state of the loop: only the two arrays changed. *)
Record loop_state (s p : Z) (dst src : Z) (i j : nat) (s0 sk : kstate) : Prop := {
  ls_frame : sk = with_tcap (ktcap sk) s0;
  ls_other : forall t, t <> dst -> t <> src -> tcap_at sk t = tcap_at s0 t;
  ls_dst : repriod s p i (tcap_at s0 dst) (tcap_at sk dst);
  ls_src : repriod s p j (tcap_at s0 src) (tcap_at sk src) }.

(** What a round does with the entry that [n] refers to. *)
Definition round_entry {A} (s p : Z) (n : deleg_ref) (full : bool)
    (k : tcap_sched_info -> K (option A)) : K (option A) :=
  v <- ref_get n ;;
  n <- (if tcap_uid v =? s then ref_set_prio n p else ret n) ;;
  if full then ret None else v <- ref_get n ;; k v.

Definition entry_state (s p t : Z) (i : nat) (sk : kstate) : kstate :=
  match delegations (tcap_at sk t) !! i with
  | Some v => if tcap_uid v =? s then
      tcap_put t (tc_set_sched (ndelegs (tcap_at sk t)) (curr_sched_off (tcap_at sk t))
        (perm_prio (tcap_at sk t)) (<[i := SInfo (tcap_uid v) p]> (delegations (tcap_at sk t)))
        (tcap_at sk t)) sk else sk
  | None => sk
  end.

Lemma round_entry_array {A} s p t i full (k : tcap_sched_info -> K (option A)) sk v :
  PAGE_SIZE <= t -> delegations (tcap_at sk t) !! i = Some v ->
  round_entry s p (InArray t (Z.of_nat i)) full k sk =
  if full then Ok None (entry_state s p t i sk) else k (reprio s p v) (entry_state s p t i sk).
Proof.
  intros Ht Hv. unfold round_entry, entry_state, reprio. rewrite Hv.
  assert (Hg : forall u w, delegations (tcap_at u t) !! i = Some w ->
    ref_get (InArray t (Z.of_nat i)) u = Ok w u).
  { intros u w Hw. simpl. rewrite (bind_Ok _ _ _ _ _ (get_tcap_Ok t u Ht)).
    apply deleg_Ok. by rewrite Nat2Z.id. }
  rewrite (bind_Ok _ _ _ _ _ (Hg sk v Hv)). destruct (tcap_uid v =? s).
  - simpl ref_set_prio. rewrite !bind_assoc, (bind_Ok _ _ _ _ _ (get_tcap_Ok t sk Ht)).
    rewrite bind_assoc, (bind_Ok _ _ _ _ _ (deleg_Ok _ (Z.of_nat i) sk v ltac:(by rewrite Nat2Z.id))).
    rewrite bind_assoc, (bind_Ok _ _ _ _ _
      (set_deleg_Ok t (Z.of_nat i) _ sk v Ht ltac:(by rewrite Nat2Z.id))).
    rewrite Nat2Z.id, (bind_Ok (ret _) _ _ _ _ eq_refl). destruct full; [done|].
    match goal with |- bind _ _ ?u = _ =>
      assert (Hw : delegations (tcap_at u t) !! i = Some (SInfo (tcap_uid v) p)) by
        (rewrite tcap_at_put_eq; apply list_lookup_insert_eq; by eapply lookup_lt_Some) end.
    by rewrite (bind_Ok _ _ _ _ _ (Hg _ _ Hw)).
  - rewrite (bind_Ok (ret _) _ _ _ _ eq_refl). destruct full; [done|].
    by rewrite (bind_Ok _ _ _ _ _ (Hg sk v Hv)).
Qed.

Lemma round_entry_local {A} s p v full (k : tcap_sched_info -> K (option A)) sk :
  round_entry s p (InLocal v) full k sk =
  if full then Ok None sk else k (reprio s p v) sk.
Proof.
  unfold round_entry, reprio, bind, ref_get, ref_set_prio, ret.
  destruct (tcap_uid v =? s); by destruct full.
Qed.

Lemma entry_state_at s p t i sk v :
  delegations (tcap_at sk t) !! i = Some v ->
  tcap_at (entry_state s p t i sk) t =
  tc_set_sched (ndelegs (tcap_at sk t)) (curr_sched_off (tcap_at sk t)) (perm_prio (tcap_at sk t))
    (<[i := reprio s p v]> (delegations (tcap_at sk t))) (tcap_at sk t).
Proof.
  intros Hv. unfold entry_state, reprio. rewrite Hv. destruct (tcap_uid v =? s).
  - apply tcap_at_put_eq.
  - rewrite list_insert_id by done. by destruct (tcap_at sk t).
Qed.

Lemma entry_state_ne s p t i sk u :
  u <> t -> tcap_at (entry_state s p t i sk) u = tcap_at sk u.
Proof.
  intros. unfold entry_state. case_match; [|done]. destruct (_ =? _); [|done].
  by apply tcap_at_put_ne.
Qed.

Lemma entry_state_frame s p t i sk : entry_state s p t i sk = with_tcap (ktcap (entry_state s p t i sk)) sk.
Proof.
  unfold entry_state. case_match; [|by rewrite with_tcap_id].
  destruct (_ =? _); [done|by rewrite with_tcap_id].
Qed.

(** Below position [i] the array may be changed, from there on it is not. *)
Lemma repriod_lookup s p i t t' k :
  repriod s p i t t' -> (i <= k)%nat -> delegations t' !! k = delegations t !! k.
Proof. intros (_ & H) Hk. destruct (H k) as [?|[? _]]; [done|lia]. Qed.

Lemma repriod_step s p i t t' v :
  repriod s p i t t' -> delegations t !! i = Some v ->
  repriod s p (S i) t (tc_set_sched (ndelegs t') (curr_sched_off t') (perm_prio t')
    (<[i := reprio s p v]> (delegations t')) t').
Proof.
  intros Hr Hv. pose proof (repriod_lookup _ _ _ _ _ i Hr ltac:(lia)) as Hi. rewrite Hv in Hi.
  destruct Hr as [E H]. split; [rewrite E; done|]. intros k.
  destruct (decide (k = i)) as [->|Hne]; simpl.
  - right. split; [lia|]. rewrite list_lookup_insert_eq by (by eapply lookup_lt_Some).
    by rewrite Hv.
  - rewrite list_lookup_insert_ne by done. destruct (H k) as [?|[? ?]]; [by left|right].
    split; [lia|done].
Qed.

Lemma repriod_mono s p i j t t' : repriod s p i t t' -> (i <= j)%nat -> repriod s p j t t'.
Proof.
  intros [E H] Hij. split; [done|]. intros k. destruct (H k) as [?|[? ?]]; [by left|right].
  split; [lia|done].
Qed.

Lemma repriod_ndelegs s p i t t' : repriod s p i t t' -> ndelegs t' = ndelegs t.
Proof. intros [-> _]. done. Qed.

Lemma loop_state_dst s p dst src i j s0 sk v :
  dst <> src -> loop_state s p dst src i j s0 sk -> delegations (tcap_at s0 dst) !! i = Some v ->
  loop_state s p dst src (S i) j s0 (entry_state s p dst i sk).
Proof.
  intros Hne [F O D S] Hv.
  pose proof (repriod_lookup _ _ _ _ _ i D ltac:(lia)) as Hi. rewrite Hv in Hi. split.
  - rewrite entry_state_frame, F. done.
  - intros t N1 N2. rewrite entry_state_ne by done. by apply O.
  - rewrite (entry_state_at _ _ _ _ _ _ Hi). by apply repriod_step.
  - by rewrite entry_state_ne.
Qed.

Lemma loop_state_src s p dst src i j s0 sk v :
  dst <> src -> loop_state s p dst src i j s0 sk -> delegations (tcap_at s0 src) !! j = Some v ->
  loop_state s p dst src i (S j) s0 (entry_state s p src j sk).
Proof.
  intros Hne [F O D S] Hv.
  pose proof (repriod_lookup _ _ _ _ _ j S ltac:(lia)) as Hi. rewrite Hv in Hi. split.
  - rewrite entry_state_frame, F. done.
  - intros t N1 N2. rewrite entry_state_ne by done. by apply O.
  - by rewrite entry_state_ne.
  - rewrite (entry_state_at _ _ _ _ _ _ Hi). by apply repriod_step.
Qed.

Lemma loop_state_refl s p dst src s0 : loop_state s p dst src 0 0 s0 s0.
Proof.
  split; [by rewrite with_tcap_id|done|..]; (split; [by destruct (tcap_at s0 _)|auto]).
Qed.

Lemma loop_state_local s p dst src i j s0 sk :
  loop_state s p dst src i j s0 sk -> loop_state s p dst src (S i) (S j) s0 sk.
Proof. intros [F O D S]. split; [done|done|..]; (eapply repriod_mono; [done|lia]). Qed.

Lemma merge_nil_cons s p y ss : merge_delegs s p [] (y :: ss) = reprio s p y :: merge_delegs s p [] ss.
Proof. done. Qed.

Lemma merge_cons_nil s p x ds : merge_delegs s p (x :: ds) [] = reprio s p x :: merge_delegs s p ds [].
Proof. done. Qed.

Lemma merge_cons_cons s p x ds y ss :
  merge_delegs s p (x :: ds) (y :: ss) =
  if tcap_uid x <? tcap_uid y then reprio s p x :: merge_delegs s p ds (y :: ss)
  else if tcap_uid x >? tcap_uid y then reprio s p y :: merge_delegs s p (x :: ds) ss
  else reprio s p (SInfo (tcap_uid y) (Z.max (prio x) (prio y))) :: merge_delegs s p ds ss.
Proof. done. Qed.

Section delegate.
Context (dst src s p : Z) (s0 : kstate).
Hypothesis (Hdst : PAGE_SIZE <= dst) (Hsrc : PAGE_SIZE <= src) (Hne : dst <> src).
Let D := delegs (tcap_at s0 dst).
Let S' := delegs (tcap_at s0 src).
Hypothesis (Okd : tcap_ok (tcap_at s0 dst)) (Oks : tcap_ok (tcap_at s0 src)).

(** [k v] runs on [sk2] after a round that took the entry [v] through [n]. *)
Definition takes (n : deleg_ref) (v : tcap_sched_info) (sk sk2 : kstate) : Prop :=
  forall A full (k : tcap_sched_info -> K (option A)),
    round_entry s p n full k sk = if full then Ok None sk2 else k v sk2.

Lemma dst_entry i j sk x :
  loop_state s p dst src i j s0 sk -> D !! i = Some x ->
  delegations (tcap_at sk dst) !! i = Some x /\
  exists sk2, loop_state s p dst src (S i) j s0 sk2 /\
    takes (InArray dst (Z.of_nat i)) (reprio s p x) sk sk2.
Proof.
  intros Hls Hx. apply delegs_lookup in Hx as [_ Hx].
  pose proof (repriod_lookup _ _ _ _ _ i (ls_dst _ _ _ _ _ _ _ _ Hls) ltac:(lia)) as E.
  rewrite Hx in E. split; [done|]. exists (entry_state s p dst i sk).
  split; [by eapply loop_state_dst|]. intros ???. by apply round_entry_array.
Qed.

Lemma src_entry i j sk y :
  loop_state s p dst src i j s0 sk -> S' !! j = Some y ->
  delegations (tcap_at sk src) !! j = Some y /\
  exists sk2, loop_state s p dst src i (S j) s0 sk2 /\
    takes (InArray src (Z.of_nat j)) (reprio s p y) sk sk2.
Proof.
  intros Hls Hy. apply delegs_lookup in Hy as [_ Hy].
  pose proof (repriod_lookup _ _ _ _ _ j (ls_src _ _ _ _ _ _ _ _ Hls) ltac:(lia)) as E.
  rewrite Hy in E. split; [done|]. exists (entry_state s p src j sk).
  split; [by eapply loop_state_src|]. intros ???. by apply round_entry_array.
Qed.

Lemma loop_state_end i j sk :
  loop_state s p dst src i j s0 sk -> (i <= length D)%nat -> (j <= length S')%nat ->
  loop_state s p dst src (length D) (length S') s0 sk.
Proof. intros [F O E1 E2] Hi Hj. split; [done|done|..]; by eapply repriod_mono. Qed.

(** One round: the entry it picks is the next of the merge. *)
Lemma pick_round i j sk :
  loop_state s p dst src i j s0 sk -> (i <= length D)%nat -> (j <= length S')%nat ->
  (i < length D \/ j < length S')%nat ->
  exists n i2 j2 v sk2,
    deleg_pick dst src (Z.of_nat i) (Z.of_nat j) sk = Ok (n, Z.of_nat i2, Z.of_nat j2) sk /\
    merge_delegs s p (drop i D) (drop j S') = v :: merge_delegs s p (drop i2 D) (drop j2 S') /\
    (i2 <= length D)%nat /\ (j2 <= length S')%nat /\ loop_state s p dst src i2 j2 s0 sk2 /\
    takes n v sk sk2.
Proof.
  intros Hls Hi Hj Hor. pose proof (delegs_length _ Okd) as Ld. pose proof (delegs_length _ Oks) as Ls.
  fold D in Ld. fold S' in Ls.
  pose proof (repriod_ndelegs _ _ _ _ _ (ls_dst _ _ _ _ _ _ _ _ Hls)) as Nd.
  pose proof (repriod_ndelegs _ _ _ _ _ (ls_src _ _ _ _ _ _ _ _ Hls)) as Ns.
  unfold deleg_pick. rewrite (bind_Ok _ _ _ _ _ (get_tcap_Ok dst sk Hdst)).
  rewrite (bind_Ok _ _ _ _ _ (get_tcap_Ok src sk Hsrc)). rewrite Nd, Ns, <- Ld, <- Ls.
  replace (Z.of_nat i + 1) with (Z.of_nat (S i)) by lia.
  replace (Z.of_nat j + 1) with (Z.of_nat (S j)) by lia.
  destruct (Z.eqb_spec (Z.of_nat i) (Z.of_nat (length D))) as [Ei|Ei].
  { destruct (lookup_lt_is_Some_2 S' j ltac:(lia)) as [y Hy].
    destruct (src_entry _ _ _ _ Hls Hy) as (_ & sk2 & Hl2 & Hr2). eexists _, i, (S j), _, sk2.
    split_and!; [reflexivity| |done|lia|done|exact Hr2].
    rewrite drop_ge by lia. by rewrite (drop_S _ _ _ Hy). }
  destruct (lookup_lt_is_Some_2 D i ltac:(lia)) as [x Hx].
  destruct (Z.eqb_spec (Z.of_nat j) (Z.of_nat (length S'))) as [Ej|Ej].
  { destruct (dst_entry _ _ _ _ Hls Hx) as (_ & sk2 & Hl2 & Hr2). eexists _, (S i), j, _, sk2.
    split_and!; [reflexivity| |lia|done|done|exact Hr2].
    rewrite (drop_ge S') by lia. by rewrite (drop_S _ _ _ Hx). }
  destruct (lookup_lt_is_Some_2 S' j ltac:(lia)) as [y Hy].
  rewrite (bind_Ok _ _ _ _ _ (deleg_Ok _ (Z.of_nat i) sk x ltac:(rewrite Nat2Z.id; apply (dst_entry _ _ _ _ Hls Hx)))).
  rewrite (bind_Ok _ _ _ _ _ (deleg_Ok _ (Z.of_nat j) sk y ltac:(rewrite Nat2Z.id; apply (src_entry _ _ _ _ Hls Hy)))).
  rewrite (drop_S _ _ _ Hx), (drop_S _ _ _ Hy), merge_cons_cons.
  destruct (Z.ltb_spec (tcap_uid x) (tcap_uid y)).
  { destruct (dst_entry _ _ _ _ Hls Hx) as (_ & sk2 & Hl2 & Hr2). eexists _, (S i), j, _, sk2.
    rewrite (drop_S _ _ _ Hy). split_and!; [reflexivity|done|lia|lia|done|exact Hr2]. }
  destruct (tcap_uid x >? tcap_uid y) eqn:E2.
  { destruct (src_entry _ _ _ _ Hls Hy) as (_ & sk2 & Hl2 & Hr2). eexists _, i, (S j), _, sk2.
    rewrite (drop_S _ _ _ Hx). split_and!; [reflexivity|done|lia|lia|done|exact Hr2]. }
  assert (E : tcap_uid x =? tcap_uid y = true) by lia.
  rewrite E, (bind_Ok _ _ _ _ _ (massert_Ok true sk eq_refl)).
  assert (Em : (if prio x >? prio y then prio x else prio y) = Z.max (prio x) (prio y))
    by (destruct (prio x >? prio y) eqn:?; lia).
  rewrite Em. eexists _, (S i), (S j), _, sk. split_and!; [reflexivity|done|lia|lia| |].
  - by apply loop_state_local.
  - intros ???. apply round_entry_local.
Qed.

Lemma delegate_loop_S fuel d i j tmp si :
  delegate_loop (S fuel) dst src d s p i j tmp si =
  (td <- get_tcap dst ;; ts <- get_tcap src ;;
   if (i <? ndelegs td) || (j <? ndelegs ts) then
     let! (n, i', j') := deleg_pick dst src i j in
     round_entry s p n (Z.of_nat (length tmp) =? TCAP_MAX_DELEGATIONS) (fun v =>
       delegate_loop fuel dst src d s p i' j' (tmp ++ [v])
         (if d =? tcap_uid v then Z.of_nat (length tmp) else si))
   else ret (Some (tmp, si))).
Proof. done. Qed.

Lemma delegate_loop_Ok fuel d : forall i j tmp si sk,
  loop_state s p dst src i j s0 sk -> (i <= length D)%nat -> (j <= length S')%nat ->
  (length tmp <= 16)%nat -> (17 <= fuel + length tmp)%nat ->
  let R := merge_delegs s p (drop i D) (drop j S') in
  exists s', delegate_loop fuel dst src d s p (Z.of_nat i) (Z.of_nat j) tmp si sk =
    Ok (if bool_decide (length tmp + length R <= 16)%nat
        then Some (tmp ++ R, last_pos d (Z.of_nat (length tmp)) R si) else None) s' /\
    loop_state s p dst src (length D) (length S') s0 s'.
Proof.
  induction fuel as [|fuel IH]; intros i j tmp si sk Hls Hi Hj Ht Hf R; [lia|].
  rewrite delegate_loop_S. pose proof (delegs_length _ Okd) as Ld.
  pose proof (delegs_length _ Oks) as Ls. fold D in Ld. fold S' in Ls.
  rewrite (bind_Ok _ _ _ _ _ (get_tcap_Ok dst sk Hdst)).
  rewrite (bind_Ok _ _ _ _ _ (get_tcap_Ok src sk Hsrc)).
  rewrite (repriod_ndelegs _ _ _ _ _ (ls_dst _ _ _ _ _ _ _ _ Hls)).
  rewrite (repriod_ndelegs _ _ _ _ _ (ls_src _ _ _ _ _ _ _ _ Hls)), <- Ld, <- Ls.
  destruct (Z.ltb_spec (Z.of_nat i) (Z.of_nat (length D))) as [Li|Li];
    [|destruct (Z.ltb_spec (Z.of_nat j) (Z.of_nat (length S'))) as [Lj|Lj]]; cbn [orb]; cycle 2.
  { exists sk. unfold R. rewrite !drop_ge by lia. simpl. rewrite bool_decide_true by lia.
    rewrite app_nil_r. split; [done|]. by replace (length D) with i by lia; replace (length S') with j by lia. }
  all: destruct (pick_round i j sk Hls Hi Hj ltac:(lia)) as
      (n & i2 & j2 & v & sk2 & Hp & ER & Hi2 & Hj2 & Hls2 & Htk);
    rewrite (bind_Ok _ _ _ _ _ Hp), Htk; fold R in ER; rewrite ER; simpl length;
    destruct (Z.eqb_spec (Z.of_nat (length tmp)) TCAP_MAX_DELEGATIONS) as [Ef|Ef];
    unfold TCAP_MAX_DELEGATIONS in Ef;
    [ exists sk2; rewrite bool_decide_false by lia; split; [done|]; by eapply loop_state_end
    | destruct (IH i2 j2 (tmp ++ [v]) (if d =? tcap_uid v then Z.of_nat (length tmp) else si) sk2)
        as (s' & Hr & Hls'); [done|done|done|rewrite length_app; simpl; lia..|];
      exists s'; split; [|done]; rewrite Hr; rewrite length_app; simpl length;
      rewrite <- app_assoc; replace (length tmp + 1 + _)%nat with (length tmp + S (length (merge_delegs s p (drop i2 D) (drop j2 S'))))%nat by lia;
      simpl; by replace (Z.of_nat (length tmp + 1)) with (Z.of_nat (length tmp) + 1) by lia ].
Qed.
End delegate.

(** *** The merge *)

Lemma reprio_uid s p x : tcap_uid (reprio s p x) = tcap_uid x.
Proof. unfold reprio. by destruct (tcap_uid x =? s). Qed.

(** [x] is what the merge of [ds] and [ss] makes of its scheduler. *)
Definition merged (s p : Z) (ds ss : list tcap_sched_info) (x : tcap_sched_info) : Prop :=
  (exists y, (y ∈ ds \/ y ∈ ss) /\ tcap_uid y = tcap_uid x /\
     (tcap_uid x <> s -> prio y = prio x)) /\
  (tcap_uid x = s -> prio x = p) /\
  (tcap_uid x <> s -> forall y, y ∈ ds \/ y ∈ ss -> tcap_uid y = tcap_uid x -> prio y <= prio x).

Lemma merged_reprio s p ds ss y :
  y ∈ ds \/ y ∈ ss ->
  (forall z, z ∈ ds \/ z ∈ ss -> tcap_uid z = tcap_uid y -> prio z <= prio y) ->
  merged s p ds ss (reprio s p y).
Proof.
  intros Hy Hm. unfold merged. rewrite reprio_uid. unfold reprio.
  destruct (Z.eqb_spec (tcap_uid y) s) as [E|E]; simpl; (split; [by exists y|split; [done|]]).
  - done.
  - intros _ z Hz. by apply Hm.
Qed.

Lemma merged_mono s p ds ss ds' ss' x :
  merged s p ds ss x -> (forall y, y ∈ ds -> y ∈ ds') -> (forall y, y ∈ ss -> y ∈ ss') ->
  (forall y, y ∈ ds' \/ y ∈ ss' -> y ∈ ds \/ y ∈ ss \/ tcap_uid y <> tcap_uid x) ->
  merged s p ds' ss' x.
Proof.
  intros ((y & Hy & Eu & Ep) & H2 & H3) Hd Hs Hn. split_and!; [|done|].
  - exists y. split; [destruct Hy; auto|done].
  - intros Hx z Hz Ez. destruct (Hn z Hz) as [?|[?|?]]; [apply H3; auto..|done].
Qed.

(** The elements of a sorted list have larger identifiers than its head, and
    what the merge yields has the identifier of an element. *)
Lemma merged_uid s p ds ss x u :
  merged s p ds ss x -> (forall y, y ∈ ds \/ y ∈ ss -> u < tcap_uid y) -> u < tcap_uid x.
Proof. intros ((y & Hy & <- & _) & _) H. auto. Qed.

Definition merge_good (s p : Z) (ds ss : list tcap_sched_info) : Prop :=
  let m := merge_delegs s p ds ss in
  StronglySorted uid_lt m /\ (forall x, x ∈ m -> merged s p ds ss x) /\
  (forall y, y ∈ ds \/ y ∈ ss -> exists x, x ∈ m /\ tcap_uid x = tcap_uid y).

(** A merge whose first element comes before all others. *)
Lemma merge_good_cons s p ds ss ds' ss' v :
  merge_good s p ds' ss' -> merge_delegs s p ds ss = v :: merge_delegs s p ds' ss' ->
  merged s p ds ss v -> (forall y, y ∈ ds' -> y ∈ ds) -> (forall y, y ∈ ss' -> y ∈ ss) ->
  (forall y, y ∈ ds' \/ y ∈ ss' -> tcap_uid v < tcap_uid y) ->
  (forall y, y ∈ ds \/ y ∈ ss -> y ∈ ds' \/ y ∈ ss' \/ tcap_uid y = tcap_uid v) ->
  merge_good s p ds ss.
Proof.
  intros (G1 & G2 & G3) E Hv Hd Hs Hlt Hsplit. unfold merge_good. rewrite E. cbv zeta.
  assert (Hx : forall x, x ∈ merge_delegs s p ds' ss' -> tcap_uid v < tcap_uid x).
  { intros x Hx. eapply merged_uid; [by apply G2|done]. }
  split_and!.
  - constructor; [done|]. apply Forall_forall. apply Hx.
  - intros x [->|Hin]%elem_of_cons; [done|]. eapply merged_mono; [by apply G2|done|done|].
    intros y Hy. destruct (Hsplit y Hy) as [?|[?|Ey]]; [auto..|].
    right; right. specialize (Hx x Hin). lia.
  - intros y Hy. destruct (Hsplit y Hy) as [?|[?|Ey]].
    + destruct (G3 y) as (x & ? & ?); [auto|]. exists x. set_solver.
    + destruct (G3 y) as (x & ? & ?); [auto|]. exists x. set_solver.
    + exists v. set_solver.
Qed.

Lemma merge_good_left s p x ds ss :
  merge_good s p ds ss -> merge_delegs s p (x :: ds) ss = reprio s p x :: merge_delegs s p ds ss ->
  (forall z, z ∈ ds \/ z ∈ ss -> tcap_uid x < tcap_uid z) -> merge_good s p (x :: ds) ss.
Proof.
  intros G E Hlt. eapply (merge_good_cons s p _ _ ds ss (reprio s p x)); rewrite ?reprio_uid;
    [done|done| |set_solver|done|done|].
  - apply merged_reprio; [set_solver|]. intros z Hz Ez.
    destruct (decide (z = x)) as [->|Hne]; [lia|].
    assert (z ∈ ds \/ z ∈ ss) as Hz' by set_solver. specialize (Hlt z Hz'). lia.
  - intros y. rewrite elem_of_cons. intros [[->|?]|?]; auto.
Qed.

Lemma merge_good_right s p ds y ss :
  merge_good s p ds ss -> merge_delegs s p ds (y :: ss) = reprio s p y :: merge_delegs s p ds ss ->
  (forall z, z ∈ ds \/ z ∈ ss -> tcap_uid y < tcap_uid z) -> merge_good s p ds (y :: ss).
Proof.
  intros G E Hlt. eapply (merge_good_cons s p _ _ ds ss (reprio s p y)); rewrite ?reprio_uid;
    [done|done| |done|set_solver|done|].
  - apply merged_reprio; [set_solver|]. intros z Hz Ez.
    destruct (decide (z = y)) as [->|Hne]; [lia|].
    assert (z ∈ ds \/ z ∈ ss) as Hz' by set_solver. specialize (Hlt z Hz'). lia.
  - intros z. rewrite elem_of_cons. intros [?|[->|?]]; auto.
Qed.

Lemma merge_good_both s p x ds y ss :
  merge_good s p ds ss -> tcap_uid x = tcap_uid y ->
  (forall z, z ∈ ds \/ z ∈ ss -> tcap_uid y < tcap_uid z) -> merge_good s p (x :: ds) (y :: ss).
Proof.
  intros G E Hlt. set (v := SInfo (tcap_uid y) (Z.max (prio x) (prio y))).
  eapply (merge_good_cons s p _ _ ds ss (reprio s p v)); rewrite ?reprio_uid;
    [done| | |set_solver|set_solver|done|].
  - rewrite merge_cons_cons, E, Z.ltb_irrefl. by destruct (tcap_uid y >? tcap_uid y) eqn:?; [lia|].
  - assert (Hz : forall z, z ∈ x :: ds \/ z ∈ y :: ss -> tcap_uid z = tcap_uid y -> z = x \/ z = y).
    { intros z. rewrite !elem_of_cons. intros [[->|?]|[->|?]] Ez; auto;
        specialize (Hlt z ltac:(auto)); lia. }
    unfold merged. rewrite reprio_uid. simpl. unfold reprio, v. simpl.
    destruct (Z.eqb_spec (tcap_uid y) s); simpl; split_and!; try done.
    + exists y. set_solver.
    + destruct (Z.max_spec (prio x) (prio y)) as [[_ ->]|[_ ->]]; [exists y|exists x]; set_solver.
    + intros _ z Hz' Ez. destruct (Hz z Hz' Ez); subst; lia.
  - intros z. rewrite !elem_of_cons. intros [[->|?]|[->|?]]; auto.
Qed.

Lemma merge_delegs_good s p ds : forall ss,
  StronglySorted uid_lt ds -> StronglySorted uid_lt ss -> merge_good s p ds ss.
Proof.
  induction ds as [|x ds IHd]; intros ss; induction ss as [|y ss IHs]; intros Sd Ss.
  - split_and!; [constructor|set_solver|set_solver].
  - pose proof (fun z => sorted_cons_lt _ _ z Ss) as Ly. inversion Ss; subst.
    apply merge_good_right; [by apply IHs|done|]. intros z [?|?]; [set_solver|auto].
  - pose proof (fun z => sorted_cons_lt _ _ z Sd) as Lx. inversion Sd; subst.
    apply merge_good_left; [by apply IHd|done|]. intros z [?|?]; [auto|set_solver].
  - pose proof (fun z => sorted_cons_lt _ _ z Sd) as Lx. inversion Sd; subst.
    pose proof (fun z => sorted_cons_lt _ _ z Ss) as Ly. inversion Ss; subst.
    pose proof (merge_cons_cons s p x ds y ss) as E.
    destruct (Z.ltb_spec (tcap_uid x) (tcap_uid y)); [|destruct (tcap_uid x >? tcap_uid y) eqn:Eg].
    + apply merge_good_left; [by apply IHd|done|].
      intros z [?|[->|Hz]%elem_of_cons]; [auto|lia|]. specialize (Ly z Hz). lia.
    + apply merge_good_right; [by apply IHs|done|].
      intros z [[->|Hz]%elem_of_cons|?]; [lia| |auto]. specialize (Lx z Hz). lia.
    + apply merge_good_both; [by apply IHd|lia|].
      intros z [Hz|?]; [specialize (Lx z Hz); lia|auto].
Qed.

(** *** The invariant through a delegation *)

Lemma sorted_map_uid l : StronglySorted uid_lt l <-> StronglySorted Z.lt (map tcap_uid l).
Proof.
  induction l as [|x l IH]; simpl; [split; constructor|].
  split; intros H; inversion H as [|? ? Hs Hf]; subst; constructor; try tauto.
  - rewrite Forall_map. exact Hf.
  - rewrite Forall_map in Hf. exact Hf.
Qed.

Lemma repriod_uids s p i t t' :
  repriod s p i t t' -> map tcap_uid (delegations t') = map tcap_uid (delegations t).
Proof.
  intros [_ H]. apply list_eq. intros k. rewrite !list_lookup_fmap.
  destruct (H k) as [->|[_ ->]]; [done|]. destruct (delegations t !! k); [|done].
  simpl. by rewrite reprio_uid.
Qed.

Lemma repriod_ok s p i t t' : repriod s p i t t' -> tcap_ok t -> tcap_ok t' /\ cycles t' = cycles t.
Proof.
  intros Hr [H1 H2 H3 H4 H5]. pose proof (repriod_uids _ _ _ _ _ Hr) as Hu.
  assert (L : length (delegations t') = length (delegations t))
    by (apply (f_equal length) in Hu; by rewrite !length_map in Hu).
  destruct Hr as [E _]. rewrite E. split; [|done]. split; simpl; try done; [by rewrite L|].
  apply sorted_map_uid in H4. apply sorted_map_uid. unfold delegs in *. simpl.
  by rewrite <- firstn_map, Hu, firstn_map.
Qed.

Lemma loop_state_inv s p dst src i j s0 sk T ts :
  loop_state s p dst src i j s0 sk -> active_inv s0 T ts -> dst ∈ T -> src ∈ T ->
  active_inv sk T ts /\ (forall t, cycles (tcap_at sk t) = cycles (tcap_at s0 t)).
Proof.
  intros [F O D S] [Hl Ha Hok Hb] Hd Hs.
  destruct (repriod_ok _ _ _ _ _ D (Hok dst Hd)) as [Od Cd].
  destruct (repriod_ok _ _ _ _ _ S (Hok src Hs)) as [Os Cs].
  assert (C : forall t, cycles (tcap_at sk t) = cycles (tcap_at s0 t)).
  { intros t. destruct (decide (t = dst)) as [->|]; [done|].
    destruct (decide (t = src)) as [->|]; [done|]. by rewrite O. }
  split; [|done]. split; [|done| |].
  - rewrite F. by eapply alist_mem; [|exact Hl].
  - intros t Ht. destruct (decide (t = dst)) as [->|]; [done|].
    destruct (decide (t = src)) as [->|]; [done|]. rewrite O by done. by apply Hok.
  - intros t Ht. rewrite C. by apply Hb.
Qed.

Lemma last_pos_none d n l si :
  (forall x, x ∈ l -> tcap_uid x <> d) -> last_pos d n l si = si.
Proof.
  revert n si. induction l as [|v l IH]; intros n si H; [done|]. simpl.
  destruct (Z.eqb_spec d (tcap_uid v)) as [->|]; [|apply IH; set_solver].
  by destruct (H v ltac:(set_solver)).
Qed.

Lemma last_pos_sorted d n l si k x :
  StronglySorted uid_lt l -> l !! k = Some x -> tcap_uid x = d ->
  last_pos d n l si = n + Z.of_nat k.
Proof.
  intros Hs. revert n si k. induction l as [|v l IH]; intros n si [|k] Hk Hx; simplify_eq/=.
  - rewrite Z.eqb_refl, last_pos_none; [lia|]. intros y Hy.
    pose proof (sorted_cons_lt _ _ _ Hs Hy). lia.
  - inversion Hs; subst. rewrite (IH ltac:(done) (n + 1) _ k Hk eq_refl). lia.
Qed.

(** *** The commit of a delegation *)

(** The end of [tcap_delegate], once the budget is transferred. *)
Definition delegate_commit (dst p : Z) (tmp : list tcap_sched_info) (si : Z) : K Z :=
  td <- get_tcap dst ;;
  let n := Z.of_nat (length tmp) in
  let ds := tmp ++ drop (length tmp) (delegations td) in
  massert (n >=? 2) ;; massert (negb (si =? -1)) ;;
  set_tcap dst (tc_set_sched n si p ds td) ;;
  tcap_setprio dst p ;;
  ret 0.

Definition committed (p : Z) (m : list tcap_sched_info) (k : nat) (d : Z) (t : tcap) : tcap :=
  tc_set_sched (Z.of_nat (length m)) (Z.of_nat k) p
    (<[k := SInfo d p]> m ++ drop (length m) (delegations t)) t.

Lemma delegate_commit_Ok dst p m k x s :
  PAGE_SIZE <= dst -> (2 <= length m)%nat -> m !! k = Some x ->
  delegate_commit dst p m (Z.of_nat k) s =
  Ok 0 (tcap_put dst (committed p m k (tcap_uid x) (tcap_at s dst)) s).
Proof.
  intros Hd Hm Hk. pose proof (lookup_lt_Some _ _ _ Hk) as Hlt. unfold delegate_commit. tstep.
  rewrite (bind_Ok (massert _) _ s tt s) by (apply massert_Ok; lia).
  rewrite (bind_Ok (massert _) _ s tt s) by (apply massert_Ok; lia). tstep.
  match goal with |- bind _ _ ?u = _ => set (s1 := u) end.
  assert (E1 : tcap_at s1 dst = tc_set_sched (Z.of_nat (length m)) (Z.of_nat k) p
    (m ++ drop (length m) (delegations (tcap_at s dst))) (tcap_at s dst)) by apply tcap_at_put_eq.
  assert (Hx : delegations (tcap_at s1 dst) !! Z.to_nat (curr_sched_off (tcap_at s1 dst)) = Some x)
    by (rewrite E1; simpl; rewrite Nat2Z.id; by apply lookup_app_l_Some).
  unfold tcap_setprio. assert (N0 : negb (dst =? 0) = true) by (unfold PAGE_SIZE in *; lia).
  rewrite N0, bind_assoc, (bind_Ok _ _ _ _ _ (massert_Ok true s1 eq_refl)), bind_assoc. tstep.
  rewrite bind_assoc, (bind_Ok _ _ _ _ _ (sched_info_Ok dst s1 x Hd Hx)).
  rewrite (bind_Ok _ _ _ _ _ (set_deleg_Ok dst _ (SInfo (tcap_uid x) p) s1 x Hd Hx)).
  unfold ret. f_equal. rewrite E1. unfold s1. rewrite tcap_put_twice. f_equal.
  unfold committed, tc_set_sched. simpl. f_equal. rewrite Nat2Z.id. by apply insert_app_l.
Qed.

Section delegation.
Context (dst src amount p : Z) (s0 : kstate) (T ts : list Z) (xd xs : tcap_sched_info).
Hypothesis (Hinv : active_inv s0 T ts) (Hdst : dst ∈ T) (Hsrc : src ∈ ts) (Hne : dst <> src).
Hypothesis (Ham : 0 <= amount < 4294967296).
Hypothesis (Cs : tc_cpuid (tcap_at s0 src) = cpuid (kcli s0)).
Hypothesis (Cd : tc_cpuid (tcap_at s0 dst) = cpuid (kcli s0)).
Hypothesis (Hep : arcv_ep (tcap_at s0 dst) <> 0).
Let td := tcap_at s0 dst.
Let tsr := tcap_at s0 src.
Hypothesis (Hxd : delegations td !! Z.to_nat (curr_sched_off td) = Some xd).
Hypothesis (Hxs : delegations tsr !! Z.to_nat (curr_sched_off tsr) = Some xs).
Hypothesis (Huid : tcap_uid xd <> tcap_uid xs).
Let p' := if p =? 0 then prio xs else p.
Let m := merge_delegs (tcap_uid xs) p' (delegs td) (delegs tsr).

Lemma delegate_fold :
  tcap_delegate dst src amount p s0 =
  (r <- delegate_loop 17 dst src (tcap_uid xd) (tcap_uid xs) p' 0 0 [] (-1) ;;
   match r with
   | None => ret (- ENOMEM)
   | Some (tmp, si) =>
       x <- __tcap_budget_xfer dst src amount ;;
       if negb (x =? 0) then ret (- EINVAL) else delegate_commit dst p' tmp si
   end) s0.
Proof.
  destruct Hinv as [Hl Ha Hok Hb]. pose proof (al_sub _ _ _ _ Hl src Hsrc) as HsT.
  pose proof (Ha dst Hdst) as Hd0. pose proof (Ha src HsT) as Hs0.
  pose proof (ok_ndelegs _ (Hok dst Hdst)) as Nd. fold td in Nd.
  unfold tcap_delegate.
  assert (N0 : negb (dst =? 0) && negb (src =? 0) = true) by (unfold PAGE_SIZE in *; lia).
  rewrite N0, (bind_Ok _ _ _ _ _ (massert_Ok true s0 eq_refl)).
  unfold tcap_isactive. rewrite bind_assoc. tstep. rewrite (bind_Ok (ret _) _ s0 _ s0 eq_refl).
  rewrite (bind_Ok (massert _) _ s0 tt s0) by (apply massert_Ok; lia). tstep. fold td.
  destruct (ndelegs td >? TCAP_MAX_DELEGATIONS) eqn:E; [unfold TCAP_MAX_DELEGATIONS in E; lia|].
  tstep. fold tsr. unfold get_cpuid. rewrite (bind_Ok (gets _) _ s0 (cpuid (kcli s0)) s0 eq_refl).
  unfold td, tsr. rewrite Cs, Cd, !Z.eqb_refl. cbn [negb orb].
  rewrite (bind_Ok _ _ _ _ _ (tcap_is_active_Ok _ _ _ _ _ Hl HsT)).
  rewrite bool_decide_true by done. cbn [negb].
  rewrite (bind_Ok _ _ _ _ _ (sched_info_Ok dst s0 xd Hd0 Hxd)).
  rewrite (bind_Ok _ _ _ _ _ (sched_info_Ok src s0 xs Hs0 Hxs)).
  cbv zeta. destruct (Z.eqb_spec dst src); [done|]. reflexivity.
Qed.

(** The merge contains both schedulers. *)
Lemma merge_both : merge_good (tcap_uid xs) p' (delegs td) (delegs tsr) /\ (2 <= length m)%nat /\
  exists k x, m !! k = Some x /\ tcap_uid x = tcap_uid xd.
Proof.
  destruct Hinv as [Hl Ha Hok Hb]. pose proof (al_sub _ _ _ _ Hl src Hsrc) as HsT.
  pose proof (merge_delegs_good (tcap_uid xs) p' _ _ (ok_sorted _ (Hok dst Hdst))
    (ok_sorted _ (Hok src HsT))) as G. fold td tsr in G. split; [done|].
  destruct G as (_ & _ & G). fold m in G.
  assert (Id : xd ∈ delegs td).
  { apply list_elem_of_lookup. exists (Z.to_nat (curr_sched_off td)). apply delegs_lookup.
    split; [|done]. pose proof (ok_off _ (Hok dst Hdst)). fold td in H. lia. }
  assert (Is : xs ∈ delegs tsr).
  { apply list_elem_of_lookup. exists (Z.to_nat (curr_sched_off tsr)). apply delegs_lookup.
    split; [|done]. pose proof (ok_off _ (Hok src HsT)). fold tsr in H. lia. }
  destruct (G xd (or_introl Id)) as (x & Hx & Ex). destruct (G xs (or_intror Is)) as (y & Hy & Ey).
  split.
  - destruct m as [|a [|b l]]; simpl; [set_solver| |lia].
    apply list_elem_of_singleton in Hx, Hy. congruence.
  - apply list_elem_of_lookup in Hx as [k Hk]. by exists k, x.
Qed.

Lemma committed_ok k t :
  (length m <= 16)%nat -> length (delegations t) = 16%nat -> 0 <= cycles t < 4294967296 ->
  (exists x, m !! k = Some x /\ tcap_uid x = tcap_uid xd) ->
  tcap_ok (committed p' m k (tcap_uid xd) t) /\
  delegs (committed p' m k (tcap_uid xd) t) = <[k := SInfo (tcap_uid xd) p']> m.
Proof.
  intros Hm Ht Hc (x & Hk & Ex). pose proof (lookup_lt_Some _ _ _ Hk).
  destruct merge_both as ((Hs & _) & H2 & _). fold m in Hs.
  assert (E : delegs (committed p' m k (tcap_uid xd) t) = <[k := SInfo (tcap_uid xd) p']> m).
  { unfold delegs. simpl. rewrite Nat2Z.id, take_app_length'; [done|]. by rewrite length_insert. }
  split; [|done]. split; [| | |rewrite E|done].
  - simpl. rewrite length_app, length_insert, length_drop, Ht. lia.
  - simpl. lia.
  - simpl. lia.
  - apply sorted_map_uid. apply sorted_map_uid in Hs.
    replace (map tcap_uid (<[k:=_]> m)) with (map tcap_uid m); [done|].
    apply list_eq. intros j. rewrite !list_lookup_fmap. destruct (decide (j = k)) as [->|].
    + rewrite list_lookup_insert_eq by done. rewrite Hk. simpl. by rewrite Ex.
    + by rewrite list_lookup_insert_ne.
Qed.

(** After the loop: the transfer and the commit, on the state [s1]. *)
Lemma delegate_end s1 k x :
  active_inv s1 T ts -> (forall t, cycles (tcap_at s1 t) = cycles (tcap_at s0 t)) ->
  (forall t, tc_cpuid (tcap_at s1 t) = tc_cpuid (tcap_at s0 t)) -> kcli s1 = kcli s0 ->
  (length m <= 16)%nat -> m !! k = Some x -> tcap_uid x = tcap_uid xd ->
  exists r s' ts',
    (x <- __tcap_budget_xfer dst src amount ;;
     if negb (x =? 0) then ret (- EINVAL) else delegate_commit dst p' m (Z.of_nat k)) s1 = Ok r s' /\
    active_inv s' T ts' /\
    match xfer_spec (cycles td) (cycles tsr) amount with
    | Some (bd, bs) => r = 0 /\ cycles (tcap_at s' dst) = bd /\ cycles (tcap_at s' src) = bs /\
        exists t, tcap_at s' dst = committed p' m k (tcap_uid xd) t /\
          delegs (tcap_at s' dst) = <[k := SInfo (tcap_uid xd) p']> m
    | None => r = - EINVAL /\ ts' = ts /\ s' = s1
    end.
Proof.
  intros Hi1 Hc1 Hcpu Hk1 Hm Hk Ex.
  pose proof (budget_xfer_spec dst src amount s1 T ts Hi1 Hdst Hsrc Hne Ham
    ltac:(by rewrite Hcpu, Hk1) ltac:(by rewrite Hcpu, Hk1)) as Hx. cbv zeta in Hx.
  rewrite !Hc1 in Hx. fold td tsr in Hx.
  destruct (xfer_spec (cycles td) (cycles tsr) amount) as [[bd bs]|] eqn:Es.
  - destruct Hx as (s2 & ts2 & Hr & Hi2 & D2 & S2 & O2). rewrite (bind_Ok _ _ _ _ _ Hr).
    change (negb (0 =? 0)) with false. cbv iota. pose proof (ai_addr _ _ _ Hi2 dst Hdst) as Ad.
    rewrite (delegate_commit_Ok dst p' m k x s2 Ad (proj1 (proj2 merge_both)) Hk), Ex.
    pose proof (ai_ok _ _ _ Hi2 dst Hdst) as Ok2.
    destruct (committed_ok k (tcap_at s2 dst) Hm (ok_array _ Ok2) (ok_cycles _ Ok2)
      (ex_intro _ x (conj Hk Ex))) as [Okc Edel].
    eexists _, _, ts2. split_and!; [reflexivity| |done|..]; rewrite ?tcap_at_put_eq.
    + eapply (active_inv_upd dst s2); [done|by eapply alist_mem; [|exact (ai_list _ _ _ Hi2)]|done|
        intros; by apply tcap_at_put_ne| | |done]; rewrite tcap_at_put_eq; [done|].
      exact (ai_budget _ _ _ Hi2 dst Hdst).
    + simpl. by rewrite D2.
    + rewrite tcap_at_put_ne by done. by rewrite S2.
    + by exists (tcap_at s2 dst).
  - rewrite (bind_Ok _ _ _ _ _ Hx). by exists (- EINVAL), s1, ts.
Qed.
End delegation.

(** The delegations [l] that [dst] gets: its own scheduler [d] and the
    delegating one [s] have priority [p]; any other scheduler of [ds] or [ss]
    has the worse (larger) of its priorities there, so that a delegation
    never raises a priority. *)
Definition delegated (d s p : Z) (ds ss l : list tcap_sched_info) : Prop :=
  (forall x, x ∈ l -> tcap_uid x = d \/ tcap_uid x = s -> prio x = p) /\
  (forall x, x ∈ l -> tcap_uid x <> d -> tcap_uid x <> s ->
     (exists y, (y ∈ ds \/ y ∈ ss) /\ tcap_uid y = tcap_uid x /\ prio y = prio x) /\
     forall y, y ∈ ds \/ y ∈ ss -> tcap_uid y = tcap_uid x -> prio y <= prio x) /\
  (forall y, y ∈ ds \/ y ∈ ss -> exists x, x ∈ l /\ tcap_uid x = tcap_uid y).

Lemma delegated_merge d s p ds ss k x0 :
  merge_good s p ds ss -> merge_delegs s p ds ss !! k = Some x0 -> tcap_uid x0 = d ->
  delegated d s p ds ss (<[k := SInfo d p]> (merge_delegs s p ds ss)).
Proof.
  intros (Hs & Hm & Hc) Hk Ed. set (m := merge_delegs s p ds ss) in *.
  pose proof (lookup_lt_Some _ _ _ Hk) as Hlt.
  assert (In : forall x, x ∈ <[k := SInfo d p]> m -> x = SInfo d p \/ x ∈ m /\ tcap_uid x <> d).
  { intros x (j & Hj)%list_elem_of_lookup. destruct (decide (j = k)) as [->|Hne].
    - rewrite list_lookup_insert_eq in Hj by done. left. by simplify_eq.
    - rewrite list_lookup_insert_ne in Hj by done. right.
      assert (x ∈ m) by (apply list_elem_of_lookup; eauto). split; [done|]. intros E.
      assert (x = x0) as -> by (eapply (sorted_uid_inj m); eauto using list_elem_of_lookup_2; congruence).
      apply Hne. eapply NoDup_lookup; [|done|done]. apply NoDup_fmap_1 with (f := tcap_uid).
      apply sorted_map_uid in Hs. clear -Hs. change (tcap_uid <$> m) with (map tcap_uid m).
      induction Hs as [|a l _ IH Hf]; constructor; [|done]. intros Ha.
      rewrite Forall_forall in Hf. specialize (Hf a Ha). lia. }
  split_and!.
  - intros x Hx He. destruct (In x Hx) as [->|[Hx' Hn]]; [done|]. destruct He as [?|He]; [done|].
    by apply (Hm x Hx').
  - intros x Hx N1 N2. destruct (In x Hx) as [->|[Hx' _]]; [done|].
    destruct (Hm x Hx') as ((y & Hy & Eu & Ep) & _ & H3). split; [|by apply H3].
    exists y. auto.
  - intros y Hy. destruct (Hc y Hy) as (x & Hx & Ex). apply list_elem_of_lookup in Hx as [j Hj].
    destruct (decide (j = k)) as [->|].
    + exists (SInfo d p). simplify_eq. split; [|done]. apply list_elem_of_lookup. exists k.
      by apply list_lookup_insert_eq.
    + exists x. split; [|done]. apply list_elem_of_lookup. exists j. by rewrite list_lookup_insert_ne.
Qed.


(** ** The timer *)

(** The deadline that [tcap_timer_update] computes. *)
Definition deadline (left timeout now : Z) : Z :=
  let timer := u64 (now + left) in
  let timeout_cyc := tcap_time2cyc timeout now in
  let timer :=
    if negb (timeout =? TCAP_TIME_NIL) && (timeout_cyc <? timer) then
      if tcap_time_lessthan timeout (tcap_cyc2time now) then now else timeout_cyc
    else timer in
  if cycles_same now timer TCAP_TIMER_DIFF then u64 (now + TCAP_TIMER_DIFF) else timer.

Lemma time2cyc_pos timeout now :
  0 < timeout < 4294967296 -> 0 <= now -> 0 < tcap_time2cyc timeout now.
Proof.
  intros Ht Hn. unfold tcap_time2cyc.
  assert (0 <= Z.lor (u64 (Z.shiftl timeout TCAP_TIME_QUANTUM_ORD)) (TCAP_TIME_MAX_BITS now)) as H0.
  { apply Z.lor_nonneg. split; [by apply Z.mod_pos_bound|]. unfold TCAP_TIME_MAX_BITS.
    apply Z.shiftl_nonneg, Z.shiftr_nonneg, Hn. }
  destruct (Z.eq_dec (Z.lor (u64 (Z.shiftl timeout TCAP_TIME_QUANTUM_ORD)) (TCAP_TIME_MAX_BITS now)) 0)
    as [E|E]; [|lia]. apply Z.lor_eq_0_iff in E as [E _]. revert E. unfold u64, TCAP_TIME_QUANTUM_ORD.
  rewrite Z.shiftl_mul_pow2 by lia. rewrite Z.mod_small by lia. lia.
Qed.

Lemma deadline_bounds left timeout now :
  0 <= left < 4294967296 -> 0 <= timeout < 4294967296 -> 0 <= now ->
  now + left + TCAP_TIMER_DIFF < 18446744073709551616 ->
  0 < deadline left timeout now <= now + Z.max left TCAP_TIMER_DIFF /\
  (timeout <> TCAP_TIME_NIL ->
   deadline left timeout now <= Z.max (now + TCAP_TIMER_DIFF) (tcap_time2cyc timeout now)).
Proof.
  intros Hl Ht Hn Hw. unfold deadline. unfold TCAP_TIMER_DIFF in *.
  unfold u64. rewrite !Z.mod_small by lia. unfold TCAP_TIME_NIL, cycles_same.
  pose proof (time2cyc_pos timeout now) as Hp. cbv zeta.
  destruct (Z.eqb_spec timeout 0) as [->|Hne]; cbn [negb andb].
  - repeat case_match; lia.
  - specialize (Hp ltac:(lia) Hn). destruct (Z.ltb_spec (tcap_time2cyc timeout now) (now + left));
      [destruct (tcap_time_lessthan _ _)|]; repeat case_match; lia.
Qed.


(** ** Examples *)

(** Decision procedures for the invariant on concrete states. *)
Fixpoint linkedb (s : kstate) (l : list Z) : bool :=
  match l with
  | a :: (b :: _) as l' => (word s a =? b) && (word s (b + 4) =? a) && linkedb s l'
  | _ => true
  end.

Definition apartb (x y : Z) : bool := (x + 12 <=? y) || (y + 12 <=? x).

Fixpoint nodes_okb (l : list Z) : bool :=
  match l with
  | [] => true
  | x :: l' => (PAGE_SIZE <=? x) && (x + 12 <=? 4294967296) && forallb (apartb x) l' && nodes_okb l'
  end.

Definition dlistb (s : kstate) (h : Z) (ns : list Z) : bool :=
  nodes_okb (h :: ns) && linkedb s (h :: ns ++ [h]).

Fixpoint uids_sortedb (l : list tcap_sched_info) : bool :=
  match l with
  | [] => true
  | x :: l' => forallb (fun y => tcap_uid x <? tcap_uid y) l' && uids_sortedb l'
  end.

Definition tcap_okb (t : tcap) : bool :=
  (length (delegations t) =? 16)%nat && (1 <=? ndelegs t) && (ndelegs t <=? 16) &&
  (0 <=? curr_sched_off t) && (curr_sched_off t <? ndelegs t) && uids_sortedb (delegs t) &&
  (0 <=? cycles t) && (cycles t <? 4294967296).

Definition active_invb (s : kstate) (T ts : list Z) : bool :=
  let h := cli_tcaps (kcli s) in
  nodes_okb (h :: map active_list T) && dlistb s h (map active_list ts) &&
  forallb (fun t => bool_decide (t ∈ T)) ts &&
  forallb (fun t => bool_decide (t ∈ ts) || dlistb s (active_list t) []) T &&
  forallb (fun t => PAGE_SIZE <=? t) T && forallb (fun t => tcap_okb (tcap_at s t)) T &&
  forallb (fun t => Bool.eqb (bool_decide (t ∈ ts)) (negb (cycles (tcap_at s t) =? 0))) T.

Lemma linkedb_ok s l : linkedb s l = true -> linked s l.
Proof.
  induction l as [|a [|b l] IH]; [done|done|]. intros H. simpl in H.
  apply andb_prop in H as [H H3]. apply andb_prop in H as [H1 H2].
  split; [lia|]. split; [lia|]. by apply IH.
Qed.

Lemma forallb_elem {A} (f : A -> bool) l x : forallb f l = true -> x ∈ l -> f x = true.
Proof. rewrite forallb_forall. intros H Hx. apply H. by apply list_elem_of_In. Qed.

Lemma nodes_okb_ok l : nodes_okb l = true -> nodes_ok l.
Proof.
  induction l as [|x l IH]; intros H; [split_and!; [constructor|set_solver..]|].
  simpl in H. apply andb_prop in H as [H H4]. apply andb_prop in H as [H H3].
  apply (nodes_ok_fresh x l (IH H4)). split; [unfold node_addr; lia|].
  intros y Hy. pose proof (forallb_elem _ _ _ H3 Hy) as Hb. unfold apartb in Hb. unfold apart. lia.
Qed.

Lemma dlistb_ok s h ns : dlistb s h ns = true -> dlist s h ns.
Proof.
  intros [H1 H2]%andb_prop. split; [by apply nodes_okb_ok|by apply linkedb_ok].
Qed.

Lemma tcap_okb_ok t : tcap_okb t = true -> tcap_ok t.
Proof.
  unfold tcap_okb. rewrite !andb_true_iff. intros H.
  assert (Hs : forall l, uids_sortedb l = true -> StronglySorted uid_lt l).
  { induction l as [|x l IH]; intros Hl; constructor; simpl in Hl; apply andb_prop in Hl as [H1 H2];
      [by apply IH|]. apply Forall_forall. intros y Hy. unfold uid_lt.
    pose proof (forallb_elem _ _ _ H1 Hy) as Hb. cbv beta in Hb. lia. }
  split; [apply Nat.eqb_eq, H|lia|lia|apply Hs, H|lia].
Qed.

Lemma active_invb_ok s T ts : active_invb s T ts = true -> active_inv s T ts.
Proof.
  unfold active_invb. cbv zeta. rewrite !andb_true_iff. intros ((((((H1 & H2) & H3) & H4) & H5) & H6) & H7).
  split; [split|..].
  - by apply nodes_okb_ok.
  - by apply dlistb_ok.
  - intros t Ht. pose proof (forallb_elem _ _ _ H3 Ht) as Hb. by apply bool_decide_eq_true in Hb.
  - intros t Ht Hn. pose proof (forallb_elem _ _ _ H4 Ht) as Hb. simpl in Hb.
    rewrite bool_decide_false in Hb by done. by apply dlistb_ok.
  - intros t Ht. pose proof (forallb_elem _ _ _ H5 Ht) as Hb. cbv beta in Hb. lia.
  - intros t Ht. apply tcap_okb_ok. exact (forallb_elem _ _ _ H6 Ht).
  - intros t Ht. pose proof (forallb_elem _ _ _ H7 Ht) as Hb. simpl in Hb.
    apply eqb_prop in Hb. destruct (Z.eqb_spec (cycles (tcap_at s t)) 0) as [E|E]; simpl in Hb.
    + apply bool_decide_eq_false in Hb. split; [done|lia].
    + apply bool_decide_eq_true in Hb. done.
Qed.

(** Two temporal capabilities bound to a thread: one with 1000 cycles and
    priority 5, the other without budget. *)
Definition tc0 : kstate :=
  run_state kstate0
    ((set_cli (Cli 0 0 8192 4096 1 0 0 0 (NextTi 0 0 0 0)) ;; tcap_active_init ;;
      __tcap_init 8192 ;; __tcap_init 12288 ;; tcap_promote 8192 65536 ;; tcap_promote 12288 69632 ;;
      tc <- get_tcap 8192 ;; set_tcap 8192 (tc_set_cycles 1000 tc) ;; tcap_setprio 8192 5 ;;
      list_add 4096 (active_list 8192)) kstate0).
Definition tc_all : list Z := [8192; 12288].

Lemma tc0_inv : active_inv tc0 tc_all [8192].
Proof. apply active_invb_ok. by vm_compute. Qed.

Lemma tc_all_elem : 8192 ∈ tc_all /\ 12288 ∈ tc_all.
Proof. unfold tc_all. set_solver. Qed.

#[global] Opaque tc0.

Lemma tcap_budget_xfer_correct_witness :
  exists s' ts', __tcap_budget_xfer 12288 8192 400 tc0 = Ok 0 s' /\ active_inv s' tc_all ts' /\
    cycles (tcap_at s' 12288) = 400 /\ cycles (tcap_at s' 8192) = 600.
Proof.
  assert (Ec : cycles (tcap_at tc0 12288) = 0 /\ cycles (tcap_at tc0 8192) = 1000) by (by vm_compute).
  pose proof (tcap_budget_xfer_correct 12288 8192 400 tc0 tc_all [8192] tc0_inv
    (proj2 tc_all_elem) ltac:(set_solver) ltac:(lia) ltac:(lia) ltac:(by vm_compute)
    ltac:(by vm_compute)) as H.
  cbv zeta in H. destruct Ec as [E1 E2]. rewrite E1, E2 in H.
  change (xfer_spec 0 1000 400) with (Some (400, 600)) in H.
  destruct H as (s' & ts' & H1 & H2 & H3 & H4 & _). exists s', ts'.
  rewrite H3, H4. exact (conj H1 (conj H2 (conj eq_refl eq_refl))).
Defined.

Lemma tcap_higher_prio_correct_witness :
  exists b, tcap_higher_prio 8192 12288 tc0 = Ok b tc0 /\
    (b = true <-> cycles (tcap_at tc0 8192) <> 0 /\
       not_lower (delegs (tcap_at tc0 8192)) (delegs (tcap_at tc0 12288))).
Proof.
  apply tcap_higher_prio_correct; [by vm_compute..| |].
  - apply (ai_ok _ _ _ tc0_inv). apply tc_all_elem.
  - apply (ai_ok _ _ _ tc0_inv). apply tc_all_elem.
Defined.

Lemma tcap_consume_correct_witness :
  exists r s' ts', tcap_consume 8192 300 tc0 = Ok r s' /\ active_inv s' tc_all ts' /\ r = 700.
Proof.
  assert (E : TCAP_RES_IS_INF (cycles (tcap_at tc0 8192)) = false /\
    expends tc0 8192 300 = false /\ cycles (tcap_at tc0 8192) = 1000) by (by vm_compute).
  destruct (tcap_consume_correct 8192 300 tc0 tc_all [8192] tc0_inv ltac:(set_solver) ltac:(lia))
    as (r & s' & ts' & H1 & H2 & _ & H3).
  exists r, s', ts'. cbv zeta in H3. destruct E as (E1 & E2 & E3). rewrite E1, E2, E3 in H3.
  destruct H3 as [-> _]. exact (conj H1 (conj H2 eq_refl)).
Defined.

(** The own delegations of the two. *)
Lemma tc0_own :
  delegations (tcap_at tc0 12288) !! Z.to_nat (curr_sched_off (tcap_at tc0 12288)) = Some (SInfo 2 0) /\
  delegations (tcap_at tc0 8192) !! Z.to_nat (curr_sched_off (tcap_at tc0 8192)) = Some (SInfo 1 5).
Proof. by vm_compute. Qed.



(** A delegation writes through to the source: the entry of the
    delegating scheduler is changed in place while the lists are merged.  Here
    the source has priority 5; delegating with priority 7 leaves the source
    itself with priority 7, and even a refused delegation (an infinite budget
    from a finite source) does. *)
Theorem tcap_delegate_changes_source :
  exists s0 s1 s2,
    sched_info 8192 s0 = Ok (SInfo 1 5) s0 /\
    tcap_delegate 12288 8192 400 7 s0 = Ok 0 s1 /\ sched_info 8192 s1 = Ok (SInfo 1 7) s1 /\
    tcap_delegate 12288 8192 TCAP_RES_INF 7 s0 = Ok (- EINVAL) s2 /\
    sched_info 8192 s2 = Ok (SInfo 1 7) s2.
Proof.
  exists tc0, (run_state tc0 (tcap_delegate 12288 8192 400 7 tc0)),
    (run_state tc0 (tcap_delegate 12288 8192 TCAP_RES_INF 7 tc0)).
  split_and!; try (apply run_ok; by vm_compute).
  all: apply sched_info_Ok; by vm_compute.
Qed.
