(* ===== verification/CapOps.v ===== *)
(** * Operations on capabilities to tables and kernel memory

    [kernel/include/cap_ops.h], [kernel/captbl.c], the rest of
    [kernel/pgtbl.c] and [pgtbl.h], and the functions of [kernel/capinv.c] that
    release kernel memory: activation and deactivation of capabilities to
    capability and page tables, their construction from parts, freezing and
    the scans that show a table empty.

    A pointer to a capability is its address; [cos_throw] and early returns
    are the branches of the definitions. *)

From S2P Require Import Prelude Config Machine Ertrie Liveness Captbl Retype Pgtbl.

(** [CAP_TYPECHK], [CAP_TYPECHK_CORE] (cos_types.h), with the offset of the
    field [cpuid] *)
Definition CAP_TYPECHK (v t : Z) : K bool :=
  if v =? 0 then ret false else h <- load_hdr v ;; ret (h_type h =? t).
Definition CAP_TYPECHK_CORE (v t off : Z) : K bool :=
  ok <- CAP_TYPECHK v t ;;
  if negb ok then ret false else
  c <- load (v + off) ;; cpu <- get_cpuid ;; ret (i32 c =? cpu).

Definition cap_type (v : Z) : K Z := h <- load_hdr v ;; ret (h_type h).
Definition has_flag (v f : Z) : bool := negb (Z.land v f =? 0).

(** ** [cap_ops.h] *)

(** The slot, or 0 with the error in [*retval] *)
Definition __cap_capactivate_pre (t cap capin type : Z) : K (Z * Z) :=
  ct <- captbl_lkup t cap ;;
  ok <- CAP_TYPECHK ct CAP_CAPTBL ;;
  if negb ok then ret (0, - EINVAL) else
  rf <- load (ct + CC_REFCNT) ;;
  if has_flag rf CAP_MEM_FROZEN_FLAG then ret (0, - EINVAL) else
  tbl <- load (ct + CC_TBL) ;;
  captbl_add tbl capin type.

Definition cap_capdeactivate (ct capin type lid : Z) : K Z :=
  if ct =? 0 then ret (- ENOENT) else
  ty <- cap_type ct ;;
  if negb (ty =? CAP_CAPTBL) then ret (- EINVAL) else
  tbl <- load (ct + CC_TBL) ;;
  captbl_clear tbl capin type lid.

(** The error, or the kernel address and the page-table entry *)
Definition cap_kmem_activate (t cap addr : Z) : K (Z + Z * Z) :=
  massert (negb (t =? 0)) ;;
  pgtblc <- captbl_lkup t cap ;;
  if pgtblc =? 0 then ret (inl (- ENOENT)) else
  ty <- cap_type pgtblc ;; lvl <- load (pgtblc + CC_LVL) ;;
  if negb (ty =? CAP_PGTBL) || negb (lvl =? 0) then ret (inl (- EINVAL)) else
  pt <- load (pgtblc + CC_TBL) ;;
  pgtbl_kmem_act pt (Z.land addr PGTBL_FRAME_MASK).

(** ** [captbl.c] *)

Definition captbl_activate_boot (t cap : Z) : K Z :=
  let! (ctc, r) := captbl_add t cap CAP_CAPTBL in
  if ctc =? 0 then ret r else
  store (ctc + CC_TBL) t ;; store (ctc + CC_LVL) 0 ;;
  h <- load_hdr ctc ;; store_hdr ctc (set_type CAP_CAPTBL h) ;;
  store (ctc + CC_REFCNT) 1 ;; store (ctc + CC_PARENT) 0 ;; ret 0.

Definition captbl_activate (t cap capin toadd lvl : Z) : K Z :=
  let! (ct, r) := __cap_capactivate_pre t cap capin CAP_CAPTBL in
  if ct =? 0 then ret r else
  store (ct + CC_TBL) toadd ;; store (ct + CC_LVL) lvl ;;
  store (ct + CC_REFCNT) 1 ;; store (ct + CC_PARENT) 0 ;; ret 0.

Definition captbl_cons (target_ct cons_cap cons_addr : Z) : K Z :=
  ty <- cap_type target_ct ;; lvl <- load (target_ct + CC_LVL) ;;
  if negb (ty =? CAP_CAPTBL) || negb (lvl =? 0) then ret (- EINVAL) else
  ty <- cap_type cons_cap ;; lvl <- load (cons_cap + CC_LVL) ;;
  if negb (ty =? CAP_CAPTBL) || negb (lvl =? 1) then ret (- EINVAL) else
  captbl_mem <- load (cons_cap + CC_TBL) ;;
  l <- load (cons_cap + CC_REFCNT) ;;
  tf <- load (target_ct + CC_REFCNT) ;;
  if has_flag l CAP_MEM_FROZEN_FLAG || has_flag tf CAP_MEM_FROZEN_FLAG then ret (- EINVAL) else
  if Z.land l CAP_REFCNT_MAX =? CAP_REFCNT_MAX then ret (- EOVERFLOW) else
  c <- cos_cas (cons_cap + CC_REFCNT) l (l + 1) ;;
  if negb (c =? CAS_SUCCESS) then ret (- ECASFAIL) else
  tbl <- load (target_ct + CC_TBL) ;;
  r <- captbl_expand tbl cons_addr captbl_maxdepth captbl_mem ;;
  if negb (r =? 0) then cos_faa (cons_cap + CC_REFCNT) (-1) ;; ret r else
  r <- captbl_expand tbl (u32 (cons_addr + PAGE_SIZE / (2 * CAPTBL_LEAFSZ))) captbl_maxdepth
         (captbl_mem + PAGE_SIZE / 2) ;;
  if negb (r =? 0) then
    captbl_expand tbl cons_addr captbl_maxdepth 0 ;;
    cos_faa (cons_cap + CC_REFCNT) (-1) ;; ret r
  else ret 0.

(** One line of the scan of a leaf: the error, if any *)
Definition leaf_line_scan (ct i : Z) : K (option Z) :=
  h <- captbl_lkup_lvl ct (i * (CACHELINE_SIZE / CAPTBL_LEAFSZ)) (CAPTBL_DEPTH - 1) CAPTBL_DEPTH ;;
  l <- load_hdr h ;;
  if negb (h_amap l =? 0) then ret (Some (- EINVAL)) else
  let ent_size := Z.shiftl 1 (h_size l + CAP_SZ_OFF) in
  curr_ts <- rdtscll ;;
  for_ret (Z.to_nat (CACHELINE_SIZE / ent_size)) 0 (fun j =>
    let header_i := h + j * ent_size in
    massert (header_i <? h + CACHELINE_SIZE) ;;
    hi <- load_hdr header_i ;;
    if hdr_deactivated hi then captbl_quiescent hi curr_ts else ret None).

Definition captbl_leaflvl_scan (ct : Z) : K Z :=
  r <- for_ret (Z.to_nat (Z.shiftl 1 CAPTBL_LEAF_ORD * CAPTBL_LEAFSZ / CACHELINE_SIZE)) 0
         (leaf_line_scan ct) ;;
  match r with Some e => ret e | None => ret 0 end.

Definition captbl_kmem_scan (cap : Z) : K Z :=
  ct <- load (cap + CC_TBL) ;;
  lvl <- load (cap + CC_LVL) ;;
  massert (lvl =? CAPTBL_DEPTH - 1) ;;
  r <- captbl_leaflvl_scan ct ;;
  if negb (r =? 0) then ret r else
  r <- captbl_leaflvl_scan (ct + PAGE_SIZE / 2) ;;
  if negb (r =? 0) then ret r else ret 0.

(** ** Construction of tables from parts, [cap_ops.h] *)

Definition cap_cons_pgtbl (ct ctsub depth expandid : Z) : K Z :=
  pt <- load (ct + CC_TBL) ;; lvl <- load (ct + CC_LVL) ;;
  let! (intern, _) := pgtbl_lkup_lvl pt expandid 0 lvl depth in
  if intern =? 0 then ret (- ENOENT) else
  old_pte <- load intern ;;
  if pgtbl_ispresent old_pte then ret (- EPERM) else
  old_v <- load (ctsub + CC_REFCNT) ;;
  if has_flag old_v CAP_MEM_FROZEN_FLAG then ret (- EINVAL) else
  if Z.land old_v CAP_REFCNT_MAX =? CAP_REFCNT_MAX then ret (- EOVERFLOW) else
  r <- cos_cas (ctsub + CC_REFCNT) old_v (old_v + 1) ;;
  if negb (r =? CAS_SUCCESS) then ret (- ECASFAIL) else
  sub <- load (ctsub + CC_TBL) ;;
  let new_pte := Z.lor (chal_va2pa (Z.land sub PGTBL_FRAME_MASK)) PGTBL_INTERN_DEF in
  r <- cos_cas intern old_pte new_pte ;;
  if negb (r =? CAS_SUCCESS)
  then cos_faa (ctsub + CC_REFCNT) (-1) ;; ret (- ECASFAIL)
  else ret 0.

Definition cap_cons (t capto capsub expandid : Z) : K Z :=
  if capto =? capsub then ret (- EINVAL) else
  ct <- captbl_lkup t capto ;;
  if ct =? 0 then ret (- ENOENT) else
  ty <- cap_type ct ;;
  if negb (ty =? CAP_CAPTBL) && negb (ty =? CAP_PGTBL) then ret (- EINVAL) else
  ctsub <- captbl_lkup t capsub ;;
  if ctsub =? 0 then ret (- ENOENT) else
  tysub <- cap_type ctsub ;;
  if negb (tysub =? ty) then ret (- EINVAL) else
  depth <- load (ctsub + CC_LVL) ;;
  if depth =? 0 then ret (- EINVAL) else
  tbl <- load (ct + CC_TBL) ;; massert (negb (tbl =? 0)) ;;
  if ty =? CAP_CAPTBL then captbl_cons ct ctsub expandid
  else cap_cons_pgtbl ct ctsub depth expandid.

(** The entry that [cap_decons] clears: the error, or its address *)
Definition decons_intern (head ty pruneid lvl : Z) : K (Z + Z) :=
  if (ty =? CAP_CAPTBL) || (ty =? CAP_PGTBL) then
    hl <- load (head + CC_LVL) ;;
    if lvl <=? hl then ret (inl (- EINVAL)) else
    tbl <- load (head + CC_TBL) ;;
    if ty =? CAP_CAPTBL then p <- captbl_lkup_lvl tbl pruneid hl lvl ;; ret (inr p)
    else let! (p, _) := pgtbl_lkup_lvl tbl pruneid 0 hl lvl in ret (inr p)
  else ret (inl (- EINVAL)).

(** Clear the entry at [intern]: [Some r] when the function returns here *)
Definition decons_clear (intern : Z) : K (option Z) :=
  if intern =? 0 then ret (Some (- ENOENT)) else
  old_v <- load intern ;;
  if old_v =? 0 then ret (Some 0) else
  c <- cos_cas intern old_v 0 ;;
  if negb (c =? CAS_SUCCESS) then ret (Some (- ECASFAIL)) else ret None.

Definition cap_decons (t cap capsub pruneid lvl : Z) : K Z :=
  head <- captbl_lkup t cap ;;
  sub <- captbl_lkup t capsub ;;
  if (head =? 0) || (sub =? 0) then ret (- ENOENT) else
  ty <- cap_type head ;; tysub <- cap_type sub ;;
  if negb (ty =? tysub) then ret (- EPERM) else
  r <- decons_intern head ty pruneid lvl ;;
  match r with
  | inl e => ret e
  | inr intern =>
      r1 <- decons_clear intern ;;
      match r1 with
      | Some r => ret r
      | None =>
          ty <- cap_type head ;;
          r2 <- (if ty =? CAP_CAPTBL then
                   tbl <- load (head + CC_TBL) ;; hl <- load (head + CC_LVL) ;;
                   p <- captbl_lkup_lvl tbl (u32 (pruneid + PAGE_SIZE / 2 / CAPTBL_LEAFSZ)) hl lvl ;;
                   decons_clear p
                 else ret None) ;;
          match r2 with
          | Some r => ret r
          | None =>
              l <- load (sub + CC_REFCNT) ;;
              if has_flag l CAP_MEM_FROZEN_FLAG then ret (- EINVAL) else
              cos_faa (sub + CC_REFCNT) (-1) ;; ret 0
          end
      end
  end.

Definition cap_kmem_freeze (t target_cap : Z) : K Z :=
  ch <- captbl_lkup t target_cap ;;
  if ch =? 0 then ret (- EINVAL) else
  ty <- cap_type ch ;;
  if (ty =? CAP_CAPTBL) || (ty =? CAP_PGTBL) then
    l <- load (ch + CC_REFCNT) ;;
    if (Z.land l CAP_REFCNT_MAX >? 1) || has_flag l CAP_MEM_FROZEN_FLAG then ret (- EINVAL) else
    ts <- rdtscll ;; store64 (ch + CC_FROZEN_TS) ts ;;
    r <- cos_cas (ch + CC_REFCNT) l (Z.lor l CAP_MEM_FROZEN_FLAG) ;;
    if negb (r =? CAS_SUCCESS) then ret (- ECASFAIL) else ret 0
  else ret (- EINVAL).

(** A load that need not be aligned: the bytes of two words. *)
Definition load_unaligned (a : Z) : K Z :=
  let b := a - a mod 4 in
  if a mod 4 =? 0 then load a else
  lo <- load b ;; hi <- load (b + 4) ;;
  ret (u32 (Z.shiftr (lo + 4294967296 * hi) (8 * (a mod 4)))).

(** The address is a [void *]: [addr++] advances by one byte. *)
Definition kmem_page_scan (obj_vaddr size : Z) : K Z :=
  r <- for_ret (Z.to_nat (size / 4)) 0 (fun i =>
    v <- load_unaligned (obj_vaddr + i) ;;
    if negb (v =? 0) then ret (Some (- EINVAL)) else ret None) ;;
  match r with Some e => ret e | None => ret 0 end.

(** ** The rest of [pgtbl.h] and [pgtbl.c] *)

(** [pgtbl_update]: load [cr3] *)
Definition pgtbl_update (pt : Z) : K unit :=
  modify (fun s => with_hw (HwRegs pt (tls_base (khw s)) (oneshot (khw s))) s).

Definition pgtbl_translate (pt addr flags : Z) : K (Z * Z) := pgtbl_lkup pt addr flags.

Definition KERNEL_PGD_REGION_OFFSET : Z := PAGE_SIZE - PAGE_SIZE / 4.
Definition KERNEL_PGD_REGION_SIZE : Z := PAGE_SIZE / 4.

(** [memcpy] of [n] words *)
Definition copy_words (n : nat) (dst src : Z) : K unit :=
  for_n n 0 (fun i => v <- load (src + 4 * i) ;; store (dst + 4 * i) v).

Definition pgtbl_create (page curr_pgtbl : Z) : K Z :=
  r <- pgtbl_alloc page ;;
  copy_words (Z.to_nat (KERNEL_PGD_REGION_SIZE / 4)) (page + KERNEL_PGD_REGION_OFFSET)
    (chal_pa2va curr_pgtbl + KERNEL_PGD_REGION_OFFSET) ;;
  ret r.

Definition pgtbl_activate (t cap capin pgtbl lvl : Z) : K Z :=
  let! (pt, r) := __cap_capactivate_pre t cap capin CAP_PGTBL in
  if pt =? 0 then ret r else
  store (pt + CC_TBL) pgtbl ;; store (pt + CC_REFCNT) 1 ;;
  store (pt + CC_PARENT) 0 ;; store (pt + CC_LVL) lvl ;; ret 0.

Definition pgtbl_mapping_scan (pt : Z) : K Z :=
  lvl <- load (pt + CC_LVL) ;;
  if negb (lvl =? PGTBL_DEPTH - 1) then ret (- EINVAL) else
  page <- load (pt + CC_TBL) ;; massert (negb (page =? 0)) ;;
  r <- for_ret (Z.to_nat (PAGE_SIZE / 4)) 0 (fun i =>
    pte <- load (page + 4 * i) ;;
    if has_flag pte PGTBL_PRESENT || has_flag pte PGTBL_COSFRAME then ret (Some (- EINVAL)) else
    if has_flag pte PGTBL_QUIESCENCE then
      t <- ltbl_get_timestamp (Z.shiftr pte PGTBL_PAGEIDX_SHIFT) ;;
      match t with
      | inl _ => ret (Some (- EFAULT))
      | inr past_ts =>
          q <- tlb_quiescence_check past_ts ;;
          if negb q then ret (Some (- EQUIESCENCE)) else ret None
      end
    else ret None) ;;
  match r with Some e => ret e | None => ret 0 end.

Definition cap_memactivate (ct pt frame_cap dest_pt vaddr : Z) : K Z :=
  lvl <- load (pt + CC_LVL) ;; rf <- load (pt + CC_REFCNT) ;;
  if negb (lvl =? 0) || has_flag rf CAP_MEM_FROZEN_FLAG then ret (- EINVAL) else
  dest_pt_h <- captbl_lkup ct dest_pt ;;
  ty <- cap_type dest_pt_h ;;
  if negb (ty =? CAP_PGTBL) then ret (- EINVAL) else
  dl <- load (dest_pt_h + CC_LVL) ;;
  if negb (dl =? 0) then ret (- EINVAL) else
  tbl <- load (pt + CC_TBL) ;;
  let! (pte, _) := pgtbl_lkup_pte tbl frame_cap 0 in
  if pte =? 0 then ret (- EINVAL) else
  orig_v <- load pte ;;
  if negb (has_flag orig_v PGTBL_COSFRAME) || has_flag orig_v PGTBL_COSKMEM then ret (- EPERM) else
  massert (negb (has_flag orig_v PGTBL_QUIESCENCE)) ;;
  let cosframe := Z.land orig_v PGTBL_FRAME_MASK in
  dtbl <- load (dest_pt_h + CC_TBL) ;;
  pgtbl_mapping_add dtbl vaddr cosframe PGTBL_USER_DEF.

(** ** Release of kernel memory, [capinv.c] *)

Definition kmem_unalloc (pte : Z) : K unit :=
  old <- load pte ;;
  massert (has_flag old PGTBL_COSKMEM) ;;
  retypetbl_deref (Z.land old PGTBL_FRAME_MASK) ;;
  store pte (Z.ldiff old PGTBL_COSKMEM).

(** The check of a frozen table: the time it needs to have been frozen *)
Definition deact_quiescent (cap : Z) : K bool :=
  lvl <- load (cap + CC_LVL) ;;
  frozen_ts <- load64 (cap + CC_FROZEN_TS) ;;
  if lvl =? 0 then tlb_quiescence_check frozen_ts
  else curr <- rdtscll ;; ret (QUIESCENCE_CHECK curr frozen_ts KERN_QUIESCENCE_CYCLES).

(** What shows a table empty, by its kind and level *)
Definition deact_scan (cap ty page : Z) : K Z :=
  lvl <- load (cap + CC_LVL) ;;
  if ty =? CAP_CAPTBL then
    if lvl <? CAPTBL_DEPTH - 1 then kmem_page_scan page PAGE_SIZE else captbl_kmem_scan cap
  else
    if lvl =? 0 then kmem_page_scan page (PAGE_SIZE - KERNEL_PGD_REGION_SIZE)
    else if lvl =? PGTBL_DEPTH - 1 then pgtbl_mapping_scan cap
    else kmem_page_scan page PAGE_SIZE.

(** The branches of [kmem_deact_pre] for capability and page tables *)
Definition deact_table_pre (ch ty pa : Z) : K Z :=
  page <- load (ch + CC_TBL) ;;
  l <- load (ch + CC_REFCNT) ;;
  if negb (chal_pa2va pa =? page) then ret (- EINVAL) else
  if negb (has_flag l CAP_MEM_FROZEN_FLAG) then ret (- EQUIESCENCE) else
  q <- deact_quiescent ch ;;
  if negb q then ret (- EQUIESCENCE) else
  c <- cos_cas (ch + CC_REFCNT) l (Z.lor l CAP_MEM_SCAN_FLAG) ;;
  if negb (c =? CAS_SUCCESS) then ret (- ECASFAIL) else
  r <- deact_scan ch ty page ;;
  if negb (r =? 0) then
    cos_cas (ch + CC_REFCNT) (Z.lor l CAP_MEM_SCAN_FLAG)
      (Z.ldiff l (Z.lor CAP_MEM_FROZEN_FLAG CAP_MEM_SCAN_FLAG)) ;;
    ret r
  else cos_cas (ch + CC_REFCNT) (Z.lor l CAP_MEM_SCAN_FLAG) l ;; ret 0.

(** Offset of [t] in [struct cap_thd] *)
Definition CT_T : Z := 4.

(** The result, with [*p_pte] and [*v] *)
Definition kmem_deact_pre (ch ct pgtbl_cap cosframe_addr : Z) : K (Z * (Z * Z)) :=
  massert (negb (ct =? 0) && negb (ch =? 0)) ;;
  if (pgtbl_cap =? 0) || (cosframe_addr =? 0) then ret (- EINVAL, (0, 0)) else
  cap_pt <- captbl_lkup ct pgtbl_cap ;;
  ok <- CAP_TYPECHK cap_pt CAP_PGTBL ;;
  if negb ok then ret (- EINVAL, (0, 0)) else
  pt <- load (cap_pt + CC_TBL) ;;
  let! (pte, _) := pgtbl_lkup_pte pt cosframe_addr 0 in
  old_v <- load pte ;;
  let pa := Z.land old_v PGTBL_FRAME_MASK in
  if negb (has_flag old_v PGTBL_COSKMEM) then ret (- EINVAL, (pte, old_v)) else
  massert (negb (has_flag old_v PGTBL_QUIESCENCE)) ;;
  ty <- cap_type ch ;;
  if (ty =? CAP_CAPTBL) || (ty =? CAP_PGTBL) then
    r <- deact_table_pre ch ty pa ;; ret (r, (pte, old_v))
  else
    t <- load (ch + CT_T) ;;
    if negb (chal_pa2va pa =? t) then ret (- EINVAL, (pte, old_v)) else
    ty <- cap_type ch ;; massert (ty =? CAP_THD) ;; ret (0, (pte, old_v)).

(** [memset] of a page to zero: its words, and the records that lie in it *)
Definition in_page (page a : Z) : bool := (page <=? a) && (a <? page + PAGE_SIZE).
Definition page_zero (page : Z) : K unit :=
  for_n (Z.to_nat (PAGE_SIZE / 4)) 0 (fun i => store (page + 4 * i) 0) ;;
  modify (fun s => with_thd (filter (fun p => in_page page p.1 = false) (kthd s)) s) ;;
  modify (fun s => with_tcap (filter (fun p => in_page page p.1 = false) (ktcap s)) s).

Definition kmem_deact_post (pte old_v : Z) : K Z :=
  let new_v := Z.ldiff old_v PGTBL_COSKMEM in
  c <- cos_cas pte old_v new_v ;;
  if negb (c =? CAS_SUCCESS) then ret (- ECASFAIL) else
  r <- retypetbl_deref (Z.land old_v PGTBL_FRAME_MASK) ;;
  if negb (r =? 0) then cos_cas pte new_v old_v ;; ret r else
  page_zero (chal_pa2va (Z.land old_v PGTBL_FRAME_MASK)) ;; ret 0.

(** The part that [captbl_deactivate] and [pgtbl_deactivate] share after the
    compare-and-swap: release the page, or drop the reference of the parent *)
Definition deact_release (deact_cap parent pte old_v : Z) : K Z :=
  if parent =? 0 then
    r <- kmem_deact_post pte old_v ;;
    if negb (r =? 0) then cos_faa (deact_cap + CC_REFCNT) 1 ;; ret r else ret 0
  else cos_faa (parent + CC_REFCNT) (-1) ;; ret 0.

(** The checks of the reference before deactivation *)
Definition deact_parent_pre (deact_header t parent pgtbl_cap cosframe_addr root : Z)
    : K (Z * (Z * Z)) :=
  if parent =? 0 then
    if root =? 0 then ret (- EINVAL, (0, 0))
    else kmem_deact_pre deact_header t pgtbl_cap cosframe_addr
  else
    if negb (root =? 0) then ret (- EINVAL, (0, 0)) else
    massert ((pgtbl_cap =? 0) && (cosframe_addr =? 0)) ;; ret (0, (0, 0)).

Definition captbl_deactivate (t dest_ct_cap capin lid pgtbl_cap cosframe_addr root : Z) : K Z :=
  tbl <- load (dest_ct_cap + CC_TBL) ;;
  deact_header <- captbl_lkup tbl capin ;;
  ok <- CAP_TYPECHK deact_header CAP_CAPTBL ;;
  if negb ok then ret (- EINVAL) else
  l <- load (deact_header + CC_REFCNT) ;;
  if Z.land l CAP_REFCNT_MAX =? 0 then ret (- EFAULT) else
  if negb (Z.land l CAP_REFCNT_MAX =? 1) then ret (- EINVAL) else
  parent <- load (deact_header + CC_PARENT) ;;
  let! (r, (pte, old_v)) := deact_parent_pre deact_header t parent pgtbl_cap cosframe_addr root in
  if negb (r =? 0) then ret r else
  r <- cap_capdeactivate dest_ct_cap capin CAP_CAPTBL lid ;;
  if negb (r =? 0) then ret r else
  c <- cos_cas (deact_header + CC_REFCNT) l CAP_MEM_FROZEN_FLAG ;;
  if negb (c =? CAS_SUCCESS) then ret (- ECASFAIL) else
  deact_release deact_header parent pte old_v.

Definition pgtbl_deactivate (t dest_ct_cap capin lid pgtbl_cap cosframe_addr root : Z) : K Z :=
  tbl <- load (dest_ct_cap + CC_TBL) ;;
  deact_header <- captbl_lkup tbl capin ;;
  ok <- CAP_TYPECHK deact_header CAP_PGTBL ;;
  if negb ok then ret (- EINVAL) else
  parent <- load (deact_header + CC_PARENT) ;;
  l <- load (deact_header + CC_REFCNT) ;;
  massert (has_flag l CAP_REFCNT_MAX) ;;
  if negb (Z.land l CAP_REFCNT_MAX =? 1) then ret (- EINVAL) else
  let! (r, (pte, old_v)) := deact_parent_pre deact_header t parent pgtbl_cap cosframe_addr root in
  if negb (r =? 0) then ret r else
  c <- cos_cas (deact_header + CC_REFCNT) l CAP_MEM_FROZEN_FLAG ;;
  if negb (c =? CAS_SUCCESS) then ret (- ECASFAIL) else
  r <- deact_release deact_header parent pte old_v ;;
  if negb (r =? 0) then ret r else
  cap_capdeactivate dest_ct_cap capin CAP_PGTBL lid.
