(* ===== verification/Thd.v ===== *)
(** * Threads

    [kernel/include/thd.h] and [platform/i386/chal/call_convention.h]: the
    thread descriptor, its receive end-point and list of events, its stack of
    invocations through components, its registers, and the activation and
    deactivation of thread capabilities.

    A thread is the record [Machine.thread] at its address.  Its list nodes
    are words of memory 1244 and 1256 bytes into it.  A [struct pt_regs *] is
    the frame of the system call in progress or the registers saved in a
    thread. *)

From S2P Require Import Prelude Config Machine DList Ertrie Liveness Captbl Retype Pgtbl Tcap.
From S2P Require Import CapOps.

(** ** Fields *)

Definition event_head (t : Z) : Z := t + 1244.
Definition event_list (t : Z) : Z := t + 1256.

Definition THD_INVSTK_MAXSZ : Z := 32.
Definition THD_STATE_PREEMPTED : Z := 1.
Definition THD_STATE_RCVING : Z := 2.
Definition THD_GET_TID : Z := 0.
Definition COS_UPCALL_THD_CREATE : Z := 0.

Definition upd_thd (t : Z) (f : thread -> thread) : K unit := x <- get_thd t ;; set_thd t (f x).

Definition thd_set_regs (v : pt_regs) (x : thread) : thread :=
  Thd (tid x) (invstk_top x) v (invstk x) (state x) (tls x) (thd_cpuid x) (thd_refcnt x)
    (exec x) (timeout x) (interrupted_thread x) (scheduler_thread x) (rcvcap x).
Definition thd_set_top (v : Z) (x : thread) : thread :=
  Thd (tid x) v (regs x) (invstk x) (state x) (tls x) (thd_cpuid x) (thd_refcnt x)
    (exec x) (timeout x) (interrupted_thread x) (scheduler_thread x) (rcvcap x).
Definition thd_set_invstk (v : list invstk_entry) (x : thread) : thread :=
  Thd (tid x) (invstk_top x) (regs x) v (state x) (tls x) (thd_cpuid x) (thd_refcnt x)
    (exec x) (timeout x) (interrupted_thread x) (scheduler_thread x) (rcvcap x).
Definition thd_set_state (v : Z) (x : thread) : thread :=
  Thd (tid x) (invstk_top x) (regs x) (invstk x) v (tls x) (thd_cpuid x) (thd_refcnt x)
    (exec x) (timeout x) (interrupted_thread x) (scheduler_thread x) (rcvcap x).
Definition thd_set_tls (v : Z) (x : thread) : thread :=
  Thd (tid x) (invstk_top x) (regs x) (invstk x) (state x) v (thd_cpuid x) (thd_refcnt x)
    (exec x) (timeout x) (interrupted_thread x) (scheduler_thread x) (rcvcap x).
Definition thd_set_refcnt (v : Z) (x : thread) : thread :=
  Thd (tid x) (invstk_top x) (regs x) (invstk x) (state x) (tls x) (thd_cpuid x) v
    (exec x) (timeout x) (interrupted_thread x) (scheduler_thread x) (rcvcap x).
Definition thd_set_exec (e tm : Z) (x : thread) : thread :=
  Thd (tid x) (invstk_top x) (regs x) (invstk x) (state x) (tls x) (thd_cpuid x) (thd_refcnt x)
    e tm (interrupted_thread x) (scheduler_thread x) (rcvcap x).
Definition thd_set_interrupted (v : Z) (x : thread) : thread :=
  Thd (tid x) (invstk_top x) (regs x) (invstk x) (state x) (tls x) (thd_cpuid x) (thd_refcnt x)
    (exec x) (timeout x) v (scheduler_thread x) (rcvcap x).
Definition thd_set_sched (v : Z) (x : thread) : thread :=
  Thd (tid x) (invstk_top x) (regs x) (invstk x) (state x) (tls x) (thd_cpuid x) (thd_refcnt x)
    (exec x) (timeout x) (interrupted_thread x) v (rcvcap x).
Definition thd_set_rcvcap (v : rcvcap_info) (x : thread) : thread :=
  Thd (tid x) (invstk_top x) (regs x) (invstk x) (state x) (tls x) (thd_cpuid x) (thd_refcnt x)
    (exec x) (timeout x) (interrupted_thread x) (scheduler_thread x) v.

Definition rc_set_bound (v : Z) (r : rcvcap_info) : rcvcap_info :=
  RcvInfo v (pending r) (rc_refcnt r) (is_all_pending r) (sched_count r) (rcvcap_tcap r)
    (rcvcap_thd_notif r).
Definition rc_set_pending (v : Z) (r : rcvcap_info) : rcvcap_info :=
  RcvInfo (isbound r) v (rc_refcnt r) (is_all_pending r) (sched_count r) (rcvcap_tcap r)
    (rcvcap_thd_notif r).
Definition rc_set_refcnt (v : Z) (r : rcvcap_info) : rcvcap_info :=
  RcvInfo (isbound r) (pending r) v (is_all_pending r) (sched_count r) (rcvcap_tcap r)
    (rcvcap_thd_notif r).
Definition rc_set_all (v : Z) (r : rcvcap_info) : rcvcap_info :=
  RcvInfo (isbound r) (pending r) (rc_refcnt r) v (sched_count r) (rcvcap_tcap r)
    (rcvcap_thd_notif r).
Definition rc_set_count (v : Z) (r : rcvcap_info) : rcvcap_info :=
  RcvInfo (isbound r) (pending r) (rc_refcnt r) (is_all_pending r) v (rcvcap_tcap r)
    (rcvcap_thd_notif r).
Definition rc_set_tcap (v : Z) (r : rcvcap_info) : rcvcap_info :=
  RcvInfo (isbound r) (pending r) (rc_refcnt r) (is_all_pending r) (sched_count r) v
    (rcvcap_thd_notif r).
Definition rc_set_notif (v : Z) (r : rcvcap_info) : rcvcap_info :=
  RcvInfo (isbound r) (pending r) (rc_refcnt r) (is_all_pending r) (sched_count r)
    (rcvcap_tcap r) v.

Definition upd_rcvcap (t : Z) (f : rcvcap_info -> rcvcap_info) : K unit :=
  upd_thd t (fun x => thd_set_rcvcap (f (rcvcap x)) x).

Definition cli_set_thd (t : Z) (c : cos_cpu_local_info) : cos_cpu_local_info :=
  Cli (cpuid c) t (curr_tcap c) (cli_tcaps c) (cli_tcap_uid c) (cli_cycles c) (next_timer c)
    (cli_invstk_top c) (next_ti c).
Definition cli_set_top (v : Z) (c : cos_cpu_local_info) : cos_cpu_local_info :=
  Cli (cpuid c) (curr_thd c) (curr_tcap c) (cli_tcaps c) (cli_tcap_uid c) (cli_cycles c)
    (next_timer c) v (next_ti c).

(** ** Registers, [call_convention.h] *)

(** A [struct pt_regs *] *)
Inductive regs_ptr := UserRegs | ThdRegs (t : Z).

Definition get_regs (p : regs_ptr) : K pt_regs :=
  match p with
  | UserRegs => gets kregs
  | ThdRegs t => x <- get_thd t ;; ret (regs x)
  end.
Definition set_regs (p : regs_ptr) (r : pt_regs) : K unit :=
  match p with
  | UserRegs => modify (with_regs r)
  | ThdRegs t => upd_thd t (thd_set_regs r)
  end.

Definition COS_CAPABILITY_OFFSET : Z := 16.

Definition regs_setret (v : Z) (r : pt_regs) : pt_regs :=
  Regs (r_bx r) (r_cx r) (r_dx r) (r_si r) (r_di r) (r_bp r) (u32 v) (r_ds r) (r_es r) (r_fs r)
    (r_gs r) (r_orig_ax r) (r_ip r) (r_cs r) (r_flags r) (r_sp r) (r_ss r).
Definition __userregs_setret (p : regs_ptr) (v : Z) : K unit :=
  r <- get_regs p ;; set_regs p (regs_setret v r).

Definition __userregs_getsp (r : pt_regs) : Z := r_bp r.
Definition __userregs_getip (r : pt_regs) : Z := r_cx r.
Definition __userregs_getcap (r : pt_regs) : Z :=
  u32 (Z.shiftr (r_ax r) COS_CAPABILITY_OFFSET - 1).
Definition __userregs_getop (r : pt_regs) : Z :=
  Z.land (r_ax r) (Z.shiftl 1 COS_CAPABILITY_OFFSET - 1).
Definition __userregs_getinvret (r : pt_regs) : Z := r_cx r.

Definition regs_set (v sp ip : Z) (r : pt_regs) : pt_regs :=
  Regs (r_bx r) (u32 sp) (u32 ip) (r_si r) (r_di r) (r_bp r) (u32 v) (r_ds r) (r_es r) (r_fs r)
    (r_gs r) (r_orig_ax r) (u32 ip) (r_cs r) (r_flags r) (u32 sp) (r_ss r).
Definition __userregs_set (p : regs_ptr) (v sp ip : Z) : K unit :=
  r <- get_regs p ;; set_regs p (regs_set v sp ip r).

Definition regs_setretvals (v v1 v2 v3 : Z) (r : pt_regs) : pt_regs :=
  Regs (u32 v3) (r_cx r) (r_dx r) (u32 v1) (u32 v2) (r_bp r) (u32 v) (r_ds r) (r_es r) (r_fs r)
    (r_gs r) (r_orig_ax r) (r_ip r) (r_cs r) (r_flags r) (r_sp r) (r_ss r).
Definition __userregs_setretvals (p : regs_ptr) (v v1 v2 v3 : Z) : K unit :=
  r <- get_regs p ;; set_regs p (regs_setretvals v v1 v2 v3 r).

Definition regs_sinvupdate (r : pt_regs) : pt_regs :=
  Regs (r_bx r) (r_cx r) (r_dx r) (r_si r) (r_di r) (r_dx r) (r_ax r) (r_ds r) (r_es r) (r_fs r)
    (r_gs r) (r_orig_ax r) (r_ip r) (r_cs r) (r_flags r) (r_sp r) (r_ss r).
Definition __userregs_sinvupdate (p : regs_ptr) : K unit :=
  r <- get_regs p ;; set_regs p (regs_sinvupdate r).

(** The four arguments are [int]s. *)
Definition __userregs_get1 (r : pt_regs) : Z := i32 (r_bx r).
Definition __userregs_get2 (r : pt_regs) : Z := i32 (r_si r).
Definition __userregs_get3 (r : pt_regs) : Z := i32 (r_di r).
Definition __userregs_get4 (r : pt_regs) : Z := i32 (r_dx r).

Definition gp_regs (from to : pt_regs) : pt_regs :=
  Regs (r_bx from) (r_cx from) (r_dx from) (r_si from) (r_di from) (r_bp from) (r_ax from)
    (r_ds to) (r_es to) (r_fs to) (r_gs to) (r_orig_ax to) (r_ip to) (r_cs to) (r_flags to)
    (r_sp to) (r_ss to).
Definition copy_gp_regs (from to : regs_ptr) : K unit :=
  f <- get_regs from ;; t <- get_regs to ;; set_regs to (gp_regs f t).
Definition copy_all_regs (from to : regs_ptr) : K unit :=
  f <- get_regs from ;; set_regs to f.

(** [__userregs_set(regs, v, __userregs_getsp(regs), __userregs_getip(regs))] *)
Definition userregs_return (p : regs_ptr) (v : Z) : K unit :=
  r <- get_regs p ;; __userregs_set p v (__userregs_getsp r) (__userregs_getip r).

(** ** Receive end-points, [thd.h] *)

Definition thd_upcall_setup (thd entry_addr option arg1 arg2 arg3 : Z) : K unit :=
  cpu <- get_cpuid ;;
  upd_thd thd (fun x =>
    let r := regs x in
    thd_set_regs
      (Regs (u32 arg1) (u32 option) (u32 entry_addr) (u32 arg3) (u32 arg2) (r_bp r)
         (u32 (Z.lor (tid x) (Z.shiftl cpu 16))) (r_ds r) (r_es r) (r_fs r) (r_gs r)
         (r_orig_ax r) (u32 entry_addr) (r_cs r) (r_flags r) (r_sp r) (r_ss r)) x).

Definition thd_rcvcap_take (t : Z) : K unit :=
  upd_rcvcap t (fun r => rc_set_refcnt (i32 (rc_refcnt r + 1)) r).
Definition thd_rcvcap_release (t : Z) : K unit :=
  upd_rcvcap t (fun r => rc_set_refcnt (i32 (rc_refcnt r - 1)) r).
Definition thd_rcvcap_isreferenced (t : Z) : K bool :=
  x <- get_thd t ;; ret (rc_refcnt (rcvcap x) >? 0).
Definition thd_bound2rcvcap (t : Z) : K bool :=
  x <- get_thd t ;; ret (negb (isbound (rcvcap x) =? 0)).
Definition thd_rcvcap_is_sched (t : Z) : K bool := thd_rcvcap_isreferenced t.
Definition thd_rcvcap_tcap (t : Z) : K Z := x <- get_thd t ;; ret (rcvcap_tcap (rcvcap x)).
Definition thd_rcvcap_isroot (t : Z) : K bool :=
  x <- get_thd t ;; ret (t =? rcvcap_thd_notif (rcvcap x)).
Definition thd_rcvcap_sched (t : Z) : K Z :=
  b <- thd_rcvcap_isreferenced t ;;
  if b then ret t else x <- get_thd t ;; ret (rcvcap_thd_notif (rcvcap x)).

(** [rcvcap_tcap] is not initialised. *)
Definition thd_rcvcap_init (t : Z) : K unit :=
  upd_rcvcap t (fun r => RcvInfo 0 0 0 0 0 (rcvcap_tcap r) 0).

Definition thd_rcvcap_evt_enqueue (head t : Z) : K unit :=
  e <- list_empty (event_list t) ;;
  if e && negb (head =? t) then list_enqueue (event_head head) (event_list t) else ret tt.
Definition thd_list_rem (head t : Z) : K unit := list_rem (event_list t).
Definition thd_rcvcap_evt_dequeue (head : Z) : K Z := list_dequeue (event_head head).
Definition thd_track_exec (t : Z) : K bool := e <- list_empty (event_list t) ;; ret (negb e).

Definition thd_rcvcap_all_pending_set (t val : Z) : K unit := upd_rcvcap t (rc_set_all val).
Definition thd_rcvcap_all_pending_get (t : Z) : K Z :=
  x <- get_thd t ;; ret (is_all_pending (rcvcap x)).
Definition thd_rcvcap_all_pending (t : Z) : K Z :=
  x <- get_thd t ;;
  let p := pending (rcvcap x) in
  upd_rcvcap t (rc_set_pending 0) ;;
  thd_rcvcap_all_pending_set t 0 ;;
  e <- list_isempty (event_head t) ;;
  ret (Z.lor (i32 (Z.shiftl p 1)) (b2z (negb e))).
Definition thd_rcvcap_pending (t : Z) : K Z :=
  x <- get_thd t ;;
  if negb (pending (rcvcap x) =? 0) then ret (pending (rcvcap x)) else
  e <- list_isempty (event_head t) ;; ret (b2z (negb e)).
Definition thd_rcvcap_get_counter (t : Z) : K Z := x <- get_thd t ;; ret (sched_count (rcvcap x)).
Definition thd_rcvcap_set_counter (t cntr : Z) : K unit := upd_rcvcap t (rc_set_count cntr).
Definition thd_rcvcap_pending_inc (arcvt : Z) : K unit :=
  upd_rcvcap arcvt (fun r => rc_set_pending (i32 (pending r + 1)) r).
Definition thd_rcvcap_pending_dec (arcvt : Z) : K Z :=
  x <- get_thd arcvt ;;
  let p := pending (rcvcap x) in
  if p =? 0 then ret 0 else
  upd_rcvcap arcvt (fun r => rc_set_pending (i32 (pending r - 1)) r) ;; ret p.

(** The event: its thread's state, execution time and timeout, which are
    reset *)
Definition thd_state_evt_deliver (t : Z) : K (option (Z * Z * Z)) :=
  e <- thd_rcvcap_evt_dequeue t ;;
  b <- thd_bound2rcvcap t ;; massert b ;;
  if e =? 0 then ret None else
  x <- get_thd e ;;
  flag <- (if has_flag (state x) THD_STATE_RCVING then
             p <- thd_rcvcap_pending e ;; ret (if negb (p =? 0) then 0 else Z.shiftl 1 31)
           else ret 0) ;;
  let cyc := exec x in
  upd_thd e (fun x => thd_set_exec 0 (timeout x) x) ;;
  x <- get_thd e ;;
  let tm := timeout x in
  upd_thd e (fun x => thd_set_exec (exec x) 0 x) ;;
  ret (Some (Z.lor (tid x) flag, cyc, tm)).

(** ** The current thread and schedulers *)

Definition thd_current : K Z := c <- get_cli ;; ret (curr_thd c).

(** [invstk_top] is 16 bits wide in the thread. *)
Definition thd_current_update (next prev : Z) : K unit :=
  c <- get_cli ;;
  upd_thd prev (thd_set_top (u16 (cli_invstk_top c))) ;;
  n <- get_thd next ;;
  c <- get_cli ;; set_cli (cli_set_top (invstk_top n) c) ;;
  c <- get_cli ;; set_cli (cli_set_thd next c).

Definition thd_scheduler (thd : Z) : K Z := x <- get_thd thd ;; ret (scheduler_thread x).
Definition thd_scheduler_set (thd sched : Z) : K unit :=
  x <- get_thd thd ;;
  if negb (scheduler_thread x =? sched) then upd_thd thd (thd_set_sched sched) else ret tt.

(** ** The stack of invocations

    An entry is 32 bytes.  The 32 bytes behind the last entry are the fields
    [state], [tls], [cpuid], [refcnt], [exec], [timeout], [interrupted_thread]
    and [scheduler_thread]: they are what index [THD_INVSTK_MAXSZ] denotes. *)

Definition over_entry (x : thread) : invstk_entry :=
  InvEnt (CInfo (LData (state x + 4294967296 * tls x) (u32 (thd_cpuid x))) (thd_refcnt x)
            (exec x) (timeout x))
    (interrupted_thread x) (scheduler_thread x).
Definition thd_set_over (e : invstk_entry) (x : thread) : thread :=
  let ci := ie_ci e in let ep := ld_epoch (liveness ci) in
  Thd (tid x) (invstk_top x) (regs x) (invstk x) (u32 ep) (u32 (ep / 4294967296))
    (i32 (ld_id (liveness ci))) (ci_pgtbl ci) (ci_captbl ci) (comp_nfo ci) (ie_sp e) (ie_ip e)
    (rcvcap x).

Definition get_invstk (t i : Z) : K invstk_entry :=
  x <- get_thd t ;;
  if i =? THD_INVSTK_MAXSZ then ret (over_entry x) else
  if i <? 0 then panic OutOfBounds else
  match invstk x !! Z.to_nat i with Some e => ret e | None => panic OutOfBounds end.
Definition set_invstk (t i : Z) (e : invstk_entry) : K unit :=
  _ <- get_invstk t i ;;
  if i =? THD_INVSTK_MAXSZ then upd_thd t (thd_set_over e)
  else upd_thd t (fun x => thd_set_invstk (<[Z.to_nat i := e]> (invstk x)) x).

Definition curr_invstk_top : K Z := c <- get_cli ;; ret (cli_invstk_top c).
Definition curr_invstk_inc : K Z :=
  c <- get_cli ;; set_cli (cli_set_top (i32 (cli_invstk_top c + 1)) c) ;; ret (cli_invstk_top c).
Definition curr_invstk_dec : K Z :=
  c <- get_cli ;; set_cli (cli_set_top (i32 (cli_invstk_top c - 1)) c) ;; ret (cli_invstk_top c).

(** The component's information, [*ip] and [*sp] *)
Definition thd_invstk_current (curr_thd : Z) : K (comp_info * Z * Z) :=
  top <- curr_invstk_top ;;
  e <- get_invstk curr_thd top ;; ret (ie_ci e, ie_ip e, ie_sp e).

Definition thd_current_pgtbl (thd : Z) : K Z :=
  x <- get_thd thd ;; e <- get_invstk thd (invstk_top x) ;; ret (ci_pgtbl (ie_ci e)).

Definition thd_invstk_push (thd : Z) (ci : comp_info) (ip sp : Z) : K Z :=
  top <- curr_invstk_top ;;
  if top >=? THD_INVSTK_MAXSZ then ret (-1) else
  curr_invstk_inc ;;
  p <- get_invstk thd top ;; set_invstk thd top (InvEnt (ie_ci p) sp ip) ;;
  set_invstk thd (top + 1) (InvEnt ci 0 0) ;;
  ret 0.

(** [None] for NULL *)
Definition thd_invstk_pop (thd : Z) : K (option (comp_info * Z * Z)) :=
  top <- curr_invstk_top ;;
  if top =? 0 then ret None else
  curr_invstk_dec ;; r <- thd_invstk_current thd ;; ret (Some r).

(** ** Activation and deactivation *)

(** Offsets in [struct cap_comp] and [struct cap_thd], and the words of a
    [struct comp_info] *)
Definition CM_ENTRY : Z := 4.
Definition CM_PGD : Z := 8.
Definition CM_CT_TOP : Z := 12.
Definition CM_INFO : Z := 16.
Definition CT_CPUID : Z := 8.

Definition load_ci (a : Z) : K comp_info :=
  ep <- load64 a ;; id <- load (a + 8) ;; pt <- load (a + 12) ;; ct <- load (a + 16) ;;
  nfo <- load (a + 20) ;; ret (CInfo (LData ep id) pt ct nfo).
Definition store_ci (a : Z) (ci : comp_info) : K unit :=
  store64 a (ld_epoch (liveness ci)) ;; store (a + 8) (ld_id (liveness ci)) ;;
  store (a + 12) (ci_pgtbl ci) ;; store (a + 16) (ci_captbl ci) ;; store (a + 20) (comp_nfo ci).

(** [chal_tls_update] (gdt.c) *)
Definition chal_tls_update (addr : Z) : K unit :=
  modify (fun s => with_hw (HwRegs (cr3 (khw s)) (u32 addr) (oneshot (khw s))) s).

(** [memset(thd, 0, sizeof(struct thread))] *)
Definition thd_zero (thd : Z) : K unit :=
  set_thd thd thread0 ;;
  for_n 6 0 (fun i => store (event_head thd + 4 * i) 0).

(** The fields [thd_activate] fills in *)
Definition thd_start (ci : comp_info) (thdid cpu : Z) (x : thread) : thread :=
  Thd (u16 thdid) 0 (regs x) (<[O := InvEnt ci 0 0]> (invstk x)) (state x) (tls x) cpu 1
    (exec x) (timeout x) (interrupted_thread x) (scheduler_thread x) (rcvcap x).

Definition thd_activate (t cap capin thd compcap init_data thdid : Z) : K Z :=
  thd_zero thd ;;
  compc <- captbl_lkup t compcap ;;
  ok <- CAP_TYPECHK compc CAP_COMP ;;
  if negb ok then ret (- EINVAL) else
  let! (tc, r) := __cap_capactivate_pre t cap capin CAP_THD in
  if tc =? 0 then ret r else
  ci <- load_ci (compc + CM_INFO) ;;
  cpu <- get_cpuid ;;
  upd_thd thd (thd_start ci thdid cpu) ;;
  massert (u16 thdid <=? MAX_NUM_THREADS) ;;
  cur <- thd_current ;;
  thd_scheduler_set thd cur ;;
  thd_rcvcap_init thd ;;
  list_head_init (event_head thd) ;;
  list_init (event_list thd) thd ;;
  entry <- load (compc + CM_ENTRY) ;;
  thd_upcall_setup thd entry COS_UPCALL_THD_CREATE init_data 0 0 ;;
  store (tc + CT_T) thd ;; store (tc + CT_CPUID) cpu ;;
  ret 0.

(** The checks of [thd_deactivate]: the result, and what
    [kmem_deact_pre] returned *)
Definition thd_deact_pre (ct thd_header thd pgtbl_cap cosframe_addr root : Z) : K (Z * (Z * Z)) :=
  x <- get_thd thd ;;
  massert (negb (thd_refcnt x =? 0)) ;;
  if thd_refcnt x =? 1 then
    if root =? 0 then ret (- EINVAL, (0, 0)) else
    b <- thd_bound2rcvcap thd ;;
    if b then ret (- EBUSY, (0, 0)) else
    kmem_deact_pre thd_header ct pgtbl_cap cosframe_addr
  else
    if negb (root =? 0) then ret (- EINVAL, (0, 0)) else
    massert (thd_refcnt x >? 1) ;; ret (0, (0, 0)).

Definition thd_deactivate (ct dest_ct capin lid pgtbl_cap cosframe_addr root : Z) : K Z :=
  tbl <- load (dest_ct + CC_TBL) ;;
  thd_header <- captbl_lkup tbl capin ;;
  ok <- CAP_TYPECHK thd_header CAP_THD ;;
  if negb ok then ret (- EINVAL) else
  thd <- load (thd_header + CT_T) ;;
  let! (r, (pte, old_v)) := thd_deact_pre ct thd_header thd pgtbl_cap cosframe_addr root in
  if negb (r =? 0) then ret r else
  r <- cap_capdeactivate dest_ct capin CAP_THD lid ;;
  if negb (r =? 0) then ret r else
  upd_thd thd (fun x => thd_set_refcnt (u32 (thd_refcnt x - 1)) x) ;;
  x <- get_thd thd ;;
  if thd_refcnt x =? 0 then
    c <- get_cli ;;
    (if nt_thd (next_ti c) =? thd then thd_next_thdinfo_update 0 0 0 0 else ret tt) ;;
    kmem_deact_post pte old_v
  else ret 0.

Definition thd_tls_set (ct thd_cap tlsaddr current : Z) : K Z :=
  tc <- captbl_lkup ct thd_cap ;;
  ok <- CAP_TYPECHK_CORE tc CAP_THD CT_CPUID ;;
  if negb ok then ret (- EINVAL) else
  thd <- load (tc + CT_T) ;;
  massert (negb (thd =? 0)) ;;
  upd_thd thd (thd_set_tls (u32 tlsaddr)) ;;
  (if current =? thd then chal_tls_update tlsaddr else ret tt) ;;
  ret 0.

(** [tcap_activate] (tcap.c); [struct cap_tcap] has the layout of
    [struct cap_thd]. *)
Definition tcap_activate (ct cap capin tcap_new : Z) : K Z :=
  massert (negb (tcap_new =? 0)) ;;
  __tcap_init tcap_new ;;
  let! (tc, r) := __cap_capactivate_pre ct cap capin CAP_TCAP in
  if tc =? 0 then ret r else
  x <- get_tcap tcap_new ;;
  store (tc + CT_CPUID) (tc_cpuid x) ;; store (tc + CT_T) tcap_new ;; ret 0.

(** ** Switching *)

Definition thd_preemption_state_update (curr next : Z) (p : regs_ptr) : K unit :=
  upd_thd curr (fun x => thd_set_state (Z.lor (state x) THD_STATE_PREEMPTED) x) ;;
  upd_thd next (thd_set_interrupted curr) ;;
  r <- get_regs p ;; upd_thd curr (thd_set_regs r).

Definition thd_rcvcap_pending_deliver (thd : Z) (p : regs_ptr) : K unit :=
  all_pending <- thd_rcvcap_all_pending_get thd ;;
  ev <- thd_state_evt_deliver thd ;;
  let '(st, cyc, tm) := match ev with Some e => e | None => (0, 0, 0) end in
  pend <- (if negb (all_pending =? 0) then thd_rcvcap_all_pending thd
           else thd_rcvcap_pending_dec thd ;; thd_rcvcap_pending thd) ;;
  __userregs_setretvals p pend st cyc tm.

Definition thd_switch_update (thd : Z) (p : regs_ptr) (issame : bool) : K Z :=
  x <- get_thd thd ;;
  preempt <-
    (if has_flag (state x) THD_STATE_PREEMPTED then
       massert (negb (has_flag (state x) THD_STATE_RCVING)) ;;
       upd_thd thd (fun x => thd_set_state (Z.ldiff (state x) THD_STATE_PREEMPTED) x) ;; ret 1
     else if has_flag (state x) THD_STATE_RCVING then
       massert (negb (has_flag (state x) THD_STATE_PREEMPTED)) ;;
       upd_thd thd (fun x => thd_set_state (Z.ldiff (state x) THD_STATE_RCVING) x) ;;
       thd_rcvcap_pending_deliver thd p ;; ret 0
     else ret 0) ;;
  (if issame && (preempt =? 0) then userregs_return p 0 else ret tt) ;;
  ret preempt.

Definition thd_introspect (t op : Z) : K (Z + Z) :=
  if op =? THD_GET_TID then x <- get_thd t ;; ret (inr (tid x)) else ret (inl (- EINVAL)).
