(* ===== verification/Inv.v ===== *)
(** * Components, invocations, end-points and inter-processor interrupts

    [kernel/include/component.h], [inv.h], [hw.h] and [ipi_cap.h], with
    [cos_cap_ipi_handling] of [kernel/capinv.c]: capabilities to components,
    synchronous invocation and return, asynchronous send and receive
    end-points, hardware interrupts, and the rings by which a core asks
    another one to send. *)

From S2P Require Import Prelude Config Machine DList Ertrie Liveness Captbl Retype Pgtbl Tcap.
From S2P Require Import CapOps Thd.

(** ** [component.h] *)

Definition comp_fill (compc ptc ctc lid entry_addr sa : Z) : K unit :=
  store (compc + CM_ENTRY) entry_addr ;;
  pt <- load (ptc + CC_TBL) ;; store (compc + CM_INFO + 12) pt ;;
  ct <- load (ctc + CC_TBL) ;; store (compc + CM_INFO + 16) ct ;;
  store (compc + CM_INFO + 20) sa ;;
  store (compc + CM_PGD) ptc ;; store (compc + CM_CT_TOP) ctc ;;
  l <- ltbl_get lid ;;
  match l with
  | inl _ => ret tt
  | inr ld => store64 (compc + CM_INFO) (ld_epoch ld) ;; store (compc + CM_INFO + 8) (ld_id ld)
  end.

Definition comp_activate (t cap capin captbl_cap pgtbl_cap lid entry_addr sa : Z) : K Z :=
  ctc <- captbl_lkup t captbl_cap ;;
  ok <- CAP_TYPECHK ctc CAP_CAPTBL ;;
  if negb ok then ret (- EINVAL) else
  lvl <- load (ctc + CC_LVL) ;; if lvl >? 0 then ret (- EINVAL) else
  ptc <- captbl_lkup t pgtbl_cap ;;
  ok <- CAP_TYPECHK ptc CAP_PGTBL ;;
  if negb ok then ret (- EINVAL) else
  lvl <- load (ptc + CC_LVL) ;; if lvl >? 0 then ret (- EINVAL) else
  v <- load (ptc + CC_REFCNT) ;;
  if has_flag v CAP_MEM_FROZEN_FLAG then ret (- EINVAL) else
  c <- cos_cas (ptc + CC_REFCNT) v (v + 1) ;;
  if negb (c =? CAS_SUCCESS) then ret (- ECASFAIL) else
  v <- load (ctc + CC_REFCNT) ;;
  if has_flag v CAP_MEM_FROZEN_FLAG
  then cos_faa (ptc + CC_REFCNT) (-1) ;; ret (- EINVAL) else
  c <- cos_cas (ctc + CC_REFCNT) v (v + 1) ;;
  if negb (c =? CAS_SUCCESS)
  then cos_faa (ptc + CC_REFCNT) (-1) ;; ret (- ECASFAIL) else
  let! (compc, r) := __cap_capactivate_pre t cap capin CAP_COMP in
  if compc =? 0 then
    cos_faa (ctc + CC_REFCNT) (-1) ;; cos_faa (ptc + CC_REFCNT) (-1) ;; ret r
  else comp_fill compc ptc ctc lid entry_addr sa ;; ret 0.

Definition comp_deactivate (ct capin lid : Z) : K Z :=
  tbl <- load (ct + CC_TBL) ;;
  compc <- captbl_lkup tbl capin ;;
  ty <- cap_type compc ;;
  if negb (ty =? CAP_COMP) then ret (- EINVAL) else
  ci <- load_ci (compc + CM_INFO) ;;
  ltbl_expire (liveness ci) ;;
  pgd <- load (compc + CM_PGD) ;; ct_top <- load (compc + CM_CT_TOP) ;;
  r <- cap_capdeactivate ct capin CAP_COMP lid ;;
  if negb (r =? 0) then ret r else
  cos_faa (pgd + CC_REFCNT) (-1) ;; cos_faa (ct_top + CC_REFCNT) (-1) ;; ret 0.

(** ** Capabilities of [inv.h] *)

(** Offsets in [struct cap_sinv], [struct cap_asnd] and [struct cap_arcv] *)
Definition SI_INFO : Z := 4.
Definition SI_ENTRY : Z := 28.
Definition SI_TOKEN : Z := 32.
Definition AS_CPUID : Z := 4.
Definition AS_RCPUID : Z := 8.
Definition AS_RCAPID : Z := 12.
Definition AS_REPOCH : Z := 16.
Definition AS_INFO : Z := 20.
Definition AS_BUDGET : Z := 44.
Definition AS_PERIOD : Z := 48.
Definition AS_REPLENISH : Z := 52.
Definition AR_INFO : Z := 4.
Definition AR_EPOCH : Z := 28.
Definition AR_CPUID : Z := 32.
Definition AR_THD : Z := 36.
Definition AR_DEPTH : Z := 44.

(** The byte [depth] *)
Definition load_depth (arcv : Z) : K Z := w <- load (arcv + AR_DEPTH) ;; ret (u8 w).
Definition store_depth (arcv d : Z) : K unit :=
  w <- load (arcv + AR_DEPTH) ;; store (arcv + AR_DEPTH) (w - u8 w + u8 d).

Definition copy_ci (dst src : Z) : K unit := ci <- load_ci src ;; store_ci dst ci.

Definition sinv_activate (t cap capin comp_cap entry_addr token : Z) : K Z :=
  compc <- captbl_lkup t comp_cap ;;
  ok <- CAP_TYPECHK compc CAP_COMP ;;
  if negb ok then ret (- EINVAL) else
  let! (sinvc, r) := __cap_capactivate_pre t cap capin CAP_SINV in
  if sinvc =? 0 then ret r else
  store (sinvc + SI_TOKEN) token ;;
  copy_ci (sinvc + SI_INFO) (compc + CM_INFO) ;;
  store (sinvc + SI_ENTRY) entry_addr ;; ret 0.

Definition sinv_deactivate (t capin lid : Z) : K Z := cap_capdeactivate t capin CAP_SINV lid.

Definition sret_activate (t cap capin : Z) : K Z :=
  let! (sretc, r) := __cap_capactivate_pre t cap capin CAP_SRET in
  if sretc =? 0 then ret r else ret 0.

Definition sret_deactivate (t capin lid : Z) : K Z := cap_capdeactivate t capin CAP_SRET lid.

Definition asnd_construct (asndc arcvc rcv_cap budget period : Z) : K Z :=
  copy_ci (asndc + AS_INFO) (arcvc + AR_INFO) ;;
  h <- load_hdr asndc ;; store_hdr asndc (set_type CAP_ASND h) ;;
  ep <- load (arcvc + AR_EPOCH) ;; store (asndc + AS_REPOCH) ep ;;
  rc <- load (arcvc + AR_CPUID) ;; store (asndc + AS_RCPUID) rc ;;
  cpu <- get_cpuid ;; store (asndc + AS_CPUID) cpu ;;
  store (asndc + AS_RCAPID) rcv_cap ;;
  store (asndc + AS_PERIOD) period ;; store (asndc + AS_BUDGET) budget ;;
  store (asndc + AS_REPLENISH) budget ;; ret 0.

Definition asnd_activate (t cap capin rcv_captbl rcv_cap budget period : Z) : K Z :=
  rcv_ct <- captbl_lkup t rcv_captbl ;;
  ok <- CAP_TYPECHK rcv_ct CAP_CAPTBL ;;
  if negb ok then ret (- EINVAL) else
  tbl <- load (rcv_ct + CC_TBL) ;;
  arcvc <- captbl_lkup tbl rcv_cap ;;
  ok <- CAP_TYPECHK arcvc CAP_ARCV ;;
  if negb ok then ret (- EINVAL) else
  let! (asndc, r) := __cap_capactivate_pre t cap capin CAP_ASND in
  if asndc =? 0 then ret r else asnd_construct asndc arcvc rcv_cap budget period.

Definition asnd_deactivate (t capin lid : Z) : K Z := cap_capdeactivate t capin CAP_ASND lid.

Definition __arcv_setup (arcv thd tcap notif : Z) : K unit :=
  massert (negb (arcv =? 0) && negb (thd =? 0) && negb (tcap =? 0)) ;;
  b <- thd_bound2rcvcap thd ;; massert (negb b) ;;
  store (arcv + AR_THD) thd ;;
  upd_rcvcap thd (rc_set_notif notif) ;;
  thd_scheduler_set thd notif ;;
  (if negb (notif =? 0) then thd_rcvcap_take notif else ret tt) ;;
  upd_rcvcap thd (rc_set_bound 1) ;;
  upd_rcvcap thd (rc_set_tcap tcap) ;;
  tcap_ref_take tcap ;;
  tcap_promote tcap thd.

Definition __arcv_teardown (arcv thd : Z) : K Z :=
  x <- get_thd thd ;;
  let tcap := rcvcap_tcap (rcvcap x) in
  massert (negb (tcap =? 0)) ;;
  n <- tcap_ref tcap ;; ep <- tcap_rcvcap_thd tcap ;;
  if (n >? 1) && (ep =? thd) then ret (-1) else
  let notif := rcvcap_thd_notif (rcvcap x) in
  (if negb (notif =? 0) then thd_rcvcap_release notif else ret tt) ;;
  upd_rcvcap thd (rc_set_bound 0) ;;
  upd_rcvcap thd (rc_set_tcap 0) ;;
  tcap_ref_release tcap ;;
  tc <- get_tcap tcap ;; set_tcap tcap (tc_set_arcv 0 tc) ;;
  ret 0.

Definition arcv_thd_notif (arcvt : Z) : K Z := x <- get_thd arcvt ;; ret (rcvcap_thd_notif (rcvcap x)).

(** The parent: the error, or its capability and the depth below it *)
Definition arcv_parent (t arcv_cap : Z) (init : bool) : K (Z + Z * Z) :=
  if init then ret (inr (0, 0)) else
  arcv_p <- captbl_lkup t arcv_cap ;;
  ok <- CAP_TYPECHK_CORE arcv_p CAP_ARCV AR_CPUID ;;
  if negb ok then ret (inl (- EINVAL)) else
  d <- load_depth arcv_p ;;
  let depth := u8 (d + 1) in
  if depth >=? ARCV_NOTIF_DEPTH then ret (inl (- EINVAL)) else ret (inr (arcv_p, depth)).

Definition arcv_activate (t cap capin comp_cap thd_cap tcap_cap arcv_cap : Z) (init : bool) : K Z :=
  compc <- captbl_lkup t comp_cap ;;
  ok <- CAP_TYPECHK compc CAP_COMP ;; if negb ok then ret (- EINVAL) else
  thdc <- captbl_lkup t thd_cap ;;
  ok <- CAP_TYPECHK_CORE thdc CAP_THD CT_CPUID ;; if negb ok then ret (- EINVAL) else
  thd <- load (thdc + CT_T) ;;
  tcapc <- captbl_lkup t tcap_cap ;;
  ok <- CAP_TYPECHK_CORE tcapc CAP_TCAP CT_CPUID ;; if negb ok then ret (- EINVAL) else
  b <- thd_bound2rcvcap thd ;; if b then ret (- EINVAL) else
  tc <- thd_rcvcap_tcap thd ;; massert (tc =? 0) ;;
  p <- arcv_parent t arcv_cap init ;;
  match p with
  | inl e => ret e
  | inr (arcv_p, depth) =>
      let! (arcvc, r) := __cap_capactivate_pre t cap capin CAP_ARCV in
      if arcvc =? 0 then ret r else
      copy_ci (arcvc + AR_INFO) (compc + CM_INFO) ;;
      store (arcvc + AR_EPOCH) 0 ;;
      cpu <- get_cpuid ;; store (arcvc + AR_CPUID) cpu ;;
      store_depth arcvc depth ;;
      tcap <- load (tcapc + CT_T) ;;
      notif <- (if init then ret thd else load (arcv_p + AR_THD)) ;;
      __arcv_setup arcvc thd tcap notif ;;
      ret 0
  end.

Definition arcv_deactivate (t capin lid : Z) : K Z :=
  tbl <- load (t + CC_TBL) ;;
  arcvc <- captbl_lkup tbl capin ;;
  ok <- CAP_TYPECHK_CORE arcvc CAP_ARCV AR_CPUID ;;
  if negb ok then ret (- EINVAL) else
  thd <- load (arcvc + AR_THD) ;;
  b <- thd_rcvcap_isreferenced thd ;; if b then ret (- EBUSY) else
  r <- __arcv_teardown arcvc thd ;;
  if negb (r =? 0) then ret (- EBUSY) else
  cap_capdeactivate t capin CAP_ARCV lid.

(** ** Synchronous invocation and return *)

Definition sinv_call (thd sinvc : Z) (p : regs_ptr) : K unit :=
  r <- get_regs p ;;
  let ip := __userregs_getip r in let sp := __userregs_getsp r in
  ci <- load_ci (sinvc + SI_INFO) ;;
  live <- ltbl_isalive (liveness ci) ;;
  if negb live then userregs_return p (- EFAULT) else
  e <- thd_invstk_push thd ci ip sp ;;
  if negb (e =? 0) then __userregs_set p (-1) sp ip else
  pgtbl_update (ci_pgtbl ci) ;;
  __userregs_sinvupdate p ;;
  x <- get_thd thd ;; cpu <- get_cpuid ;;
  token <- load (sinvc + SI_TOKEN) ;; entry <- load (sinvc + SI_ENTRY) ;;
  __userregs_set p (Z.lor (tid x) (Z.shiftl cpu 16)) token entry.

Definition sret_ret (thd : Z) (p : regs_ptr) : K unit :=
  e <- thd_invstk_pop thd ;;
  match e with
  | None => __userregs_set p 3735936685 0 0
  | Some (ci, ip, sp) =>
      live <- ltbl_isalive (liveness ci) ;;
      if negb live then userregs_return p (- EFAULT) else
      pgtbl_update (ci_pgtbl ci) ;;
      r <- get_regs p ;;
      __userregs_set p (__userregs_getinvret r) sp ip
  end.

(** ** Hardware interrupts, [hw.h] *)

Definition HW_IRQ_TOTAL : Z := 256.
Definition HW_IRQ_EXTERNAL_MIN : Z := 32.
Definition HW_IRQ_EXTERNAL_MAX : Z := 63.
Definition ASND_SIZE : Z := 56.
Definition HW_BITMAP : Z := 4.

Definition hw_asnd_cap (hwid : Z) : K Z := gets (fun s => hw_asnd_caps (kx s) + ASND_SIZE * hwid).

Definition hw_asndcap_init : K unit :=
  a <- hw_asnd_cap 0 ;;
  for_n (Z.to_nat (ASND_SIZE * HW_IRQ_TOTAL / 4)) 0 (fun i => store (a + 4 * i) 0).

Definition hw_activate (t cap capin bitmap : Z) : K Z :=
  let! (hwc, r) := __cap_capactivate_pre t cap capin CAP_HW in
  if hwc =? 0 then ret r else
  store (hwc + HW_BITMAP) bitmap ;; ret 0.

Definition hw_deactivate (t capin lid : Z) : K Z := cap_capdeactivate t capin CAP_HW lid.

(** The checks on the interrupt line that attach and detach share *)
Definition hw_line_ok (hwc hwid : Z) : K bool :=
  if (hwid <? HW_IRQ_EXTERNAL_MIN) || (hwid >? HW_IRQ_EXTERNAL_MAX) then ret false else
  bm <- load (hwc + HW_BITMAP) ;;
  ret (has_flag bm (Z.shiftl 1 (hwid - HW_IRQ_EXTERNAL_MIN))).

Definition hw_attach_rcvcap (hwc hwid rcvc rcv_cap : Z) : K Z :=
  ok <- hw_line_ok hwc hwid ;;
  if negb ok then ret (- EINVAL) else
  a <- hw_asnd_cap hwid ;;
  ty <- cap_type a ;;
  if ty =? CAP_ASND then ret (- EEXIST) else asnd_construct a rcvc rcv_cap 0 0.

Definition hw_detach_rcvcap (hwc hwid : Z) : K Z :=
  ok <- hw_line_ok hwc hwid ;;
  if negb ok then ret (- EINVAL) else
  a <- hw_asnd_cap hwid ;;
  for_n (Z.to_nat (ASND_SIZE / 4)) 0 (fun i => store (a + 4 * i) 0) ;; ret 0.

(** ** Rings between cores, [ipi_cap.h] *)

Definition IPI_RING_SIZE : Z := 16.
Definition IPI_RING_MASK : Z := IPI_RING_SIZE - 1.

Definition ring0 : xcore_ring := XRing 0 0 (replicate 16 (IpiData 0 0 comp_info0)).

(** [IPI_cap_dest[dest].IPI_source[src]] *)
Definition ring_at (s : kstate) (dest src : Z) : xcore_ring :=
  default ring0 (IPI_source (kx s) !! (dest, src)).
Definition ring_put (dest src : Z) (r : xcore_ring) (s : kstate) : kstate :=
  with_kx (KX (<[(dest, src) := r]> (IPI_source (kx s))) (ipi_start (kx s))
             (hw_asnd_caps (kx s)) (cyc_usec (kx s))) s.
Definition is_core (c : Z) : bool := (0 <=? c) && (c <? NUM_CPU).
Definition get_ring (dest src : Z) : K xcore_ring :=
  if is_core dest && is_core src then gets (fun s => ring_at s dest src) else panic OutOfBounds.
Definition set_ring (dest src : Z) (r : xcore_ring) : K unit := modify (ring_put dest src r).

(** [None] when the ring is empty *)
Definition cos_ipi_ring_dequeue (dest src : Z) : K (option ipi_cap_data) :=
  r <- get_ring dest src ;;
  if sender r =? receiver r then ret None else
  match ring r !! Z.to_nat (receiver r) with
  | None => panic OutOfBounds
  | Some d =>
      set_ring dest src (XRing (sender r) (Z.land (u32 (receiver r + 1)) IPI_RING_MASK) (ring r)) ;;
      ret (Some d)
  end.

(** [chal_attempt_arcv], [chal_send_ipi] (platform/i386/chal.c) do nothing. *)
Definition chal_attempt_arcv (arcv : Z) : K Z := ret 0.
Definition chal_send_ipi (cpuid : Z) : K unit := ret tt.

Definition handle_ipi_arcv (data : ipi_cap_data) : K unit :=
  let ci := ipi_ci data in
  massert (negb (ci_captbl ci =? 0)) ;;
  arcv <- captbl_lkup (ci_captbl ci) (ipi_capid data) ;;
  ty <- cap_type arcv ;;
  if negb (ty =? CAP_ARCV) then ret tt else
  chal_attempt_arcv arcv ;; ret tt.

Fixpoint process_ring_loop (fuel : nat) (dest src : Z) : K unit :=
  match fuel with
  | O => ret tt
  | S fuel' =>
      d <- cos_ipi_ring_dequeue dest src ;;
      match d with
      | None => ret tt
      | Some data => handle_ipi_arcv data ;; process_ring_loop fuel' dest src
      end
  end.

(** The loop runs once per queued request and once more to find the ring
    empty: [process_ring_drains] shows the fuel is enough. *)
Definition process_ring (dest src : Z) : K unit :=
  r <- get_ring dest src ;;
  process_ring_loop (S (Z.to_nat ((sender r - receiver r) mod IPI_RING_SIZE))) dest src.

Definition cos_ipi_ring_enqueue (dest asnd : Z) : K Z :=
  if dest >=? NUM_CPU then ret (-1) else
  cpu <- get_cpuid ;;
  r <- get_ring dest cpu ;;
  let tail := sender r in
  let delta := Z.land (u32 (tail + 1)) IPI_RING_MASK in
  if delta =? receiver r then ret (-1) else
  capid <- load (asnd + AS_RCAPID) ;; ep <- load (asnd + AS_REPOCH) ;;
  ci <- load_ci (asnd + AS_INFO) ;;
  match ring r !! Z.to_nat tail with
  | None => panic OutOfBounds
  | Some _ =>
      set_ring dest cpu (XRing delta (receiver r) (<[Z.to_nat tail := IpiData capid ep ci]> (ring r))) ;;
      ret 0
  end.

Definition cos_cap_send_ipi (cpu asnd : Z) : K Z :=
  r <- cos_ipi_ring_enqueue (u32 cpu) asnd ;;
  if negb (r =? 0) then ret (-1) else chal_send_ipi cpu ;; ret 0.

(** [cos_cap_ipi_handling] (capinv.c) *)
Definition ipi_scan (cpu idx : Z) : K unit :=
  r <- get_ring cpu idx ;;
  if negb (sender r =? receiver r) then process_ring cpu idx else ret tt.

Definition cos_cap_ipi_handling : K unit :=
  cpu <- get_cpuid ;;
  start <- gets (fun s => default 0 (ipi_start (kx s) !! cpu)) ;;
  modify (fun s => with_kx (KX (IPI_source (kx s))
    (<[cpu := u32 (start + 1) mod NUM_CPU]> (ipi_start (kx s))) (hw_asnd_caps (kx s))
    (cyc_usec (kx s))) s) ;;
  for_n (Z.to_nat (NUM_CPU - start)) start (ipi_scan cpu) ;;
  for_n (Z.to_nat start) 0 (ipi_scan cpu).
