(* ===== verification/Capinv.v ===== *)
(** * System calls

    [kernel/capinv.c]: copying and moving capabilities, switching threads and
    temporal capabilities, notification of schedulers, asynchronous send and
    receive, timer and device interrupts, and the dispatch of system calls by
    the type of the capability and the operation.

    A [struct comp_info *] that points into the invocation stack of the
    current thread is passed as the value it points at: no function writes
    the stack while it holds such a pointer. *)

From S2P Require Import Prelude Config Machine DList Ertrie Liveness Captbl Retype Pgtbl Tcap.
From S2P Require Import CapOps Thd Inv.

(** ** Operations, [syscall_op_t] (cos_types.h) *)

Definition CAPTBL_OP_CPY : Z := 0.
Definition CAPTBL_OP_MOVE : Z := 1.
Definition CAPTBL_OP_CONS : Z := 2.
Definition CAPTBL_OP_DECONS : Z := 3.
Definition CAPTBL_OP_THDACTIVATE : Z := 4.
Definition CAPTBL_OP_THDDEACTIVATE : Z := 5.
Definition CAPTBL_OP_THDTLSSET : Z := 6.
Definition CAPTBL_OP_COMPACTIVATE : Z := 7.
Definition CAPTBL_OP_COMPDEACTIVATE : Z := 8.
Definition CAPTBL_OP_SINVACTIVATE : Z := 9.
Definition CAPTBL_OP_SINVDEACTIVATE : Z := 10.
Definition CAPTBL_OP_SRETACTIVATE : Z := 11.
Definition CAPTBL_OP_SRETDEACTIVATE : Z := 12.
Definition CAPTBL_OP_ASNDACTIVATE : Z := 13.
Definition CAPTBL_OP_ASNDDEACTIVATE : Z := 14.
Definition CAPTBL_OP_ARCVACTIVATE : Z := 15.
Definition CAPTBL_OP_ARCVDEACTIVATE : Z := 16.
Definition CAPTBL_OP_MEMACTIVATE : Z := 17.
Definition CAPTBL_OP_MEMDEACTIVATE : Z := 18.
Definition CAPTBL_OP_MEM_RETYPE2USER : Z := 19.
Definition CAPTBL_OP_MEM_RETYPE2KERN : Z := 20.
Definition CAPTBL_OP_MEM_RETYPE2FRAME : Z := 21.
Definition CAPTBL_OP_PGTBLACTIVATE : Z := 22.
Definition CAPTBL_OP_PGTBLDEACTIVATE : Z := 23.
Definition CAPTBL_OP_CAPTBLACTIVATE : Z := 24.
Definition CAPTBL_OP_CAPTBLDEACTIVATE : Z := 25.
Definition CAPTBL_OP_CAPKMEM_FREEZE : Z := 26.
Definition CAPTBL_OP_CAPTBLDEACTIVATE_ROOT : Z := 27.
Definition CAPTBL_OP_PGTBLDEACTIVATE_ROOT : Z := 28.
Definition CAPTBL_OP_THDDEACTIVATE_ROOT : Z := 29.
Definition CAPTBL_OP_MEMMOVE : Z := 30.
Definition CAPTBL_OP_INTROSPECT : Z := 31.
Definition CAPTBL_OP_TCAP_ACTIVATE : Z := 32.
Definition CAPTBL_OP_TCAP_TRANSFER : Z := 33.
Definition CAPTBL_OP_TCAP_DELEGATE : Z := 34.
Definition CAPTBL_OP_TCAP_MERGE : Z := 35.
Definition CAPTBL_OP_TCAP_WAKEUP : Z := 36.
Definition CAPTBL_OP_HW_ACTIVATE : Z := 37.
Definition CAPTBL_OP_HW_DEACTIVATE : Z := 38.
Definition CAPTBL_OP_HW_ATTACH : Z := 39.
Definition CAPTBL_OP_HW_DETACH : Z := 40.
Definition CAPTBL_OP_HW_MAP : Z := 41.
Definition CAPTBL_OP_HW_CYC_USEC : Z := 42.
Definition CAPTBL_OP_HW_CYC_THRESH : Z := 43.

Definition tlb_mandatory_flush : K unit :=
  t <- rdtscll ;; cpu <- get_cpuid ;;
  modify (fun s => with_tlbq (<[cpu := TlbQ (last_periodic_flush (tlbq s cpu)) t]> (ktlbq s)) s).

(** ** Copy and move *)

(** Reference of the parent when a table's capability is copied: [Some r]
    when the function returns here *)
Definition cpy_table (parent child : Z) : K (option Z) :=
  l <- load (parent + CC_REFCNT) ;;
  if has_flag l CAP_MEM_FROZEN_FLAG then ret (Some (- EINVAL)) else
  if Z.land l CAP_REFCNT_MAX =? CAP_REFCNT_MAX then ret (Some (- EOVERFLOW)) else
  cos_cas (parent + CC_REFCNT) l (l + 1) ;;
  store (child + CC_REFCNT) 1 ;; store (child + CC_PARENT) parent ;; ret None.

(** [memcpy] of the body of a capability of type [type] *)
Definition copy_post (ctto ctfrom type : Z) : K unit :=
  copy_words (Z.to_nat ((__captbl_cap2bytes type - 4) / 4)) (ctto + 4) (ctfrom + 4).

Definition cap_cpy_cap (t cap_to capin_to ctfrom capin_from : Z) : K Z :=
  tbl <- load (ctfrom + CC_TBL) ;;
  ctfrom <- captbl_lkup tbl capin_from ;;
  if ctfrom =? 0 then ret (- ENOENT) else
  type <- cap_type ctfrom ;;
  let! (ctto, r) := __cap_capactivate_pre t cap_to capin_to type in
  if ctto =? 0 then ret (- EINVAL) else
  copy_post ctto ctfrom type ;;
  if type =? CAP_THD then
    thd <- load (ctfrom + CT_T) ;;
    upd_thd thd (fun x => thd_set_refcnt (u32 (thd_refcnt x + 1)) x) ;; ret r
  else if (type =? CAP_CAPTBL) || (type =? CAP_PGTBL) then
    e <- cpy_table ctfrom ctto ;;
    match e with Some e => ret e | None => ret r end
  else ret r.

Definition cap_cpy_page (t cap_to capin_to ctfrom capin_from : Z) : K Z :=
  ctto <- captbl_lkup t cap_to ;;
  if ctto =? 0 then ret (- ENOENT) else
  ty <- cap_type ctto ;;
  if negb (ty =? CAP_PGTBL) then ret (- EINVAL) else
  rf <- load (ctto + CC_REFCNT) ;;
  if has_flag rf CAP_MEM_FROZEN_FLAG then ret (- EINVAL) else
  pt <- load (ctfrom + CC_TBL) ;;
  let! (f, flags) := pgtbl_lkup_pte pt capin_from 0 in
  if f =? 0 then ret (- ENOENT) else
  old_v <- load f ;;
  if has_flag old_v PGTBL_COSFRAME || negb (has_flag old_v PGTBL_USER) then ret (- EPERM) else
  ptto <- load (ctto + CC_TBL) ;;
  pgtbl_mapping_add ptto capin_to (Z.land old_v PGTBL_FRAME_MASK) flags.

Definition cap_cpy (t cap_to capin_to cap_from capin_from : Z) : K Z :=
  ctfrom <- captbl_lkup t cap_from ;;
  if ctfrom =? 0 then ret (- ENOENT) else
  ty <- cap_type ctfrom ;;
  if ty =? CAP_CAPTBL then cap_cpy_cap t cap_to capin_to ctfrom capin_from
  else if ty =? CAP_PGTBL then cap_cpy_page t cap_to capin_to ctfrom capin_from
  else ret (- EINVAL).

Definition cap_move_cap (t cap_to capin_to cap_from ctfrom capin_from : Z) : K Z :=
  tbl <- load (ctfrom + CC_TBL) ;;
  ctfrom <- captbl_lkup tbl capin_from ;;
  if ctfrom =? 0 then ret (- ENOENT) else
  type <- cap_type ctfrom ;;
  r <- (if negb (cap_to =? 0) then
          let! (ctto, _) := __cap_capactivate_pre t cap_to capin_to type in
          if ctto =? 0 then ret (- EINVAL) else copy_post ctto ctfrom type ;; ret 0
        else ret 0) ;;
  if negb (r =? 0) then ret r else
  ctfrom <- captbl_lkup t cap_from ;;
  cap_capdeactivate ctfrom capin_from type 0 ;; ret 0.

Definition cap_move_page (t cap_to capin_to ctfrom capin_from : Z) : K Z :=
  ctto <- captbl_lkup t cap_to ;;
  if ctto =? 0 then ret (- ENOENT) else
  ty <- cap_type ctto ;;
  if negb (ty =? CAP_PGTBL) then ret (- EINVAL) else
  rf <- load (ctto + CC_REFCNT) ;;
  if has_flag rf CAP_MEM_FROZEN_FLAG then ret (- EINVAL) else
  pt <- load (ctfrom + CC_TBL) ;;
  let! (f, _) := pgtbl_lkup_pte pt capin_from 0 in
  if f =? 0 then ret (- ENOENT) else
  old_v <- load f ;;
  ptto <- load (ctto + CC_TBL) ;;
  let! (moveto, _) := pgtbl_lkup_pte ptto capin_to 0 in
  if moveto =? 0 then ret (- ENOENT) else
  old_v_to <- load moveto ;;
  if negb (has_flag old_v PGTBL_COSFRAME) then ret (- EPERM) else
  if has_flag old_v_to (Z.lor PGTBL_COSFRAME PGTBL_PRESENT) then ret (- EPERM) else
  r <- pgtbl_quie_check old_v_to ;;
  if negb (r =? 0) then ret r else
  c <- cos_cas f old_v 0 ;;
  if negb (c =? CAS_SUCCESS) then ret (- ECASFAIL) else
  c <- cos_cas moveto old_v_to old_v ;;
  if negb (c =? CAS_SUCCESS) then ret (- ECASFAIL) else ret 0.

Definition cap_move (t cap_to capin_to cap_from capin_from : Z) : K Z :=
  ctfrom <- captbl_lkup t cap_from ;;
  if ctfrom =? 0 then ret (- ENOENT) else
  ty <- cap_type ctfrom ;;
  if ty =? CAP_CAPTBL then cap_move_cap t cap_to capin_to cap_from ctfrom capin_from
  else if ty =? CAP_PGTBL then cap_move_page t cap_to capin_to ctfrom capin_from
  else ret (- EINVAL).

(** ** Switching threads *)

(** Save the registers of the thread that is switched away from *)
Definition switch_save (p : regs_ptr) (curr : Z) : K unit :=
  x <- get_thd curr ;;
  if negb (has_flag (state x) THD_STATE_PREEMPTED) then
    copy_gp_regs p (ThdRegs curr) ;; userregs_return (ThdRegs curr) 0
  else copy_all_regs p (ThdRegs curr).

Definition cap_thd_switch (p : regs_ptr) (curr next : Z) (ci : comp_info) : K Z :=
  n <- get_thd next ;;
  massert (negb (curr =? 0) && negb (next =? 0)) ;;
  c <- get_thd curr ;; cpu <- get_cpuid ;;
  massert ((thd_cpuid c =? cpu) && (thd_cpuid n =? cpu)) ;;
  if curr =? next then thd_switch_update curr p true else
  e <- get_invstk next (invstk_top n) ;;
  let next_ci := ie_ci e in
  live <- ltbl_isalive (liveness next_ci) ;;
  if negb live then
    massert (negb (has_flag (state c) THD_STATE_PREEMPTED)) ;;
    userregs_return p (- EFAULT) ;; ret 0
  else
  switch_save p curr ;;
  thd_current_update next curr ;;
  (if negb (ci_pgtbl ci =? ci_pgtbl next_ci) then pgtbl_update (ci_pgtbl next_ci) else ret tt) ;;
  (if negb (tls n =? tls c) then chal_tls_update (tls n) else ret tt) ;;
  preempt <- thd_switch_update next (ThdRegs next) false ;;
  cli <- get_cli ;;
  (if negb (nt_thd (next_ti cli) =? 0) && (nt_thd (next_ti cli) =? next)
   then thd_next_thdinfo_update 0 0 0 0 else ret tt) ;;
  copy_all_regs (ThdRegs next) p ;;
  ret preempt.

(** The loop of [notify_parent]; [depth] has reached
    [ARCV_NOTIF_DEPTH - fuel]. *)
Fixpoint notify_loop (fuel : nat) (prev_notif curr_notif : Z) : K unit :=
  if negb (curr_notif =? 0) && negb (curr_notif =? prev_notif) then
    match fuel with
    | O => panic AssertFail
    | S fuel' =>
        thd_rcvcap_evt_enqueue curr_notif prev_notif ;;
        x <- get_thd curr_notif ;;
        if negb (has_flag (state x) THD_STATE_RCVING) then ret tt else
        nx <- arcv_thd_notif curr_notif ;;
        notify_loop fuel' curr_notif nx
    end
  else ret tt.

Definition notify_parent (rcv_thd : Z) : K Z :=
  arcv_notif <- arcv_thd_notif rcv_thd ;;
  notify_loop (Z.to_nat ARCV_NOTIF_DEPTH) rcv_thd arcv_notif ;;
  ret arcv_notif.

(** The next thread and its temporal capability *)
Definition notify_process (rcv_thd thd rcv_tcap tcap : Z) (yield : bool) : K (Z * Z) :=
  notify_parent rcv_thd ;;
  b <- (if yield then ret true else tcap_higher_prio rcv_tcap tcap) ;;
  if b : bool then ret (rcv_thd, rcv_tcap) else ret (thd, tcap).

Definition asnd_process (rcv_thd thd rcv_tcap tcap : Z) (yield : bool) : K (Z * Z) :=
  thd_rcvcap_pending_inc rcv_thd ;;
  notify_process rcv_thd thd rcv_tcap tcap yield.

(** ** Time and priorities: which temporal capability and thread run next *)

(** The choice of [cap_update]: the next thread, its temporal capability, the
    timeout, [switch_away] and [now] *)
Definition update_choose (thd_curr thd_next tc_curr tc_next timeout : Z) (timer_intr_context : bool)
    : K (Z * Z * Z * bool * Z) :=
  let! (e, now) := tcap_budgets_update thd_curr tc_curr in
  if e : bool then
    a <- tcap_is_active tc_curr ;; x <- tcap_expended tc_curr ;;
    massert (negb a && x) ;;
    tc_next <- (if timer_intr_context then thd_rcvcap_tcap thd_next else ret tc_next) ;;
    x <- tcap_expended tc_next ;;
    if x : bool then
      tc_next <- tcap_active_next ;;
      massert (negb (tc_next =? 0)) ;;
      x <- tcap_expended tc_next ;; massert (negb x) ;;
      t <- tcap_rcvcap_thd tc_next ;;
      thd_next <- thd_rcvcap_sched t ;;
      ret (thd_next, tc_next, 0, true, now)
    else ret (thd_next, tc_next, 0, false, now)
  else if timer_intr_context then
    b <- thd_bound2rcvcap thd_curr ;;
    r <- (if b : bool then thd_rcvcap_isreferenced thd_curr else ret false) ;;
    thd_next <- (if r : bool then t <- tcap_rcvcap_thd tc_curr ;; thd_rcvcap_sched t
                 else thd_scheduler thd_curr) ;;
    ret (thd_next, tc_next, timeout, false, now)
  else ret (thd_next, tc_next, timeout, false, now).

Definition cap_update (p : regs_ptr) (thd_curr thd_next tc_curr tc_next timeout : Z)
    (ci : comp_info) (timer_intr_context : bool) : K Z :=
  let! (thd_next, tc_next, timeout, switch_away, now) :=
    update_choose thd_curr thd_next tc_curr tc_next timeout timer_intr_context in
  (if switch_away : bool then notify_parent thd_next ;; ret tt else ret tt) ;;
  tcap_timer_update tc_next timeout now ;;
  tcap_current_set tc_next ;;
  if timer_intr_context && (thd_next =? thd_curr) then ret 1 else
  (if timer_intr_context
   then upd_thd thd_curr (fun x => thd_set_state (Z.lor (state x) THD_STATE_PREEMPTED) x)
   else ret tt) ;;
  cap_thd_switch p thd_curr thd_next ci.

Definition cap_switch (p : regs_ptr) (curr next next_tcap timeout : Z) (ci : comp_info) : K Z :=
  t <- tcap_current ;; cap_update p curr next t next_tcap timeout ci false.

Definition cap_sched_tok_validate (rcvt usr_tok : Z) : K Z :=
  massert (negb (rcvt =? 0) && (usr_tok <? 4294967295)) ;;
  c <- thd_rcvcap_get_counter rcvt ;;
  if c >? usr_tok then ret (- EAGAIN) else
  thd_rcvcap_set_counter rcvt usr_tok ;; ret 0.

(** [(x << 16) >> 16] and [x >> 16] of an [int], as a [capid_t] *)
Definition lo16 (x : Z) : Z := u32 (Z.shiftr (i32 (Z.shiftl x 16)) 16).
Definition hi16 (x : Z) : Z := u32 (Z.shiftr x 16).

(** The end-point that a scheduler passes with a dispatch: the error, or
    whether it has pending events *)
Definition dispatch_rcv (ci : comp_info) (arcv thd usr_counter : Z) : K (Z + Z * bool) :=
  arcv_cap <- captbl_lkup (ci_captbl ci) arcv ;;
  ok <- CAP_TYPECHK_CORE arcv_cap CAP_ARCV AR_CPUID ;;
  if negb ok then ret (inl (- EINVAL)) else
  rcvt <- load (arcv_cap + AR_THD) ;;
  r <- cap_sched_tok_validate rcvt usr_counter ;;
  if negb (r =? 0) then ret (inl r) else
  p <- thd_rcvcap_pending rcvt ;;
  if p >? 0 then
    if thd =? rcvt then ret (inl (- EBUSY)) else ret (inr (rcvt, true))
  else ret (inr (rcvt, false)).

(** The temporal capability of a dispatch: the error, or its address *)
Definition dispatch_tcap (ci : comp_info) (tc : Z) : K (Z + Z) :=
  if tc =? 0 then t <- tcap_current ;; ret (inr t) else
  tcap_cap <- captbl_lkup (ci_captbl ci) tc ;;
  ok <- CAP_TYPECHK_CORE tcap_cap CAP_TCAP CT_CPUID ;;
  if negb ok then ret (inl (- EINVAL)) else
  tcap <- load (tcap_cap + CT_T) ;;
  t <- tcap_rcvcap_thd tcap ;;
  if t =? 0 then ret (inl (- EINVAL)) else
  a <- tcap_is_active tcap ;;
  if negb a then ret (inl (- EPERM)) else ret (inr tcap).

Definition cap_thd_op (thd_cap thd : Z) (p : regs_ptr) (ci : comp_info) : K Z :=
  next <- load (thd_cap + CT_T) ;;
  r <- get_regs p ;;
  let arcv := lo16 (__userregs_get1 r) in
  let tc := hi16 (__userregs_get1 r) in
  let prio_higher := u32 (__userregs_get3 r) in
  let prio_lower := u32 (__userregs_get2 r) in
  let prio := Z.lor (Z.shiftl (Z.shiftr prio_higher 16) 32) prio_lower in
  let usr_counter := Z.lor (Z.shiftr (u32 (Z.shiftl (u32 (__userregs_get3 r)) 16)) 16)
                           (u32 (Z.shiftl (__userregs_getop r) 16)) in
  let timeout := u32 (__userregs_get4 r) in
  cc <- load (thd_cap + CT_CPUID) ;; cpu <- get_cpuid ;; n <- get_thd next ;;
  if negb (i32 cc =? cpu) || negb (i32 cc =? thd_cpuid n) then ret (- EINVAL) else
  d <- (if negb (arcv =? 0) then
          x <- dispatch_rcv ci arcv thd usr_counter ;;
          match x with
          | inl e => ret (inl e)
          | inr (rcvt, true) => ret (inr (rcvt, 0, TCAP_TIME_NIL))
          | inr (rcvt, false) => thd_scheduler_set next rcvt ;; ret (inr (next, tc, timeout))
          end
        else thd_scheduler_set next thd ;; ret (inr (next, tc, timeout))) ;;
  match d with
  | inl e => ret e
  | inr (next, tc, timeout) =>
      t <- dispatch_tcap ci tc ;;
      match t with
      | inl e => ret e
      | inr tcap =>
          rt <- cap_switch p thd next tcap timeout ci ;;
          cur <- tcap_current ;;
          (if negb (tc =? 0) && (cur =? tcap) then tcap_setprio tcap prio else ret tt) ;;
          ret rt
      end
  end.

(** ** Asynchronous send and receive *)

(** 0 for NULL *)
Definition __cap_asnd_to_arcv (asnd : Z) : K Z :=
  ci <- load_ci (asnd + AS_INFO) ;;
  live <- ltbl_isalive (liveness ci) ;;
  if negb live then ret 0 else
  capid <- load (asnd + AS_RCAPID) ;;
  arcv <- captbl_lkup (ci_captbl ci) capid ;;
  ok <- CAP_TYPECHK arcv CAP_ARCV ;;
  if negb ok then ret 0 else ret arcv.

Definition cap_asnd_op (asnd thd : Z) (p : regs_ptr) (ci : comp_info) : K Z :=
  curr_cpu <- get_cpuid ;;
  r <- get_regs p ;;
  let srcv := u32 (__userregs_get1 r) in
  let usr_tok := u32 (__userregs_get2 r) in
  let timeout := u32 (__userregs_get3 r) in
  let yield := negb (__userregs_get4 r =? 0) in
  capid <- load (asnd + AS_RCAPID) ;; massert (negb (capid =? 0)) ;;
  ac <- load (asnd + AS_RCPUID) ;;
  if negb (i32 ac =? curr_cpu) then
    massert (srcv =? 0) ;; cos_cap_send_ipi (i32 ac) asnd
  else
  arcv <- __cap_asnd_to_arcv asnd ;;
  if arcv =? 0 then ret (- EINVAL) else
  rcv_thd <- load (arcv + AR_THD) ;;
  tcap <- tcap_current ;;
  rcv_tcap <- thd_rcvcap_tcap rcv_thd ;;
  massert (negb (rcv_tcap =? 0) && negb (tcap =? 0)) ;;
  if negb (srcv =? 0) then
    d <- dispatch_rcv ci srcv thd usr_tok ;;
    match d with
    | inl e => ret e
    | inr (rcvt, true) => cap_switch p thd rcvt tcap TCAP_TIME_NIL ci
    | inr (rcvt, false) =>
        x <- tcap_expended rcv_tcap ;;
        if x : bool then ret (- EPERM) else
        thd_scheduler_set rcv_thd rcvt ;;
        let! (next, tcap_next) := asnd_process rcv_thd thd rcv_tcap tcap true in
        cap_switch p thd next tcap_next timeout ci
    end
  else
    let! (next, tcap_next) := asnd_process rcv_thd thd rcv_tcap tcap yield in
    cap_switch p thd next tcap_next timeout ci.

Definition cap_hw_asnd (asnd : Z) (p : regs_ptr) : K Z :=
  curr_cpu <- get_cpuid ;;
  ok <- CAP_TYPECHK asnd CAP_ASND ;;
  if negb ok then ret 1 else
  capid <- load (asnd + AS_RCAPID) ;; massert (negb (capid =? 0)) ;;
  ac <- load (asnd + AS_RCPUID) ;;
  if negb (i32 ac =? curr_cpu) then cos_cap_send_ipi (i32 ac) asnd ;; ret 1 else
  arcv <- __cap_asnd_to_arcv asnd ;;
  if arcv =? 0 then ret 1 else
  thd <- thd_current ;; tcap <- tcap_current ;;
  massert (negb (thd =? 0)) ;;
  let! (ci, _, _) := thd_invstk_current thd in
  massert (negb (ci_captbl ci =? 0)) ;;
  x <- get_thd thd ;; massert (negb (has_flag (state x) THD_STATE_PREEMPTED)) ;;
  rcv_thd <- load (arcv + AR_THD) ;;
  rcv_tcap <- thd_rcvcap_tcap rcv_thd ;;
  massert (negb (rcv_tcap =? 0) && negb (tcap =? 0)) ;;
  let! (next, tcap_next) := asnd_process rcv_thd thd rcv_tcap tcap false in
  if next =? thd then ret 1 else
  upd_thd thd (fun x => thd_set_state (Z.lor (state x) THD_STATE_PREEMPTED) x) ;;
  cap_switch p thd next tcap_next TCAP_TIME_NIL ci.

Definition expended_process (p : regs_ptr) (thd_curr : Z) (ci : comp_info)
    (timer_intr_context : bool) : K Z :=
  tc_curr <- tcap_current ;;
  massert (negb (tc_curr =? 0)) ;;
  t <- tcap_rcvcap_thd tc_curr ;;
  thd_next <- thd_rcvcap_sched t ;;
  massert (negb (thd_next =? 0)) ;;
  b <- thd_bound2rcvcap thd_next ;; r <- thd_rcvcap_isreferenced thd_next ;;
  massert (b && r) ;;
  cap_update p thd_curr thd_next tc_curr tc_curr TCAP_TIME_NIL ci timer_intr_context.

Definition timer_process (p : regs_ptr) : K Z :=
  thd_curr <- thd_current ;;
  massert (negb (thd_curr =? 0)) ;;
  x <- get_thd thd_curr ;; cpu <- get_cpuid ;; massert (thd_cpuid x =? cpu) ;;
  let! (comp, _, _) := thd_invstk_current thd_curr in
  expended_process p thd_curr comp true.

(** The preempted or awoken thread that waits, if any: the next thread, its
    temporal capability and the timeout *)
Definition arcv_next (next tc_next : Z) : K (Z * Z * Z) :=
  c <- get_cli ;;
  let nti := next_ti c in
  if nt_thd nti =? 0 then ret (next, tc_next, TCAP_TIME_NIL) else
  massert (negb (nt_tc nti =? 0)) ;;
  tcap_setprio (nt_tc nti) (nt_prio nti) ;;
  sw <- (if negb (nt_budget nti =? 0) then
           now <- rdtscll ;; ret (tcap_cyc2time (u64 (now + nt_budget nti)))
         else ret TCAP_TIME_NIL) ;;
  thd_next_thdinfo_update 0 0 0 0 ;;
  ret (nt_thd nti, nt_tc nti, sw).

(** Block the receiver and switch away.  The branch on [interrupted_thread]
    is dead: the field has just been set to NULL. *)
Definition arcv_block (thd : Z) (p : regs_ptr) (ci : comp_info) (all_pending timeout : Z) : K Z :=
  __userregs_setretvals p 0 0 0 0 ;;
  next <- notify_parent thd ;;
  tc_next <- thd_rcvcap_tcap thd ;;
  let! (next, tc_next, swtimeout) := arcv_next next tc_next in
  upd_thd thd (thd_set_interrupted 0) ;;
  (if negb (thd =? next) then
     x <- get_thd thd ;; massert (negb (has_flag (state x) THD_STATE_PREEMPTED)) ;;
     upd_thd thd (fun x => thd_set_state (Z.lor (state x) THD_STATE_RCVING) x) ;;
     thd_rcvcap_all_pending_set thd all_pending ;;
     upd_thd thd (fun x => thd_set_exec (exec x) timeout x)
   else ret tt) ;;
  cap_switch p thd next tc_next swtimeout ci.

Definition cap_arcv_op (arcv thd : Z) (p : regs_ptr) (ci : comp_info) : K Z :=
  r <- get_regs p ;;
  let rflags := u32 (__userregs_get1 r) in
  let timeout := u32 (__userregs_get2 r) in
  let all_pending := b2z (has_flag rflags RCV_ALL_PENDING) in
  t <- load (arcv + AR_THD) ;; ac <- load (arcv + AR_CPUID) ;; cpu <- get_cpuid ;;
  if negb (t =? thd) || negb (i32 ac =? cpu) then ret (- EINVAL) else
  pend <- thd_rcvcap_pending thd ;;
  if negb (pend =? 0) then
    userregs_return p 0 ;;
    thd_rcvcap_all_pending_set thd all_pending ;;
    thd_rcvcap_pending_deliver thd p ;; ret 0
  else if has_flag rflags RCV_NON_BLOCKING then
    userregs_return p 0 ;;
    __userregs_setretvals p (- EAGAIN) 0 0 0 ;; ret 0
  else arcv_block thd p ci all_pending timeout.

Definition cap_introspect (ct capid op : Z) : K (Z + Z) :=
  ch <- captbl_lkup ct capid ;;
  if ch =? 0 then ret (inl (- EINVAL)) else
  ty <- cap_type ch ;;
  if ty =? CAP_THD then t <- load (ch + CT_T) ;; thd_introspect t op
  else if ty =? CAP_TCAP then t <- load (ch + CT_T) ;; tcap_introspect t op
  else ret (inl (- EINVAL)).

(** ** The slow path, [composite_syscall_slowpath]

    The operations on a capability, by its type.  [ct] is the table of the
    current component and [cap] the capability, whose header is at [ch]; the
    arguments are those of the registers [r]. *)

(** Kernel memory for a new object at [kmem_cap] of [pgtbl_cap]; the frame is
    given back when the activation [act] fails. *)
Definition with_kmem (ct pgtbl_cap kmem_cap : Z) (act : Z -> K Z) : K Z :=
  k <- cap_kmem_activate ct pgtbl_cap kmem_cap ;;
  match k with
  | inl e => ret e
  | inr (kmem_addr, pte) =>
      massert (negb (kmem_addr =? 0) && negb (pte =? 0)) ;;
      r <- act kmem_addr ;;
      (if negb (r =? 0) then kmem_unalloc pte else ret tt) ;; ret r
  end.

Definition captblactivate_op (ct cap : Z) (r : pt_regs) : K Z :=
  let captbl_lvl := __userregs_get4 r in
  with_kmem ct (u32 (__userregs_get2 r)) (u32 (__userregs_get3 r)) (fun kmem_addr =>
    (if captbl_lvl =? 0 then newct <- captbl_create kmem_addr ;; massert (negb (newct =? 0))
     else captbl_init kmem_addr true ;; captbl_init (kmem_addr + PAGE_SIZE / 2) true) ;;
    captbl_activate ct cap (u32 (__userregs_get1 r)) kmem_addr (u32 captbl_lvl)).

(** The [break] on a capability of another type skips the release of the
    frame; [cap_kmem_activate] has checked the type. *)
Definition pgtblactivate_op (ct cap : Z) (r : pt_regs) : K Z :=
  let pt_entry := u32 (__userregs_get1 r) in
  let pgtbl_cap := u32 (__userregs_get2 r) in
  let pgtbl_lvl := u32 (__userregs_get4 r) in
  k <- cap_kmem_activate ct pgtbl_cap (u32 (__userregs_get3 r)) ;;
  match k with
  | inl e => ret e
  | inr (kmem_addr, pte) =>
      massert (negb (kmem_addr =? 0) && negb (pte =? 0)) ;;
      a <- (if pgtbl_lvl =? 0 then
              cap_pt <- captbl_lkup ct pgtbl_cap ;;
              ok <- CAP_TYPECHK cap_pt CAP_PGTBL ;;
              if negb ok then ret (inl (- EINVAL)) else
              curr_pt <- load (cap_pt + CC_TBL) ;; massert (negb (curr_pt =? 0)) ;;
              new_pt <- pgtbl_create kmem_addr curr_pt ;;
              r <- pgtbl_activate ct cap pt_entry new_pt 0 ;; ret (inr r)
            else if pgtbl_lvl =? 1 then
              pgtbl_init_pte kmem_addr ;;
              r <- pgtbl_activate ct cap pt_entry kmem_addr 1 ;; ret (inr r)
            else ret (inr (-1))) ;;
      match a with
      | inl e => ret e
      | inr r => (if negb (r =? 0) then kmem_unalloc pte else ret tt) ;; ret r
      end
  end.

Definition thdactivate_op (ct cap : Z) (r : pt_regs) : K Z :=
  let init_data := Z.shiftr (__userregs_get1 r) 16 in
  let thd_cap := Z.land (__userregs_get1 r) 65535 in
  let pgtbl_cap := hi16 (__userregs_get2 r) in
  let compcap := Z.land (__userregs_get2 r) 65535 in
  with_kmem ct pgtbl_cap (u32 (__userregs_get3 r)) (fun thd =>
    thd_activate ct cap thd_cap thd compcap init_data (u16 (__userregs_get4 r))).

(** Here the addresses are not asserted to be there; a failed activation of
    the memory is the only way they are not. *)
Definition tcapactivate_op (ct cap : Z) (r : pt_regs) : K Z :=
  with_kmem ct (lo16 (__userregs_get1 r)) (u32 (__userregs_get2 r)) (fun tcap =>
    tcap_activate ct cap (hi16 (__userregs_get1 r)) tcap).

(** [CAPTBL_OP_THDTLSSET] leaves [ret] as it was initialised. *)
Definition thdtlsset_op (ch thd : Z) (r : pt_regs) : K Z :=
  tbl <- load (ch + CC_TBL) ;; massert (negb (tbl =? 0)) ;;
  e <- thd_tls_set tbl (u32 (__userregs_get1 r)) (u32 (__userregs_get2 r)) thd ;;
  if negb (e =? 0) then ret (- EINVAL) else ret (- ENOENT).

Definition introspect_op (ch : Z) (r : pt_regs) : K Z :=
  ctin <- load (ch + CC_TBL) ;; massert (negb (ctin =? 0)) ;;
  x <- cap_introspect ctin (u32 (__userregs_get1 r)) (u32 (__userregs_get2 r)) ;;
  match x with inl e => ret e | inr v => ret (i32 v) end.

(** The switch on [op] for a capability table *)
Definition captbl_op (ct cap ch thd op : Z) (r : pt_regs) : K Z :=
  let capin := u32 (__userregs_get1 r) in
  let a2 := u32 (__userregs_get2 r) in
  let a3 := u32 (__userregs_get3 r) in
  let a4 := u32 (__userregs_get4 r) in
  if op =? CAPTBL_OP_CAPTBLACTIVATE then captblactivate_op ct cap r
  else if op =? CAPTBL_OP_CAPTBLDEACTIVATE then captbl_deactivate ct ch capin a2 0 0 0
  else if op =? CAPTBL_OP_CAPTBLDEACTIVATE_ROOT then captbl_deactivate ct ch capin a2 a3 a4 1
  else if op =? CAPTBL_OP_PGTBLACTIVATE then pgtblactivate_op ct cap r
  else if op =? CAPTBL_OP_PGTBLDEACTIVATE then pgtbl_deactivate ct ch capin a2 0 0 0
  else if op =? CAPTBL_OP_PGTBLDEACTIVATE_ROOT then pgtbl_deactivate ct ch capin a2 a3 a4 1
  else if op =? CAPTBL_OP_THDACTIVATE then thdactivate_op ct cap r
  else if op =? CAPTBL_OP_TCAP_ACTIVATE then tcapactivate_op ct cap r
  else if op =? CAPTBL_OP_THDDEACTIVATE then thd_deactivate ct ch capin a2 0 0 0
  else if op =? CAPTBL_OP_THDTLSSET then thdtlsset_op ch thd r
  else if op =? CAPTBL_OP_THDDEACTIVATE_ROOT then thd_deactivate ct ch capin a2 a3 a4 1
  else if op =? CAPTBL_OP_CAPKMEM_FREEZE then
    tbl <- load (ch + CC_TBL) ;; cap_kmem_freeze tbl capin
  else if op =? CAPTBL_OP_COMPACTIVATE then
    comp_activate ct cap capin (hi16 (__userregs_get2 r)) (Z.land (__userregs_get2 r) 65535) a3 a4 0
  else if op =? CAPTBL_OP_COMPDEACTIVATE then comp_deactivate ch capin a2
  else if op =? CAPTBL_OP_SINVACTIVATE then sinv_activate ct cap capin a2 a3 a4
  else if op =? CAPTBL_OP_SINVDEACTIVATE then sinv_deactivate ch capin a2
  else if op =? CAPTBL_OP_SRETACTIVATE then ret (- EINVAL)
  else if op =? CAPTBL_OP_SRETDEACTIVATE then sret_deactivate ch capin a2
  else if op =? CAPTBL_OP_ASNDACTIVATE then asnd_activate ct cap capin a2 a3 0 0
  else if op =? CAPTBL_OP_ASNDDEACTIVATE then asnd_deactivate ch capin a2
  else if op =? CAPTBL_OP_ARCVACTIVATE then
    arcv_activate ct cap capin a3 (lo16 (__userregs_get2 r)) (hi16 (__userregs_get2 r)) a4 false
  else if op =? CAPTBL_OP_ARCVDEACTIVATE then arcv_deactivate ch capin a2
  else if op =? CAPTBL_OP_CPY then cap_cpy ct a2 a3 cap capin
  else if op =? CAPTBL_OP_MOVE then cap_move ct a2 a3 cap capin
  else if op =? CAPTBL_OP_CONS then cap_cons ct cap capin a2
  else if op =? CAPTBL_OP_DECONS then cap_decons ct cap capin a2 a3
  else if op =? CAPTBL_OP_INTROSPECT then introspect_op ch r
  else if op =? CAPTBL_OP_HW_ACTIVATE then hw_activate ct cap capin a2
  else if op =? CAPTBL_OP_HW_DEACTIVATE then hw_deactivate ch capin a2
  else ret (- ENOENT).

(** Retype the frame at [frame_addr] of the page table [ch] *)
Definition retype_op (ch frame_addr : Z) (f : Z -> K Z) : K Z :=
  pt <- load (ch + CC_TBL) ;;
  x <- pgtbl_get_cosframe pt frame_addr ;;
  match x with inl e => ret e | inr frame => f frame end.

Definition pgtbl_op (ct cap ch op : Z) (r : pt_regs) : K Z :=
  let a1 := u32 (__userregs_get1 r) in
  let a2 := u32 (__userregs_get2 r) in
  let a3 := u32 (__userregs_get3 r) in
  if op =? CAPTBL_OP_CPY then cap_cpy ct a2 a3 cap a1
  else if op =? CAPTBL_OP_MEMMOVE then cap_move ct a2 a3 cap a1
  else if op =? CAPTBL_OP_CONS then cap_cons ct cap a1 a2
  else if op =? CAPTBL_OP_DECONS then cap_decons ct cap a1 a2 a3
  else if op =? CAPTBL_OP_MEMACTIVATE then cap_memactivate ct ch a1 a2 a3
  else if op =? CAPTBL_OP_MEMDEACTIVATE then
    lvl <- load (ch + CC_LVL) ;;
    if negb (lvl =? 0) then ret (- EINVAL) else
    pt <- load (ch + CC_TBL) ;; pgtbl_mapping_del pt a1 a2
  else if op =? CAPTBL_OP_MEM_RETYPE2USER then retype_op ch a1 retypetbl_retype2user
  else if op =? CAPTBL_OP_MEM_RETYPE2KERN then retype_op ch a1 retypetbl_retype2kern
  else if op =? CAPTBL_OP_MEM_RETYPE2FRAME then retype_op ch a1 retypetbl_retype2frame
  else if op =? CAPTBL_OP_INTROSPECT then
    pt <- load (ch + CC_TBL) ;;
    let! (pte, _) := pgtbl_lkup_pte pt a1 0 in
    if negb (pte =? 0) then v <- load pte ;; ret (i32 v) else ret 0
  else ret (- ENOENT).

Definition prio64 (hi lo : Z) : Z := Z.lor (Z.shiftl hi 32) lo.

(** [expended_process] when the current budget is gone: the result, and
    whether threads were switched *)
Definition expended_op (thd : Z) (p : regs_ptr) (ci : comp_info) : K (Z * bool) :=
  cur <- tcap_current ;; x <- tcap_expended cur ;;
  if x : bool then
    e <- expended_process p thd ci false ;;
    ret (e, negb (e <? 0))
  else ret (0, false).

Definition tcap_transfer_op (ch thd : Z) (p : regs_ptr) (ci : comp_info) (r : pt_regs)
    : K (Z * bool) :=
  let res := u32 (__userregs_get2 r) in
  let prio := prio64 (u32 (__userregs_get3 r)) (u32 (__userregs_get4 r)) in
  rcv <- captbl_lkup (ci_captbl ci) (u32 (__userregs_get1 r)) ;;
  ok <- CAP_TYPECHK_CORE rcv CAP_ARCV AR_CPUID ;;
  if negb ok then ret (- EINVAL, false) else
  rthd <- load (rcv + AR_THD) ;;
  tc <- thd_rcvcap_tcap rthd ;;
  massert (negb (rthd =? 0) && negb (tc =? 0)) ;;
  src <- load (ch + CT_T) ;;
  e <- tcap_delegate tc src res prio ;;
  if negb (e =? 0) then ret (- EINVAL, false) else expended_op thd p ci.

Definition tcap_delegate_op (ch thd : Z) (p : regs_ptr) (ci : comp_info) (r : pt_regs)
    : K (Z * bool) :=
  let res := u32 (__userregs_get2 r) in
  let prio_higher := u32 (__userregs_get3 r) in
  let yield := negb (Z.shiftr prio_higher 31 =? 0) in
  let prio := prio64 (Z.shiftr (u32 (Z.shiftl prio_higher 1)) 1) (u32 (__userregs_get4 r)) in
  asnd <- captbl_lkup (ci_captbl ci) (u32 (__userregs_get1 r)) ;;
  ok <- CAP_TYPECHK asnd CAP_ASND ;;
  if negb ok then ret (- EINVAL, false) else
  arcv <- __cap_asnd_to_arcv asnd ;;
  if arcv =? 0 then ret (- EINVAL, false) else
  rthd <- load (arcv + AR_THD) ;;
  tcapdst <- thd_rcvcap_tcap rthd ;;
  massert (negb (rthd =? 0) && negb (tcapdst =? 0)) ;;
  src <- load (ch + CT_T) ;;
  e <- tcap_delegate tcapdst src res prio ;;
  if negb (e =? 0) then ret (- EINVAL, false) else
  cur <- tcap_current ;;
  let! (n, tcap_next) := asnd_process rthd thd tcapdst cur yield in
  if negb (n =? thd) then
    e <- cap_switch p thd n tcap_next TCAP_TIME_NIL ci ;; ret (e, negb (e <? 0))
  else expended_op thd p ci.

Definition tcap_merge_op (ch : Z) (ci : comp_info) (r : pt_regs) : K Z :=
  tcaprm <- captbl_lkup (ci_captbl ci) (u32 (__userregs_get1 r)) ;;
  ok <- CAP_TYPECHK_CORE tcaprm CAP_TCAP CT_CPUID ;;
  if negb ok then ret (- EINVAL) else
  dst <- load (ch + CT_T) ;; rm <- load (tcaprm + CT_T) ;;
  e <- tcap_merge dst rm ;;
  if negb (e =? 0) then ret (- ENOENT) else ret 0.

Definition tcap_wakeup_op (ch : Z) (ci : comp_info) (r : pt_regs) : K Z :=
  let prio := prio64 (u32 (__userregs_get2 r)) (u32 (__userregs_get3 r)) in
  thdwkup <- captbl_lkup (ci_captbl ci) (u32 (__userregs_get1 r)) ;;
  ok <- CAP_TYPECHK_CORE thdwkup CAP_THD CT_CPUID ;;
  if negb ok then ret (- EINVAL) else
  tc <- load (ch + CT_T) ;; t <- load (thdwkup + CT_T) ;;
  e <- tcap_wakeup tc prio (u32 (__userregs_get4 r)) t ;;
  if negb (e =? 0) then ret (- EINVAL) else ret 0.

(** [rv] is the value of [ret] on entry, which the default case returns. *)
Definition hw_op (ch op : Z) (ci : comp_info) (r : pt_regs) (rv : Z) : K Z :=
  let a1 := u32 (__userregs_get1 r) in
  let a2 := u32 (__userregs_get2 r) in
  let a3 := u32 (__userregs_get3 r) in
  if op =? CAPTBL_OP_HW_ATTACH then
    rcvc <- captbl_lkup (ci_captbl ci) a2 ;;
    ok <- CAP_TYPECHK rcvc CAP_ARCV ;;
    if negb ok then ret (- EINVAL) else hw_attach_rcvcap ch a1 rcvc a2
  else if op =? CAPTBL_OP_HW_DETACH then hw_detach_rcvcap ch a1
  else if op =? CAPTBL_OP_HW_MAP then
    ptc <- captbl_lkup (ci_captbl ci) a1 ;;
    ok <- CAP_TYPECHK ptc CAP_PGTBL ;;
    if negb ok then ret (- EINVAL) else
    pt <- load (ptc + CC_TBL) ;;
    let! (pte, _) := pgtbl_lkup_pte pt a2 0 in
    if pte =? 0 then ret (- EINVAL) else
    v <- load pte ;;
    if has_flag v PGTBL_FRAME_MASK then ret (- ENOENT) else
    store pte (Z.lor (Z.land PGTBL_FRAME_MASK a3) PGTBL_USER_DEF) ;; ret 0
  else if op =? CAPTBL_OP_HW_CYC_USEC then gets (fun s => cyc_usec (kx s))
  else if op =? CAPTBL_OP_HW_CYC_THRESH then gets (fun s => i32 (kcyc_thresh s))
  else ret rv.

(** The cases of [CAP_TCAP] end without a [break] and run into those of
    [CAP_HW]. *)
Definition tcap_op (ch thd op : Z) (p : regs_ptr) (ci : comp_info) (r : pt_regs) : K (Z * bool) :=
  let fall x := let! (rv, sw) := x in
    if rv <? 0 then ret (rv, sw)
    else v <- hw_op ch op ci r rv ;; ret (v, sw) in
  if op =? CAPTBL_OP_TCAP_TRANSFER then fall (tcap_transfer_op ch thd p ci r)
  else if op =? CAPTBL_OP_TCAP_DELEGATE then fall (tcap_delegate_op ch thd p ci r)
  else if op =? CAPTBL_OP_TCAP_MERGE then fall (e <- tcap_merge_op ch ci r ;; ret (e, false))
  else if op =? CAPTBL_OP_TCAP_WAKEUP then fall (e <- tcap_wakeup_op ch ci r ;; ret (e, false))
  else ret (- ENOENT, false).

(** The result, and [*thd_switch] *)
Definition composite_syscall_slowpath (p : regs_ptr) : K (Z * bool) :=
  thd <- thd_current ;;
  r <- get_regs p ;;
  let cap := __userregs_getcap r in
  let! (ci, _, _) := thd_invstk_current thd in
  massert (negb (ci_captbl ci =? 0)) ;;
  let ct := ci_captbl ci in
  ch <- captbl_lkup ct cap ;;
  massert (negb (ch =? 0)) ;;
  let op := __userregs_getop r in
  ty <- cap_type ch ;;
  if ty =? CAP_CAPTBL then e <- captbl_op ct cap ch thd op r ;; ret (e, false)
  else if ty =? CAP_PGTBL then e <- pgtbl_op ct cap ch op r ;; ret (e, false)
  else if ty =? CAP_SRET then sret_ret thd p ;; ret (0, false)
  else if ty =? CAP_TCAP then tcap_op ch thd op p ci r
  else if ty =? CAP_HW then e <- hw_op ch op ci r (- ENOENT) ;; ret (e, false)
  else ret (- ENOENT, false).

(** ** [composite_syscall_handler] *)

Definition COS_DEFAULT_RET_CAP : Z := 0.

(** [done]: the result goes to user level. *)
Definition syscall_done (p : regs_ptr) (v : Z) : K Z := userregs_return p v ;; ret 0.

Definition composite_syscall_handler (p : regs_ptr) : K Z :=
  r <- get_regs p ;;
  let cap := __userregs_getcap r in
  thd <- thd_current ;;
  if cap =? COS_DEFAULT_RET_CAP then sret_ret thd p ;; ret 0 else
  let! (ci, _, _) := thd_invstk_current thd in
  massert (negb (ci_captbl ci =? 0)) ;;
  ch <- captbl_lkup (ci_captbl ci) cap ;;
  if ch =? 0 then syscall_done p 0 else
  ty <- cap_type ch ;;
  if ty =? CAP_SINV then sinv_call thd ch p ;; ret 0 else
  let finish m := e <- m ;; if e <? 0 then syscall_done p e else ret e in
  if ty =? CAP_THD then finish (cap_thd_op ch thd p ci)
  else if ty =? CAP_ASND then finish (cap_asnd_op ch thd p ci)
  else if ty =? CAP_ARCV then finish (cap_arcv_op ch thd p ci)
  else
    let! (e, thd_switch) := composite_syscall_slowpath p in
    if e <? 0 then syscall_done p e else
    if thd_switch : bool then ret e else syscall_done p e.
