(* ===== verification/Safety.v ===== *)
(** * Structural invariant of the kernel, and array bounds

    The kernel's fixed-size arrays are the invocation stack of a thread, the
    delegations of a temporal capability and the rings between cores; the
    indices into them are fields that other operations update.  [kwf] states
    that sizes and indices fit.  Every entry into the kernel (system call,
    timer, device and inter-processor interrupt) preserves it and never
    indexes an array out of range, whatever the registers and the memory
    hold.

    [Safe I m Q]: from a state with the invariant [I], [m] does not stop with
    [OutOfBounds], and when it returns, [I] holds again and [Q] of the result.
    The lemmas follow the structure of the code and are collected in the hint
    database [safe]; the tactic [safe] composes them. *)

From S2P Require Import Prelude Config Machine DList Ertrie Liveness Captbl Retype Pgtbl Tcap.
From S2P Require Import CapOps Thd Inv Capinv.

(** ** The invariant *)

Definition thd_wf (x : thread) : Prop :=
  length (invstk x) = 32%nat /\ 0 <= invstk_top x <= THD_INVSTK_MAXSZ.
Definition tcap_wf (t : tcap) : Prop :=
  length (delegations t) = 16%nat /\ 0 <= ndelegs t <= TCAP_MAX_DELEGATIONS /\
  0 <= curr_sched_off t < TCAP_MAX_DELEGATIONS.
Definition ring_wf (r : xcore_ring) : Prop :=
  length (ring r) = 16%nat /\ 0 <= sender r < IPI_RING_SIZE /\ 0 <= receiver r < IPI_RING_SIZE.

Record kwf (s : kstate) : Prop := Kwf {
  wf_thd : map_Forall (fun _ x => thd_wf x) (kthd s);
  wf_tcap : map_Forall (fun _ t => tcap_wf t) (ktcap s);
  wf_cpu : 0 <= cpuid (kcli s) < NUM_CPU;
  wf_top : 0 <= cli_invstk_top (kcli s) <= THD_INVSTK_MAXSZ;
  wf_ring : map_Forall (fun _ r => ring_wf r) (IPI_source (kx s));
  wf_start : map_Forall (fun _ n => 0 <= n < NUM_CPU) (ipi_start (kx s)) }.

(** The invariant is about these parts of the state. *)
Definition same_objs (s s' : kstate) : Prop :=
  kthd s' = kthd s /\ ktcap s' = ktcap s /\ kcli s' = kcli s /\ kx s' = kx s.

Lemma kwf_same s s' : same_objs s s' -> kwf s -> kwf s'.
Proof. intros (E1 & E2 & E3 & E4) []. constructor; by rewrite ?E1, ?E2, ?E3, ?E4. Qed.

(** ** Safe computations *)

Definition Safe (I : kstate -> Prop) {A} (m : K A) (Q : A -> Prop) : Prop :=
  forall s, I s -> match m s with Ok a s' => I s' /\ Q a | Panic h => h <> OutOfBounds end.

Abbreviation anyres := (fun _ => True).

Section Rules.
Context (I : kstate -> Prop).

Lemma Safe_ret {A} (a : A) (Q : A -> Prop) : Q a -> Safe I (ret a) Q.
Proof. by intros HQ s Hs. Qed.

Lemma Safe_panic {A} h (Q : A -> Prop) : h <> OutOfBounds -> Safe I (panic h) Q.
Proof. by intros Hh s Hs. Qed.

Lemma Safe_bind {A B} (m : K A) (k : A -> K B) P Q :
  Safe I m P -> (forall a, P a -> Safe I (k a) Q) -> Safe I (bind m k) Q.
Proof.
  intros Hm Hk s Hs. specialize (Hm s Hs). unfold bind.
  destruct (m s) as [a s'|]; [|done]. destruct Hm as [Hs' Ha]. by apply Hk.
Qed.

Lemma Safe_any {A} (m : K A) Q : Safe I m Q -> Safe I m anyres.
Proof. intros Hm s Hs. specialize (Hm s Hs). by destruct (m s) as [a s'|]; [destruct Hm|]. Qed.

Lemma Safe_gets {A} (f : kstate -> A) (Q : A -> Prop) :
  (forall s, I s -> Q (f s)) -> Safe I (gets f) Q.
Proof. intros Hf s Hs. simpl. eauto. Qed.

Lemma Safe_modify (f : kstate -> kstate) :
  (forall s, I s -> I (f s)) -> Safe I (modify f) anyres.
Proof. intros Hf s Hs. simpl. eauto. Qed.

Lemma Safe_massert b : Safe I (massert b) (fun _ => b = true).
Proof. by destruct b; intros s Hs. Qed.

Lemma Safe_for_n n i (body : Z -> K unit) :
  (forall j, Safe I (body j) anyres) -> Safe I (for_n n i body) anyres.
Proof.
  intros Hb. revert i. induction n as [|n IH]; intros i; simpl; [by apply Safe_ret|].
  eapply Safe_bind; [apply Hb|]. intros _ _. apply IH.
Qed.

Lemma Safe_for_ret {R} n i (body : Z -> K (option R)) :
  (forall j, Safe I (body j) anyres) -> Safe I (for_ret n i body) anyres.
Proof.
  intros Hb. revert i. induction n as [|n IH]; intros i; simpl; [by apply Safe_ret|].
  eapply Safe_bind; [apply Hb|]. intros [x|] _; [by apply Safe_ret|apply IH].
Qed.
End Rules.

Create HintDb safe discriminated.
#[export] Hint Constants Opaque : safe.

Ltac safe1 :=
  lazymatch goal with
  | |- Safe _ (bind _ _) _ =>
      first [ eapply Safe_bind; [solve [eauto 3 with safe]|intros ? ?]
            | eapply (Safe_bind _ _ _ anyres); [|intros ? _] ]
  | |- Safe _ (ret _) _ => apply Safe_ret; try exact I
  | |- Safe _ (panic _) _ => apply Safe_panic; discriminate
  | |- Safe _ (massert _) anyres => eapply Safe_any, Safe_massert
  | |- Safe _ (for_n _ _ _) _ => apply Safe_for_n; intros ?
  | |- Safe _ (for_ret _ _ _) _ => apply Safe_for_ret; intros ?
  | |- Safe _ (if ?b then _ else _) _ => destruct b eqn:?
  | |- Safe _ (match ?x with _ => _ end) _ => destruct x eqn:?
  | |- Safe _ (let _ := _ in _) _ => cbv zeta
  | |- Safe _ _ _ => first [solve [eauto 3 with safe] | eapply Safe_any; solve [eauto 3 with safe]]
  end.
Ltac safe := repeat safe1.
#[export] Hint Resolve Safe_massert : safe.

(** ** Computations that leave the objects alone *)

Lemma Safe_modify_same f :
  (forall s, same_objs s (f s)) -> Safe kwf (modify f) anyres.
Proof. intros Hf. apply Safe_modify. intros s. by apply kwf_same. Qed.

Lemma safe_gets {A} (f : kstate -> A) : Safe kwf (gets f) anyres.
Proof. by apply Safe_gets. Qed.
Lemma safe_load a : Safe kwf (load a) anyres.
Proof. intros s Hs. unfold load. by destruct (mapped a). Qed.
Lemma safe_store a v : Safe kwf (store a v) anyres.
Proof.
  intros s Hs. unfold store. destruct (mapped a); [|done]. split; [|done].
  by apply (kwf_same s).
Qed.
Lemma safe_rdtscll : Safe kwf rdtscll anyres.
Proof. intros s Hs. rewrite rdtscll_Ok. split; [by apply (kwf_same s)|done]. Qed.
#[export] Hint Resolve safe_gets safe_load safe_store safe_rdtscll : safe.

Lemma safe_cos_cas a o n : Safe kwf (cos_cas a o n) anyres.
Proof. unfold cos_cas. safe. Qed.
Lemma safe_cos_faa a v : Safe kwf (cos_faa a v) anyres.
Proof. unfold cos_faa. safe. Qed.
Lemma safe_load64 a : Safe kwf (load64 a) anyres.
Proof. unfold load64. safe. Qed.
Lemma safe_store64 a v : Safe kwf (store64 a v) anyres.
Proof. unfold store64. safe. Qed.
#[export] Hint Resolve safe_cos_cas safe_cos_faa safe_load64 safe_store64 : safe.

(** Tries, for instances whose customization functions are safe *)
Class ErtSafe (e : ert) : Prop := {
  es_init a b : Safe kwf (initfn e a b) anyres;
  es_get n acc b : Safe kwf (getfn e n acc b) anyres;
  es_isnull n b : Safe kwf (isnullfn e n b) anyres;
  es_set n v b : Safe kwf (setfn e n v b) anyres;
  es_alloc mc sz b : Safe kwf (allocfn e mc sz b) anyres;
  es_setleaf a v : Safe kwf (setleaffn e a v) anyres;
  es_getleaf n acc : Safe kwf (getleaffn e n acc) anyres;
  es_resolve n b o sz : Safe kwf (resolvefn e n b o sz) anyres }.

Lemma safe_next n : Safe kwf (next n) anyres.
Proof. destruct n; simpl; safe. Qed.
Lemma safe_ref_addr n : Safe kwf (ref_addr n) anyres.
Proof. destruct n; simpl; safe. Qed.
#[export] Hint Resolve safe_next safe_ref_addr : safe.

Section ErtOps.
Context (e : ert) (HE : ErtSafe e).
#[local] Hint Resolve es_init es_get es_isnull es_set es_alloc es_setleaf es_getleaf es_resolve : safe.

Lemma safe_ert_init v b : Safe kwf (__ert_init e v b) anyres.
Proof using HE. unfold __ert_init. safe. Qed.
#[local] Hint Resolve safe_ert_init : safe.
Lemma safe_ert_alloc mc : Safe kwf (ert_alloc e mc) anyres.
Proof using HE. unfold ert_alloc. safe. Qed.
Lemma safe_ert_walk n id acc l : Safe kwf (__ert_walk e n id acc l) anyres.
Proof using HE. unfold __ert_walk. safe. Qed.
#[local] Hint Resolve safe_ert_walk : safe.
Lemma safe_ert_lookup_loop fuel i n id acc : Safe kwf (ert_lookup_loop e fuel i n id acc) anyres.
Proof using HE. revert i n acc. induction fuel; intros; simpl; safe; eauto. Qed.
#[local] Hint Resolve safe_ert_lookup_loop : safe.
Lemma safe_ert_lookup v id a b acc : Safe kwf (__ert_lookup e v id a b acc) anyres.
Proof using HE. unfold __ert_lookup. safe. Qed.
Lemma safe_ert_expand_loop fuel i n id acc mc :
  Safe kwf (ert_expand_loop e fuel i n id acc mc) anyres.
Proof using HE. revert i n acc mc. induction fuel; intros; simpl; safe; eauto. Qed.
#[local] Hint Resolve safe_ert_expand_loop : safe.
Lemma safe_ert_expand v id a b acc mc d : Safe kwf (__ert_expand e v id a b acc mc d) anyres.
Proof using HE. unfold __ert_expand. safe. Qed.
End ErtOps.
#[export] Hint Resolve safe_ert_alloc safe_ert_lookup safe_ert_expand : safe.

(** The liveness table *)
Lemma safe_lput id e : Safe kwf (modify (lput id e)) anyres.
Proof. by apply Safe_modify_same. Qed.
#[export] Hint Resolve safe_lput : safe.
Lemma safe_ltbl_lkup id : Safe kwf (ltbl_lkup id) anyres.
Proof. unfold ltbl_lkup. safe. Qed.
#[export] Hint Resolve safe_ltbl_lkup : safe.
Lemma safe_ltbl_cas id o n : Safe kwf (ltbl_cas id o n) anyres.
Proof. unfold ltbl_cas. safe. Qed.
Lemma safe_ltbl_isalive ld : Safe kwf (ltbl_isalive ld) anyres.
Proof. unfold ltbl_isalive. safe. Qed.
Lemma safe_ltbl_get id : Safe kwf (ltbl_get id) anyres.
Proof. unfold ltbl_get. safe. Qed.
Lemma safe_ltbl_get_timestamp id : Safe kwf (ltbl_get_timestamp id) anyres.
Proof. unfold ltbl_get_timestamp. safe. Qed.
Lemma safe_ltbl_timestamp_update id : Safe kwf (ltbl_timestamp_update id) anyres.
Proof. unfold ltbl_timestamp_update. safe. Qed.
#[export] Hint Resolve safe_ltbl_cas safe_ltbl_isalive safe_ltbl_get safe_ltbl_get_timestamp
  safe_ltbl_timestamp_update : safe.
Lemma safe_ltbl_expire ld : Safe kwf (ltbl_expire ld) anyres.
Proof. unfold ltbl_expire. safe. Qed.
#[export] Hint Resolve safe_ltbl_expire : safe.

(** Capability tables *)
Lemma safe_load_hdr p : Safe kwf (load_hdr p) anyres.
Proof. unfold load_hdr. safe. Qed.
Lemma safe_store_hdr p l : Safe kwf (store_hdr p l) anyres.
Proof. unfold store_hdr. safe. Qed.
#[export] Hint Resolve safe_load_hdr safe_store_hdr : safe.
Lemma safe_captbl_getleaf n acc : Safe kwf (__captbl_getleaf n acc) anyres.
Proof. unfold __captbl_getleaf. safe. Qed.
#[export] Hint Resolve safe_captbl_getleaf : safe.

#[export] Instance captbl_ert_safe : ErtSafe __captbl.
Proof.
  split; intros; simpl; unfold __captbl_init, __captbl_get, ert_defisnull, ert_defset,
    __captbl_allocfn, __captbl_setleaf, ert_defresolve; safe.
Qed.
#[export] Hint Resolve captbl_ert_safe : safe.

Lemma safe_captbl_init n b : Safe kwf (captbl_init n b) anyres.
Proof. unfold captbl_init. safe. Qed.
Lemma safe_captbl_lkupani t c a b : Safe kwf (__captbl_lkupani t c a b) anyres.
Proof. unfold __captbl_lkupani. safe. Qed.
#[export] Hint Resolve safe_captbl_init safe_captbl_lkupani : safe.
Lemma safe_captbl_lkupan t c b : Safe kwf (__captbl_lkupan t c b) anyres.
Proof. apply safe_captbl_lkupani. Qed.
Lemma safe_captbl_lkup_lvl t c a b : Safe kwf (captbl_lkup_lvl t c a b) anyres.
Proof. apply safe_captbl_lkupani. Qed.
Lemma safe_captbl_lkup t c : Safe kwf (captbl_lkup t c) anyres.
Proof. apply safe_captbl_lkupani. Qed.
Lemma safe_captbl_store a n o : Safe kwf (__captbl_store a n o) anyres.
Proof. unfold __captbl_store. safe. Qed.
Lemma safe_captbl_quiescent l ts : Safe kwf (captbl_quiescent l ts) anyres.
Proof. unfold captbl_quiescent. safe. Qed.
#[export] Hint Resolve safe_captbl_lkupan safe_captbl_lkup_lvl safe_captbl_lkup safe_captbl_store
  safe_captbl_quiescent : safe.
Lemma safe_captbl_add_check p h l sz : Safe kwf (captbl_add_check p h l sz) anyres.
Proof. unfold captbl_add_check. safe. Qed.
Lemma safe_captbl_add_commit p h o l sz ty : Safe kwf (captbl_add_commit p h o l sz ty) anyres.
Proof. unfold captbl_add_commit. safe. Qed.
#[export] Hint Resolve safe_captbl_add_check safe_captbl_add_commit : safe.
Lemma safe_captbl_add t c ty : Safe kwf (captbl_add t c ty) anyres.
Proof. unfold captbl_add. safe. Qed.
Lemma safe_captbl_find t c ty : Safe kwf (captbl_find t c ty) anyres.
Proof. unfold captbl_find. safe. Qed.
Lemma safe_captbl_release p h o l n : Safe kwf (captbl_release p h o l n) anyres.
Proof. unfold captbl_release. safe. Qed.
#[export] Hint Resolve safe_captbl_add safe_captbl_find safe_captbl_release : safe.
Lemma safe_captbl_clear t c ty l : Safe kwf (captbl_clear t c ty l) anyres.
Proof. unfold captbl_clear. safe. Qed.
Lemma safe_captbl_expand t c d m : Safe kwf (captbl_expand t c d m) anyres.
Proof. unfold captbl_expand, __captbl_expandn. safe. Qed.
#[export] Hint Resolve safe_captbl_clear safe_captbl_expand : safe.
Lemma safe_captbl_create p : Safe kwf (captbl_create p) anyres.
Proof. unfold captbl_create, captbl_alloc. safe. Qed.
#[export] Hint Resolve safe_captbl_create : safe.

(** The retype table *)
Lemma safe_rput c i e : Safe kwf (modify (rput c i e)) anyres.
Proof. by apply Safe_modify_same. Qed.
Lemma safe_gput i t : Safe kwf (modify (gput i t)) anyres.
Proof. by apply Safe_modify_same. Qed.
Lemma safe_get_rent c i : Safe kwf (get_rent c i) anyres.
Proof. unfold get_rent. safe. Qed.
#[export] Hint Resolve safe_rput safe_gput safe_get_rent : safe.
Lemma safe_get_cpuid : Safe kwf get_cpuid (fun c => 0 <= c < NUM_CPU).
Proof. apply Safe_gets. by intros s []. Qed.
Lemma safe_retypetbl_cas_ent c i o n : Safe kwf (retypetbl_cas_ent c i o n) anyres.
Proof. unfold retypetbl_cas_ent. safe. Qed.
Lemma safe_retypetbl_cas_glb i o n : Safe kwf (retypetbl_cas_glb i o n) anyres.
Proof. unfold retypetbl_cas_glb. safe. Qed.
#[export] Hint Resolve safe_get_cpuid safe_retypetbl_cas_ent safe_retypetbl_cas_glb : safe.
Lemma safe_tlb_quiescence_check ts : Safe kwf (tlb_quiescence_check ts) anyres.
Proof. unfold tlb_quiescence_check. safe. Qed.
Lemma safe_mod_ref_cnt pa op ty : Safe kwf (mod_ref_cnt pa op ty) anyres.
Proof. unfold mod_ref_cnt. safe. Qed.
Lemma safe_set_ent_type c i t : Safe kwf (set_ent_type c i t) anyres.
Proof. unfold set_ent_type. safe. Qed.
#[export] Hint Resolve safe_tlb_quiescence_check safe_mod_ref_cnt safe_set_ent_type : safe.
Lemma safe_mod_mem_type pa ty : Safe kwf (mod_mem_type pa ty) anyres.
Proof. unfold mod_mem_type. safe. Qed.
Lemma safe_r2f_lock fuel c i o r u : Safe kwf (r2f_lock fuel c i o r u) anyres.
Proof. revert c r u. induction fuel; intros; simpl; safe; eauto. Qed.
Lemma safe_r2f_restore c i o e : Safe kwf (r2f_restore c i o e) anyres.
Proof. unfold r2f_restore. safe. Qed.
Lemma safe_r2f_commit i : Safe kwf (r2f_commit i) anyres.
Proof. unfold r2f_commit. safe. Qed.
#[export] Hint Resolve safe_mod_mem_type safe_r2f_lock safe_r2f_restore safe_r2f_commit : safe.
Lemma safe_retypetbl_retype2frame pa : Safe kwf (retypetbl_retype2frame pa) anyres.
Proof. unfold retypetbl_retype2frame. safe. Qed.
Lemma safe_retypetbl_ref pa : Safe kwf (retypetbl_ref pa) anyres.
Proof. apply safe_mod_ref_cnt. Qed.
Lemma safe_retypetbl_kern_ref pa : Safe kwf (retypetbl_kern_ref pa) anyres.
Proof. apply safe_mod_ref_cnt. Qed.
Lemma safe_retypetbl_deref pa : Safe kwf (retypetbl_deref pa) anyres.
Proof. apply safe_mod_ref_cnt. Qed.
#[export] Hint Resolve safe_retypetbl_retype2frame safe_retypetbl_ref safe_retypetbl_kern_ref
  safe_retypetbl_deref : safe.

(** Page tables *)
Lemma safe_pgtbl_isnull n b : Safe kwf (__pgtbl_isnull n b) anyres.
Proof. unfold __pgtbl_isnull. safe. Qed.
Lemma safe_pgtbl_get n a b : Safe kwf (__pgtbl_get n a b) anyres.
Proof. unfold __pgtbl_get. safe. Qed.
#[export] Hint Resolve safe_pgtbl_isnull safe_pgtbl_get : safe.
#[export] Instance pgtbl_ert_safe : ErtSafe __pgtbl.
Proof.
  split; intros; simpl; unfold __pgtbl_init, __pgtbl_set, __pgtbl_a, __pgtbl_setleaf,
    __pgtbl_getleaf, ert_defresolve; safe.
Qed.
#[export] Hint Resolve pgtbl_ert_safe : safe.
Lemma safe_pgtbl_lkupan pt i d f : Safe kwf (__pgtbl_lkupan pt i d f) anyres.
Proof. unfold __pgtbl_lkupan, __pgtbl_lkupani. safe. Qed.
Lemma safe_pgtbl_lkup_pte pt a f : Safe kwf (pgtbl_lkup_pte pt a f) anyres.
Proof. apply safe_pgtbl_lkupan. Qed.
Lemma safe_pgtbl_lkup_lvl pt a f l h : Safe kwf (pgtbl_lkup_lvl pt a f l h) anyres.
Proof. unfold pgtbl_lkup_lvl, __pgtbl_lkupani. safe. Qed.
#[export] Hint Resolve safe_pgtbl_lkupan safe_pgtbl_lkup_pte safe_pgtbl_lkup_lvl : safe.
Lemma safe_pgtbl_alloc p : Safe kwf (pgtbl_alloc p) anyres.
Proof. unfold pgtbl_alloc. safe. Qed.
Lemma safe_pgtbl_init_pte p : Safe kwf (pgtbl_init_pte p) anyres.
Proof. unfold pgtbl_init_pte. safe. Qed.
Lemma safe_pgtbl_quie_check v : Safe kwf (pgtbl_quie_check v) anyres.
Proof. unfold pgtbl_quie_check. safe. Qed.
Lemma safe_pgtbl_pte pt a : Safe kwf (pgtbl_pte pt a) anyres.
Proof. unfold pgtbl_pte. safe. Qed.
Lemma safe_pgtbl_update_leaf a v o : Safe kwf (__pgtbl_update_leaf a v o) anyres.
Proof. unfold __pgtbl_update_leaf. safe. Qed.
#[export] Hint Resolve safe_pgtbl_alloc safe_pgtbl_init_pte safe_pgtbl_quie_check safe_pgtbl_pte
  safe_pgtbl_update_leaf : safe.
Lemma safe_pgtbl_mapping_add pt a p f : Safe kwf (pgtbl_mapping_add pt a p f) anyres.
Proof. unfold pgtbl_mapping_add. safe. Qed.
Lemma safe_pgtbl_mapping_del pt a l : Safe kwf (pgtbl_mapping_del pt a l) anyres.
Proof. unfold pgtbl_mapping_del. safe. Qed.
Lemma safe_pgtbl_get_cosframe pt a : Safe kwf (pgtbl_get_cosframe pt a) anyres.
Proof. unfold pgtbl_get_cosframe. safe. Qed.
Lemma safe_pgtbl_kmem_act pt a : Safe kwf (pgtbl_kmem_act pt a) anyres.
Proof. unfold pgtbl_kmem_act. safe. Qed.
#[export] Hint Resolve safe_pgtbl_mapping_add safe_pgtbl_mapping_del safe_pgtbl_get_cosframe
  safe_pgtbl_kmem_act : safe.

(** Lists *)
Lemma safe_list_init l o : Safe kwf (list_init l o) anyres.
Proof. unfold list_init. safe. Qed.
Lemma safe_list_add_before l n : Safe kwf (list_add_before l n) anyres.
Proof. unfold list_add_before. safe. Qed.
Lemma safe_list_add_after l n : Safe kwf (list_add_after l n) anyres.
Proof. unfold list_add_after. safe. Qed.
Lemma safe_list_rem n : Safe kwf (list_rem n) anyres.
Proof. unfold list_rem. safe. Qed.
Lemma safe_list_empty n : Safe kwf (list_empty n) anyres.
Proof. unfold list_empty. safe. Qed.
#[export] Hint Resolve safe_list_init safe_list_add_before safe_list_add_after safe_list_rem
  safe_list_empty : safe.
Lemma safe_list_enqueue h l : Safe kwf (list_enqueue h l) anyres.
Proof. unfold list_enqueue. safe. Qed.
Lemma safe_list_dequeue h : Safe kwf (list_dequeue h) anyres.
Proof. unfold list_dequeue. safe. Qed.
Lemma safe_list_first h : Safe kwf (list_first h) anyres.
Proof. unfold list_first, list_next. safe. Qed.
Lemma safe_list_head_init h : Safe kwf (list_head_init h) anyres.
Proof. apply safe_list_init. Qed.
#[export] Hint Resolve safe_list_enqueue safe_list_dequeue safe_list_first safe_list_head_init : safe.
Lemma safe_list_isempty h : Safe kwf (list_isempty h) anyres.
Proof. unfold list_isempty. safe. Qed.
#[export] Hint Resolve safe_list_isempty : safe.
