(* ===== verification/KernelSafe.v ===== *)
(** * Every entry into the kernel keeps the structural invariant

    The lemmas [safe_*] for temporal capabilities, threads, end-points, rings
    and the system calls, and the theorem about any sequence of entries. *)

From S2P Require Import Prelude Config Machine DList Ertrie Liveness Captbl Retype Pgtbl Tcap.
From S2P Require Import CapOps Thd Inv Capinv Safety.

(** ** Objects *)

Definition cli_wf (c : cos_cpu_local_info) : Prop :=
  0 <= cpuid c < NUM_CPU /\ 0 <= cli_invstk_top c <= THD_INVSTK_MAXSZ.

Ltac wf :=
  unfold thd_wf, tcap_wf, cli_wf, ring_wf, THD_INVSTK_MAXSZ, TCAP_MAX_DELEGATIONS, IPI_RING_SIZE,
    NUM_CPU in *; simpl in *;
  repeat match goal with H : _ /\ _ |- _ => destruct H end; rewrite ?length_insert in *; try solve [split_and?; auto; lia].

Lemma thread0_wf : thd_wf thread0.
Proof. wf. Qed.
Lemma tcap0_wf : tcap_wf tcap0.
Proof. wf. Qed.
Lemma ring0_wf : ring_wf ring0.
Proof. wf. Qed.

Lemma thd_at_wf s t : kwf s -> thd_wf (thd_at s t).
Proof.
  intros []. unfold thd_at. destruct (kthd s !! t) eqn:E; simpl; [|apply thread0_wf].
  exact (wf_thd t _ E).
Qed.
Lemma tcap_at_wf s t : kwf s -> tcap_wf (tcap_at s t).
Proof.
  intros []. unfold tcap_at. destruct (ktcap s !! t) eqn:E; simpl; [|apply tcap0_wf].
  exact (wf_tcap t _ E).
Qed.

Lemma kwf_thd_put s t x : kwf s -> thd_wf x -> kwf (thd_put t x s).
Proof. intros [] Hx. constructor; simpl; try done. by apply map_Forall_insert_2. Qed.
Lemma kwf_tcap_put s t x : kwf s -> tcap_wf x -> kwf (tcap_put t x s).
Proof. intros [] Hx. constructor; simpl; try done. by apply map_Forall_insert_2. Qed.
Lemma kwf_with_cli s c : kwf s -> cli_wf c -> kwf (with_cli c s).
Proof. intros [] []. by constructor. Qed.

Lemma safe_get_thd t : Safe kwf (get_thd t) thd_wf.
Proof.
  unfold get_thd. destruct (mapped t); [|by apply Safe_panic].
  apply Safe_gets. intros s. apply thd_at_wf.
Qed.
Lemma safe_set_thd t x : thd_wf x -> Safe kwf (set_thd t x) anyres.
Proof.
  intros Hx. unfold set_thd. destruct (mapped t); [|by apply Safe_panic].
  apply Safe_modify. intros s Hs. by apply kwf_thd_put.
Qed.
Lemma safe_get_tcap t : Safe kwf (get_tcap t) tcap_wf.
Proof.
  unfold get_tcap. destruct (mapped t); [|by apply Safe_panic].
  apply Safe_gets. intros s. apply tcap_at_wf.
Qed.
Lemma safe_set_tcap t x : tcap_wf x -> Safe kwf (set_tcap t x) anyres.
Proof.
  intros Hx. unfold set_tcap. destruct (mapped t); [|by apply Safe_panic].
  apply Safe_modify. intros s Hs. by apply kwf_tcap_put.
Qed.
Lemma safe_get_cli : Safe kwf get_cli cli_wf.
Proof. apply Safe_gets. by intros s []. Qed.
Lemma safe_set_cli c : cli_wf c -> Safe kwf (set_cli c) anyres.
Proof. intros Hc. apply Safe_modify. intros s Hs. by apply kwf_with_cli. Qed.
#[export] Hint Resolve safe_get_thd safe_get_tcap safe_get_cli : safe.

(** A store of an updated object, whose shape follows by [wf] *)
#[export] Hint Extern 1 (Safe kwf (set_thd _ _) _) => apply safe_set_thd; wf : safe.
#[export] Hint Extern 1 (Safe kwf (set_tcap _ _) _) => apply safe_set_tcap; wf : safe.
#[export] Hint Extern 1 (Safe kwf (set_cli _) _) => apply safe_set_cli; wf : safe.

(** ** Temporal capabilities *)

Lemma safe_deleg tc i : tcap_wf tc -> i < TCAP_MAX_DELEGATIONS -> Safe kwf (deleg tc i) anyres.
Proof.
  intros Hw Hi. unfold deleg. destruct (delegations tc !! Z.to_nat i) eqn:E; [safe|].
  apply lookup_ge_None in E. exfalso. wf.
Qed.
#[export] Hint Extern 1 (Safe kwf (deleg _ _) _) => apply safe_deleg; wf : safe.

Lemma safe_set_deleg t i v : i < TCAP_MAX_DELEGATIONS -> Safe kwf (set_deleg t i v) anyres.
Proof. intros Hi. unfold set_deleg. safe. Qed.
#[export] Hint Extern 1 (Safe kwf (set_deleg _ _ _) _) => apply safe_set_deleg; wf : safe.
Lemma safe_sched_info t : Safe kwf (sched_info t) anyres.
Proof. unfold sched_info. safe. Qed.
#[export] Hint Resolve safe_sched_info : safe.
Lemma safe_tcap_ref_take t : Safe kwf (tcap_ref_take t) anyres.
Proof. unfold tcap_ref_take. safe. Qed.
Lemma safe_tcap_ref_release t : Safe kwf (tcap_ref_release t) anyres.
Proof. unfold tcap_ref_release. safe. Qed.
Lemma safe_tcap_ref t : Safe kwf (tcap_ref t) anyres.
Proof. unfold tcap_ref. safe. Qed.
Lemma safe_tcap_rcvcap_thd t : Safe kwf (tcap_rcvcap_thd t) anyres.
Proof. unfold tcap_rcvcap_thd. safe. Qed.
Lemma safe_tcap_is_active t : Safe kwf (tcap_is_active t) anyres.
Proof. unfold tcap_is_active. safe. Qed.
Lemma safe_tcap_isactive t : Safe kwf (tcap_isactive t) anyres.
Proof. unfold tcap_isactive. safe. Qed.
Lemma safe_tcap_active_next : Safe kwf tcap_active_next anyres.
Proof. unfold tcap_active_next. safe. Qed.
Lemma safe_tcap_cycles_same a b : Safe kwf (tcap_cycles_same a b) anyres.
Proof. unfold tcap_cycles_same. safe. Qed.
Lemma safe_tcap_left t : Safe kwf (tcap_left t) anyres.
Proof. unfold tcap_left. safe. Qed.
Lemma safe_tcap_current : Safe kwf tcap_current anyres.
Proof. unfold tcap_current. safe. Qed.
#[export] Hint Resolve safe_tcap_ref_take safe_tcap_ref_release safe_tcap_ref safe_tcap_rcvcap_thd
  safe_tcap_is_active safe_tcap_isactive safe_tcap_active_next safe_tcap_cycles_same safe_tcap_left
  safe_tcap_current : safe.
Lemma safe_tcap_expended t : Safe kwf (tcap_expended t) anyres.
Proof. unfold tcap_expended. safe. Qed.
Lemma safe_tcap_setprio t p : Safe kwf (tcap_setprio t p) anyres.
Proof. unfold tcap_setprio. safe. Qed.
Lemma safe_tcap_consume t a : Safe kwf (tcap_consume t a) anyres.
Proof. unfold tcap_consume, tcap_active_rem. safe. Qed.
#[export] Hint Resolve safe_tcap_expended safe_tcap_setprio safe_tcap_consume : safe.
Lemma safe_tcap_current_set t : Safe kwf (tcap_current_set t) anyres.
Proof. unfold tcap_current_set. safe. Qed.
Lemma safe_thd_exec_add t c : Safe kwf (__thd_exec_add t c) anyres.
Proof. unfold __thd_exec_add. safe. Qed.
#[export] Hint Resolve safe_tcap_current_set safe_thd_exec_add : safe.
Lemma safe_tcap_budgets_update t n : Safe kwf (tcap_budgets_update t n) anyres.
Proof. unfold tcap_budgets_update. safe. Qed.
Lemma safe_chal_timer v : Safe kwf (chal_timer v) anyres.
Proof. by apply Safe_modify_same. Qed.
#[export] Hint Resolve safe_tcap_budgets_update safe_chal_timer : safe.
Lemma safe_tcap_timer_update n t now : Safe kwf (tcap_timer_update n t now) anyres.
Proof. unfold tcap_timer_update. safe. Qed.
Lemma safe_higher_loop fuel a c i j : tcap_wf a -> tcap_wf c ->
  Safe kwf (higher_loop fuel a c i j) anyres.
Proof. intros Ha Hc. revert i j. induction fuel; intros; simpl; safe; eauto; wf. Qed.
#[export] Hint Resolve safe_tcap_timer_update safe_higher_loop : safe.
Lemma safe_tcap_higher_prio a c : Safe kwf (tcap_higher_prio a c) anyres.
Proof. unfold tcap_higher_prio. safe. Qed.
Lemma safe_tcap_introspect t op : Safe kwf (tcap_introspect t op) anyres.
Proof. unfold tcap_introspect. safe. Qed.
Lemma safe_thd_next_thdinfo_update t c p b : Safe kwf (thd_next_thdinfo_update t c p b) anyres.
Proof. unfold thd_next_thdinfo_update. safe. Qed.
#[export] Hint Resolve safe_tcap_higher_prio safe_tcap_introspect safe_thd_next_thdinfo_update : safe.
Lemma safe_tcap_init t : Safe kwf (__tcap_init t) anyres.
Proof. unfold __tcap_init, tcap_uid_next. safe. Qed.
Lemma safe_tcap_delete t : Safe kwf (tcap_delete t) anyres.
Proof. unfold tcap_delete. safe. Qed.
Lemma safe_budget_move d s a : Safe kwf (budget_move d s a) anyres.
Proof. unfold budget_move. safe. Qed.
#[export] Hint Resolve safe_tcap_init safe_tcap_delete safe_budget_move : safe.
Lemma safe_tcap_budget_xfer d s a : Safe kwf (__tcap_budget_xfer d s a) anyres.
Proof. unfold __tcap_budget_xfer, tcap_active_add_before, tcap_active_rem. safe. Qed.
Lemma safe_tcap_promote t thd : Safe kwf (tcap_promote t thd) anyres.
Proof. unfold tcap_promote. safe. Qed.
#[export] Hint Resolve safe_tcap_budget_xfer safe_tcap_promote : safe.

(** The merge loop runs under the invariant that the numbers of delegations
    do not change. *)
Section Delegate.
Context (dst src nd ns : Z).

Definition deleg_inv (s : kstate) : Prop :=
  kwf s /\ ndelegs (tcap_at s dst) = nd /\ ndelegs (tcap_at s src) = ns.
Definition ref_ok (r : deleg_ref) : Prop :=
  match r with InArray _ i => i < TCAP_MAX_DELEGATIONS | InLocal _ => True end.

Lemma dinv_get t : Safe deleg_inv (get_tcap t)
  (fun x => tcap_wf x /\ (t = dst -> ndelegs x = nd) /\ (t = src -> ndelegs x = ns)).
Proof.
  unfold get_tcap. destruct (mapped t); [|by apply Safe_panic].
  apply Safe_gets. intros s (Hs & Hd & Hr). split_and!; [by apply tcap_at_wf|by intros ->..].
Qed.

Lemma dinv_deleg tc i : tcap_wf tc -> i < TCAP_MAX_DELEGATIONS ->
  Safe deleg_inv (deleg tc i) anyres.
Proof.
  intros Hw Hi. unfold deleg. destruct (delegations tc !! Z.to_nat i) eqn:E; [safe|].
  apply lookup_ge_None in E. exfalso. wf.
Qed.

Lemma dinv_ref_get r : ref_ok r -> Safe deleg_inv (ref_get r) anyres.
Proof.
  destruct r as [t i|v]; simpl; intros Hr; [|safe].
  eapply Safe_bind; [apply dinv_get|]. intros x (Hx & _). by apply dinv_deleg.
Qed.

Lemma dinv_set_deleg t i v : i < TCAP_MAX_DELEGATIONS -> Safe deleg_inv (set_deleg t i v) anyres.
Proof.
  intros Hi s (Hs & Hd & Hr). unfold set_deleg, get_tcap, set_tcap.
  destruct (mapped t); [|done]. rewrite (bind_Ok (gets _) _ s _ s eq_refl).
  pose proof (tcap_at_wf s t Hs) as Hw. unfold deleg at 1.
  destruct (delegations (tcap_at s t) !! Z.to_nat i) eqn:E; cycle 1.
  { apply lookup_ge_None in E. exfalso. wf. }
  simpl. split; [|done]. split; [apply kwf_tcap_put; [done|wf]|].
  unfold tcap_at, tcap_put. simpl.
  split; [rewrite <- Hd|rewrite <- Hr]; unfold tcap_at;
    destruct (decide (t = dst)), (decide (t = src)); subst;
    by rewrite ?lookup_insert_eq, ?lookup_insert_ne by done.
Qed.

Lemma dinv_ref_set_prio r p : ref_ok r -> Safe deleg_inv (ref_set_prio r p) ref_ok.
Proof.
  destruct r as [t i|v]; simpl; intros Hr; [|by apply Safe_ret].
  eapply Safe_bind; [apply dinv_get|]. intros x (Hx & _).
  eapply Safe_bind; [by apply dinv_deleg|]. intros y _.
  eapply Safe_bind; [by apply dinv_set_deleg|]. intros _ _. by apply Safe_ret.
Qed.

Lemma dinv_deleg_pick i j :
  i <= nd -> j <= ns -> nd <= TCAP_MAX_DELEGATIONS -> ns <= TCAP_MAX_DELEGATIONS ->
  i < nd \/ j < ns ->
  Safe deleg_inv (deleg_pick dst src i j)
    (fun '(n, i', j') => ref_ok n /\ i' <= nd /\ j' <= ns).
Proof.
  intros Hi Hj Hnd Hns Hc. unfold deleg_pick.
  eapply Safe_bind; [apply dinv_get|]. intros x (Hx & Ex & _). specialize (Ex eq_refl).
  eapply Safe_bind; [apply dinv_get|]. intros y (Hy & _ & Ey). specialize (Ey eq_refl).
  destruct (Z.eqb_spec i (ndelegs x)); [apply Safe_ret; simpl; lia|].
  destruct (Z.eqb_spec j (ndelegs y)); [apply Safe_ret; simpl; lia|].
  eapply Safe_bind; [apply dinv_deleg; [done|lia]|]. intros a _.
  eapply Safe_bind; [apply dinv_deleg; [done|lia]|]. intros b _.
  destruct (tcap_uid a <? tcap_uid b); [apply Safe_ret; simpl; lia|].
  destruct (tcap_uid a >? tcap_uid b); [apply Safe_ret; simpl; lia|].
  eapply Safe_bind; [apply Safe_massert|]. intros _ _. apply Safe_ret. simpl. lia.
Qed.

Lemma dinv_delegate_loop fuel d s p i j tmp si :
  i <= nd -> j <= ns -> nd <= TCAP_MAX_DELEGATIONS -> ns <= TCAP_MAX_DELEGATIONS ->
  Z.of_nat (length tmp) <= TCAP_MAX_DELEGATIONS -> -1 <= si < Z.of_nat (length tmp) ->
  Safe deleg_inv (delegate_loop fuel dst src d s p i j tmp si)
    (fun r => match r with
              | Some (tmp, si) => Z.of_nat (length tmp) <= TCAP_MAX_DELEGATIONS /\
                                  -1 <= si < Z.of_nat (length tmp)
              | None => True end).
Proof.
  intros Hi Hj Hnd Hns. revert i j tmp si Hi Hj.
  induction fuel as [|fuel IH]; intros i j tmp si Hi Hj Ht Hsi; simpl; [by apply Safe_ret|].
  eapply Safe_bind; [apply dinv_get|]. intros x (Hx & Ex & _). specialize (Ex eq_refl).
  eapply Safe_bind; [apply dinv_get|]. intros y (Hy & _ & Ey). specialize (Ey eq_refl).
  destruct ((i <? ndelegs x) || (j <? ndelegs y)) eqn:Hc; [|by apply Safe_ret].
  apply orb_true_iff in Hc. rewrite !Z.ltb_lt in Hc.
  eapply Safe_bind; [apply dinv_deleg_pick; lia|]. intros [[n i'] j'] (Hn & Hi' & Hj').
  eapply Safe_bind; [by apply dinv_ref_get|]. intros v _.
  eapply (Safe_bind _ _ _ ref_ok).
  { destruct (_ =? _); [by apply dinv_ref_set_prio|by apply Safe_ret]. }
  intros n' Hn'. destruct (Z.eqb_spec (Z.of_nat (length tmp)) TCAP_MAX_DELEGATIONS);
    [by apply Safe_ret|].
  eapply Safe_bind; [by apply dinv_ref_get|]. intros w _.
  apply IH; [done..| |]; rewrite length_app; simpl; [lia|]. destruct (_ =? _); lia.
Qed.
End Delegate.

Lemma safe_delegate_loop dst src d s p :
  Safe kwf (delegate_loop 17 dst src d s p 0 0 [] (-1))
    (fun r => match r with
              | Some (tmp, si) => Z.of_nat (length tmp) <= TCAP_MAX_DELEGATIONS /\
                                  -1 <= si < Z.of_nat (length tmp)
              | None => True end).
Proof.
  intros st Hs. pose proof (tcap_at_wf st dst Hs) as Hd. pose proof (tcap_at_wf st src Hs) as Hr.
  pose proof (dinv_delegate_loop dst src (ndelegs (tcap_at st dst)) (ndelegs (tcap_at st src))
    17 d s p 0 0 [] (-1)) as HJ.
  assert (deleg_inv dst src (ndelegs (tcap_at st dst)) (ndelegs (tcap_at st src)) st) as Hinv
    by done.
  specialize (HJ ltac:(wf) ltac:(wf) ltac:(wf) ltac:(wf) ltac:(simpl; wf) ltac:(simpl; lia) st Hinv).
  destruct (delegate_loop _ _ _ _ _ _ _ _ _ _ st) as [r s'|]; [|done].
  destruct HJ as [(? & _) ?]. by split.
Qed.
#[export] Hint Resolve safe_delegate_loop : safe.

Lemma safe_tcap_delegate dst src a p : Safe kwf (tcap_delegate dst src a p) anyres.
Proof.
  unfold tcap_delegate. safe. apply safe_set_tcap.
  match goal with H : context [negb (_ =? -1)] |- _ =>
    cbv beta in H; apply negb_true_iff, Z.eqb_neq in H end.
  unfold tcap_wf in *. simpl. rewrite length_app, length_drop. wf.
Qed.
#[export] Hint Resolve safe_tcap_delegate : safe.
Lemma safe_tcap_merge d r : Safe kwf (tcap_merge d r) anyres.
Proof. unfold tcap_merge. safe. Qed.
Lemma safe_tcap_wakeup tc p b t : Safe kwf (tcap_wakeup tc p b t) anyres.
Proof. unfold tcap_wakeup. safe. Qed.
#[export] Hint Resolve safe_tcap_merge safe_tcap_wakeup : safe.

(** ** Operations on tables and kernel memory *)

Lemma safe_CAP_TYPECHK v t : Safe kwf (CAP_TYPECHK v t) anyres.
Proof. unfold CAP_TYPECHK. safe. Qed.
#[export] Hint Resolve safe_CAP_TYPECHK : safe.
Lemma safe_CAP_TYPECHK_CORE v t o : Safe kwf (CAP_TYPECHK_CORE v t o) anyres.
Proof. unfold CAP_TYPECHK_CORE. safe. Qed.
Lemma safe_cap_type v : Safe kwf (cap_type v) anyres.
Proof. unfold cap_type. safe. Qed.
#[export] Hint Resolve safe_CAP_TYPECHK_CORE safe_cap_type : safe.
Lemma safe_cap_capactivate_pre t c i ty : Safe kwf (__cap_capactivate_pre t c i ty) anyres.
Proof. unfold __cap_capactivate_pre. safe. Qed.
Lemma safe_cap_capdeactivate t c ty l : Safe kwf (cap_capdeactivate t c ty l) anyres.
Proof. unfold cap_capdeactivate. safe. Qed.
Lemma safe_cap_kmem_activate t c a : Safe kwf (cap_kmem_activate t c a) anyres.
Proof. unfold cap_kmem_activate. safe. Qed.
#[export] Hint Resolve safe_cap_capactivate_pre safe_cap_capdeactivate safe_cap_kmem_activate : safe.
Lemma safe_captbl_activate t c i a l : Safe kwf (captbl_activate t c i a l) anyres.
Proof. unfold captbl_activate. safe. Qed.
Lemma safe_captbl_cons t c a : Safe kwf (captbl_cons t c a) anyres.
Proof. unfold captbl_cons. safe. Qed.
Lemma safe_leaf_line_scan t i : Safe kwf (leaf_line_scan t i) anyres.
Proof. unfold leaf_line_scan. safe. Qed.
#[export] Hint Resolve safe_captbl_activate safe_captbl_cons safe_leaf_line_scan : safe.
Lemma safe_captbl_leaflvl_scan t : Safe kwf (captbl_leaflvl_scan t) anyres.
Proof. unfold captbl_leaflvl_scan. safe. Qed.
#[export] Hint Resolve safe_captbl_leaflvl_scan : safe.
Lemma safe_captbl_kmem_scan c : Safe kwf (captbl_kmem_scan c) anyres.
Proof. unfold captbl_kmem_scan. safe. Qed.
Lemma safe_cap_cons_pgtbl a b c d : Safe kwf (cap_cons_pgtbl a b c d) anyres.
Proof. unfold cap_cons_pgtbl. safe. Qed.
#[export] Hint Resolve safe_captbl_kmem_scan safe_cap_cons_pgtbl : safe.
Lemma safe_cap_cons t a b i : Safe kwf (cap_cons t a b i) anyres.
Proof. unfold cap_cons. safe. Qed.
Lemma safe_decons_intern h t p l : Safe kwf (decons_intern h t p l) anyres.
Proof. unfold decons_intern. safe. Qed.
Lemma safe_decons_clear i : Safe kwf (decons_clear i) anyres.
Proof. unfold decons_clear. safe. Qed.
#[export] Hint Resolve safe_cap_cons safe_decons_intern safe_decons_clear : safe.
Lemma safe_cap_decons t c s p l : Safe kwf (cap_decons t c s p l) anyres.
Proof. unfold cap_decons. safe. Qed.
Lemma safe_cap_kmem_freeze t c : Safe kwf (cap_kmem_freeze t c) anyres.
Proof. unfold cap_kmem_freeze. safe. Qed.
Lemma safe_load_unaligned a : Safe kwf (load_unaligned a) anyres.
Proof. unfold load_unaligned. safe. Qed.
#[export] Hint Resolve safe_cap_decons safe_cap_kmem_freeze safe_load_unaligned : safe.
Lemma safe_kmem_page_scan a n : Safe kwf (kmem_page_scan a n) anyres.
Proof. unfold kmem_page_scan. safe. Qed.
Lemma safe_pgtbl_update pt : Safe kwf (pgtbl_update pt) anyres.
Proof. by apply Safe_modify_same. Qed.
Lemma safe_copy_words n d a : Safe kwf (copy_words n d a) anyres.
Proof. unfold copy_words. safe. Qed.
#[export] Hint Resolve safe_kmem_page_scan safe_pgtbl_update safe_copy_words : safe.
Lemma safe_pgtbl_create p c : Safe kwf (pgtbl_create p c) anyres.
Proof. unfold pgtbl_create. safe. Qed.
Lemma safe_pgtbl_activate t c i p l : Safe kwf (pgtbl_activate t c i p l) anyres.
Proof. unfold pgtbl_activate. safe. Qed.
Lemma safe_pgtbl_mapping_scan p : Safe kwf (pgtbl_mapping_scan p) anyres.
Proof. unfold pgtbl_mapping_scan. safe. Qed.
Lemma safe_cap_memactivate t p f d v : Safe kwf (cap_memactivate t p f d v) anyres.
Proof. unfold cap_memactivate. safe. Qed.
Lemma safe_kmem_unalloc p : Safe kwf (kmem_unalloc p) anyres.
Proof. unfold kmem_unalloc. safe. Qed.
Lemma safe_deact_quiescent c : Safe kwf (deact_quiescent c) anyres.
Proof. unfold deact_quiescent. safe. Qed.
#[export] Hint Resolve safe_pgtbl_create safe_pgtbl_activate safe_pgtbl_mapping_scan
  safe_cap_memactivate safe_kmem_unalloc safe_deact_quiescent : safe.
Lemma safe_deact_scan c t p : Safe kwf (deact_scan c t p) anyres.
Proof. unfold deact_scan. safe. Qed.
#[export] Hint Resolve safe_deact_scan : safe.
Lemma safe_deact_table_pre c t p : Safe kwf (deact_table_pre c t p) anyres.
Proof. unfold deact_table_pre. safe. Qed.
#[export] Hint Resolve safe_deact_table_pre : safe.
Lemma safe_kmem_deact_pre h t c a : Safe kwf (kmem_deact_pre h t c a) anyres.
Proof. unfold kmem_deact_pre. safe. Qed.

Lemma safe_drop_objs page :
  Safe kwf (modify (fun s => with_thd (filter (fun p => in_page page p.1 = false) (kthd s)) s)) anyres /\
  Safe kwf (modify (fun s => with_tcap (filter (fun p => in_page page p.1 = false) (ktcap s)) s)) anyres.
Proof.
  split; apply Safe_modify; intros s []; constructor; simpl; try done;
    intros k x Hx; apply map_lookup_filter_Some in Hx as [Hx _]; eauto.
Qed.
Lemma safe_page_zero p : Safe kwf (page_zero p) anyres.
Proof.
  unfold page_zero. eapply Safe_bind; [safe|]. intros _ _.
  eapply Safe_bind; [apply safe_drop_objs|]. intros _ _. apply safe_drop_objs.
Qed.
#[export] Hint Resolve safe_kmem_deact_pre safe_page_zero : safe.
Lemma safe_kmem_deact_post p v : Safe kwf (kmem_deact_post p v) anyres.
Proof. unfold kmem_deact_post. safe. Qed.
#[export] Hint Resolve safe_kmem_deact_post : safe.
Lemma safe_deact_release c p t v : Safe kwf (deact_release c p t v) anyres.
Proof. unfold deact_release. safe. Qed.
Lemma safe_deact_parent_pre h t p c f r : Safe kwf (deact_parent_pre h t p c f r) anyres.
Proof. unfold deact_parent_pre. safe. Qed.
#[export] Hint Resolve safe_deact_release safe_deact_parent_pre : safe.
Lemma safe_captbl_deactivate t d c l p f r : Safe kwf (captbl_deactivate t d c l p f r) anyres.
Proof. unfold captbl_deactivate. safe. Qed.
Lemma safe_pgtbl_deactivate t d c l p f r : Safe kwf (pgtbl_deactivate t d c l p f r) anyres.
Proof. unfold pgtbl_deactivate. safe. Qed.
#[export] Hint Resolve safe_captbl_deactivate safe_pgtbl_deactivate : safe.

(** ** Threads *)

Lemma safe_upd_thd t f : (forall x, thd_wf x -> thd_wf (f x)) -> Safe kwf (upd_thd t f) anyres.
Proof. intros Hf. unfold upd_thd. eapply Safe_bind; [apply safe_get_thd|]. intros x Hx.
  by apply safe_set_thd, Hf. Qed.
#[export] Hint Extern 1 (Safe kwf (upd_thd _ _) _) =>
  apply safe_upd_thd; let x := fresh "x" in let H := fresh "H" in intros x H; wf : safe.
Lemma safe_upd_rcvcap t f : Safe kwf (upd_rcvcap t f) anyres.
Proof. unfold upd_rcvcap. safe. Qed.
Lemma safe_get_regs p : Safe kwf (get_regs p) anyres.
Proof. destruct p; simpl; safe. Qed.
Lemma safe_set_regs p r : Safe kwf (set_regs p r) anyres.
Proof. destruct p; simpl; [by apply Safe_modify_same|]. safe. Qed.
#[export] Hint Resolve safe_upd_rcvcap safe_get_regs safe_set_regs : safe.
Lemma safe_userregs_set p v a b : Safe kwf (__userregs_set p v a b) anyres.
Proof. unfold __userregs_set. safe. Qed.
Lemma safe_userregs_setretvals p v a b c : Safe kwf (__userregs_setretvals p v a b c) anyres.
Proof. unfold __userregs_setretvals. safe. Qed.
Lemma safe_userregs_sinvupdate p : Safe kwf (__userregs_sinvupdate p) anyres.
Proof. unfold __userregs_sinvupdate. safe. Qed.
Lemma safe_copy_gp_regs a b : Safe kwf (copy_gp_regs a b) anyres.
Proof. unfold copy_gp_regs. safe. Qed.
Lemma safe_copy_all_regs a b : Safe kwf (copy_all_regs a b) anyres.
Proof. unfold copy_all_regs. safe. Qed.
#[export] Hint Resolve safe_userregs_set safe_userregs_setretvals safe_userregs_sinvupdate
  safe_copy_gp_regs safe_copy_all_regs : safe.
Lemma safe_userregs_return p v : Safe kwf (userregs_return p v) anyres.
Proof. unfold userregs_return. safe. Qed.
Lemma safe_thd_upcall_setup t e o a b c : Safe kwf (thd_upcall_setup t e o a b c) anyres.
Proof. unfold thd_upcall_setup. safe. Qed.
Lemma safe_thd_rcvcap_isreferenced t : Safe kwf (thd_rcvcap_isreferenced t) anyres.
Proof. unfold thd_rcvcap_isreferenced. safe. Qed.
Lemma safe_thd_bound2rcvcap t : Safe kwf (thd_bound2rcvcap t) anyres.
Proof. unfold thd_bound2rcvcap. safe. Qed.
Lemma safe_thd_rcvcap_tcap t : Safe kwf (thd_rcvcap_tcap t) anyres.
Proof. unfold thd_rcvcap_tcap. safe. Qed.
#[export] Hint Resolve safe_userregs_return safe_thd_upcall_setup safe_thd_rcvcap_isreferenced
  safe_thd_bound2rcvcap safe_thd_rcvcap_tcap : safe.
Lemma safe_thd_rcvcap_sched t : Safe kwf (thd_rcvcap_sched t) anyres.
Proof. unfold thd_rcvcap_sched. safe. Qed.
Lemma safe_thd_rcvcap_evt_enqueue h t : Safe kwf (thd_rcvcap_evt_enqueue h t) anyres.
Proof. unfold thd_rcvcap_evt_enqueue. safe. Qed.
Lemma safe_thd_rcvcap_all_pending_set t v : Safe kwf (thd_rcvcap_all_pending_set t v) anyres.
Proof. apply safe_upd_rcvcap. Qed.
#[export] Hint Resolve safe_thd_rcvcap_sched safe_thd_rcvcap_evt_enqueue
  safe_thd_rcvcap_all_pending_set : safe.
Lemma safe_thd_rcvcap_all_pending_get t : Safe kwf (thd_rcvcap_all_pending_get t) anyres.
Proof. unfold thd_rcvcap_all_pending_get. safe. Qed.
Lemma safe_thd_rcvcap_all_pending t : Safe kwf (thd_rcvcap_all_pending t) anyres.
Proof. unfold thd_rcvcap_all_pending. safe. Qed.
Lemma safe_thd_rcvcap_pending t : Safe kwf (thd_rcvcap_pending t) anyres.
Proof. unfold thd_rcvcap_pending. safe. Qed.
Lemma safe_thd_rcvcap_get_counter t : Safe kwf (thd_rcvcap_get_counter t) anyres.
Proof. unfold thd_rcvcap_get_counter. safe. Qed.
Lemma safe_thd_rcvcap_pending_inc t : Safe kwf (thd_rcvcap_pending_inc t) anyres.
Proof. apply safe_upd_rcvcap. Qed.
Lemma safe_thd_rcvcap_set_counter t c : Safe kwf (thd_rcvcap_set_counter t c) anyres.
Proof. apply safe_upd_rcvcap. Qed.
Lemma safe_thd_rcvcap_take t : Safe kwf (thd_rcvcap_take t) anyres.
Proof. apply safe_upd_rcvcap. Qed.
Lemma safe_thd_rcvcap_release t : Safe kwf (thd_rcvcap_release t) anyres.
Proof. apply safe_upd_rcvcap. Qed.
Lemma safe_thd_rcvcap_init t : Safe kwf (thd_rcvcap_init t) anyres.
Proof. apply safe_upd_rcvcap. Qed.
Lemma safe_thd_rcvcap_pending_dec t : Safe kwf (thd_rcvcap_pending_dec t) anyres.
Proof. unfold thd_rcvcap_pending_dec. safe. Qed.
#[export] Hint Resolve safe_thd_rcvcap_all_pending_get safe_thd_rcvcap_all_pending
  safe_thd_rcvcap_pending safe_thd_rcvcap_get_counter safe_thd_rcvcap_pending_inc
  safe_thd_rcvcap_set_counter safe_thd_rcvcap_take safe_thd_rcvcap_release safe_thd_rcvcap_init
  safe_thd_rcvcap_pending_dec : safe.
Lemma safe_thd_state_evt_deliver t : Safe kwf (thd_state_evt_deliver t) anyres.
Proof. unfold thd_state_evt_deliver, thd_rcvcap_evt_dequeue. safe. Qed.
Lemma safe_thd_current : Safe kwf thd_current anyres.
Proof. unfold thd_current. safe. Qed.
#[export] Hint Resolve safe_thd_state_evt_deliver safe_thd_current : safe.

Lemma u16_top v : 0 <= v <= THD_INVSTK_MAXSZ -> 0 <= u16 v <= THD_INVSTK_MAXSZ.
Proof. unfold THD_INVSTK_MAXSZ, u16. intros. rewrite Z.mod_small; lia. Qed.
Lemma i32_in_range v : -2147483648 <= v < 2147483648 -> i32 v = v.
Proof. unfold i32. intros. rewrite Z.mod_small; lia. Qed.

Lemma safe_thd_current_update n p : Safe kwf (thd_current_update n p) anyres.
Proof.
  unfold thd_current_update. eapply Safe_bind; [apply safe_get_cli|]. intros c [Hc Ht].
  eapply Safe_bind; [apply safe_upd_thd; intros x [Hx _]; split; [done|by apply u16_top]|].
  intros _ _. safe.
Qed.
Lemma safe_thd_scheduler t : Safe kwf (thd_scheduler t) anyres.
Proof. unfold thd_scheduler. safe. Qed.
Lemma safe_thd_scheduler_set t s : Safe kwf (thd_scheduler_set t s) anyres.
Proof. unfold thd_scheduler_set. safe. Qed.
#[export] Hint Resolve safe_thd_current_update safe_thd_scheduler safe_thd_scheduler_set : safe.

(** The invocation stack *)
Lemma safe_get_invstk t i : 0 <= i <= THD_INVSTK_MAXSZ -> Safe kwf (get_invstk t i) anyres.
Proof.
  intros Hi. unfold get_invstk. eapply Safe_bind; [apply safe_get_thd|]. intros x Hx.
  destruct (Z.eqb_spec i THD_INVSTK_MAXSZ); [safe|].
  destruct (Z.ltb_spec i 0); [lia|].
  destruct (invstk x !! Z.to_nat i) eqn:E; [safe|]. apply lookup_ge_None in E. exfalso. wf.
Qed.
Lemma safe_set_invstk t i e : 0 <= i <= THD_INVSTK_MAXSZ -> Safe kwf (set_invstk t i e) anyres.
Proof.
  intros Hi. unfold set_invstk. eapply Safe_bind; [by apply safe_get_invstk|]. intros _ _. safe.
Qed.
Lemma safe_curr_invstk_top : Safe kwf curr_invstk_top (fun v => 0 <= v <= THD_INVSTK_MAXSZ).
Proof. apply Safe_gets. by intros s []. Qed.
#[export] Hint Resolve safe_curr_invstk_top : safe.

Lemma safe_thd_invstk_current t : Safe kwf (thd_invstk_current t) anyres.
Proof.
  unfold thd_invstk_current. eapply Safe_bind; [apply safe_curr_invstk_top|]. intros v Hv.
  eapply Safe_bind; [by apply safe_get_invstk|]. intros e _. safe.
Qed.

Lemma Safe_at {A} (m : K A) Q s : Safe kwf m Q -> kwf s ->
  match m s with Ok a s' => kwf s' /\ Q a | Panic h => h <> OutOfBounds end.
Proof. intros H. apply H. Qed.

Lemma kwf_set_top s v : kwf s -> 0 <= v <= THD_INVSTK_MAXSZ ->
  kwf (with_cli (cli_set_top (i32 v) (kcli s)) s).
Proof.
  intros Hs Hv. apply kwf_with_cli; [done|]. destruct Hs. unfold cli_wf. simpl.
  unfold THD_INVSTK_MAXSZ in *. rewrite i32_in_range by lia. done.
Qed.

Lemma safe_thd_invstk_push t ci ip sp : Safe kwf (thd_invstk_push t ci ip sp) anyres.
Proof.
  intros s Hs. pose proof (wf_top s Hs) as Ht. unfold thd_invstk_push.
  rewrite (bind_Ok curr_invstk_top _ s (cli_invstk_top (kcli s)) s eq_refl).
  destruct (Z.geb_spec (cli_invstk_top (kcli s)) THD_INVSTK_MAXSZ); [done|].
  rewrite (bind_Ok curr_invstk_inc _ s (cli_invstk_top (kcli s)) _ eq_refl).
  apply Safe_at; [|apply kwf_set_top; [done|lia]].
  eapply Safe_bind; [apply safe_get_invstk; lia|]. intros e _.
  eapply Safe_bind; [apply safe_set_invstk; lia|]. intros _ _.
  eapply Safe_bind; [apply safe_set_invstk; lia|]. intros _ _. safe.
Qed.
Lemma safe_thd_invstk_pop t : Safe kwf (thd_invstk_pop t) anyres.
Proof.
  intros s Hs. pose proof (wf_top s Hs) as Ht. unfold thd_invstk_pop.
  rewrite (bind_Ok curr_invstk_top _ s (cli_invstk_top (kcli s)) s eq_refl).
  destruct (Z.eqb_spec (cli_invstk_top (kcli s)) 0); [done|].
  rewrite (bind_Ok curr_invstk_dec _ s (cli_invstk_top (kcli s)) _ eq_refl).
  apply Safe_at; [|apply kwf_set_top; [done|lia]].
  eapply Safe_bind; [apply safe_thd_invstk_current|]. intros r _. safe.
Qed.
#[export] Hint Resolve safe_thd_invstk_current safe_thd_invstk_push safe_thd_invstk_pop : safe.

(** Activation, deactivation and switching *)
Lemma safe_load_ci a : Safe kwf (load_ci a) anyres.
Proof. unfold load_ci. safe. Qed.
Lemma safe_store_ci a ci : Safe kwf (store_ci a ci) anyres.
Proof. unfold store_ci. safe. Qed.
Lemma safe_chal_tls_update a : Safe kwf (chal_tls_update a) anyres.
Proof. by apply Safe_modify_same. Qed.
#[export] Hint Resolve safe_load_ci safe_store_ci safe_chal_tls_update : safe.
Lemma safe_thd_zero t : Safe kwf (thd_zero t) anyres.
Proof. unfold thd_zero. eapply Safe_bind; [apply safe_set_thd, thread0_wf|]. intros _ _. safe. Qed.
#[export] Hint Resolve safe_thd_zero : safe.
Lemma safe_thd_activate t c i x k d n : Safe kwf (thd_activate t c i x k d n) anyres.
Proof. unfold thd_activate. safe. Qed.
Lemma safe_thd_deact_pre ct h t p f r : Safe kwf (thd_deact_pre ct h t p f r) anyres.
Proof. unfold thd_deact_pre. safe. Qed.
#[export] Hint Resolve safe_thd_activate safe_thd_deact_pre : safe.
Lemma safe_thd_deactivate ct d c l p f r : Safe kwf (thd_deactivate ct d c l p f r) anyres.
Proof. unfold thd_deactivate. safe. Qed.
Lemma safe_thd_tls_set ct c a t : Safe kwf (thd_tls_set ct c a t) anyres.
Proof. unfold thd_tls_set. safe. Qed.
Lemma safe_tcap_activate ct c i t : Safe kwf (tcap_activate ct c i t) anyres.
Proof. unfold tcap_activate. safe. Qed.
Lemma safe_thd_rcvcap_pending_deliver t p : Safe kwf (thd_rcvcap_pending_deliver t p) anyres.
Proof. unfold thd_rcvcap_pending_deliver. safe. Qed.
#[export] Hint Resolve safe_thd_deactivate safe_thd_tls_set safe_tcap_activate
  safe_thd_rcvcap_pending_deliver : safe.
Lemma safe_thd_switch_update t p b : Safe kwf (thd_switch_update t p b) anyres.
Proof. unfold thd_switch_update. safe. Qed.
Lemma safe_thd_introspect t op : Safe kwf (thd_introspect t op) anyres.
Proof. unfold thd_introspect. safe. Qed.
#[export] Hint Resolve safe_thd_switch_update safe_thd_introspect : safe.

(** ** Components, end-points, interrupts and rings *)

Lemma safe_comp_fill c p t l e a : Safe kwf (comp_fill c p t l e a) anyres.
Proof. unfold comp_fill. safe. Qed.
#[export] Hint Resolve safe_comp_fill : safe.
Lemma safe_comp_activate t c i a b l e x : Safe kwf (comp_activate t c i a b l e x) anyres.
Proof. unfold comp_activate. safe. Qed.
Lemma safe_comp_deactivate t c l : Safe kwf (comp_deactivate t c l) anyres.
Proof. unfold comp_deactivate. safe. Qed.
Lemma safe_copy_ci a b : Safe kwf (copy_ci a b) anyres.
Proof. unfold copy_ci. safe. Qed.
#[export] Hint Resolve safe_comp_activate safe_comp_deactivate safe_copy_ci : safe.
Lemma safe_sinv_activate t c i p e k : Safe kwf (sinv_activate t c i p e k) anyres.
Proof. unfold sinv_activate. safe. Qed.
Lemma safe_asnd_construct a r c b p : Safe kwf (asnd_construct a r c b p) anyres.
Proof. unfold asnd_construct. safe. Qed.
#[export] Hint Resolve safe_sinv_activate safe_asnd_construct : safe.
Lemma safe_asnd_activate t c i a r b p : Safe kwf (asnd_activate t c i a r b p) anyres.
Proof. unfold asnd_activate. safe. Qed.
Lemma safe_arcv_setup a t c n : Safe kwf (__arcv_setup a t c n) anyres.
Proof. unfold __arcv_setup. safe. Qed.
Lemma safe_arcv_teardown a t : Safe kwf (__arcv_teardown a t) anyres.
Proof. unfold __arcv_teardown. safe. Qed.
Lemma safe_arcv_thd_notif t : Safe kwf (arcv_thd_notif t) anyres.
Proof. unfold arcv_thd_notif. safe. Qed.
Lemma safe_arcv_parent t c b : Safe kwf (arcv_parent t c b) anyres.
Proof. unfold arcv_parent, load_depth. safe. Qed.
#[export] Hint Resolve safe_asnd_activate safe_arcv_setup safe_arcv_teardown safe_arcv_thd_notif
  safe_arcv_parent : safe.
Lemma safe_arcv_activate t c i a b d e f : Safe kwf (arcv_activate t c i a b d e f) anyres.
Proof. unfold arcv_activate, store_depth. safe. Qed.
Lemma safe_arcv_deactivate t c l : Safe kwf (arcv_deactivate t c l) anyres.
Proof. unfold arcv_deactivate. safe. Qed.
Lemma safe_sinv_call t c p : Safe kwf (sinv_call t c p) anyres.
Proof. unfold sinv_call. safe. Qed.
Lemma safe_sret_ret t p : Safe kwf (sret_ret t p) anyres.
Proof. unfold sret_ret. safe. Qed.
Lemma safe_hw_asnd_cap i : Safe kwf (hw_asnd_cap i) anyres.
Proof. unfold hw_asnd_cap. safe. Qed.
Lemma safe_hw_line_ok c i : Safe kwf (hw_line_ok c i) anyres.
Proof. unfold hw_line_ok. safe. Qed.
#[export] Hint Resolve safe_arcv_activate safe_arcv_deactivate safe_sinv_call safe_sret_ret
  safe_hw_asnd_cap safe_hw_line_ok : safe.
Lemma safe_hw_activate t c i b : Safe kwf (hw_activate t c i b) anyres.
Proof. unfold hw_activate. safe. Qed.
Lemma safe_hw_attach_rcvcap h i r c : Safe kwf (hw_attach_rcvcap h i r c) anyres.
Proof. unfold hw_attach_rcvcap. safe. Qed.
Lemma safe_hw_detach_rcvcap h i : Safe kwf (hw_detach_rcvcap h i) anyres.
Proof. unfold hw_detach_rcvcap. safe. Qed.
#[export] Hint Resolve safe_hw_activate safe_hw_attach_rcvcap safe_hw_detach_rcvcap : safe.

Lemma ring_at_wf s d c : kwf s -> ring_wf (ring_at s d c).
Proof.
  intros []. unfold ring_at. destruct (IPI_source (kx s) !! (d, c)) eqn:E; simpl;
    [|apply ring0_wf]. exact (wf_ring (d, c) _ E).
Qed.
Lemma is_core_true c : 0 <= c < NUM_CPU -> is_core c = true.
Proof. unfold is_core. intros. apply andb_true_iff. rewrite Z.leb_le, Z.ltb_lt. lia. Qed.
Lemma safe_get_ring d c : 0 <= d < NUM_CPU -> 0 <= c < NUM_CPU -> Safe kwf (get_ring d c) ring_wf.
Proof.
  intros Hd Hc. unfold get_ring. rewrite !is_core_true by done. simpl.
  apply Safe_gets. intros s. apply ring_at_wf.
Qed.
Lemma safe_set_ring d c r : ring_wf r -> Safe kwf (set_ring d c r) anyres.
Proof.
  intros Hr. apply Safe_modify. intros s []. constructor; simpl; try done.
  by apply map_Forall_insert_2.
Qed.
Lemma ring_mask v : 0 <= Z.land (u32 v) IPI_RING_MASK < IPI_RING_SIZE.
Proof.
  change IPI_RING_MASK with (Z.ones 4). rewrite Z.land_ones by lia.
  change IPI_RING_SIZE with (2 ^ 4). apply Z.mod_pos_bound. lia.
Qed.

Lemma safe_cos_ipi_ring_dequeue d c : 0 <= d < NUM_CPU -> 0 <= c < NUM_CPU ->
  Safe kwf (cos_ipi_ring_dequeue d c) anyres.
Proof.
  intros Hd Hc. unfold cos_ipi_ring_dequeue.
  eapply Safe_bind; [by apply safe_get_ring|]. intros r Hr.
  destruct (sender r =? receiver r); [safe|].
  destruct (ring r !! Z.to_nat (receiver r)) eqn:E.
  - eapply Safe_bind; [|intros _ _; safe]. apply safe_set_ring.
    pose proof (ring_mask (receiver r + 1)). unfold ring_wf in *. simpl. intuition.
  - apply lookup_ge_None in E. exfalso. wf.
Qed.
Lemma safe_handle_ipi_arcv x : Safe kwf (handle_ipi_arcv x) anyres.
Proof. unfold handle_ipi_arcv, chal_attempt_arcv. safe. Qed.
Lemma safe_process_ring_loop fuel d c : 0 <= d < NUM_CPU -> 0 <= c < NUM_CPU ->
  Safe kwf (process_ring_loop fuel d c) anyres.
Proof.
  intros Hd Hc. induction fuel as [|fuel IH]; simpl; [safe|].
  eapply Safe_bind; [by apply safe_cos_ipi_ring_dequeue|]. intros [x|] _; [|safe].
  eapply Safe_bind; [apply safe_handle_ipi_arcv|]. intros _ _. apply IH.
Qed.
Lemma safe_process_ring d c : 0 <= d < NUM_CPU -> 0 <= c < NUM_CPU ->
  Safe kwf (process_ring d c) anyres.
Proof.
  intros Hd Hc. unfold process_ring. eapply Safe_bind; [by apply safe_get_ring|].
  intros r _. by apply safe_process_ring_loop.
Qed.
Lemma safe_cos_ipi_ring_enqueue d a : 0 <= d -> Safe kwf (cos_ipi_ring_enqueue d a) anyres.
Proof.
  intros Hd. unfold cos_ipi_ring_enqueue. destruct (Z.geb_spec d NUM_CPU); [safe|].
  eapply Safe_bind; [apply safe_get_cpuid|]. intros c Hc.
  eapply Safe_bind; [by apply safe_get_ring|]. intros r Hr.
  destruct (_ =? _); [safe|]. do 3 (eapply Safe_bind; [solve [eauto with safe]|intros ? _]).
  destruct (ring r !! Z.to_nat (sender r)) eqn:E.
  - eapply Safe_bind; [|intros _ _; safe]. apply safe_set_ring.
    pose proof (ring_mask (sender r + 1)). unfold ring_wf in *. simpl. rewrite length_insert.
    intuition.
  - apply lookup_ge_None in E. exfalso. wf.
Qed.
Lemma safe_cos_cap_send_ipi c a : Safe kwf (cos_cap_send_ipi c a) anyres.
Proof.
  unfold cos_cap_send_ipi, chal_send_ipi.
  eapply Safe_bind; [apply safe_cos_ipi_ring_enqueue, u32_range|]. intros r _. safe.
Qed.
#[export] Hint Resolve safe_cos_cap_send_ipi : safe.

Lemma safe_ipi_scan d i : 0 <= d < NUM_CPU -> 0 <= i < NUM_CPU -> Safe kwf (ipi_scan d i) anyres.
Proof.
  intros Hd Hi. unfold ipi_scan. eapply Safe_bind; [by apply safe_get_ring|]. intros r _.
  destruct (negb _); [by apply safe_process_ring|safe].
Qed.
Lemma Safe_for_range n i (body : Z -> K unit) :
  (forall j, i <= j < i + Z.of_nat n -> Safe kwf (body j) anyres) ->
  Safe kwf (for_n n i body) anyres.
Proof.
  revert i. induction n as [|n IH]; intros i Hb; simpl; [safe|].
  eapply Safe_bind; [apply Hb; lia|]. intros _ _. apply IH. intros. apply Hb. lia.
Qed.
Lemma safe_cos_cap_ipi_handling : Safe kwf cos_cap_ipi_handling anyres.
Proof.
  unfold cos_cap_ipi_handling. eapply Safe_bind; [apply safe_get_cpuid|]. intros c Hc.
  eapply (Safe_bind _ _ _ (fun n => 0 <= n < NUM_CPU)).
  { apply Safe_gets. intros s []. destruct (ipi_start (kx s) !! c) eqn:E; simpl; [|wf].
    exact (wf_start c _ E). }
  intros n Hn. eapply Safe_bind.
  { apply Safe_modify. intros s []. constructor; simpl; try done.
    apply map_Forall_insert_2; [|done]. apply Z.mod_pos_bound. wf. }
  intros _ _. eapply Safe_bind; [apply Safe_for_range; intros; apply safe_ipi_scan; wf|].
  intros _ _. apply Safe_for_range. intros. apply safe_ipi_scan; wf.
Qed.

(** ** System calls *)

Lemma safe_tlb_mandatory_flush : Safe kwf tlb_mandatory_flush anyres.
Proof.
  unfold tlb_mandatory_flush. do 2 (eapply Safe_bind; [solve [eauto with safe]|intros ? ?]).
  by apply Safe_modify_same.
Qed.
Lemma safe_cpy_table p c : Safe kwf (cpy_table p c) anyres.
Proof. unfold cpy_table. safe. Qed.
Lemma safe_copy_post a b t : Safe kwf (copy_post a b t) anyres.
Proof. apply safe_copy_words. Qed.
#[export] Hint Resolve safe_cpy_table safe_copy_post : safe.
Lemma safe_cap_cpy_cap t a b c d : Safe kwf (cap_cpy_cap t a b c d) anyres.
Proof. unfold cap_cpy_cap. safe. Qed.
Lemma safe_cap_cpy_page t a b c d : Safe kwf (cap_cpy_page t a b c d) anyres.
Proof. unfold cap_cpy_page. safe. Qed.
#[export] Hint Resolve safe_cap_cpy_cap safe_cap_cpy_page : safe.
Lemma safe_cap_cpy t a b c d : Safe kwf (cap_cpy t a b c d) anyres.
Proof. unfold cap_cpy. safe. Qed.
Lemma safe_cap_move_cap t a b c d e : Safe kwf (cap_move_cap t a b c d e) anyres.
Proof. unfold cap_move_cap. safe. Qed.
Lemma safe_cap_move_page t a b c d : Safe kwf (cap_move_page t a b c d) anyres.
Proof. unfold cap_move_page. safe. Qed.
#[export] Hint Resolve safe_cap_cpy safe_cap_move_cap safe_cap_move_page : safe.
Lemma safe_cap_move t a b c d : Safe kwf (cap_move t a b c d) anyres.
Proof. unfold cap_move. safe. Qed.
Lemma safe_switch_save p t : Safe kwf (switch_save p t) anyres.
Proof. unfold switch_save. safe. Qed.
#[export] Hint Resolve safe_cap_move safe_switch_save : safe.
#[export] Hint Extern 1 (Safe kwf (get_invstk _ _) _) => apply safe_get_invstk; wf : safe.
Lemma safe_cap_thd_switch p a b ci : Safe kwf (cap_thd_switch p a b ci) anyres.
Proof. unfold cap_thd_switch. safe. Qed.
Lemma safe_notify_loop fuel a b : Safe kwf (notify_loop fuel a b) anyres.
Proof. revert a b. induction fuel; intros; simpl; safe; eauto. Qed.
#[export] Hint Resolve safe_cap_thd_switch safe_notify_loop : safe.
Lemma safe_notify_parent t : Safe kwf (notify_parent t) anyres.
Proof. unfold notify_parent. safe. Qed.
#[export] Hint Resolve safe_notify_parent : safe.
Lemma safe_notify_process a b c d y : Safe kwf (notify_process a b c d y) anyres.
Proof. unfold notify_process. safe. Qed.
#[export] Hint Resolve safe_notify_process : safe.
Lemma safe_asnd_process a b c d y : Safe kwf (asnd_process a b c d y) anyres.
Proof. unfold asnd_process. safe. Qed.
Lemma safe_update_choose a b c d e y : Safe kwf (update_choose a b c d e y) anyres.
Proof. unfold update_choose. safe. Qed.
#[export] Hint Resolve safe_asnd_process safe_update_choose : safe.
Lemma safe_cap_update p a b c d e ci y : Safe kwf (cap_update p a b c d e ci y) anyres.
Proof. unfold cap_update. safe. Qed.
#[export] Hint Resolve safe_cap_update : safe.
Lemma safe_cap_switch p a b c d ci : Safe kwf (cap_switch p a b c d ci) anyres.
Proof. unfold cap_switch. safe. Qed.
Lemma safe_cap_sched_tok_validate t k : Safe kwf (cap_sched_tok_validate t k) anyres.
Proof. unfold cap_sched_tok_validate. safe. Qed.
#[export] Hint Resolve safe_cap_switch safe_cap_sched_tok_validate : safe.
Lemma safe_dispatch_rcv ci a t k : Safe kwf (dispatch_rcv ci a t k) anyres.
Proof. unfold dispatch_rcv. safe. Qed.
Lemma safe_dispatch_tcap ci t : Safe kwf (dispatch_tcap ci t) anyres.
Proof. unfold dispatch_tcap. safe. Qed.
#[export] Hint Resolve safe_dispatch_rcv safe_dispatch_tcap : safe.
Lemma safe_cap_thd_op c t p ci : Safe kwf (cap_thd_op c t p ci) anyres.
Proof. unfold cap_thd_op. safe. Qed.
Lemma safe_cap_asnd_to_arcv a : Safe kwf (__cap_asnd_to_arcv a) anyres.
Proof. unfold __cap_asnd_to_arcv. safe. Qed.
#[export] Hint Resolve safe_cap_thd_op safe_cap_asnd_to_arcv : safe.
Lemma safe_cap_asnd_op a t p ci : Safe kwf (cap_asnd_op a t p ci) anyres.
Proof. unfold cap_asnd_op. safe. Qed.
Lemma safe_cap_hw_asnd a p : Safe kwf (cap_hw_asnd a p) anyres.
Proof. unfold cap_hw_asnd. safe. Qed.
Lemma safe_expended_process p t ci b : Safe kwf (expended_process p t ci b) anyres.
Proof. unfold expended_process. safe. Qed.
#[export] Hint Resolve safe_cap_asnd_op safe_cap_hw_asnd safe_expended_process : safe.
Lemma safe_timer_process p : Safe kwf (timer_process p) anyres.
Proof. unfold timer_process. safe. Qed.
Lemma safe_arcv_next a b : Safe kwf (arcv_next a b) anyres.
Proof. unfold arcv_next. safe. Qed.
#[export] Hint Resolve safe_timer_process safe_arcv_next : safe.
Lemma safe_arcv_block t p ci a b : Safe kwf (arcv_block t p ci a b) anyres.
Proof. unfold arcv_block. safe. Qed.
#[export] Hint Resolve safe_arcv_block : safe.
Lemma safe_cap_arcv_op a t p ci : Safe kwf (cap_arcv_op a t p ci) anyres.
Proof. unfold cap_arcv_op. safe. Qed.
Lemma safe_cap_introspect t c o : Safe kwf (cap_introspect t c o) anyres.
Proof. unfold cap_introspect. safe. Qed.
#[export] Hint Resolve safe_cap_arcv_op safe_cap_introspect : safe.
Lemma safe_with_kmem ct c a act : (forall k, Safe kwf (act k) anyres) ->
  Safe kwf (with_kmem ct c a act) anyres.
Proof. intros Ha. unfold with_kmem. safe; apply Ha. Qed.
Lemma safe_captblactivate_op ct c r : Safe kwf (captblactivate_op ct c r) anyres.
Proof. apply safe_with_kmem. intros k. cbv beta. safe. Qed.
Lemma safe_pgtblactivate_op ct c r : Safe kwf (pgtblactivate_op ct c r) anyres.
Proof. unfold pgtblactivate_op. safe. Qed.
Lemma safe_thdactivate_op ct c r : Safe kwf (thdactivate_op ct c r) anyres.
Proof. apply safe_with_kmem. intros k. cbv beta. safe. Qed.
Lemma safe_tcapactivate_op ct c r : Safe kwf (tcapactivate_op ct c r) anyres.
Proof. apply safe_with_kmem. intros k. cbv beta. safe. Qed.
Lemma safe_thdtlsset_op h t r : Safe kwf (thdtlsset_op h t r) anyres.
Proof. unfold thdtlsset_op. safe. Qed.
Lemma safe_introspect_op h r : Safe kwf (introspect_op h r) anyres.
Proof. unfold introspect_op. safe. Qed.
#[export] Hint Resolve safe_captblactivate_op safe_pgtblactivate_op safe_thdactivate_op
  safe_tcapactivate_op safe_thdtlsset_op safe_introspect_op : safe.
Lemma safe_captbl_op ct c h t o r : Safe kwf (captbl_op ct c h t o r) anyres.
Proof.
  unfold captbl_op, sinv_deactivate, sret_deactivate, asnd_deactivate, hw_deactivate. safe.
Qed.
Lemma safe_retype_op h a f : (forall x, Safe kwf (f x) anyres) -> Safe kwf (retype_op h a f) anyres.
Proof. intros Hf. unfold retype_op. safe. Qed.
Lemma safe_pgtbl_op ct c h o r : Safe kwf (pgtbl_op ct c h o r) anyres.
Proof.
  unfold pgtbl_op. safe; apply safe_retype_op; intros; eauto with safe; apply safe_mod_mem_type.
Qed.
Lemma safe_expended_op t p ci : Safe kwf (expended_op t p ci) anyres.
Proof. unfold expended_op. safe. Qed.
#[export] Hint Resolve safe_captbl_op safe_pgtbl_op safe_expended_op : safe.
Lemma safe_tcap_transfer_op h t p ci r : Safe kwf (tcap_transfer_op h t p ci r) anyres.
Proof. unfold tcap_transfer_op. safe. Qed.
Lemma safe_tcap_delegate_op h t p ci r : Safe kwf (tcap_delegate_op h t p ci r) anyres.
Proof. unfold tcap_delegate_op. safe. Qed.
Lemma safe_tcap_merge_op h ci r : Safe kwf (tcap_merge_op h ci r) anyres.
Proof. unfold tcap_merge_op. safe. Qed.
Lemma safe_tcap_wakeup_op h ci r : Safe kwf (tcap_wakeup_op h ci r) anyres.
Proof. unfold tcap_wakeup_op. safe. Qed.
Lemma safe_hw_op h o ci r v : Safe kwf (hw_op h o ci r v) anyres.
Proof. unfold hw_op. safe. Qed.
#[export] Hint Resolve safe_tcap_transfer_op safe_tcap_delegate_op safe_tcap_merge_op
  safe_tcap_wakeup_op safe_hw_op : safe.
Lemma safe_tcap_op h t o p ci r : Safe kwf (tcap_op h t o p ci r) anyres.
Proof. unfold tcap_op. safe. Qed.
#[export] Hint Resolve safe_tcap_op : safe.
Lemma safe_composite_syscall_slowpath p : Safe kwf (composite_syscall_slowpath p) anyres.
Proof. unfold composite_syscall_slowpath. safe. Qed.
Lemma safe_syscall_done p v : Safe kwf (syscall_done p v) anyres.
Proof. unfold syscall_done. safe. Qed.
#[export] Hint Resolve safe_composite_syscall_slowpath safe_syscall_done : safe.
Lemma safe_composite_syscall_handler p : Safe kwf (composite_syscall_handler p) anyres.
Proof. unfold composite_syscall_handler. safe. Qed.
#[export] Hint Resolve safe_composite_syscall_handler safe_cos_cap_ipi_handling : safe.

(** ** Sequences of entries into the kernel *)

(** How the kernel is entered; the registers are whatever user level left. *)
Inductive kentry :=
| Syscall (r : pt_regs)
| Timer (r : pt_regs)
| Irq (hwid : Z) (r : pt_regs)
| Ipi (r : pt_regs).

Definition run_entry (e : kentry) : K unit :=
  match e with
  | Syscall r => modify (with_regs r) ;; composite_syscall_handler UserRegs ;; ret tt
  | Timer r => modify (with_regs r) ;; timer_process UserRegs ;; ret tt
  | Irq hwid r =>
      modify (with_regs r) ;; a <- hw_asnd_cap hwid ;; cap_hw_asnd a UserRegs ;; ret tt
  | Ipi r => modify (with_regs r) ;; cos_cap_ipi_handling
  end.

Inductive kreach (s0 : kstate) : kstate -> Prop :=
| kreach_start : kreach s0 s0
| kreach_step s e s' : kreach s0 s -> run_entry e s = Ok tt s' -> kreach s0 s'.

Lemma safe_run_entry e : Safe kwf (run_entry e) anyres.
Proof.
  destruct e; simpl; (eapply Safe_bind; [by apply Safe_modify_same|intros _ _]); safe.
Qed.

Lemma kreach_kwf s0 s : kwf s0 -> kreach s0 s -> kwf s.
Proof.
  intros H0. induction 1 as [|s e s' _ IH Hr]; [done|].
  pose proof (safe_run_entry e s IH) as HS. rewrite Hr in HS. apply HS.
Qed.


Lemma kstate0_wf : kwf kstate0.
Proof. constructor; simpl; try apply map_Forall_empty; unfold NUM_CPU, THD_INVSTK_MAXSZ; lia. Qed.

