(* ===== verification/InvSpec.v ===== *)
(** * Invocation and return, rings between cores

    A system call on an invocation capability enters the callee with the
    arguments and the identity of the caller's thread, and the default return
    capability goes back to where the caller was, as a stack discipline of
    the thread demands; the bound of that stack; and the rings of
    inter-processor requests as bounded queues. *)

From S2P Require Import Prelude Config Machine DList Ertrie Liveness Captbl CaptblSpec Retype.
From S2P Require Import Pgtbl Tcap CapOps Thd Inv Capinv.

(** ** Running operations on threads *)

Lemma get_thd_Ok t s : PAGE_SIZE <= t -> get_thd t s = Ok (thd_at s t) s.
Proof. intros. unfold get_thd, mapped. by rewrite (proj2 (Z.leb_le _ _)). Qed.
Lemma set_thd_Ok t v s : PAGE_SIZE <= t -> set_thd t v s = Ok tt (thd_put t v s).
Proof. intros. unfold set_thd, mapped. by rewrite (proj2 (Z.leb_le _ _)). Qed.
Lemma upd_thd_Ok t f s : PAGE_SIZE <= t -> upd_thd t f s = Ok tt (thd_put t (f (thd_at s t)) s).
Proof.
  intros. unfold upd_thd. rewrite (bind_Ok _ _ _ _ _ (get_thd_Ok t s H)). by apply set_thd_Ok.
Qed.

Lemma thd_at_put_eq t v s : thd_at (thd_put t v s) t = v.
Proof. unfold thd_at, thd_put. simpl. by rewrite lookup_insert_eq. Qed.
Lemma thd_at_put_ne t u v s : t <> u -> thd_at (thd_put t v s) u = thd_at s u.
Proof. intros. unfold thd_at, thd_put. simpl. by rewrite lookup_insert_ne. Qed.
Lemma thd_put_twice t v w s : thd_put t v (thd_put t w s) = thd_put t v s.
Proof. unfold thd_put. simpl. by rewrite insert_insert_eq. Qed.

(** [thstep] runs the next read or update of a thread. *)
Ltac thstep :=
  lazymatch goal with
  | |- context [bind (get_thd ?t) ?k ?s] =>
      rewrite (bind_Ok (get_thd t) k s _ _ (get_thd_Ok t s ltac:(assumption)))
  | |- context [bind (upd_thd ?t ?f) ?k ?s] =>
      rewrite (bind_Ok (upd_thd t f) k s _ _ (upd_thd_Ok t f s ltac:(assumption)))
  | |- context [bind (set_thd ?t ?f) ?k ?s] =>
      rewrite (bind_Ok (set_thd t f) k s _ _ (set_thd_Ok t f s ltac:(assumption)))
  end; rewrite ?thd_at_put_eq, ?thd_put_twice; cbv beta.

(** ** The invocation stack *)

Section Stack.
Context (t : Z) (Ht : PAGE_SIZE <= t).

Lemma get_invstk_Ok i e s :
  0 <= i < THD_INVSTK_MAXSZ -> invstk (thd_at s t) !! Z.to_nat i = Some e ->
  get_invstk t i s = Ok e s.
Proof using Ht.
  intros Hi He. unfold get_invstk. thstep.
  rewrite (proj2 (Z.eqb_neq _ _)), (proj2 (Z.ltb_ge _ _)) by lia. by rewrite He.
Qed.

Lemma set_invstk_Ok i e v s :
  0 <= i < THD_INVSTK_MAXSZ -> invstk (thd_at s t) !! Z.to_nat i = Some e ->
  set_invstk t i v s =
  Ok tt (thd_put t (thd_set_invstk (<[Z.to_nat i := v]> (invstk (thd_at s t))) (thd_at s t)) s).
Proof using Ht.
  intros Hi He. unfold set_invstk. rewrite (bind_Ok _ _ _ _ _ (get_invstk_Ok i e s Hi He)).
  rewrite (proj2 (Z.eqb_neq _ _)) by lia. by rewrite upd_thd_Ok.
Qed.

(** The state after a push on a stack whose top entry is [e] *)
Definition pushed (e : invstk_entry) (ci : comp_info) (ip sp : Z) (s : kstate) : kstate :=
  let k := Z.to_nat (cli_invstk_top (kcli s)) in
  thd_put t (thd_set_invstk (<[S k := InvEnt ci 0 0]> (<[k := InvEnt (ie_ci e) sp ip]>
               (invstk (thd_at s t)))) (thd_at s t))
    (with_cli (cli_set_top (cli_invstk_top (kcli s) + 1) (kcli s)) s).

Lemma thd_invstk_push_Ok e ci ip sp s :
  length (invstk (thd_at s t)) = 32%nat -> 0 <= cli_invstk_top (kcli s) < THD_INVSTK_MAXSZ - 1 ->
  invstk (thd_at s t) !! Z.to_nat (cli_invstk_top (kcli s)) = Some e ->
  thd_invstk_push t ci ip sp s = Ok 0 (pushed e ci ip sp s).
Proof using Ht.
  unfold THD_INVSTK_MAXSZ. intros Hl Hk He. unfold thd_invstk_push, pushed.
  set (k := cli_invstk_top (kcli s)) in *.
  rewrite (bind_Ok curr_invstk_top _ s k s eq_refl).
  rewrite Z.geb_leb, (proj2 (Z.leb_gt _ _)) by (unfold THD_INVSTK_MAXSZ; lia).
  rewrite (bind_Ok curr_invstk_inc _ s k (with_cli (cli_set_top (i32 (k + 1)) (kcli s)) s) eq_refl).
  replace (i32 (k + 1)) with (k + 1) by (unfold i32; rewrite Z.mod_small; lia).
  set (s1 := with_cli _ s).
  rewrite (bind_Ok _ _ _ _ _ (get_invstk_Ok k e s1 ltac:(unfold THD_INVSTK_MAXSZ; lia) He)).
  rewrite (bind_Ok _ _ _ _ _ (set_invstk_Ok k e _ s1 ltac:(unfold THD_INVSTK_MAXSZ; lia) He)).
  set (s2 := thd_put _ _ s1).
  destruct (lookup_lt_is_Some_2 (invstk (thd_at s2 t)) (Z.to_nat (k + 1))) as [e' He'].
  { unfold s2. rewrite thd_at_put_eq. simpl. rewrite length_insert.
    change (thd_at s1 t) with (thd_at s t). lia. }
  rewrite (bind_Ok _ _ _ _ _ (set_invstk_Ok (k + 1) e' _ s2 ltac:(unfold THD_INVSTK_MAXSZ; lia) He')).
  unfold s2, ret. rewrite thd_at_put_eq, thd_put_twice.
  change (thd_at s1 t) with (thd_at s t). replace (Z.to_nat (k + 1)) with (S (Z.to_nat k)) by lia.
  done.
Qed.

Lemma thd_invstk_pop_Ok e s :
  0 < cli_invstk_top (kcli s) <= THD_INVSTK_MAXSZ ->
  invstk (thd_at s t) !! Z.to_nat (cli_invstk_top (kcli s) - 1) = Some e ->
  thd_invstk_pop t s =
  Ok (Some (ie_ci e, ie_ip e, ie_sp e))
    (with_cli (cli_set_top (cli_invstk_top (kcli s) - 1) (kcli s)) s).
Proof using Ht.
  unfold THD_INVSTK_MAXSZ. intros Hk He. unfold thd_invstk_pop.
  set (k := cli_invstk_top (kcli s)) in *.
  rewrite (bind_Ok curr_invstk_top _ s k s eq_refl).
  rewrite (proj2 (Z.eqb_neq _ _)) by lia.
  rewrite (bind_Ok curr_invstk_dec _ s k (with_cli (cli_set_top (i32 (k - 1)) (kcli s)) s) eq_refl).
  replace (i32 (k - 1)) with (k - 1) by (unfold i32; rewrite Z.mod_small; lia).
  set (s1 := with_cli _ s). unfold thd_invstk_current.
  rewrite bind_assoc, (bind_Ok curr_invstk_top _ s1 (k - 1) s1 eq_refl).
  rewrite bind_assoc.
  rewrite (bind_Ok _ _ _ _ _ (get_invstk_Ok (k - 1) e s1 ltac:(unfold THD_INVSTK_MAXSZ; lia) He)).
  done.
Qed.
End Stack.

(** ** Synchronous invocation and return *)

(** The component named by [ci] has not been deactivated. *)
Definition alive (s : kstate) (ci : comp_info) : Prop :=
  ld_id (liveness ci) < LTBL_ENTS /\ epoch (lent s (ld_id (liveness ci))) = ld_epoch (liveness ci).

Lemma isalive_Ok s ci : alive s ci -> ltbl_isalive (liveness ci) s = Ok true s.
Proof.
  intros [Hid He]. unfold ltbl_isalive. rewrite (bind_Ok _ _ _ _ _ (ltbl_lkup_Ok _ s Hid)).
  by rewrite He, Z.eqb_refl.
Qed.

(** The [struct comp_info] at [a] *)
Definition ci_at (s : kstate) (a : Z) : comp_info :=
  CInfo (LData (word s a + 4294967296 * word s (a + 4)) (word s (a + 8)))
    (word s (a + 12)) (word s (a + 16)) (word s (a + 20)).

Lemma load_ci_Ok a s : PAGE_SIZE <= a -> load_ci a s = Ok (ci_at s a) s.
Proof.
  intros Ha. unfold load_ci, load64. rewrite bind_assoc. kstep. rewrite bind_assoc. kstep.
  rewrite (bind_Ok (ret _) _ s _ s eq_refl). do 4 kstep. reflexivity.
Qed.

Definition with_cr3 (pt : Z) (s : kstate) : kstate :=
  with_hw (HwRegs pt (tls_base (khw s)) (oneshot (khw s))) s.

(** The state after a successful invocation from a stack with top entry [e] *)
Definition invoked (t sinvc : Z) (e : invstk_entry) (s : kstate) : kstate :=
  let r := kregs s in let ci := ci_at s (sinvc + SI_INFO) in
  with_regs
    (regs_set (Z.lor (tid (thd_at s t)) (Z.shiftl (cpuid (kcli s)) 16))
       (word s (sinvc + SI_TOKEN)) (word s (sinvc + SI_ENTRY)) (regs_sinvupdate r))
    (with_cr3 (ci_pgtbl ci) (pushed t e ci (__userregs_getip r) (__userregs_getsp r) s)).

Lemma sinv_call_Ok t sinvc e s :
  PAGE_SIZE <= t -> PAGE_SIZE <= sinvc ->
  length (invstk (thd_at s t)) = 32%nat -> 0 <= cli_invstk_top (kcli s) < THD_INVSTK_MAXSZ - 1 ->
  invstk (thd_at s t) !! Z.to_nat (cli_invstk_top (kcli s)) = Some e ->
  alive s (ci_at s (sinvc + SI_INFO)) ->
  sinv_call t sinvc UserRegs s = Ok tt (invoked t sinvc e s).
Proof.
  intros Ht Hc Hl Hk He Hal. unfold sinv_call.
  rewrite (bind_Ok (get_regs UserRegs) _ s (kregs s) s eq_refl). cbv zeta.
  rewrite (bind_Ok _ _ _ _ _ (load_ci_Ok (sinvc + SI_INFO) s ltac:(unfold SI_INFO; lia))).
  rewrite (bind_Ok _ _ _ _ _ (isalive_Ok s _ Hal)). cbn [negb].
  rewrite (bind_Ok _ _ _ _ _ (thd_invstk_push_Ok t Ht e _ _ _ s Hl Hk He)). cbn [negb Z.eqb].
  set (s1 := pushed t e _ _ _ s). set (ci := ci_at s (sinvc + SI_INFO)).
  rewrite (bind_Ok (pgtbl_update (ci_pgtbl ci)) _ s1 tt (with_cr3 (ci_pgtbl ci) s1) eq_refl).
  rewrite (bind_Ok (__userregs_sinvupdate UserRegs) _ (with_cr3 (ci_pgtbl ci) s1) tt
    (with_regs (regs_sinvupdate (kregs s)) (with_cr3 (ci_pgtbl ci) s1)) eq_refl).
  set (s2 := with_regs _ (with_cr3 _ s1)).
  thstep. rewrite (bind_Ok get_cpuid _ s2 (cpuid (kcli s)) s2 eq_refl).
  unfold invoked, SI_TOKEN, SI_ENTRY. fold ci s1. do 2 kstep.
  replace (tid (thd_at s2 t)) with (tid (thd_at s t)); [reflexivity|].
  change (thd_at s2 t) with (thd_at s1 t).
  unfold s1, pushed. by rewrite thd_at_put_eq.
Qed.

(** The state after a return to the entry [e] *)
Definition returned (e : invstk_entry) (s : kstate) : kstate :=
  with_regs (regs_set (__userregs_getinvret (kregs s)) (ie_sp e) (ie_ip e) (kregs s))
    (with_cr3 (ci_pgtbl (ie_ci e))
       (with_cli (cli_set_top (cli_invstk_top (kcli s) - 1) (kcli s)) s)).

Lemma sret_ret_Ok t e s :
  PAGE_SIZE <= t -> 0 < cli_invstk_top (kcli s) <= THD_INVSTK_MAXSZ ->
  invstk (thd_at s t) !! Z.to_nat (cli_invstk_top (kcli s) - 1) = Some e ->
  alive s (ie_ci e) ->
  sret_ret t UserRegs s = Ok tt (returned e s).
Proof.
  intros Ht Hk He Hal. unfold sret_ret.
  rewrite (bind_Ok _ _ _ _ _ (thd_invstk_pop_Ok t Ht e s Hk He)).
  set (s1 := with_cli _ s). rewrite (bind_Ok _ _ _ _ _ (isalive_Ok s1 _ Hal)). cbn [negb].
  rewrite (bind_Ok (pgtbl_update (ci_pgtbl (ie_ci e))) _ s1 tt
    (with_cr3 (ci_pgtbl (ie_ci e)) s1) eq_refl).
  reflexivity.
Qed.

(** The current component's information *)
Lemma invstk_current_Ok t e s :
  PAGE_SIZE <= t -> 0 <= cli_invstk_top (kcli s) < THD_INVSTK_MAXSZ ->
  invstk (thd_at s t) !! Z.to_nat (cli_invstk_top (kcli s)) = Some e ->
  thd_invstk_current t s = Ok (ie_ci e, ie_ip e, ie_sp e) s.
Proof.
  intros Ht Hk He. unfold thd_invstk_current.
  rewrite (bind_Ok curr_invstk_top _ s (cli_invstk_top (kcli s)) s eq_refl).
  by rewrite (bind_Ok _ _ _ _ _ (get_invstk_Ok t Ht _ e s Hk He)).
Qed.

Lemma cap_type_Ok v s : PAGE_SIZE <= v -> cap_type v s = Ok (h_type (hdr_of (word s v))) s.
Proof.
  intros Hv. unfold cap_type, load_hdr. by rewrite bind_assoc, (bind_Ok _ _ _ _ _ (load_Ok v s Hv)).
Qed.

(** The handler on an invocation capability, and on the default return *)
Lemma syscall_sinv t sinvc e s s1 :
  PAGE_SIZE <= t -> PAGE_SIZE <= sinvc -> curr_thd (kcli s) = t ->
  0 <= cli_invstk_top (kcli s) < THD_INVSTK_MAXSZ ->
  invstk (thd_at s t) !! Z.to_nat (cli_invstk_top (kcli s)) = Some e ->
  __userregs_getcap (kregs s) <> 0 -> ci_captbl (ie_ci e) <> 0 ->
  captbl_lkup (ci_captbl (ie_ci e)) (__userregs_getcap (kregs s)) s = Ok sinvc s ->
  h_type (hdr_of (word s sinvc)) = CAP_SINV ->
  sinv_call t sinvc UserRegs s = Ok tt s1 ->
  composite_syscall_handler UserRegs s = Ok 0 s1.
Proof.
  intros Ht Hc Hcur Hk He Hcap Hct Hlk Hty Hcall. unfold composite_syscall_handler.
  rewrite (bind_Ok (get_regs UserRegs) _ s (kregs s) s eq_refl). cbv zeta.
  rewrite (bind_Ok thd_current _ s t s) by (unfold thd_current, bind, get_cli, gets, ret; by rewrite Hcur).
  unfold COS_DEFAULT_RET_CAP. rewrite (proj2 (Z.eqb_neq _ _)) by done.
  rewrite (bind_Ok _ _ _ _ _ (invstk_current_Ok t e s Ht Hk He)).
  rewrite (proj2 (Z.eqb_neq (ci_captbl _) 0)) by done. cbn [negb].
  rewrite (bind_Ok (massert true) _ s tt s eq_refl), (bind_Ok _ _ _ _ _ Hlk).
  rewrite (proj2 (Z.eqb_neq sinvc 0)) by (unfold PAGE_SIZE in *; lia).
  rewrite (bind_Ok _ _ _ _ _ (cap_type_Ok sinvc s Hc)), Hty. change (CAP_SINV =? CAP_SINV) with true. cbv iota.
  by rewrite (bind_Ok _ _ _ _ _ Hcall).
Qed.

Lemma syscall_sret t s s1 :
  curr_thd (kcli s) = t -> __userregs_getcap (kregs s) = 0 ->
  sret_ret t UserRegs s = Ok tt s1 -> composite_syscall_handler UserRegs s = Ok 0 s1.
Proof.
  intros Hcur Hcap Hret. unfold composite_syscall_handler.
  rewrite (bind_Ok (get_regs UserRegs) _ s (kregs s) s eq_refl). cbv zeta. rewrite Hcap.
  rewrite (bind_Ok thd_current _ s t s) by (unfold thd_current, bind, get_cli, gets, ret; by rewrite Hcur).
  change (0 =? COS_DEFAULT_RET_CAP) with true. cbv iota. by rewrite (bind_Ok _ _ _ _ _ Hret).
Qed.

(** C8. A system call on an invocation capability enters the callee: at its
    entry point, with the token of the capability, the four arguments and the
    callee's page table.  Whatever runs meanwhile, as long as the thread's
    stack is as the invocation left it and the caller is alive, a system call
    on the default return capability goes back to the instruction and stack
    pointer of the caller, in the caller's page table, with the callee's
    result; the stack is as deep as before. *)
Theorem invocation_roundtrip t sinvc e s :
  PAGE_SIZE <= t -> PAGE_SIZE <= sinvc -> curr_thd (kcli s) = t ->
  length (invstk (thd_at s t)) = 32%nat -> 0 <= cli_invstk_top (kcli s) < THD_INVSTK_MAXSZ - 1 ->
  invstk (thd_at s t) !! Z.to_nat (cli_invstk_top (kcli s)) = Some e ->
  __userregs_getcap (kregs s) <> 0 -> ci_captbl (ie_ci e) <> 0 ->
  captbl_lkup (ci_captbl (ie_ci e)) (__userregs_getcap (kregs s)) s = Ok sinvc s ->
  h_type (hdr_of (word s sinvc)) = CAP_SINV -> alive s (ci_at s (sinvc + SI_INFO)) ->
  exists s1, composite_syscall_handler UserRegs s = Ok 0 s1 /\
    r_ip (kregs s1) = word s (sinvc + SI_ENTRY) /\ r_cx (kregs s1) = word s (sinvc + SI_TOKEN) /\
    r_bx (kregs s1) = r_bx (kregs s) /\ r_si (kregs s1) = r_si (kregs s) /\
    r_di (kregs s1) = r_di (kregs s) /\ r_bp (kregs s1) = r_dx (kregs s) /\
    cr3 (khw s1) = ci_pgtbl (ci_at s (sinvc + SI_INFO)) /\
    thd_invstk_current t s1 = Ok (ci_at s (sinvc + SI_INFO), 0, 0) s1 /\
    forall s2, curr_thd (kcli s2) = t -> __userregs_getcap (kregs s2) = 0 ->
      invstk (thd_at s2 t) = invstk (thd_at s1 t) ->
      cli_invstk_top (kcli s2) = cli_invstk_top (kcli s1) -> alive s2 (ie_ci e) ->
      exists s3, composite_syscall_handler UserRegs s2 = Ok 0 s3 /\
        r_ax (kregs s3) = u32 (r_cx (kregs s2)) /\ r_ip (kregs s3) = u32 (r_cx (kregs s)) /\
        r_sp (kregs s3) = u32 (r_bp (kregs s)) /\ cr3 (khw s3) = ci_pgtbl (ie_ci e) /\
        cli_invstk_top (kcli s3) = cli_invstk_top (kcli s) /\ thd_at s3 t = thd_at s2 t.
Proof.
  intros Ht Hc Hcur Hl Hk He Hcap Hct Hlk Hty Hal. unfold THD_INVSTK_MAXSZ in Hk.
  exists (invoked t sinvc e s).
  assert (Hstk : invstk (thd_at (invoked t sinvc e s) t) =
    <[S (Z.to_nat (cli_invstk_top (kcli s))) := InvEnt (ci_at s (sinvc + SI_INFO)) 0 0]>
      (<[Z.to_nat (cli_invstk_top (kcli s)) := InvEnt (ie_ci e) (r_bp (kregs s)) (r_cx (kregs s))]>
        (invstk (thd_at s t)))).
  { change (thd_at (invoked t sinvc e s) t) with
      (thd_at (pushed t e (ci_at s (sinvc + SI_INFO)) (r_cx (kregs s)) (r_bp (kregs s)) s) t).
    unfold pushed. by rewrite thd_at_put_eq. }
  split_and!; try reflexivity.
  - apply (syscall_sinv t sinvc e); try done; [unfold THD_INVSTK_MAXSZ; lia|].
    by apply sinv_call_Ok.
  - simpl. by rewrite u32_small by apply word_u32.
  - simpl. by rewrite u32_small by apply word_u32.
  - apply (invstk_current_Ok t (InvEnt (ci_at s (sinvc + SI_INFO)) 0 0)); [done| |].
    + simpl. unfold THD_INVSTK_MAXSZ. lia.
    + rewrite Hstk. simpl. replace (Z.to_nat (cli_invstk_top (kcli s) + 1)) with
        (S (Z.to_nat (cli_invstk_top (kcli s)))) by lia.
      apply list_lookup_insert_eq. rewrite length_insert. lia.
  - intros s2 Hcur2 Hcap2 Hstk2 Htop2 Hal2. simpl in Htop2.
    exists (returned (InvEnt (ie_ci e) (r_bp (kregs s)) (r_cx (kregs s))) s2).
    split_and!; try reflexivity.
    + eapply syscall_sret; [done..|]. apply sret_ret_Ok; [done| | |done].
      * unfold THD_INVSTK_MAXSZ. lia.
      * rewrite Hstk2, Hstk, Htop2.
        replace (cli_invstk_top (kcli s) + 1 - 1) with (cli_invstk_top (kcli s)) by lia.
        rewrite list_lookup_insert_ne by lia. apply list_lookup_insert_eq. lia.
    + simpl. lia.
Qed.

(** A component (captbl at 0x200000) whose capability 4 invokes another one *)
Definition inv_caller : comp_info := CInfo (LData 0 3) 4096 2097152 0.
Definition inv_callee : comp_info := CInfo (LData 0 5) 8192 3145728 0.
Definition inv_setup : K unit :=
  ct <- captbl_create 2097152 ;;
  let! (p, _) := captbl_add ct 4 CAP_SINV in
  store_ci (p + SI_INFO) inv_callee ;; store (p + SI_ENTRY) 134217728 ;; store (p + SI_TOKEN) 77 ;;
  set_thd 1048576 (thd_start inv_caller 7 0 thread0) ;;
  set_cli (cli_set_thd 1048576 cli0) ;;
  modify (with_regs (Regs 11 4198400 14 12 13 1073741824 327680 0 0 0 0 0 0 0 0 0 0)).
Definition inv0 : kstate := run_state kstate0 (inv_setup kstate0).

Lemma invocation_roundtrip_witness :
  exists s1, composite_syscall_handler UserRegs inv0 = Ok 0 s1 /\ r_ip (kregs s1) = 134217728.
Proof.
  destruct (invocation_roundtrip 1048576 (2097152 + 2048 + 64) (InvEnt inv_caller 0 0) inv0)
    as (s1 & H1 & H2 & _).
  1-11: by vm_compute.
  exists s1. split; [exact H1|]. rewrite H2. by vm_compute.
Defined.

(** ** The bound of the invocation stack *)

(** C38. The check against [THD_INVSTK_MAXSZ] admits one entry too many: an
    invocation from the last entry of the stack succeeds and writes the
    callee's information over the fields behind the array, so that the
    thread's state, core, reference count and scheduler are lost. *)
Theorem invstk_push_overflow t ci ip sp s :
  PAGE_SIZE <= t -> length (invstk (thd_at s t)) = 32%nat ->
  cli_invstk_top (kcli s) = THD_INVSTK_MAXSZ - 1 ->
  exists s', thd_invstk_push t ci ip sp s = Ok 0 s' /\
    cli_invstk_top (kcli s') = THD_INVSTK_MAXSZ /\
    state (thd_at s' t) = u32 (ld_epoch (liveness ci)) /\
    thd_cpuid (thd_at s' t) = i32 (ld_id (liveness ci)) /\
    thd_refcnt (thd_at s' t) = ci_pgtbl ci /\ scheduler_thread (thd_at s' t) = 0.
Proof.
  intros Ht Hl Hk. unfold thd_invstk_push.
  rewrite (bind_Ok curr_invstk_top _ s (cli_invstk_top (kcli s)) s eq_refl), Hk.
  change (THD_INVSTK_MAXSZ - 1 >=? THD_INVSTK_MAXSZ) with false. cbv iota.
  rewrite (bind_Ok curr_invstk_inc _ s _ _ eq_refl), Hk.
  set (s1 := with_cli _ s).
  destruct (lookup_lt_is_Some_2 (invstk (thd_at s1 t)) (Z.to_nat 31)) as [e He].
  { change (thd_at s1 t) with (thd_at s t). rewrite Hl. apply Nat.ltb_lt. reflexivity. }
  rewrite (bind_Ok _ _ _ _ _ (get_invstk_Ok t Ht 31 e s1 ltac:(unfold THD_INVSTK_MAXSZ; lia) He)).
  rewrite (bind_Ok _ _ _ _ _ (set_invstk_Ok t Ht 31 e _ s1 ltac:(unfold THD_INVSTK_MAXSZ; lia) He)).
  set (s2 := thd_put _ _ s1). change (THD_INVSTK_MAXSZ - 1 + 1) with THD_INVSTK_MAXSZ.
  unfold set_invstk, get_invstk. rewrite Z.eqb_refl, !bind_assoc. thstep.
  rewrite (bind_Ok (ret _) _ s2 _ s2 eq_refl). thstep.
  eexists. split; [reflexivity|]. rewrite thd_at_put_eq. done.
Qed.

Definition inv31 : kstate :=
  with_cli (cli_set_top 31 cli0) (thd_put 1048576 (thd_start inv_caller 7 0 thread0) kstate0).

Lemma invstk_push_overflow_witness :
  exists s', thd_invstk_push 1048576 inv_callee 0 0 inv31 = Ok 0 s' /\
    thd_cpuid (thd_at s' 1048576) = 5.
Proof.
  destruct (invstk_push_overflow 1048576 inv_callee 0 0 inv31) as (s' & H & _ & _ & Hc & _);
    [by vm_compute..|]. exists s'. split; [exact H|]. rewrite Hc. by vm_compute.
Defined.

(** ** Rings of inter-processor requests *)

Definition ring_ok (r : xcore_ring) : Prop :=
  length (ring r) = 16%nat /\ 0 <= sender r < 16 /\ 0 <= receiver r < 16.

(** The requests in the ring, oldest first *)
Definition ring_queue (r : xcore_ring) : list ipi_cap_data :=
  map (fun i => default (IpiData 0 0 comp_info0) (ring r !! ((Z.to_nat (receiver r) + i) mod 16)%nat))
    (seq 0 (Z.to_nat ((sender r - receiver r) mod 16))).

Lemma ring_mask_small v : 0 <= v < 16 -> Z.land (u32 (v + 1)) IPI_RING_MASK = (v + 1) mod 16.
Proof.
  intros Hv. change IPI_RING_MASK with (Z.ones 4). rewrite Z.land_ones by lia.
  by rewrite u32_small by (unfold is_u32; lia).
Qed.

Lemma ring_queue_nil r : sender r = receiver r -> ring_queue r = [].
Proof. intros E. unfold ring_queue. by rewrite E, Z.sub_diag. Qed.

Lemma map_seq_shift {A} (f : nat -> A) n : map f (seq 1 n) = map (fun i => f (S i)) (seq 0 n).
Proof. by rewrite <- seq_shift, map_map. Qed.

Lemma ring_queue_deq r d :
  ring_ok r -> sender r <> receiver r -> ring r !! Z.to_nat (receiver r) = Some d ->
  ring_queue r = d :: ring_queue (XRing (sender r) ((receiver r + 1) mod 16) (ring r)).
Proof.
  intros (Hl & Hs & Hr) Hne Hd. unfold ring_queue. cbn [sender receiver ring].
  assert (Z.to_nat ((sender r - receiver r) mod 16) =
    S (Z.to_nat ((sender r - (receiver r + 1) mod 16) mod 16))) as ->.
  { Z.div_mod_to_equations. lia. }
  cbn [seq map]. f_equal.
  - rewrite Nat.add_0_r, Nat.mod_small by lia. by rewrite Hd.
  - rewrite map_seq_shift. apply map_ext. intros i. f_equal. f_equal.
    assert (Z.of_nat ((Z.to_nat (receiver r) + S i) mod 16) =
            Z.of_nat ((Z.to_nat ((receiver r + 1) mod 16) + i) mod 16)); [|lia].
    rewrite !Nat2Z.inj_mod, !Nat2Z.inj_add, !Z2Nat.id by (Z.div_mod_to_equations; lia).
    rewrite Zplus_mod_idemp_l. f_equal. lia.
Qed.

Lemma ring_queue_enq r d :
  ring_ok r -> (sender r + 1) mod 16 <> receiver r ->
  ring_queue (XRing ((sender r + 1) mod 16) (receiver r) (<[Z.to_nat (sender r) := d]> (ring r))) =
  ring_queue r ++ [d].
Proof.
  intros (Hl & Hs & Hr) Hne. unfold ring_queue. cbn [sender receiver ring].
  assert (Z.to_nat (((sender r + 1) mod 16 - receiver r) mod 16) =
    (Z.to_nat ((sender r - receiver r) mod 16) + 1)%nat) as ->.
  { Z.div_mod_to_equations. lia. }
  rewrite seq_app, map_app, Nat.add_0_l. cbn [seq map]. f_equal.
  - apply map_ext_in. intros i Hi%in_seq. f_equal. apply list_lookup_insert_ne.
    intros E. apply (f_equal Z.of_nat) in E.
    rewrite Nat2Z.inj_mod, Nat2Z.inj_add, !Z2Nat.id in E by lia.
    change (Z.of_nat 16) with 16 in E.
    assert (Z.of_nat i < (sender r - receiver r) mod 16)
      by (Z.div_mod_to_equations; lia).
    Z.div_mod_to_equations. lia.
  - do 2 f_equal.
    assert ((Z.to_nat (receiver r) + Z.to_nat ((sender r - receiver r) mod 16)) mod 16 =
      Z.to_nat (sender r))%nat as ->.
    { apply Nat2Z.inj. rewrite Nat2Z.inj_mod, Nat2Z.inj_add, !Z2Nat.id
        by (Z.div_mod_to_equations; lia). change (Z.of_nat 16) with 16.
      Z.div_mod_to_equations. lia. }
    by rewrite list_lookup_insert_eq by lia.
Qed.

Lemma ring_queue_full r :
  ring_ok r -> ((sender r + 1) mod 16 = receiver r <-> (length (ring_queue r) = 15)%nat).
Proof.
  intros (Hl & Hs & Hr). unfold ring_queue. rewrite length_map, length_seq.
  split; intros E; Z.div_mod_to_equations; lia.
Qed.

(** *** The operations *)

Lemma ring_at_put d c r s : ring_at (ring_put d c r s) d c = r.
Proof. unfold ring_at, ring_put. simpl. by rewrite lookup_insert_eq. Qed.
Lemma ring_put_twice d c r r' s : ring_put d c r (ring_put d c r' s) = ring_put d c r s.
Proof. unfold ring_put. simpl. by rewrite insert_insert_eq. Qed.

Definition core (c : Z) : Prop := 0 <= c < NUM_CPU.
Lemma get_ring_Ok d c s : core d -> core c -> get_ring d c s = Ok (ring_at s d c) s.
Proof.
  intros Hd Hc. unfold get_ring, is_core.
  by rewrite (proj2 (Z.leb_le 0 d)), (proj2 (Z.ltb_lt d NUM_CPU)), (proj2 (Z.leb_le 0 c)),
    (proj2 (Z.ltb_lt c NUM_CPU)) by (unfold core in *; lia).
Qed.

Lemma ring_lookup r i : ring_ok r -> 0 <= i < 16 -> exists d, ring r !! Z.to_nat i = Some d.
Proof. intros (Hl & _) Hi. apply lookup_lt_is_Some_2. lia. Qed.

(** The request that a send through [asnd] queues *)
Definition asnd_req (s : kstate) (asnd : Z) : ipi_cap_data :=
  IpiData (word s (asnd + AS_RCAPID)) (word s (asnd + AS_REPOCH)) (ci_at s (asnd + AS_INFO)).

Lemma ring_enqueue_Ok d asnd s (r := ring_at s d (cpuid (kcli s))) :
  core d -> core (cpuid (kcli s)) -> PAGE_SIZE <= asnd -> ring_ok r ->
  cos_ipi_ring_enqueue d asnd s =
  if (sender r + 1) mod 16 =? receiver r then Ok (-1) s
  else Ok 0 (ring_put d (cpuid (kcli s)) (XRing ((sender r + 1) mod 16) (receiver r)
               (<[Z.to_nat (sender r) := asnd_req s asnd]> (ring r))) s).
Proof.
  intros Hd Hc Ha Hok. unfold cos_ipi_ring_enqueue.
  rewrite Z.geb_leb, (proj2 (Z.leb_gt _ _)) by (unfold core in *; lia).
  rewrite (bind_Ok get_cpuid _ s _ s eq_refl), (bind_Ok _ _ _ _ _ (get_ring_Ok d _ s Hd Hc)).
  fold r. cbv zeta. destruct (proj2 Hok) as [Hs Hr]. rewrite ring_mask_small by done.
  destruct (_ =? _); [done|]. unfold AS_RCAPID, AS_REPOCH, AS_INFO in *. do 2 kstep.
  rewrite (bind_Ok _ _ _ _ _ (load_ci_Ok (asnd + 20) s ltac:(kside))).
  destruct (ring_lookup r (sender r) Hok Hs) as [x ->]. reflexivity.
Qed.

Lemma ring_dequeue_Ok d c s (r := ring_at s d c) :
  core d -> core c -> ring_ok r ->
  cos_ipi_ring_dequeue d c s =
  match ring_queue r with
  | [] => Ok None s
  | x :: _ => Ok (Some x) (ring_put d c (XRing (sender r) ((receiver r + 1) mod 16) (ring r)) s)
  end.
Proof.
  intros Hd Hc Hok. unfold cos_ipi_ring_dequeue.
  rewrite (bind_Ok _ _ _ _ _ (get_ring_Ok d c s Hd Hc)). fold r.
  destruct (Z.eqb_spec (sender r) (receiver r)) as [E|Hne]; [by rewrite ring_queue_nil|].
  destruct (proj2 Hok) as [Hs Hr]. destruct (ring_lookup r (receiver r) Hok Hr) as [x Hx].
  rewrite (ring_queue_deq r x Hok Hne Hx), Hx, ring_mask_small by done. reflexivity.
Qed.

(** *** Sequences of sends and receives *)

Inductive rop := REnq (asnd : Z) | RDeq.

Fixpoint run_ring (d c : Z) (ops : list rop) : K (list (Z + option ipi_cap_data)) :=
  match ops with
  | [] => ret []
  | REnq a :: ops => r <- cos_ipi_ring_enqueue d a ;; rs <- run_ring d c ops ;; ret (inl r :: rs)
  | RDeq :: ops => r <- cos_ipi_ring_dequeue d c ;; rs <- run_ring d c ops ;; ret (inr r :: rs)
  end.

(** A first-in first-out queue of at most fifteen requests *)
Fixpoint ring_spec (req : Z -> ipi_cap_data) (ops : list rop) (q : list ipi_cap_data)
    : list (Z + option ipi_cap_data) * list ipi_cap_data :=
  match ops with
  | [] => ([], q)
  | REnq a :: ops =>
      if (length q =? 15)%nat then let '(rs, q') := ring_spec req ops q in (inl (-1) :: rs, q')
      else let '(rs, q') := ring_spec req ops (q ++ [req a]) in (inl 0 :: rs, q')
  | RDeq :: ops =>
      match q with
      | [] => let '(rs, q') := ring_spec req ops [] in (inr None :: rs, q')
      | x :: q => let '(rs, q') := ring_spec req ops q in (inr (Some x) :: rs, q')
      end
  end.

Definition rop_ok (o : rop) : Prop := match o with REnq a => PAGE_SIZE <= a | RDeq => True end.

(** C30. A ring between two cores is a first-in first-out queue of fifteen
    requests: any sequence of [cos_ipi_ring_enqueue] on the sending core and
    [cos_ipi_ring_dequeue] on the receiving one returns what the queue
    returns, -1 when it is full and nothing when it is empty, and its indices
    stay in the ring. *)
Theorem ipi_ring_refines d s ops :
  core d -> core (cpuid (kcli s)) -> ring_ok (ring_at s d (cpuid (kcli s))) ->
  Forall rop_ok ops ->
  let '(rs, q) := ring_spec (asnd_req s) ops (ring_queue (ring_at s d (cpuid (kcli s)))) in
  exists s', run_ring d (cpuid (kcli s)) ops s = Ok rs s' /\
    ring_ok (ring_at s' d (cpuid (kcli s))) /\ ring_queue (ring_at s' d (cpuid (kcli s))) = q.
Proof.
  set (c := cpuid (kcli s)). intros Hd Hc Hok Hops.
  assert (forall s1, cpuid (kcli s1) = c -> kmem s1 = kmem s -> ring_ok (ring_at s1 d c) ->
    let '(rs, q) := ring_spec (asnd_req s) ops (ring_queue (ring_at s1 d c)) in
    exists s', run_ring d c ops s1 = Ok rs s' /\ ring_ok (ring_at s' d c) /\
      ring_queue (ring_at s' d c) = q) as H; [|by apply H].
  clear Hok. induction Hops as [|o ops Ho Hops IH]; intros s1 Hc1 Hm Hok; simpl; [by eauto|].
  destruct (proj2 Hok) as [Hs Hr]. destruct o as [a|].
  - pose proof (ring_queue_full _ Hok) as Hfull.
    pose proof (ring_enqueue_Ok d a s1) as He. rewrite Hc1 in He.
    specialize (He Hd Hc Ho Hok).
    assert (asnd_req s1 a = asnd_req s a) as Ereq by (unfold asnd_req, ci_at, word; by rewrite Hm).
    destruct (Z.eqb_spec ((sender (ring_at s1 d c) + 1) mod 16) (receiver (ring_at s1 d c))) as [E|E].
    + rewrite (proj2 (Nat.eqb_eq _ _)) by tauto. specialize (IH s1 Hc1 Hm Hok).
      destruct (ring_spec _ ops _) as [rs q]. destruct IH as (s' & H1 & H2).
      exists s'. by rewrite (bind_Ok _ _ _ _ _ He), (bind_Ok _ _ _ _ _ H1).
    + rewrite (proj2 (Nat.eqb_neq _ _)) by tauto.
      match type of He with _ = Ok 0 ?x => specialize (IH x Hc1 Hm) end.
      rewrite ring_at_put, ring_queue_enq, Ereq in IH by done.
      destruct (ring_spec _ ops _) as [rs q]. destruct IH as (s' & H1 & H2).
      { destruct Hok as (Hl & _). split_and!; simpl; rewrite ?length_insert; [done|apply Z.mod_pos_bound; lia..|lia|lia]. }
      exists s'. rewrite Ereq in He. by rewrite (bind_Ok _ _ _ _ _ He), (bind_Ok _ _ _ _ _ H1).
  - pose proof (ring_dequeue_Ok d c s1 Hd Hc Hok) as He.
    destruct (ring_queue (ring_at s1 d c)) as [|x q0] eqn:Eq.
    + specialize (IH s1 Hc1 Hm Hok). rewrite Eq in IH.
      destruct (ring_spec _ ops _) as [rs q]. destruct IH as (s' & H1 & H2).
      exists s'. by rewrite (bind_Ok _ _ _ _ _ He), (bind_Ok _ _ _ _ _ H1).
    + match type of He with _ = Ok _ ?x => specialize (IH x Hc1 Hm) end.
      assert (sender (ring_at s1 d c) <> receiver (ring_at s1 d c)) as Hne.
      { intros E. by rewrite ring_queue_nil in Eq. }
      destruct (ring_lookup _ _ Hok Hr) as [y Hy].
      rewrite (ring_queue_deq _ y Hok Hne Hy) in Eq. injection Eq as -> Eq.
      rewrite ring_at_put, Eq in IH.
      destruct (ring_spec _ ops _) as [rs q]. destruct IH as (s' & H1 & H2).
      { destruct Hok as (Hl & _). split_and!; simpl; [done|lia|lia|apply Z.mod_pos_bound; lia..]. }
      exists s'. by rewrite (bind_Ok _ _ _ _ _ He), (bind_Ok _ _ _ _ _ H1).
Qed.

Lemma ring0_ok : ring_ok ring0.
Proof. split_and!; simpl; lia. Qed.

Lemma ipi_ring_refines_witness :
  exists s' x, run_ring 1 0 [REnq 8192; RDeq; RDeq] kstate0 = Ok [inl 0; inr (Some x); inr None] s'.
Proof.
  destruct (ipi_ring_refines 1 kstate0 [REnq 8192; RDeq; RDeq]) as (s' & H & _).
  - by vm_compute.
  - by vm_compute.
  - exact ring0_ok.
  - repeat constructor. by vm_compute.
  - eexists s', _. exact H.
Defined.

(** *** Handling of requests *)

(** The request names a capability of a well-formed table. *)
Definition req_ok (s : kstate) (x : ipi_cap_data) : Prop :=
  captbl_wf s (ci_captbl (ipi_ci x)) /\
  PAGE_SIZE <= captbl_ref_lkup s (ci_captbl (ipi_ci x)) (ipi_capid x mod 65536).

Lemma handle_ipi_arcv_Ok s x : req_ok s x -> handle_ipi_arcv x s = Ok tt s.
Proof.
  intros [Hwf Hp]. unfold handle_ipi_arcv. cbv zeta.
  assert (ci_captbl (ipi_ci x) <> 0) as H0
    by (destruct Hwf as [[_ [Hlo _]] _]; unfold PAGE_SIZE in Hlo; lia).
  rewrite (proj2 (Z.eqb_neq _ _) H0). cbn [negb].
  rewrite (bind_Ok (massert true) _ s tt s eq_refl), (bind_Ok _ _ _ _ _ (captbl_lkup_ref s _ _ Hwf)).
  rewrite (bind_Ok _ _ _ _ _ (cap_type_Ok _ s Hp)). by destruct (negb _).
Qed.

(** The ring after all its requests were taken *)
Definition drained (r : xcore_ring) : xcore_ring := XRing (sender r) (sender r) (ring r).

Lemma process_ring_loop_Ok n d c s (r := ring_at s d c) :
  core d -> core c -> ring_ok r -> length (ring_queue r) = n -> Forall (req_ok s) (ring_queue r) ->
  process_ring_loop (S n) d c s = Ok tt (if (n =? 0)%nat then s else ring_put d c (drained r) s).
Proof.
  revert s r. induction n as [|n IH]; intros s r Hd Hc Hok Hn Hreq;
    pose proof (ring_dequeue_Ok d c s Hd Hc Hok) as He; fold r in He.
  { destruct (ring_queue r); [|done]. simpl. by rewrite (bind_Ok _ _ _ _ _ He). }
  destruct (proj2 Hok) as [Hs Hr]. destruct (ring_lookup r (receiver r) Hok Hr) as [x Hx].
  assert (sender r <> receiver r) as Hne by (intros E; by rewrite ring_queue_nil in Hn).
  set (r1 := XRing (sender r) ((receiver r + 1) mod 16) (ring r)) in *.
  rewrite (ring_queue_deq r x Hok Hne Hx) in He, Hn, Hreq. fold r1 in He, Hn, Hreq.
  apply Forall_cons in Hreq as [Hx1 Hq]. injection Hn as Hn.
  change (process_ring_loop (S (S n)) d c s) with
    ((y <- cos_ipi_ring_dequeue d c ;;
      match y with None => ret tt | Some data => handle_ipi_arcv data ;; process_ring_loop (S n) d c end) s).
  rewrite (bind_Ok _ _ _ _ _ He). cbv iota beta.
  rewrite (bind_Ok _ _ _ _ _ (handle_ipi_arcv_Ok (ring_put d c r1 s) x Hx1)).
  assert (ring_ok r1) as Hok1.
  { destruct Hok as (Hl & _). split_and!; simpl; [done|lia|lia|apply Z.mod_pos_bound; lia..]. }
  specialize (IH (ring_put d c r1 s)). rewrite ring_at_put in IH.
  rewrite (IH Hd Hc Hok1 Hn Hq). f_equal. rewrite ring_put_twice. destruct n as [|n]; [|done].
  simpl. f_equal. unfold drained, r1. f_equal. unfold ring_queue in Hn.
  rewrite length_map, length_seq in Hn. simpl in Hn. Z.div_mod_to_equations. lia.
Qed.

Lemma ring_queue_length r :
  ring_ok r -> length (ring_queue r) = Z.to_nat ((sender r - receiver r) mod IPI_RING_SIZE).
Proof. intros _. unfold ring_queue. by rewrite length_map, length_seq. Qed.

Lemma process_ring_Ok d c s :
  core d -> core c -> ring_ok (ring_at s d c) ->
  Forall (req_ok s) (ring_queue (ring_at s d c)) -> ring_queue (ring_at s d c) <> [] ->
  process_ring d c s = Ok tt (ring_put d c (drained (ring_at s d c)) s).
Proof.
  intros Hd Hc Hok Hreq Hne.
  unfold process_ring. rewrite (bind_Ok _ _ _ _ _ (get_ring_Ok d c s Hd Hc)).
  rewrite <- ring_queue_length by done. rewrite process_ring_loop_Ok by done.
  by destruct (ring_queue (ring_at s d c)).
Qed.


(** The table of [CaptblSpec], with a request for its capability 4 *)
Definition ring_sample : xcore_ring :=
  XRing 1 0 (<[O := IpiData 4 0 (CInfo (LData 0 0) 0 ct_page 0)]> (ring ring0)).
Definition ring_state : kstate := ring_put 2 1 ring_sample ct1.

Lemma ring_sample_at : ring_at ring_state 2 1 = ring_sample.
Proof. apply ring_at_put. Qed.
Lemma ring_sample_ok : ring_ok ring_sample.
Proof. split_and!; simpl; lia. Qed.
Lemma ring_sample_req : Forall (req_ok ring_state) (ring_queue ring_sample).
Proof.
  constructor; [|constructor]. split; [exact ct1_wf|]. by vm_compute.
Qed.


(** On this platform a send to another core is accepted and then lost: the
    platform neither interrupts the other core nor activates the receiver, so
    that when the other core does take the request, no thread, capability or
    word of memory is different from before the send. *)
Theorem ipi_request_lost d asnd s (c := cpuid (kcli s)) :
  core d -> core c -> PAGE_SIZE <= asnd -> ring_ok (ring_at s d c) ->
  ring_queue (ring_at s d c) = [] -> req_ok s (asnd_req s asnd) ->
  exists s1 s2 r, cos_cap_send_ipi d asnd s = Ok 0 s1 /\ process_ring d c s1 = Ok tt s2 /\
    ring_queue (ring_at s1 d c) = [asnd_req s asnd] /\ s2 = ring_put d c r s.
Proof.
  intros Hd Hc Ha Hok Hq Hreq. pose proof (ring_enqueue_Ok d asnd s Hd Hc Ha Hok) as He.
  fold c in He. pose proof (ring_queue_full _ Hok) as Hf. rewrite Hq in Hf. simpl in Hf.
  rewrite (proj2 (Z.eqb_neq _ _)) in He by (intros E; apply Hf in E; done).
  pose proof (ring_queue_enq _ (asnd_req s asnd) Hok ltac:(intros E; apply Hf in E; done)) as Hq1.
  rewrite Hq in Hq1. simpl in Hq1.
  match type of He with _ = Ok 0 ?x => set (s1 := x) in * end.
  match type of Hq1 with ring_queue ?x = _ => set (r1 := x) in * end.
  assert (ring_ok r1) as Hok1.
  { destruct Hok as (Hl & Hs & Hr). split_and!; simpl; rewrite ?length_insert;
      [done|apply Z.mod_pos_bound; lia..|lia|lia]. }
  assert (ring_at s1 d c = r1) as E1 by apply ring_at_put.
  pose proof (process_ring_Ok d c s1 Hd Hc) as Hp. rewrite E1, Hq1 in Hp.
  exists s1, (ring_put d c (drained r1) s1), (drained r1). split_and!.
  - unfold cos_cap_send_ipi. rewrite u32_small by (unfold is_u32, core, NUM_CPU in *; lia).
    by rewrite (bind_Ok _ _ _ _ _ He).
  - apply Hp; [done|by apply Forall_singleton|done].
  - by rewrite E1.
  - unfold s1. by rewrite ring_put_twice.
Qed.

(** Well-formedness of a concrete table, by computation *)
Definition node_okb (a : Z) : bool := (a mod 2048 =? 0) && (PAGE_SIZE <=? a) && (a <? 4294967296).
Definition leaf_okb (s : kstate) (a : Z) : bool :=
  node_okb a && forallb (fun i => line_ok (hdr_of (word s (a + 64 * i)))) (map Z.of_nat (seq 0 32)).
Definition captbl_wfb (s : kstate) (t : Z) : bool :=
  node_okb t && forallb (fun i => let w := word s (t + 4 * i) in
    (w =? 0) || negb (w =? t) && leaf_okb s w) (map Z.of_nat (seq 0 512)).

Lemma node_okb_ok a : node_okb a = true -> node_ok a.
Proof. unfold node_okb, node_ok. rewrite !andb_true_iff, Z.eqb_eq, Z.leb_le, Z.ltb_lt. lia. Qed.

Lemma captbl_wfb_ok s t : captbl_wfb s t = true -> captbl_wf s t.
Proof.
  unfold captbl_wfb. rewrite andb_true_iff. intros [Hn Hf]. split; [by apply node_okb_ok|].
  intros i Hi. pose proof (forall_below 512 _ Hf i Hi) as Hw. cbv beta zeta in Hw.
  apply orb_true_iff in Hw as [Hw|Hw]; [left; by apply Z.eqb_eq|right].
  apply andb_true_iff in Hw as [Hne Hl]. apply negb_true_iff, Z.eqb_neq in Hne.
  unfold leaf_okb in Hl. apply andb_true_iff in Hl as [Hn' Hl].
  split; [done|]. split; [by apply node_okb_ok|]. intros j Hj. exact (forall_below 32 _ Hl j Hj).
Qed.

(** The component of [inv0], and an end-point at 0x500000 for its capability 4 *)
Definition lost_state : kstate :=
  run_state kstate0 ((store (5242880 + AS_RCAPID) 4 ;;
                      store_ci (5242880 + AS_INFO) inv_caller) inv0).

Lemma ipi_request_lost_witness :
  exists s1 s2 r, cos_cap_send_ipi 3 5242880 lost_state = Ok 0 s1 /\
    process_ring 3 0 s1 = Ok tt s2 /\ s2 = ring_put 3 0 r lost_state.
Proof.
  destruct (ipi_request_lost 3 5242880 lost_state) as (s1 & s2 & r & H1 & H2 & _ & H3).
  - by vm_compute.
  - by vm_compute.
  - by vm_compute.
  - replace (ring_at lost_state 3 (cpuid (kcli lost_state))) with ring0 by (by vm_compute).
    exact ring0_ok.
  - by vm_compute.
  - split; [apply captbl_wfb_ok; by vm_compute|by vm_compute].
  - exists s1, s2, r. split_and!; [exact H1|exact H2|exact H3].
Defined.
