(* ===== verification/SwitchSpec.v ===== *)
(** * Switching threads

    A switch saves the registers of the running thread and loads those of the
    next one, with its page table, thread-local storage and stack depth; a
    thread that is switched back to continues where it was. *)

From S2P Require Import Prelude Config Machine DList Ertrie Liveness Captbl CaptblSpec Retype.
From S2P Require Import Pgtbl Tcap CapOps Thd Inv Capinv InvSpec.

(** The registers saved for a thread with descriptor [x] that leaves with
    registers [r]: all of them when it was preempted; otherwise those of a
    system call that returns 0. *)
Definition saved_regs (x : thread) (r : pt_regs) : pt_regs :=
  if has_flag (state x) THD_STATE_PREEMPTED then r
  else regs_set 0 (r_bp r) (r_cx r) (gp_regs r (regs x)).

Lemma switch_save_Ok a s :
  PAGE_SIZE <= a ->
  switch_save UserRegs a s =
  Ok tt (thd_put a (thd_set_regs (saved_regs (thd_at s a) (kregs s)) (thd_at s a)) s).
Proof.
  intros Ha. unfold switch_save. thstep. unfold saved_regs.
  destruct (has_flag _ _); cbn [negb].
  - unfold copy_all_regs. rewrite (bind_Ok (get_regs UserRegs) _ s (kregs s) s eq_refl).
    by apply upd_thd_Ok.
  - unfold copy_gp_regs. rewrite bind_assoc, (bind_Ok (get_regs UserRegs) _ s (kregs s) s eq_refl).
    unfold userregs_return, __userregs_set, get_regs, set_regs. rewrite !bind_assoc. thstep.
    rewrite (bind_Ok (ret _) _ s _ s eq_refl). thstep.
    set (s1 := thd_put a _ s). rewrite !bind_assoc. thstep.
    rewrite (bind_Ok (ret _) _ s1 _ s1 eq_refl), bind_assoc. thstep.
    rewrite (bind_Ok (ret _) _ s1 _ s1 eq_refl). rewrite upd_thd_Ok by done.
    unfold s1. rewrite thd_at_put_eq, thd_put_twice. done.
Qed.

Lemma thd_current_update_Ok a b s :
  PAGE_SIZE <= a -> PAGE_SIZE <= b -> a <> b ->
  thd_current_update b a s =
  Ok tt (with_cli (cli_set_thd b (cli_set_top (invstk_top (thd_at s b)) (kcli s)))
           (thd_put a (thd_set_top (u16 (cli_invstk_top (kcli s))) (thd_at s a)) s)).
Proof.
  intros Ha Hb Hab. unfold thd_current_update.
  rewrite (bind_Ok get_cli _ s (kcli s) s eq_refl). thstep. thstep.
  rewrite thd_at_put_ne by done. reflexivity.
Qed.

(** A thread that continues: the flag that it was preempted is cleared. *)
Definition resumed (x : thread) : thread :=
  if has_flag (state x) THD_STATE_PREEMPTED
  then thd_set_state (Z.ldiff (state x) THD_STATE_PREEMPTED) x else x.

Lemma resumed_regs x : regs (resumed x) = regs x.
Proof. unfold resumed. by destruct (has_flag _ _). Qed.

Lemma thd_switch_update_Ok b p s :
  PAGE_SIZE <= b -> has_flag (state (thd_at s b)) THD_STATE_RCVING = false ->
  exists s', thd_switch_update b p false s =
    Ok (b2z (has_flag (state (thd_at s b)) THD_STATE_PREEMPTED)) s' /\
    thd_at s' b = resumed (thd_at s b) /\ (forall u, u <> b -> thd_at s' u = thd_at s u) /\
    exists ts, s' = with_thd ts s.
Proof.
  intros Hb Hr. unfold thd_switch_update. thstep. rewrite Hr. unfold resumed.
  destruct (has_flag (state (thd_at s b)) THD_STATE_PREEMPTED) eqn:Hp; cbn [negb].
  - rewrite bind_assoc, (bind_Ok (massert true) _ s tt s eq_refl), bind_assoc. thstep.
    rewrite (bind_Ok (ret 1) _ _ 1 _ eq_refl). eexists. split_and!; [reflexivity| | |].
    + apply thd_at_put_eq.
    + intros u Hu. by apply thd_at_put_ne.
    + by eexists.
  - rewrite (bind_Ok (ret 0) _ s 0 s eq_refl). exists s. split_and!; try done.
    exists (kthd s). by destruct s.
Qed.

Lemma massert_bind {A} (b : bool) (k : unit -> K A) s :
  b = true -> bind (massert b) k s = k tt s.
Proof. by intros ->. Qed.

(** What a switch between two threads of the core needs *)
Record switchable (s : kstate) (a b : Z) (ci : comp_info) (e : invstk_entry) : Prop := {
  sw_a : PAGE_SIZE <= a; sw_b : PAGE_SIZE <= b; sw_ne : a <> b;
  sw_cpua : thd_cpuid (thd_at s a) = cpuid (kcli s);
  sw_cpub : thd_cpuid (thd_at s b) = cpuid (kcli s);
  sw_top : 0 <= invstk_top (thd_at s b) < THD_INVSTK_MAXSZ;
  sw_ent : invstk (thd_at s b) !! Z.to_nat (invstk_top (thd_at s b)) = Some e;
  sw_alive : alive s (ie_ci e);
  sw_rcv : has_flag (state (thd_at s b)) THD_STATE_RCVING = false;
  sw_cr3 : cr3 (khw s) = ci_pgtbl ci;
  sw_tls : tls_base (khw s) = u32 (tls (thd_at s a)) }.

(** The state after a switch *)
Record switched (s s' : kstate) (a b : Z) (e : invstk_entry) : Prop := {
  sd_regs : kregs s' = regs (thd_at s b);
  sd_a : thd_at s' a = thd_set_top (u16 (cli_invstk_top (kcli s)))
           (thd_set_regs (saved_regs (thd_at s a) (kregs s)) (thd_at s a));
  sd_b : thd_at s' b = resumed (thd_at s b);
  sd_others : forall u, u <> a -> u <> b -> thd_at s' u = thd_at s u;
  sd_curr : curr_thd (kcli s') = b;
  sd_top : cli_invstk_top (kcli s') = invstk_top (thd_at s b);
  sd_cr3 : cr3 (khw s') = ci_pgtbl (ie_ci e);
  sd_tls : tls_base (khw s') = u32 (tls (thd_at s b));
  sd_cpu : cpuid (kcli s') = cpuid (kcli s);
  sd_mem : kmem s' = kmem s /\ ktcap s' = ktcap s /\ kltbl s' = kltbl s }.

(** The updates of [cr3] and of the segment, each behind its comparison *)
Lemma switch_hw_Ok (ci nci : comp_info) (tn tc : Z) {A} (k : K A) s :
  cr3 (khw s) = ci_pgtbl ci -> tls_base (khw s) = u32 tc ->
  exists h, cr3 h = ci_pgtbl nci /\ tls_base h = u32 tn /\
    ((if negb (ci_pgtbl ci =? ci_pgtbl nci) then pgtbl_update (ci_pgtbl nci) else ret tt) ;;
     (if negb (tn =? tc) then chal_tls_update tn else ret tt) ;; k) s = k (with_hw h s).
Proof.
  intros Hc Ht. exists (HwRegs (ci_pgtbl nci) (u32 tn) (oneshot (khw s))). split_and!; [done..|].
  destruct s as [????????????[c3 tb os]??]. simpl in Hc, Ht. subst c3 tb.
  destruct (Z.eqb_spec (ci_pgtbl ci) (ci_pgtbl nci)) as [E|E];
    destruct (Z.eqb_spec tn tc) as [->|E']; cbn [negb]; rewrite ?E; reflexivity.
Qed.

(** The last part of a switch: [next_ti] is cleared when it names the thread,
    and its registers become those of the frame. *)
Lemma switch_finish b (v : Z) s :
  PAGE_SIZE <= b ->
  exists s', (cli <- get_cli ;;
    (if negb (nt_thd (next_ti cli) =? 0) && (nt_thd (next_ti cli) =? b)
     then thd_next_thdinfo_update 0 0 0 0 else ret tt) ;;
    copy_all_regs (ThdRegs b) UserRegs ;; ret v) s = Ok v s' /\
    kregs s' = regs (thd_at s b) /\ kthd s' = kthd s /\ khw s' = khw s /\ kmem s' = kmem s /\
    ktcap s' = ktcap s /\ kltbl s' = kltbl s /\ curr_thd (kcli s') = curr_thd (kcli s) /\
    cli_invstk_top (kcli s') = cli_invstk_top (kcli s) /\ cpuid (kcli s') = cpuid (kcli s).
Proof.
  intros Hb. rewrite (bind_Ok get_cli _ s (kcli s) s eq_refl).
  destruct (negb _ && _).
  - rewrite (bind_Ok (thd_next_thdinfo_update 0 0 0 0) _ s tt
      (with_cli (cli_set_next (NextTi 0 0 0 0) (kcli s)) s) eq_refl).
    unfold copy_all_regs, get_regs. rewrite bind_assoc, bind_assoc. thstep.
    eexists. split; [reflexivity|]. by split_and!.
  - rewrite (bind_Ok (ret tt) _ s tt s eq_refl).
    unfold copy_all_regs, get_regs. rewrite bind_assoc, bind_assoc. thstep.
    eexists. split; [reflexivity|]. by split_and!.
Qed.

Lemma cap_thd_switch_Ok s a b ci e :
  switchable s a b ci e ->
  exists s', cap_thd_switch UserRegs a b ci s =
    Ok (b2z (has_flag (state (thd_at s b)) THD_STATE_PREEMPTED)) s' /\ switched s s' a b e.
Proof.
  intros [Ha Hb Hne Hca Hcb Htop Hent Hal Hrcv Hcr3 Htls]. unfold cap_thd_switch.
  thstep. rewrite massert_bind
    by (rewrite !(proj2 (Z.eqb_neq _ 0)) by (unfold PAGE_SIZE in *; lia); done).
  thstep. rewrite (bind_Ok get_cpuid _ s (cpuid (kcli s)) s eq_refl).
  rewrite massert_bind by (by rewrite Hca, Hcb, Z.eqb_refl).
  rewrite (proj2 (Z.eqb_neq a b)) by done.
  rewrite (bind_Ok _ _ _ _ _ (get_invstk_Ok b Hb _ e s Htop Hent)). cbv zeta.
  rewrite (bind_Ok _ _ _ _ _ (isalive_Ok s _ Hal)). cbn [negb].
  rewrite (bind_Ok _ _ _ _ _ (switch_save_Ok a s Ha)). set (s1 := thd_put a _ s).
  rewrite (bind_Ok _ _ _ _ _ (thd_current_update_Ok a b s1 Ha Hb Hne)).
  set (s2 := with_cli _ _).
  destruct (switch_hw_Ok ci (ie_ci e) (tls (thd_at s b)) (tls (thd_at s a))
    (preempt <- thd_switch_update b (ThdRegs b) false ;;
     cli <- get_cli ;;
     (if negb (nt_thd (next_ti cli) =? 0) && (nt_thd (next_ti cli) =? b)
      then thd_next_thdinfo_update 0 0 0 0 else ret tt) ;;
     copy_all_regs (ThdRegs b) UserRegs ;; ret preempt) s2 Hcr3 Htls) as (h & Hh1 & Hh2 & ->).
  set (s3 := with_hw h s2).
  assert (Eb : thd_at s3 b = thd_at s b).
  { change (thd_at s3 b) with (thd_at (thd_put a (thd_set_top (u16 (cli_invstk_top (kcli s1)))
      (thd_at s1 a)) s1) b). unfold s1. by rewrite !thd_at_put_ne by done. }
  assert (Ea : thd_at s3 a = thd_set_top (u16 (cli_invstk_top (kcli s)))
    (thd_set_regs (saved_regs (thd_at s a) (kregs s)) (thd_at s a))).
  { change (thd_at s3 a) with (thd_at (thd_put a (thd_set_top (u16 (cli_invstk_top (kcli s1)))
      (thd_at s1 a)) s1) a). unfold s1. by rewrite !thd_at_put_eq. }
  assert (Eo : forall u, u <> a -> thd_at s3 u = thd_at s u).
  { intros u Hu. change (thd_at s3 u) with (thd_at (thd_put a (thd_set_top (u16 (cli_invstk_top (kcli s1)))
      (thd_at s1 a)) s1) u). unfold s1. by rewrite !thd_at_put_ne by done. }
  assert (Et : invstk_top (thd_at s1 b) = invstk_top (thd_at s b))
    by (unfold s1; by rewrite thd_at_put_ne by done).
  destruct (thd_switch_update_Ok b (ThdRegs b) s3 Hb) as (s4 & H4 & E4b & E4o & ts & E4);
    [by rewrite Eb|].
  rewrite (bind_Ok _ _ _ _ _ H4), Eb in *.
  destruct (switch_finish b (b2z (has_flag (state (thd_at s b)) THD_STATE_PREEMPTED)) s4 Hb)
    as (s5 & H5 & R1 & R2 & R3 & R4 & R5 & R6 & R7 & R8 & R9).
  exists s5. split; [exact H5|].
  assert (E5 : forall u, thd_at s5 u = thd_at s4 u) by (intros; unfold thd_at; by rewrite R2).
  split; rewrite ?E5, ?R1, ?R3, ?R4, ?R5, ?R6, ?R7, ?R8, ?R9.
  - rewrite E4b. apply resumed_regs.
  - rewrite E4o, Ea by done. done.
  - done.
  - intros u Hua Hub. by rewrite E5, E4o, Eo by done.
  - by rewrite E4.
  - rewrite E4. exact Et.
  - by rewrite E4.
  - by rewrite E4.
  - by rewrite E4.
  - by rewrite E4.
Qed.

(** C10. A switch from [a] to [b] runs [b] with the registers, page table,
    thread-local storage and stack depth it was left with, and changes no
    other thread.  Whatever runs meanwhile, a switch back to [a] continues
    it with its own: after a system call the general registers with the
    result 0 and the return address and stack of the call, and after a
    preemption exactly the registers it had. *)
Theorem thread_switch_roundtrip s a b ci e :
  switchable s a b ci e -> 0 <= cli_invstk_top (kcli s) < THD_INVSTK_MAXSZ ->
  exists v s1, cap_thd_switch UserRegs a b ci s = Ok v s1 /\
    kregs s1 = regs (thd_at s b) /\ curr_thd (kcli s1) = b /\
    cr3 (khw s1) = ci_pgtbl (ie_ci e) /\ tls_base (khw s1) = u32 (tls (thd_at s b)) /\
    cli_invstk_top (kcli s1) = invstk_top (thd_at s b) /\
    (forall u, u <> a -> u <> b -> thd_at s1 u = thd_at s u) /\
    forall s2 cb ea, thd_at s2 a = thd_at s1 a -> switchable s2 b a cb ea ->
      exists s3, cap_thd_switch UserRegs b a cb s2 =
        Ok (b2z (has_flag (state (thd_at s a)) THD_STATE_PREEMPTED)) s3 /\
        kregs s3 = saved_regs (thd_at s a) (kregs s) /\ curr_thd (kcli s3) = a /\
        invstk (thd_at s a) !! Z.to_nat (cli_invstk_top (kcli s)) = Some ea /\
        cr3 (khw s3) = ci_pgtbl (ie_ci ea) /\ tls_base (khw s3) = u32 (tls (thd_at s a)) /\
        cli_invstk_top (kcli s3) = cli_invstk_top (kcli s).
Proof.
  intros Hsw Htop. destruct (cap_thd_switch_Ok s a b ci e Hsw) as (s1 & H1 & D1).
  destruct D1 as [D1 D2 D3 D4 D5 D6 D7 D8 D9 D10].
  assert (u16 (cli_invstk_top (kcli s)) = cli_invstk_top (kcli s)) as Eu
    by (unfold u16, THD_INVSTK_MAXSZ in *; rewrite Z.mod_small; lia).
  eexists _, s1. split_and!; try eassumption. intros s2 cb ea E2 Hsw2.
  destruct (cap_thd_switch_Ok s2 b a cb ea Hsw2) as (s3 & H3 & F).
  destruct F as [F1 F2 F3 F4 F5 F6 F7 F8 F9 F10]. destruct Hsw2 as [_ _ _ _ _ _ G _ _ _ _].
  rewrite E2, D2, ?Eu in H3, F1, F6, F8, G. exists s3. by split_and!.
Qed.

(** Two threads, of the components of [inv0] *)
Definition sw0 : kstate :=
  with_hw (HwRegs 4096 0 None)
   (with_regs (Regs 11 4198400 14 12 13 1073741824 327680 0 0 0 0 0 0 0 0 0 0)
    (with_cli (cli_set_thd 1048576 cli0)
     (thd_put 1056768 (thd_start inv_callee 8 0 thread0)
      (thd_put 1048576 (thd_start inv_caller 7 0 thread0) kstate0)))).

Definition sw1 : kstate :=
  match cap_thd_switch UserRegs 1048576 1056768 inv_caller sw0 with Ok _ s => s | Panic _ => sw0 end.

Lemma thread_switch_roundtrip_witness :
  exists s3, cap_thd_switch UserRegs 1056768 1048576 inv_callee sw1 = Ok 0 s3 /\
    curr_thd (kcli s3) = 1048576 /\ cr3 (khw s3) = 4096 /\
    kregs s3 = saved_regs (thd_at sw0 1048576) (kregs sw0).
Proof.
  destruct (thread_switch_roundtrip sw0 1048576 1056768 inv_caller (InvEnt inv_callee 0 0))
    as (v & s1 & H1 & _ & _ & _ & _ & _ & _ & Hback).
  - split; try (by vm_compute); split; by vm_compute.
  - by vm_compute.
  - assert (sw1 = s1) as <- by (unfold sw1; rewrite H1; reflexivity).
    destruct (Hback sw1 inv_callee (InvEnt inv_caller 0 0)) as (s3 & G1 & G2 & G3 & _ & G4 & _);
      [reflexivity| |].
    + split; try (by vm_compute); split; by vm_compute.
    + exists s3. split_and!; [exact G1|exact G3|rewrite G4; reflexivity|exact G2].
Defined.
