(* ===== verification/EventSpec.v ===== *)
(** * Events: the queues of the schedulers

    Every thread has a queue of the threads whose state a scheduler is to be
    told, and is a node of at most one such queue.  An asynchronous send
    queues the receiver with its scheduler, and the schedulers above it that
    are blocked; a scheduler that receives gets the events in the order they
    were queued, each with what its thread executed. *)

From S2P Require Import Prelude Config Machine DList Ertrie Liveness Captbl CaptblSpec Retype.
From S2P Require Import Pgtbl Tcap TcapSpec CapOps Thd Inv Capinv InvSpec SwitchSpec.

(** ** The queues *)

(** The queues, as threads *)
Abbreviation queues := (gmap Z (list Z)).
Definition qof (Q : queues) (t : Z) : list Z := default [] (Q !! t).

Lemma qof_eq Q t q : qof (<[t := q]> Q) t = q.
Proof. unfold qof. by rewrite lookup_insert_eq. Qed.
Lemma qof_ne Q t u q : t <> u -> qof (<[t := q]> Q) u = qof Q u.
Proof. intros. unfold qof. by rewrite lookup_insert_ne. Qed.

Lemma qof_self Q t : forall u, qof (<[t := qof Q t]> Q) u = qof Q u.
Proof. intros u. destruct (decide (t = u)) as [<-|N]; [apply qof_eq|by apply qof_ne]. Qed.

(** A thread is queued with [p] unless it is queued already, or is [p]. *)
Definition queued (T : list Z) (Q : queues) (r : Z) : bool :=
  existsb (fun t => bool_decide (r ∈ qof Q t)) T.
Definition enq (T : list Z) (Q : queues) (p r : Z) : queues :=
  if queued T Q r || (p =? r) then Q else <[p := qof Q p ++ [r]]> Q.

(** The nodes of the threads [T] in the memory of [s] form the queues [Q]. *)
Record evt_inv (T : list Z) (s : kstate) (Q : queues) : Prop := {
  ei_thd : forall t, t ∈ T -> PAGE_SIZE <= t /\ t + PAGE_SIZE <= 4294967296;
  ei_apart : forall t u, t ∈ T -> u ∈ T -> t <> u -> t + PAGE_SIZE <= u \/ u + PAGE_SIZE <= t;
  ei_list : forall t, t ∈ T -> dlist s (event_head t) (event_list <$> qof Q t);
  ei_in : forall t x, t ∈ T -> x ∈ qof Q t -> x ∈ T /\ x <> t;
  ei_one : forall t u x, t ∈ T -> u ∈ T -> x ∈ qof Q t -> x ∈ qof Q u -> t = u;
  ei_free : forall x, x ∈ T -> (forall t, t ∈ T -> x ∉ qof Q t) -> word s (event_list x) = event_list x;
  ei_obj : forall t, t ∈ T -> word s (event_list t + 8) = t /\ word s (event_head t + 8) = 0 }.

Lemma queued_true T Q r : queued T Q r = true <-> exists t, t ∈ T /\ r ∈ qof Q t.
Proof.
  unfold queued. rewrite existsb_exists. split; intros (t & Ht & H); exists t;
    rewrite ?bool_decide_eq_true, ?list_elem_of_In in *; auto.
Qed.
Lemma queued_false T Q r : queued T Q r = false <-> forall t, t ∈ T -> r ∉ qof Q t.
Proof.
  rewrite <- not_true_iff_false, queued_true. naive_solver.
Qed.

Section Queues.
Context (T : list Z).

(** The nodes of the list of [t], with those of the list of another thread,
    do not overlap. *)
Lemma evt_nodes_apart s Q t u x y :
  evt_inv T s Q -> t ∈ T -> u ∈ T -> t <> u ->
  x ∈ event_head t :: (event_list <$> qof Q t) -> y ∈ event_head u :: (event_list <$> qof Q u) ->
  apart x y.
Proof.
  intros [H1 H2 _ H4 H5 _ _] Ht Hu Hne Hx Hy. unfold apart, event_head, event_list, PAGE_SIZE in *.
  apply elem_of_cons in Hx as [->|(a & -> & Ha)%list_elem_of_fmap];
    apply elem_of_cons in Hy as [->|(b & -> & Hb)%list_elem_of_fmap].
  - specialize (H2 t u Ht Hu Hne). lia.
  - destruct (decide (t = b)) as [->|Hn]; [lia|].
    specialize (H2 t b Ht (proj1 (H4 u b Hu Hb)) Hn). lia.
  - destruct (decide (u = a)) as [->|Hn]; [lia|].
    specialize (H2 u a Hu (proj1 (H4 t a Ht Ha)) Hn). lia.
  - assert (a <> b) as Hn by (intros ->; apply Hne; eauto).
    specialize (H2 a b (proj1 (H4 t a Ht Ha)) (proj1 (H4 u b Hu Hb)) Hn). lia.
Qed.

Lemma evt_node_addr s Q t :
  evt_inv T s Q -> t ∈ T -> node_addr (event_head t) /\ node_addr (event_list t).
Proof.
  intros H Ht. destruct (ei_thd _ _ _ H t Ht). unfold node_addr, event_head, event_list, PAGE_SIZE in *. lia.
Qed.

(** An unqueued thread's node overlaps with no list. *)
Lemma evt_fresh s Q t x :
  evt_inv T s Q -> t ∈ T -> x ∈ T -> x ∉ qof Q t ->
  fresh_node (event_list x) (event_head t :: (event_list <$> qof Q t)).
Proof.
  intros H Ht Hx Hn. split; [by eapply evt_node_addr|].
  intros y [->|(a & -> & Ha)%list_elem_of_fmap]%elem_of_cons;
    unfold apart, event_head, event_list, PAGE_SIZE in *.
  - destruct (decide (t = x)) as [->|N]; [lia|]. pose proof (ei_apart _ _ _ H t x Ht Hx N).
    unfold PAGE_SIZE in *. lia.
  - assert (a <> x) as N by (intros ->; done).
    pose proof (ei_apart _ _ _ H a x (proj1 (ei_in _ _ _ H t a Ht Ha)) Hx N). unfold PAGE_SIZE in *. lia.
Qed.

(** Containers are not links of nodes. *)
Lemma evt_obj_kept s s' Q t l :
  evt_inv T s Q -> t ∈ T -> (forall y, y ∈ l -> exists u, u ∈ T /\ (y = event_head u \/ y = event_list u)) ->
  mem_frame (links l) s s' ->
  word s' (event_list t + 8) = word s (event_list t + 8) /\
  word s' (event_head t + 8) = word s (event_head t + 8).
Proof.
  intros H Ht Hl [Hf _]. split; apply Hf; intros (y & Hy & E); destruct (Hl y Hy) as (u & Hu & E');
    (destruct (decide (t = u)) as [->|N]; [|pose proof (ei_apart _ _ _ H t u Ht Hu N)]);
    unfold event_head, event_list, PAGE_SIZE in *; lia.
Qed.

(** The queue of [p] becomes [q'], in which only [x] is added or removed. *)
Lemma evt_change s s' Q p x q' (L := event_list x :: event_head p :: (event_list <$> qof Q p)) :
  evt_inv T s Q -> p ∈ T -> x ∈ T -> (forall t, t ∈ T -> t <> p -> x ∉ qof Q t) ->
  mem_frame (links L) s s' -> dlist s' (event_head p) (event_list <$> q') ->
  (forall y, y ∈ q' -> y <> p /\ (y = x \/ y ∈ qof Q p)) ->
  (forall y, y ∈ qof Q p -> y = x \/ y ∈ q') ->
  (x ∉ q' -> word s' (event_list x) = event_list x) -> evt_inv T s' (<[p := q']> Q).
Proof.
  intros H Hp Hx Hxo Hm Hd Hq1 Hq2 Hxf.
  assert (forall y, y ∈ L -> exists u, u ∈ T /\ (y = event_head u \/ y = event_list u)) as Hl.
  { intros y [->|[->|(a & -> & Hin)%list_elem_of_fmap]%elem_of_cons]%elem_of_cons; eauto.
    exists a. split; [apply (ei_in _ _ _ H p a Hp Hin)|auto]. }
  split; try apply H.
  - intros t Ht. destruct (decide (p = t)) as [<-|N]; [by rewrite qof_eq|].
    rewrite qof_ne by done. eapply dlist_frame; [by apply (ei_list _ _ _ H)|apply Hm|].
    intros w. apply links_disjoint. intros a b Ha [->|Hb]%elem_of_cons.
    + destruct (evt_fresh s Q t x H Ht Hx (Hxo t Ht ltac:(done))) as [_ F]. by apply F.
    + by apply (evt_nodes_apart s Q t p).
  - intros t y Ht. destruct (decide (p = t)) as [<-|N]; [|rewrite qof_ne by done; by apply H].
    rewrite qof_eq. intros [? [->|?]]%Hq1; [done|]. by apply (ei_in _ _ _ H p).
  - intros t u y Ht Hu. pose proof (ei_one _ _ _ H t u y Ht Hu) as H1.
    destruct (decide (p = t)) as [<-|N], (decide (p = u)) as [<-|N']; [done|..];
      rewrite ?qof_eq, ?qof_ne by done; [| |done]; intros A B.
    + destruct (Hq1 y A) as [_ [->|?]]; [by destruct (Hxo u Hu ltac:(done))|auto].
    + destruct (Hq1 y B) as [_ [->|?]]; [by destruct (Hxo t Ht ltac:(done))|auto].
  - intros y Hy Hfree. pose proof (Hfree p Hp) as Hyq. rewrite qof_eq in Hyq.
    destruct (decide (y = x)) as [->|Hyx]; [auto|].
    assert (y ∉ qof Q p) as Hyp by (intros [?|?]%Hq2; done).
    rewrite (proj1 Hm).
    + apply H; [done|]. intros t Ht. destruct (decide (p = t)) as [<-|N]; [done|].
      specialize (Hfree t Ht). by rewrite qof_ne in Hfree.
    + destruct (evt_fresh s Q p y H Hp Hy Hyp) as [_ F].
      apply (links_disjoint [event_list y]); [|exists (event_list y); set_solver].
      intros a b ->%list_elem_of_singleton [->|Hb%F]%elem_of_cons; [|unfold apart in *; lia].
      pose proof (ei_apart _ _ _ H y x Hy Hx Hyx). unfold apart, event_list, PAGE_SIZE in *. lia.
  - intros t Ht. destruct (evt_obj_kept s s' Q t L H Ht Hl Hm) as [-> ->]. by apply H.
Qed.

(** Only the links and the queues count. *)
Lemma evt_ext s s' Q Q' :
  (forall w, word s' w = word s w) -> (forall t, qof Q' t = qof Q t) ->
  evt_inv T s Q -> evt_inv T s' Q'.
Proof.
  intros Hw Hq [H1 H2 H3 H4 H5 H6 H7]. split; auto.
  - intros t Ht. rewrite Hq. apply (dlist_frame s _ _ _ (fun _ => False)); [auto|auto|tauto].
  - intros t x. rewrite Hq. auto.
  - intros t u x. rewrite !Hq. apply H5.
  - intros x Hx Hn. rewrite Hw. apply H6; [done|]. intros t Ht. rewrite <- Hq. auto.
  - intros t Ht. rewrite !Hw. auto.
Qed.

(** A thread is told to a scheduler. *)
Lemma evt_enqueue_Ok s Q p r :
  evt_inv T s Q -> p ∈ T -> r ∈ T ->
  exists s', thd_rcvcap_evt_enqueue p r s = Ok tt s' /\ evt_inv T s' (enq T Q p r) /\
    s' = with_mem (kmem s') s.
Proof.
  intros H Hp Hr. destruct (evt_node_addr s Q r H Hr) as [_ [Ha _]].
  unfold thd_rcvcap_evt_enqueue, list_empty, enq. rewrite bind_assoc. kstep.
  destruct (queued T Q r) eqn:Eq; cbn [orb].
  { apply queued_true in Eq as (t & Ht & Hin). exists s. rewrite with_mem_id.
    rewrite (bind_Ok _ _ _ _ _ eq_refl), (proj2 (Z.eqb_neq _ _)); [done|].
    pose proof (ei_list _ _ _ H t Ht) as Hd. intros E.
    apply (dlist_empty_iff _ _ _ (event_list r) Hd) in E; [apply fmap_nil_inv in E; rewrite E in Hin; set_solver|].
    apply elem_of_cons. right. by apply list_elem_of_fmap_2. }
  pose proof (proj1 (queued_false _ _ _) Eq) as Hq.
  rewrite (bind_Ok _ _ _ _ _ eq_refl), (ei_free _ _ _ H r Hr Hq), Z.eqb_refl. cbn [andb].
  destruct (Z.eqb_spec p r) as [->|Hne]; cbn [negb]; [exists s; by rewrite with_mem_id|].
  destruct (dlist_enqueue s (event_head p) (event_list <$> qof Q p) (event_list r))
    as (s' & Hrun & Hm & Hd); [by apply (ei_list _ _ _ H)|by apply (evt_fresh s Q); auto|].
  exists s'. split; [done|]. split; [|apply Hm].
  apply (evt_change s s' Q p r); auto; [by rewrite fmap_app|..].
  - intros y [Hy| ->%list_elem_of_singleton]%elem_of_app; [|auto].
    split; [by apply (ei_in _ _ _ H p y)|auto].
  - set_solver.
  - set_solver.
Qed.

(** The oldest event of [p] is taken; without one NULL is, and nothing changes. *)
Lemma evt_dequeue_Ok s Q p :
  evt_inv T s Q -> p ∈ T ->
  exists s', thd_rcvcap_evt_dequeue p s = Ok (hd 0 (qof Q p)) s' /\
    evt_inv T s' (<[p := tail (qof Q p)]> Q) /\ s' = with_mem (kmem s') s.
Proof.
  intros H Hp. pose proof (ei_list _ _ _ H p Hp) as Hd. unfold thd_rcvcap_evt_dequeue.
  destruct (qof Q p) as [|x q] eqn:Eq.
  - destruct (dlist_dequeue_nil s (event_head p) Hd) as (s' & Hr & [Hf Hs] & Hd').
    exists s'. rewrite Hr, (proj2 (ei_obj _ _ _ H p Hp)). split_and!; [done| |done].
    apply (evt_ext s s' Q); [..|done].
    + apply dlist_inv in Hd as [_ (A1 & A2 & _)]. apply dlist_inv in Hd' as [_ (B1 & B2 & _)].
      intros w. destruct (decide (w = event_head p)) as [->|N]; [by rewrite A1, B1|].
      destruct (decide (w = event_head p + 4)) as [->|N']; [by rewrite A2, B2|].
      apply Hf. intros (y & ->%list_elem_of_singleton & [?|?]); done.
    + intros t. destruct (decide (p = t)) as [<-|N]; [by rewrite qof_eq|by rewrite qof_ne].
  - assert (x ∈ qof Q p) as Hx by (rewrite Eq; set_solver).
    destruct (ei_in _ _ _ H p x Hp Hx) as [HxT Hxp].
    destruct (dlist_dequeue s (event_head p) (event_list x) _ Hd)
      as (s' & Hr & Hm & Hd1 & Hd2).
    exists s'. rewrite Hr, (proj1 (ei_obj _ _ _ H x HxT)). split_and!; [done| |apply Hm].
    apply (evt_change s s' Q p x); auto.
    + intros t Ht N Hin. apply N. by apply (ei_one _ _ _ H t p x).
    + split; [|apply Hm]. intros w Hw. apply (proj1 Hm). intros (y & Hy & E). apply Hw. exists y.
      rewrite Eq. split; [|done]. cbn [fmap list_fmap] in *. set_solver.
    + intros y Hy. split; [|rewrite Eq; set_solver]. apply (ei_in _ _ _ H p y Hp). rewrite Eq. set_solver.
    + rewrite Eq. set_solver.
    + intros _. apply dlist_inv in Hd2 as [_ (E & _)]. done.
Qed.

(** ** Notification of the schedulers *)

(** The notifications of [notify_loop]: scheduler and thread.  [None] when
    the chain of blocked schedulers is longer than [fuel]. *)
Fixpoint notify_path (fuel : nat) (s : kstate) (prev curr : Z) : option (list (Z * Z)) :=
  if negb (curr =? 0) && negb (curr =? prev) then
    match fuel with
    | O => None
    | S fuel' =>
        if negb (has_flag (state (thd_at s curr)) THD_STATE_RCVING) then Some [(curr, prev)]
        else cons (curr, prev) <$> notify_path fuel' s curr (rcvcap_thd_notif (rcvcap (thd_at s curr)))
    end
  else Some [].

Lemma notify_path_head fuel s prev curr path :
  notify_path fuel s prev curr = Some path -> curr <> 0 -> curr <> prev ->
  exists path', path = (curr, prev) :: path'.
Proof.
  intros Hn H0 H1. destruct fuel; cbn [notify_path] in Hn;
    rewrite !(proj2 (Z.eqb_neq _ _)) in Hn by done; [done|]. cbn [negb andb] in Hn.
  destruct (negb _); [|destruct (notify_path _ _ _ _)]; simplify_eq/=; eauto.
Qed.

Definition enq_all (Q : queues) (path : list (Z * Z)) : queues :=
  foldl (fun Q x => enq T Q x.1 x.2) Q path.

Lemma notify_path_ext fuel : forall s s' prev curr,
  (forall u, state (thd_at s' u) = state (thd_at s u) /\
     rcvcap_thd_notif (rcvcap (thd_at s' u)) = rcvcap_thd_notif (rcvcap (thd_at s u))) ->
  notify_path fuel s' prev curr = notify_path fuel s prev curr.
Proof.
  induction fuel as [|fuel IH]; intros s s' prev curr E; simpl; [done|].
  destruct (E curr) as [-> ->]. by rewrite (IH s s').
Qed.

Lemma notify_loop_Ok fuel : forall s Q prev curr path,
  evt_inv T s Q -> prev ∈ T -> notify_path fuel s prev curr = Some path ->
  Forall (fun x => x.1 ∈ T) path ->
  exists s', notify_loop fuel prev curr s = Ok tt s' /\ evt_inv T s' (enq_all Q path) /\
    s' = with_mem (kmem s') s.
Proof.
  induction fuel as [|fuel IH]; intros s Q prev curr path H Hp Hn HT; cbn [notify_loop notify_path] in *;
    destruct (negb (curr =? 0) && negb (curr =? prev)); simplify_eq.
  1,3: exists s; by rewrite with_mem_id.
  assert (curr ∈ T) as Hc.
  { destruct (negb _) in Hn; [|destruct (notify_path _ _ _ _)]; simplify_eq/=; by inversion HT. }
  destruct (ei_thd _ _ _ H curr Hc) as [Hpg _].
  destruct (evt_enqueue_Ok s Q curr prev H Hc Hp) as (s1 & Hr & H1 & E1).
  rewrite (bind_Ok _ _ _ _ _ Hr). thstep.
  assert (kthd s1 = kthd s) as Ek by by rewrite E1.
  replace (thd_at s1 curr) with (thd_at s curr) by (unfold thd_at; by rewrite Ek).
  destruct (negb _).
  { simplify_eq. exists s1. done. }
  destruct (notify_path fuel s _ _) as [path'|] eqn:Ep; simplify_eq/=.
  unfold arcv_thd_notif. rewrite bind_assoc. thstep. rewrite (bind_Ok _ _ _ _ _ eq_refl).
  replace (thd_at s1 curr) with (thd_at s curr) by (unfold thd_at; by rewrite Ek).
  apply Forall_cons in HT as [_ HT].
  destruct (IH s1 (enq T Q curr prev) curr (rcvcap_thd_notif (rcvcap (thd_at s curr))) path')
    as (s' & Hr' & H' & E'); [done|done|rewrite (notify_path_ext _ s); [done|intros; unfold thd_at; by rewrite Ek]|done|].
  exists s'. split_and!; [done|done|]. rewrite E', E1. done.
Qed.

(** Notifications only append to queues. *)
Lemma enq_prefix Q p r t : qof Q t `prefix_of` qof (enq T Q p r) t.
Proof.
  unfold enq. destruct (_ || _); [done|]. destruct (decide (p = t)) as [<-|N].
  - rewrite qof_eq. by apply prefix_app_r.
  - by rewrite qof_ne.
Qed.
Lemma enq_all_prefix path : forall Q t, qof Q t `prefix_of` qof (enq_all Q path) t.
Proof.
  induction path as [|[p r] path IH]; intros Q t; [done|].
  etrans; [apply (enq_prefix Q p r)|apply IH].
Qed.

Lemma queued_enq Q p r : p ∈ T -> p <> r -> queued T (enq T Q p r) r = true.
Proof.
  intros Hp Hn. unfold enq. destruct (queued T Q r) eqn:E; [done|]. simpl.
  rewrite (proj2 (Z.eqb_neq _ _)) by done. apply queued_true. exists p. rewrite qof_eq. set_solver.
Qed.
Lemma queued_enq_all path Q r : queued T Q r = true -> queued T (enq_all Q path) r = true.
Proof.
  rewrite !queued_true. intros (t & Ht & Hin). exists t. split; [done|].
  destruct (enq_all_prefix path Q t) as [l ->]. set_solver.
Qed.

Lemma notify_path_queued fuel : forall s Q prev curr path,
  notify_path fuel s prev curr = Some path -> Forall (fun x => x.1 ∈ T) path ->
  forall x, x ∈ path -> queued T (enq_all Q path) x.2 = true.
Proof.
  induction fuel as [|fuel IH]; intros s Q prev curr path Hn HT x Hx; cbn [notify_path] in Hn;
    destruct (Z.eqb_spec curr 0), (Z.eqb_spec curr prev); cbn [negb andb] in Hn; simplify_eq;
    try set_solver.
  destruct (negb _); [|destruct (notify_path fuel _ _ _) as [path'|] eqn:Ep]; simplify_eq/=;
    apply Forall_cons in HT as [Hc HT]; apply elem_of_cons in Hx as [->|Hx]; cbn [fst snd] in *.
  - by apply queued_enq.
  - set_solver.
  - by apply queued_enq_all, queued_enq.
  - exact (IH s (enq T Q curr prev) curr _ path' Ep HT x Hx).
Qed.

(** ** Delivery *)

(** Whether a thread that receives would block *)
Definition idle (s : kstate) (Q : queues) (t : Z) : bool :=
  (pending (rcvcap (thd_at s t)) =? 0) && bool_decide (qof Q t = []).

Lemma rcvcap_pending_Ok s Q t :
  evt_inv T s Q -> t ∈ T ->
  exists v, thd_rcvcap_pending t s = Ok v s /\ (v =? 0) = idle s Q t.
Proof.
  intros H Ht. destruct (ei_thd _ _ _ H t Ht) as [Hpg _]. unfold thd_rcvcap_pending, idle. thstep.
  destruct (Z.eqb_spec (pending (rcvcap (thd_at s t))) 0) as [E|E]; cbn [negb andb].
  2:{ eexists. split; [done|]. by apply Z.eqb_neq. }
  pose proof (ei_list _ _ _ H t Ht) as Hd. apply dlist_inv in Hd as [Hok Hc].
  apply cyc_next in Hc. destruct (evt_node_addr s Q t H Ht) as [[A1 A2] _].
  unfold list_isempty, list_first, list_next. rewrite !bind_assoc. kstep. rewrite Hc.
  destruct (qof Q t) as [|x q] eqn:Eq; cbn [hd fmap list_fmap] in *.
  - kstep. rewrite (proj2 (ei_obj _ _ _ H t Ht)). eexists. split; [reflexivity|]. done.
  - destruct (ei_in _ _ _ H t x Ht ltac:(rewrite Eq; set_solver)) as [Hx _].
    destruct (evt_node_addr s Q x H Hx) as [_ [B1 _]].
    destruct (ei_thd _ _ _ H x Hx) as [Hxp _]. unfold PAGE_SIZE in *.
    kstep. rewrite (proj1 (ei_obj _ _ _ H x Hx)). eexists. split; [reflexivity|].
    by rewrite (proj2 (Z.eqb_neq x 0)) by lia.
Qed.

(** The event of [e]: its thread id, whether it is blocked, what it executed
    and the timeout it asked for *)
Definition report (s : kstate) (Q : queues) (e : Z) : Z * Z * Z :=
  let x := thd_at s e in
  (Z.lor (tid x) (if has_flag (state x) THD_STATE_RCVING && idle s Q e then Z.shiftl 1 31 else 0),
   exec x, timeout x).

(** An event of [e] has been delivered. *)
Definition reset_exec (x : thread) : thread := thd_set_exec 0 0 x.

Lemma evt_inv_put s Q t x : evt_inv T s Q -> evt_inv T (thd_put t x s) Q.
Proof. by apply evt_ext. Qed.

Lemma bound_Ok t s : PAGE_SIZE <= t ->
  thd_bound2rcvcap t s = Ok (negb (isbound (rcvcap (thd_at s t)) =? 0)) s.
Proof. intros. unfold thd_bound2rcvcap. by thstep. Qed.

Lemma evt_deliver_Ok s Q p e q :
  evt_inv T s Q -> p ∈ T -> isbound (rcvcap (thd_at s p)) <> 0 -> qof Q p = e :: q ->
  exists s', thd_state_evt_deliver p s = Ok (Some (report s Q e)) s' /\
    evt_inv T s' (<[p := q]> Q) /\ s' = thd_put e (reset_exec (thd_at s e)) (with_mem (kmem s') s).
Proof.
  intros H Hp Hb Eq. destruct (ei_thd _ _ _ H p Hp) as [Hpg _].
  destruct (ei_in _ _ _ H p e Hp ltac:(rewrite Eq; set_solver)) as [He Hne].
  destruct (ei_thd _ _ _ H e He) as [Hpe _].
  destruct (evt_dequeue_Ok s Q p H Hp) as (s1 & Hr & H1 & E1). rewrite Eq in Hr, H1. cbn [hd tail] in *.
  assert (forall u, thd_at s1 u = thd_at s u) as Et by (intros; unfold thd_at; by rewrite E1).
  unfold thd_state_evt_deliver. rewrite (bind_Ok _ _ _ _ _ Hr).
  rewrite (bind_Ok _ _ _ _ _ (bound_Ok p s1 Hpg)), Et, (proj2 (Z.eqb_neq _ _)) by done.
  rewrite massert_bind, (proj2 (Z.eqb_neq e 0)) by (unfold PAGE_SIZE in *; lia). thstep. rewrite Et.
  set (flag := if has_flag (state (thd_at s e)) THD_STATE_RCVING && idle s Q e
               then Z.shiftl 1 31 else 0).
  rewrite (bind_Ok _ _ s1 flag s1).
  2:{ unfold flag. destruct (has_flag _ _); cbn [andb]; [|done].
      destruct (rcvcap_pending_Ok s1 _ e H1 He) as (v & Hv & Ev).
      rewrite (bind_Ok _ _ _ _ _ Hv), Ev. unfold idle. rewrite Et, qof_ne by done. by destruct (_ && _). }
  do 3 thstep. eexists. split_and!; [unfold report; rewrite Et; reflexivity|by apply evt_inv_put|].
  change (kmem (thd_put e _ s1)) with (kmem s1). by rewrite <- E1.
Qed.

(** A scheduler receives [n] events. *)
Fixpoint deliver_n (n : nat) (p : Z) : K (list (option (Z * Z * Z))) :=
  match n with
  | O => ret []
  | S n' => e <- thd_state_evt_deliver p ;; es <- deliver_n n' p ;; ret (e :: es)
  end.

Lemma evt_NoDup s Q p : evt_inv T s Q -> p ∈ T -> NoDup (qof Q p).
Proof.
  intros H Hp. destruct (ei_list _ _ _ H p Hp) as [(Hd & _) _].
  apply NoDup_cons_1_2 in Hd. by apply NoDup_fmap_1 in Hd.
Qed.

Lemma deliver_n_Ok p q : forall s Q rest,
  evt_inv T s Q -> p ∈ T -> isbound (rcvcap (thd_at s p)) <> 0 -> qof Q p = q ++ rest ->
  exists s', deliver_n (length q) p s = Ok (map (fun e => Some (report s Q e)) q) s' /\
    evt_inv T s' (<[p := rest]> Q) /\ (forall e, e ∈ q -> thd_at s' e = reset_exec (thd_at s e)) /\
    (forall u, u ∉ q -> thd_at s' u = thd_at s u).
Proof.
  induction q as [|e q IH]; intros s Q rest H Hp Hb Eq; cbn [length deliver_n map app] in *.
  - exists s. split_and!; [done| |set_solver|done]. apply (evt_ext s s Q); auto. rewrite <- Eq. apply qof_self.
  - pose proof (evt_NoDup s Q p H Hp) as Hnd. rewrite Eq in Hnd. apply NoDup_cons in Hnd as [Hnin _].
    destruct (ei_in _ _ _ H p e Hp ltac:(rewrite Eq; set_solver)) as [He Hne].
    destruct (evt_deliver_Ok s Q p e (q ++ rest) H Hp Hb Eq) as (s1 & Hr & H1 & E1).
    assert (forall u, u <> e -> thd_at s1 u = thd_at s u) as Et
      by (intros; rewrite E1; by rewrite thd_at_put_ne).
    destruct (IH s1 (<[p := q ++ rest]> Q) rest H1 Hp) as (s' & Hr' & H' & Hq & Ho);
      [by rewrite Et|by rewrite qof_eq|]. rewrite insert_insert_eq in H'.
    exists s'. rewrite (bind_Ok _ _ _ _ _ Hr), (bind_Ok _ _ _ _ _ Hr'). unfold ret. split_and!.
    + do 2 f_equal. apply map_ext_in. intros x Hx%list_elem_of_In. f_equal.
      assert (x <> e) by set_solver.
      destruct (ei_in _ _ _ H p x Hp ltac:(rewrite Eq; set_solver)) as [_ Hxp].
      unfold report, idle. by rewrite Et, qof_ne by done.
    + done.
    + intros x [->|Hx]%elem_of_cons; [|rewrite Hq, Et by set_solver; done].
      rewrite Ho by set_solver. by rewrite E1, thd_at_put_eq.
    + intros u Hu. rewrite Ho, Et by set_solver. done.
Qed.
End Queues.

(** The pending count of the receiver, incremented *)
Definition asnd_counted (x : thread) : thread :=
  thd_set_rcvcap (rc_set_pending (i32 (pending (rcvcap x) + 1)) (rcvcap x)) x.

(** The choice between the receiver and the sender *)
Lemma notify_choice_Ok r thd rt tc (y : bool) s :
  PAGE_SIZE <= rt -> PAGE_SIZE <= tc -> tcap_ok (tcap_at s rt) -> tcap_ok (tcap_at s tc) ->
  exists res : Z * Z,
    bind (if y then ret true else tcap_higher_prio rt tc)
      (fun b : bool => if b then ret (r, rt) else ret (thd, tc)) s = Ok res s /\
    (res = (r, rt) \/ res = (thd, tc)).
Proof.
  intros H1 H2 H3 H4. destruct y; [eexists; split; [reflexivity|auto]|].
  destruct (tcap_higher_prio_spec rt tc s H1 H2 H3 H4) as (b & Hb & _).
  rewrite (bind_Ok _ _ _ _ _ Hb). destruct b; eexists; (split; [reflexivity|auto]).
Qed.

(** An asynchronous send, up to the choice of the thread that runs next *)
Lemma asnd_process_Ok T Q s r p thd rt tc y path :
  evt_inv T s Q -> r ∈ T -> rcvcap_thd_notif (rcvcap (thd_at s r)) = p ->
  notify_path (Z.to_nat ARCV_NOTIF_DEPTH) s r p = Some path -> Forall (fun x => x.1 ∈ T) path ->
  PAGE_SIZE <= rt -> PAGE_SIZE <= tc -> tcap_ok (tcap_at s rt) -> tcap_ok (tcap_at s tc) ->
  exists res s1, asnd_process r thd rt tc y s = Ok res s1 /\ (res = (r, rt) \/ res = (thd, tc)) /\
    evt_inv T s1 (enq_all T Q path) /\
    s1 = with_mem (kmem s1) (thd_put r (asnd_counted (thd_at s r)) s).
Proof.
  intros H Hr Hp Hpath HT Hrt Htc Ort Otc. destruct (ei_thd _ _ _ H r Hr) as [Hpg _].
  unfold asnd_process, thd_rcvcap_pending_inc, upd_rcvcap, notify_process, notify_parent, arcv_thd_notif.
  thstep. fold (asnd_counted (thd_at s r)). set (s0 := thd_put r _ s).
  assert (forall u, state (thd_at s0 u) = state (thd_at s u) /\
    rcvcap_thd_notif (rcvcap (thd_at s0 u)) = rcvcap_thd_notif (rcvcap (thd_at s u))) as He.
  { intros u. unfold s0. destruct (decide (r = u)) as [<-|N]; [by rewrite thd_at_put_eq|].
    by rewrite thd_at_put_ne. }
  rewrite !bind_assoc. thstep. rewrite (proj2 (He r)), Hp.
  rewrite (bind_Ok (ret p) _ s0 p s0 eq_refl), bind_assoc.
  destruct (notify_loop_Ok T (Z.to_nat ARCV_NOTIF_DEPTH) s0 Q r p path)
    as (s1 & Hl & H1 & E1); [by apply evt_inv_put|done|by rewrite (notify_path_ext _ s)|done|].
  rewrite (bind_Ok _ _ _ _ _ Hl), (bind_Ok (ret p) _ s1 p s1 eq_refl).
  assert (forall u, tcap_at s1 u = tcap_at s u) as Et by (intros; unfold tcap_at; by rewrite E1).
  destruct (notify_choice_Ok r thd rt tc y s1) as (res & Hres & Hor); rewrite ?Et; try done.
  exists res, s1. split_and!; done.
Qed.

(** C9. No event is lost.  An asynchronous send to a thread that is not
    queued counts as pending with it and queues it behind the events of its
    scheduler [p], whatever the priorities, and when [p] is blocked its
    schedulers in turn are told of [p].  When [p] then receives, it gets the
    events before it, and next the receiver's, with its thread id, not marked
    as blocked, with the cycles it executed and its timeout, which start again
    from 0. *)
Theorem asnd_event_delivered T Q s r p thd rt tc y path :
  evt_inv T s Q -> r ∈ T -> queued T Q r = false -> 0 <= pending (rcvcap (thd_at s r)) < 2147483647 ->
  rcvcap_thd_notif (rcvcap (thd_at s r)) = p -> p <> r -> p <> 0 ->
  isbound (rcvcap (thd_at s p)) <> 0 ->
  notify_path (Z.to_nat ARCV_NOTIF_DEPTH) s r p = Some path -> Forall (fun x => x.1 ∈ T) path ->
  PAGE_SIZE <= rt -> PAGE_SIZE <= tc -> tcap_ok (tcap_at s rt) -> tcap_ok (tcap_at s tc) ->
  exists res s1 es s2, asnd_process r thd rt tc y s = Ok res s1 /\
    (res = (r, rt) \/ res = (thd, tc)) /\
    pending (rcvcap (thd_at s1 r)) = pending (rcvcap (thd_at s r)) + 1 /\
    (forall x, x ∈ path -> queued T (enq_all T Q path) x.2 = true) /\
    evt_inv T s1 (enq_all T Q path) /\
    deliver_n (S (length (qof Q p))) p s1 =
      Ok (es ++ [Some (tid (thd_at s r), exec (thd_at s r), timeout (thd_at s r))]) s2 /\
    length es = length (qof Q p) /\ exec (thd_at s2 r) = 0 /\ timeout (thd_at s2 r) = 0.
Proof.
  intros H Hr Hu Hpend Hp Hpr Hp0 Hb Hpath HT Hrt Htc Ort Otc.
  destruct (asnd_process_Ok T Q s r p thd rt tc y path H Hr Hp Hpath HT Hrt Htc Ort Otc)
    as (res & s1 & Hrun & Hres & H1 & E1).
  assert (thd_at s1 r = asnd_counted (thd_at s r)) as Er
    by (rewrite E1; exact (thd_at_put_eq r _ s)).
  assert (thd_at s1 p = thd_at s p) as Ep
    by (rewrite E1; exact (thd_at_put_ne r p _ s ltac:(done))).
  assert (i32 (pending (rcvcap (thd_at s r)) + 1) = pending (rcvcap (thd_at s r)) + 1) as Ei
    by (unfold i32; rewrite Z.mod_small; lia).
  destruct (notify_path_head _ _ _ _ _ Hpath Hp0 Hpr) as (path' & Epath). 
  assert (p ∈ T) as HpT by (rewrite Epath in HT; by apply Forall_cons in HT as [? _]).
  assert (exists rest, qof (enq_all T Q path) p = (qof Q p ++ [r]) ++ rest) as [rest Erest].
  { assert (enq T Q p r = <[p := qof Q p ++ [r]]> Q) as Ee
      by (unfold enq; by rewrite Hu, (proj2 (Z.eqb_neq p r))).
    destruct (enq_all_prefix T path' (enq T Q p r) p) as [rest E]. exists rest.
    rewrite Epath. rewrite Ee, qof_eq in E. rewrite <- E. unfold enq_all. cbn [foldl fst snd].
    by rewrite Ee. }
  destruct (deliver_n_Ok T p (qof Q p ++ [r]) s1 _ rest H1 HpT) as (s2 & Hd & _ & Hreset & _);
    [by rewrite Ep|done|].
  rewrite length_app, Nat.add_1_r, map_app in Hd. cbn [map] in Hd.
  exists res, s1, (map (fun e => Some (report s1 (enq_all T Q path) e)) (qof Q p)), s2.
  rewrite Hreset, Er by set_solver. split_and!; [done|done|exact Ei| |done| |by rewrite length_map|done..].
  - exact (notify_path_queued T _ s Q r p path Hpath HT).
  - rewrite Hd. unfold report, idle. rewrite Er. cbn [rcvcap asnd_counted thd_set_rcvcap pending rc_set_pending].
    rewrite Ei, (proj2 (Z.eqb_neq _ 0)) by lia. cbn [andb]. rewrite andb_false_r, Z.lor_0_r. done.
Qed.

(** The invariant, decided *)
Definition evt_invb (T : list Z) (s : kstate) (Q : queues) : bool :=
  forallb (fun t =>
    (PAGE_SIZE <=? t) && (t + PAGE_SIZE <=? 4294967296) &&
    dlistb s (event_head t) (event_list <$> qof Q t) &&
    forallb (fun x => bool_decide (x ∈ T) && negb (x =? t)) (qof Q t) &&
    (queued T Q t || (word s (event_list t) =? event_list t)) &&
    (word s (event_list t + 8) =? t) && (word s (event_head t + 8) =? 0) &&
    forallb (fun u => (t =? u) ||
      (((t + PAGE_SIZE <=? u) || (u + PAGE_SIZE <=? t)) &&
       forallb (fun x => negb (bool_decide (x ∈ qof Q u))) (qof Q t))) T) T.

Lemma evt_invb_ok T s Q : evt_invb T s Q = true -> evt_inv T s Q.
Proof.
  unfold evt_invb. rewrite forallb_forall. intros H.
  assert (forall t, t ∈ T -> _) as H' by (intros t Ht%list_elem_of_In; exact (H t Ht)).
  setoid_rewrite andb_true_iff in H'. clear H. rename H' into H.
  split.
  - intros t Ht%H. lia.
  - intros t u [_ G]%H Hu%list_elem_of_In N. rewrite forallb_forall in G. specialize (G u Hu). lia.
  - intros t Ht%H. apply dlistb_ok. destruct (dlistb _ _ _); [done|]. lia.
  - intros t x Ht%H Hx%list_elem_of_In. destruct Ht as [Ht _]. rewrite !andb_true_iff in Ht.
    destruct Ht as ((((_ & G) & _) & _) & _). rewrite forallb_forall in G. specialize (G x Hx).
    rewrite andb_true_iff, bool_decide_eq_true in G. split; [tauto|lia].
  - intros t u x [_ G]%H Hu%list_elem_of_In Hx%list_elem_of_In Hxu. rewrite forallb_forall in G.
    specialize (G u Hu). destruct (Z.eqb_spec t u) as [|N]; [done|]. simpl in G.
    apply andb_true_iff in G as [_ G]. rewrite forallb_forall in G. specialize (G x Hx).
    by rewrite (bool_decide_true _ Hxu) in G.
  - intros x Hx%H Hf%queued_false. rewrite Hf in Hx. lia.
  - intros t Ht%H. lia.
Qed.

(** A receiver, its scheduler, and another thread the scheduler has yet to be
    told of *)
Definition ev_setup : K unit :=
  for_n 3 0 (fun i => let t := 1048576 + 8192 * i in
    set_thd t (thd_set_rcvcap (RcvInfo 1 0 0 0 0 8192 1056768) (thd_start inv_caller 7 0 thread0)) ;;
    list_head_init (event_head t) ;; list_init (event_list t) t) ;;
  upd_thd 1048576 (thd_set_exec 500 90) ;;
  thd_rcvcap_evt_enqueue 1056768 1064960.
Definition ev0 : kstate := run_state tc0 (ev_setup tc0).
Definition ev_thds : list Z := [1048576; 1056768; 1064960].
Definition ev_q : queues := {[ 1056768 := [1064960] ]}.

Lemma ev0_inv : evt_inv ev_thds ev0 ev_q.
Proof. apply evt_invb_ok. by vm_compute. Qed.

Lemma asnd_event_delivered_witness :
  exists res s1 es s2, asnd_process 1048576 1064960 8192 12288 false ev0 = Ok res s1 /\
    deliver_n 2 1056768 s1 = Ok (es ++ [Some (7, 500, 90)]) s2 /\ length es = 1%nat.
Proof.
  destruct (asnd_event_delivered ev_thds ev_q ev0 1048576 1056768 1064960 8192 12288 false
    [(1056768, 1048576)]) as (res & s1 & es & s2 & H1 & _ & _ & _ & _ & H2 & H3 & _);
    [exact ev0_inv|apply (bool_decide_unpack _); by vm_compute|by vm_compute..|
     repeat constructor; apply (bool_decide_unpack _); by vm_compute|by vm_compute|by vm_compute| | |].
  - apply tcap_okb_ok. by vm_compute.
  - apply tcap_okb_ok. by vm_compute.
  - exists res, s1, es, s2. split_and!; [exact H1|exact H2|exact H3].
Defined.
