(* ===== verification/DeactSpec.v ===== *)
(** * Release of kernel memory and scheduler tokens

    When the page of a capability table or of a page table may be taken back,
    what freezing it prevents, and how a dispatch is ordered with the events
    of its scheduler. *)

From S2P Require Import Prelude Config Machine Ertrie Liveness Captbl CaptblSpec Retype.
From S2P Require Import RetypeSpec Pgtbl PgtblSpec Tcap CapOps Thd Inv Capinv InvSpec.
From S2P Require Import SwitchSpec.

(** ** Lookups read *)

#[export] Instance ref_addr_ro n : ReadOnly (ref_addr n).
Proof. destruct n; simpl; apply _. Qed.

Lemma ert_lookup_ro (e : ert) `{!ErtLaws e} v id ds dl acc :
  (forall n a, ReadOnly (getleaffn e n a)) -> ReadOnly (__ert_lookup e v id ds dl acc).
Proof.
  intros Hg. assert (forall n leaf o sz, ReadOnly (resolvefn e n leaf o sz)).
  { intros n leaf o sz s a s' H. rewrite el_resolvefn in H. by simplify_eq. }
  pose proof (ert_lookup_loop_ro e). unfold __ert_lookup. cbv zeta. apply _.
Qed.

#[export] Instance captbl_lkup_ro t cap : ReadOnly (captbl_lkup t cap).
Proof.
  unfold captbl_lkup, captbl_lkup_lvl, __captbl_lkupani. pose proof (ert_lookup_ro __captbl).
  assert (forall n a, ReadOnly (getleaffn __captbl n a)).
  { intros n a. cbn [getleaffn __captbl]. unfold __captbl_getleaf. cbv zeta. apply _. }
  apply _.
Qed.

Lemma lkup_run t cap p s :
  match captbl_lkup t cap s with Ok q _ => q = p | Panic _ => False end ->
  captbl_lkup t cap s = Ok p s.
Proof.
  destruct (captbl_lkup t cap s) as [q s'|] eqn:E; [|done]. intros ->.
  by rewrite (read_only _ _ _ _ E).
Qed.

#[export] Instance pgtbl_lkup_pte_ro pt addr fl : ReadOnly (pgtbl_lkup_pte pt addr fl).
Proof.
  unfold pgtbl_lkup_pte, __pgtbl_lkupan, __pgtbl_lkupani. pose proof (ert_lookup_ro __pgtbl).
  assert (forall n a, ReadOnly (getleaffn __pgtbl n a)).
  { intros n a. cbn [getleaffn __pgtbl]. destruct n; unfold __pgtbl_get; cbv zeta; apply _. }
  apply _.
Qed.

#[export] Instance typechk_ro v t : ReadOnly (CAP_TYPECHK v t).
Proof. unfold CAP_TYPECHK. apply _. Qed.
#[export] Instance cap_type_ro v : ReadOnly (cap_type v).
Proof. unfold cap_type. apply _. Qed.
#[export] Instance load_unaligned_ro a : ReadOnly (load_unaligned a).
Proof. unfold load_unaligned. cbv zeta. apply _. Qed.
#[export] Instance kmem_page_scan_ro p n : ReadOnly (kmem_page_scan p n).
Proof. unfold kmem_page_scan. apply _. Qed.

(** ** The scans *)

#[export] Instance respects_sum {S A B C} (R : relation S) (o : B + C) (f : B -> M S A) (g : C -> M S A) :
  (forall b, Respects R (f b)) -> (forall c, Respects R (g c)) ->
  Respects R (match o with inl b => f b | inr c => g c end).
Proof. by destruct o. Qed.

(** A loop that ends normally, of rounds that only read. *)
Lemma for_ret_None {S R} n i (body : Z -> M S (option R)) s s' :
  (forall j, ReadOnly (body j)) -> for_ret n i body s = Ok None s' ->
  forall j, i <= j < i + Z.of_nat n -> body j s = Ok None s.
Proof.
  intros Hro. revert i s. induction n as [|n IH]; intros i s H j Hj; [lia|]. cbn [for_ret] in H.
  apply bind_inv in H as (r & s1 & H1 & H2). pose proof (read_only _ _ _ _ H1). subst s1.
  destruct r as [x|]; [by minv H2|].
  destruct (decide (j = i)) as [->|N]; [done|]. apply (IH (i + 1)); [done|lia].
Qed.

#[export] Instance pgtbl_mapping_scan_ro pt : ReadOnly (pgtbl_mapping_scan pt).
Proof. unfold pgtbl_mapping_scan. apply _. Qed.

(** A page-table entry that maps nothing *)
Definition unmapped (v : Z) : Prop :=
  has_flag v PGTBL_PRESENT = false /\ has_flag v PGTBL_COSFRAME = false.

Lemma pgtbl_mapping_scan_empty pt s s' :
  pgtbl_mapping_scan pt s = Ok 0 s' ->
  forall i, 0 <= i < 1024 -> unmapped (word s (word s (pt + CC_TBL) + 4 * i)).
Proof.
  unfold pgtbl_mapping_scan. intros H i Hi.
  apply bind_inv in H as (lvl & s1 & H1 & H). apply load_inv in H1 as (_ & _ & ->).
  destruct (negb _); [by minv H|].
  apply bind_inv in H as (page & s1 & H1 & H). apply load_inv in H1 as (_ & -> & ->).
  apply bind_inv in H as ([] & s1 & H1 & H). apply massert_inv in H1 as [_ ->].
  apply bind_inv in H as (r & s1 & H1 & H). destruct r as [e|].
  - apply for_ret_Some in H1 as (j & sa & sb & Hb). unfold ret in H. injection H as -> _.
    apply bind_inv in Hb as (v & sc & _ & Hb). unfold ret in Hb.
    destruct (_ || _); [discriminate Hb|]. destruct (has_flag _ _); [|discriminate Hb].
    apply bind_inv in Hb as (t & sd & _ & Hb). destruct t as [|ts]; [discriminate Hb|].
    apply bind_inv in Hb as (q & se & _ & Hb). destruct (negb q); discriminate Hb.
  - eapply for_ret_None in H1 as Hb; [|intros; apply _|change (Z.of_nat _) with 1024; exact Hi].
    apply bind_inv in Hb as (v & sc & Hv & Hb). apply load_inv in Hv as (_ & -> & ->).
    unfold unmapped. destruct (has_flag _ PGTBL_PRESENT); [by minv Hb|].
    destruct (has_flag _ PGTBL_COSFRAME); [by minv Hb|]. done.
Qed.

(** The time for which the table of [ch] is frozen has passed. *)
Definition quiesced (s : kstate) (ch : Z) : Prop :=
  let ts := word s (ch + CC_FROZEN_TS) + 4294967296 * word s (ch + CC_FROZEN_TS + 4) in
  if word s (ch + CC_LVL) =? 0 then tlb_quiescence_check ts s = Ok true s
  else QUIESCENCE_CHECK (u64 (ktsc s (kticks s))) ts KERN_QUIESCENCE_CYCLES = true.

#[export] Instance leaf_line_scan_clock ct i : Respects clock_only (leaf_line_scan ct i).
Proof.
  unfold leaf_line_scan. cbv zeta.
  assert (forall t cap a b, ReadOnly (captbl_lkup_lvl t cap a b)).
  { intros. unfold captbl_lkup_lvl, __captbl_lkupani. pose proof (ert_lookup_ro __captbl).
    assert (forall n a, ReadOnly (getleaffn __captbl n a)).
    { intros n x. cbn [getleaffn __captbl]. unfold __captbl_getleaf. cbv zeta. apply _. }
    apply _. }
  apply _.
Qed.
#[export] Instance captbl_kmem_scan_clock c : Respects clock_only (captbl_kmem_scan c).
Proof. unfold captbl_kmem_scan, captbl_leaflvl_scan. apply _. Qed.
#[export] Instance deact_scan_clock ch ty page : Respects clock_only (deact_scan ch ty page).
Proof. unfold deact_scan. apply _. Qed.

Lemma clock_word s s' a : clock_only s s' -> word s' a = word s a.
Proof. by intros (n & -> & _). Qed.

(** ** Taking back the page of a table *)

Lemma cap_type_inv v s t s' :
  cap_type v s = Ok t s' -> PAGE_SIZE <= v /\ t = h_type (hdr_of (word s v)) /\ s' = s.
Proof.
  intros H. assert (PAGE_SIZE <= v) as Hv.
  { unfold cap_type, load_hdr in H. apply bind_inv in H as (h & s1 & H & _).
    by apply bind_inv in H as (w & s2 & (Hv & _)%load_inv & _). }
  rewrite cap_type_Ok in H by done. by injection H as <- <-.
Qed.

(** What [deact_table_pre] has checked when it agrees *)
Record table_free (s s' : kstate) (ch ty pa : Z) : Prop := {
  tf_page : word s (ch + CC_TBL) = chal_pa2va pa;
  tf_frozen : has_flag (word s (ch + CC_REFCNT)) CAP_MEM_FROZEN_FLAG = true;
  tf_quiesced : quiesced s ch;
  tf_mem : forall a, word s' a = word s a;
  tf_leaf : ty = CAP_PGTBL -> word s (ch + CC_LVL) = PGTBL_DEPTH - 1 ->
    forall i, 0 <= i < 1024 -> chal_pa2va pa + 4 * i <> ch + CC_REFCNT ->
      unmapped (word s (chal_pa2va pa + 4 * i)) }.

Lemma deact_quiescent_inv ch s q s' :
  deact_quiescent ch s = Ok q s' -> clock_only s s' /\ (q = true -> quiesced s ch).
Proof.
  unfold deact_quiescent, quiesced, load64. intros H.
  apply bind_inv in H as (lvl & s1 & H1 & H). apply load_inv in H1 as (_ & -> & ->).
  apply bind_inv in H as (ts & s1 & H1 & H).
  apply bind_inv in H1 as (lo & s2 & H1 & H2). apply load_inv in H1 as (_ & -> & ->).
  apply bind_inv in H2 as (hi & s2 & H1 & H2). apply load_inv in H1 as (_ & -> & ->).
  unfold ret in H2. injection H2 as <- <-. destruct (_ =? 0).
  - pose proof (read_only _ _ _ _ H). subst s'. split; [reflexivity|by intros ->].
  - apply bind_inv in H as (t & s1 & H1 & H). rewrite rdtscll_Ok in H1. simplify_eq/=.
    unfold ret in H. simplify_eq/=. split; [|done]. exists (S (kticks s)). split; [done|lia].
Qed.

Lemma deact_scan_leaf ch page s s' :
  deact_scan ch CAP_PGTBL page s = Ok 0 s' -> word s (ch + CC_LVL) = PGTBL_DEPTH - 1 ->
  forall i, 0 <= i < 1024 -> unmapped (word s (word s (ch + CC_TBL) + 4 * i)).
Proof.
  intros H E. unfold deact_scan in H. apply bind_inv in H as (lvl & s1 & H1 & H).
  apply load_inv in H1 as (_ & -> & ->). rewrite E in H.
  exact (pgtbl_mapping_scan_empty ch s s' H).
Qed.

Lemma deact_table_pre_inv ch ty pa s s' :
  ty = CAP_CAPTBL \/ ty = CAP_PGTBL -> deact_table_pre ch ty pa s = Ok 0 s' ->
  table_free s s' ch ty pa.
Proof.
  intros Hty H. unfold deact_table_pre in H.
  apply bind_inv in H as (page & s1 & H1 & H). apply load_inv in H1 as (Hpg & -> & ->).
  apply bind_inv in H as (l & s1 & H1 & H). apply load_inv in H1 as (_ & El & ->).
  destruct (Z.eqb_spec (chal_pa2va pa) (word s (ch + CC_TBL))) as [Ep|]; [|discriminate H].
  destruct (has_flag l CAP_MEM_FROZEN_FLAG) eqn:Ef; [|discriminate H]. cbn [negb] in H.
  apply bind_inv in H as (q & s1 & H1 & H). apply deact_quiescent_inv in H1 as [Hc Hq].
  destruct q; [|discriminate H]. cbn [negb] in H.
  apply bind_inv in H as (c & s2 & H1 & H).
  apply cas_inv in H1 as [Ha [(-> & E1 & ->)|(-> & _)]]; [|discriminate H].
  change (negb (1 =? CAS_SUCCESS)) with false in H. cbv iota in H.
  apply bind_inv in H as (r & s3 & Hs & H). destruct (Z.eqb_spec r 0) as [->|]; cbn [negb] in H.
  2:{ apply bind_inv in H as (? & ? & _ & H). unfold ret in H. by simplify_eq. }
  apply bind_inv in H as (c & s4 & H1 & H). unfold ret in H. injection H as ->.
  pose proof (respects (R := clock_only) _ _ _ Hs) as Hc3.
  assert (u32 l = l) as Eu by (rewrite El; apply u32_small, word_u32).
  set (s2 := put (ch + CC_REFCNT) (Z.lor l CAP_MEM_SCAN_FLAG) s1) in *.
  assert (word s2 (ch + CC_REFCNT) = u32 (Z.lor l CAP_MEM_SCAN_FLAG)) as E2
    by (unfold s2; by rewrite word_put_eq).
  assert (forall a, a <> ch + CC_REFCNT -> word s2 a = word s a) as E3.
  { intros a N. unfold s2. rewrite word_put_ne by done. by apply clock_word. }
  apply cas_inv in H1 as [_ [(-> & _ & ->)|(_ & N & _)]]; [|by rewrite (clock_word _ _ _ Hc3), E2 in N].
  split; [done|by rewrite <- El|by apply Hq| |].
  - intros a. destruct (decide (a = ch + CC_REFCNT)) as [->|N].
    + by rewrite word_put_eq, Eu.
    + rewrite word_put_ne by done. rewrite (clock_word _ _ _ Hc3). by apply E3.
  - intros -> Hl i Hi N. rewrite <- (E3 (chal_pa2va pa + 4 * i)) by done.
    assert (chal_pa2va pa = word s2 (ch + CC_TBL)) as ->
      by (rewrite E3 by (unfold CC_TBL, CC_REFCNT; lia); done).
    apply (deact_scan_leaf ch _ s2 s3 Hs); [|done].
    rewrite E3 by (unfold CC_LVL, CC_REFCNT; lia). done.
Qed.

(** C23. The page of a capability or page table is released only when the
    entry [pte] of the page table of [pgtbl_cap] maps it as active kernel
    memory and is the very page of the table, the table is frozen, and the
    time after which no core can still use it has passed.  When it is the
    last level of a page table, none of its entries maps anything.  The
    checks leave memory as it was. *)
Theorem kmem_deact_pre_safe ch ct pgtbl_cap addr s pte v s' (ty := h_type (hdr_of (word s ch))) :
  ty = CAP_CAPTBL \/ ty = CAP_PGTBL ->
  kmem_deact_pre ch ct pgtbl_cap addr s = Ok (0, (pte, v)) s' ->
  let pa := Z.land v PGTBL_FRAME_MASK in
  (exists cap_pt fl, captbl_lkup ct pgtbl_cap s = Ok cap_pt s /\
     pgtbl_lkup_pte (word s (cap_pt + CC_TBL)) addr 0 s = Ok (pte, fl) s) /\
  v = word s pte /\ has_flag v PGTBL_COSKMEM = true /\ has_flag v PGTBL_QUIESCENCE = false /\
  word s (ch + CC_TBL) = chal_pa2va pa /\
  has_flag (word s (ch + CC_REFCNT)) CAP_MEM_FROZEN_FLAG = true /\ quiesced s ch /\
  (ty = CAP_PGTBL -> word s (ch + CC_LVL) = PGTBL_DEPTH - 1 ->
   forall i, 0 <= i < 1024 -> chal_pa2va pa + 4 * i <> ch + CC_REFCNT ->
     unmapped (word s (chal_pa2va pa + 4 * i))) /\
  (forall a, word s' a = word s a).
Proof.
  intros Hty H. unfold kmem_deact_pre in H. cbv zeta.
  apply bind_inv in H as ([] & s1 & H1 & H). apply massert_inv in H1 as [_ ->].
  destruct (_ || _); [discriminate H|].
  apply bind_inv in H as (cap_pt & s1 & Hlk & H). pose proof (read_only _ _ _ _ Hlk). subst s1.
  apply bind_inv in H as (ok & s1 & H1 & H). pose proof (read_only _ _ _ _ H1). subst s1.
  destruct ok; [|discriminate H]. cbn [negb] in H.
  apply bind_inv in H as (pt & s1 & H2 & H). apply load_inv in H2 as (_ & -> & ->).
  apply bind_inv in H as ([pte' fl] & s1 & Hpte & H). pose proof (read_only _ _ _ _ Hpte). subst s1.
  apply bind_inv in H as (old & s1 & H2 & H). apply load_inv in H2 as (_ & Eo & ->).
  destruct (has_flag old PGTBL_COSKMEM) eqn:Ek; [|discriminate H]. cbn [negb] in H.
  apply bind_inv in H as ([] & s1 & H2 & H). apply massert_inv in H2 as [Eq ->].
  apply bind_inv in H as (t & s1 & H2 & H). apply cap_type_inv in H2 as (_ & -> & ->). fold ty in H.
  assert ((ty =? CAP_CAPTBL) || (ty =? CAP_PGTBL) = true) as E
    by (apply orb_true_iff; rewrite !Z.eqb_eq; done).
  rewrite E in H. apply bind_inv in H as (r & s1 & H2 & H). unfold ret in H.
  injection H as -> <- <- <-. destruct (deact_table_pre_inv _ _ _ _ _ Hty H2) as [T1 T2 T3 T4 T5].
  apply negb_true_iff in Eq. split_and!; eauto.
Qed.

(** The capability 4 to the page table of [pt5], and the frozen capability 8
    to a second level in the kernel memory it has at 8192 *)
Definition deact_setup : K unit :=
  ct <- captbl_create 8388608 ;;
  let! (p, _) := captbl_add ct 4 CAP_PGTBL in
  store (p + CC_TBL) pt_pa ;; store (p + CC_REFCNT) 1 ;; store (p + CC_LVL) 0 ;;
  let! (q, _) := captbl_add ct 8 CAP_PGTBL in
  store (q + CC_TBL) (kva 1048576) ;; store (q + CC_LVL) 1 ;;
  store (q + CC_REFCNT) (1 + CAP_MEM_FROZEN_FLAG) ;; store64 (q + CC_FROZEN_TS) 0 ;;
  modify (with_ticks 1000).
Definition deact0 : kstate := run_state pt5 (deact_setup pt5).
Definition deact_slot : Z := 8388608 + 2048 + 128.
#[global] Opaque deact0.

Lemma kmem_deact_pre_safe_witness :
  captbl_lkup 8388608 8 deact0 = Ok deact_slot deact0 /\
  quiesced deact0 deact_slot /\ unmapped (word deact0 (kva 1048576 + 4)).
Proof.
  destruct (kmem_deact_pre_safe deact_slot 8388608 4 8192 deact0 (kva 2101248 + 8)
    (1048576 + PGTBL_COSFRAME + PGTBL_COSKMEM)
    (run_state deact0 (kmem_deact_pre deact_slot 8388608 4 8192 deact0)))
    as (_ & _ & _ & _ & _ & _ & Hq & Hl & _).
  - right. by vm_compute.
  - apply run_ok. by vm_compute.
  - split_and!; [apply lkup_run; vm_compute; reflexivity|exact Hq|].
    exact (Hl ltac:(vm_compute; reflexivity) ltac:(vm_compute; reflexivity) 1
      ltac:(clear; lia) ltac:(vm_compute; discriminate)).
Defined.

(** A root page table is known by its physical address.  The page it lies in
    is compared with the kernel's address of the frame, which is another one:
    its release fails whatever its state. *)
Theorem root_pgtbl_never_released ch pa s :
  PAGE_SIZE <= ch -> 0 <= pa < 1073741824 -> word s (ch + CC_TBL) = pa ->
  deact_table_pre ch CAP_PGTBL pa s = Ok (- EINVAL) s.
Proof.
  intros Hc Hpa E. unfold deact_table_pre. unfold PAGE_SIZE, CC_TBL, CC_REFCNT in *. kstep. kstep.
  rewrite E, (proj2 (Z.eqb_neq _ _)); [done|].
  unfold chal_pa2va. change COS_MEM_KERN_START_VA with 3221225472.
  rewrite u32_small by (unfold is_u32; lia). lia.
Qed.

(** The scan of a page advances by bytes: a page whose first 1028 bytes are
    zero passes, whatever the rest of it holds. *)
Theorem page_scan_misses page s :
  PAGE_SIZE <= page -> page mod 4 = 0 ->
  (forall i, 0 <= i <= 256 -> word s (page + 4 * i) = 0) ->
  kmem_page_scan page PAGE_SIZE s = Ok 0 s.
Proof.
  intros Hp Hm Hz. unfold kmem_page_scan.
  assert (forall n i, 0 <= i -> i + Z.of_nat n <= 1024 ->
    for_ret n i (fun i => v <- load_unaligned (page + i) ;;
      if negb (v =? 0) then ret (Some (- EINVAL)) else ret None) s = Ok None s) as Hloop.
  { induction n as [|n IH]; intros i Hi Hn; [done|]. cbn [for_ret].
    assert (load_unaligned (page + i) s = Ok 0 s) as Hl.
    { unfold load_unaligned. cbv zeta. unfold PAGE_SIZE in *.
      assert (page + i - (page + i) mod 4 = page + 4 * (i / 4)) as -> by (Z.div_mod_to_equations; lia).
      destruct (Z.eqb_spec ((page + i) mod 4) 0) as [E|E].
      - kstep. replace (page + i) with (page + 4 * (i / 4)) by (Z.div_mod_to_equations; lia).
        rewrite Hz by (Z.div_mod_to_equations; lia). done.
      - assert (0 <= i / 4 <= 255) by (Z.div_mod_to_equations; lia).
        kstep. kstep. rewrite Hz by lia.
        replace (page + 4 * (i / 4) + 4) with (page + 4 * (i / 4 + 1)) by lia.
        rewrite Hz by lia. rewrite Z.shiftr_0_l. done. }
    rewrite bind_assoc, (bind_Ok _ _ _ _ _ Hl). cbn [negb Z.eqb].
    rewrite (bind_Ok (ret None) _ s None s eq_refl). apply IH; lia. }
  rewrite (bind_Ok _ _ _ _ _ (Hloop (Z.to_nat (PAGE_SIZE / 4)) 0 ltac:(lia) ltac:(done))). done.
Qed.

(** [CAPTBL_OP_THDTLSSET] sets the thread's segment and reports failure. *)
Theorem thdtlsset_reports_failure ch thd r s s' :
  thd_tls_set (word s (ch + CC_TBL)) (u32 (__userregs_get1 r)) (u32 (__userregs_get2 r)) thd s = Ok 0 s' ->
  PAGE_SIZE <= ch -> word s (ch + CC_TBL) <> 0 -> thdtlsset_op ch thd r s = Ok (- ENOENT) s'.
Proof.
  intros H Hc Ht. unfold thdtlsset_op. unfold PAGE_SIZE, CC_TBL in *. kstep.
  rewrite massert_bind by (by rewrite (proj2 (Z.eqb_neq _ _))).
  by rewrite (bind_Ok _ _ _ _ _ H).
Qed.

(** ** Scheduler tokens *)

Fixpoint validate_all (rcvt : Z) (toks : list Z) : K (list Z) :=
  match toks with
  | [] => ret []
  | k :: toks' =>
      r <- cap_sched_tok_validate rcvt k ;; rs <- validate_all rcvt toks' ;; ret (r :: rs)
  end.

(** The results for a counter [c]: a token is accepted when none before it,
    nor the counter, is greater. *)
Fixpoint verdicts (c : Z) (toks : list Z) : list Z :=
  match toks with
  | [] => []
  | k :: toks' => (if c <=? k then 0 else - EAGAIN) :: verdicts (Z.max c k) toks'
  end.

Lemma verdicts_lookup toks : forall c i k,
  toks !! i = Some k ->
  verdicts c toks !! i = Some (if fold_left Z.max (take i toks) c <=? k then 0 else - EAGAIN).
Proof.
  induction toks as [|x toks IH]; intros c i k H; [done|]. destruct i as [|i]; cbn in *; [by simplify_eq|].
  by apply IH.
Qed.

Lemma verdicts_length toks : forall c, length (verdicts c toks) = length toks.
Proof. induction toks as [|k toks IH]; intros c; cbn; [done|]. by rewrite IH. Qed.

Definition with_count (c : Z) (x : thread) : thread := thd_set_rcvcap (rc_set_count c (rcvcap x)) x.

Lemma tok_validate_Ok t k s (c := sched_count (rcvcap (thd_at s t))) :
  PAGE_SIZE <= t -> k < 4294967295 ->
  cap_sched_tok_validate t k s =
  if c <=? k then Ok 0 (thd_put t (with_count k (thd_at s t)) s) else Ok (- EAGAIN) s.
Proof.
  intros Ht Hk. unfold cap_sched_tok_validate.
  rewrite massert_bind by (rewrite (proj2 (Z.eqb_neq t 0)) by (unfold PAGE_SIZE in *; lia); simpl; lia).
  unfold thd_rcvcap_get_counter, thd_rcvcap_set_counter, upd_rcvcap. rewrite bind_assoc. thstep.
  rewrite (bind_Ok (ret _) _ s c s eq_refl), Z.gtb_ltb, Z.ltb_antisym.
  destruct (c <=? k); cbn [negb]; [|done]. by thstep.
Qed.

Lemma with_count_id x : with_count (sched_count (rcvcap x)) x = x.
Proof. by destruct x as [????????????[]]. Qed.

Lemma validate_all_Ok t toks : forall s (c := sched_count (rcvcap (thd_at s t))),
  PAGE_SIZE <= t -> Forall (fun k => k < 4294967295) toks ->
  exists s', validate_all t toks s = Ok (verdicts c toks) s' /\
    thd_at s' t = with_count (fold_left Z.max toks c) (thd_at s t) /\
    (forall u, u <> t -> thd_at s' u = thd_at s u).
Proof.
  induction toks as [|k toks IH]; intros s c Ht Hk; cbn [validate_all verdicts fold_left].
  - exists s. split_and!; [done| |done]. unfold c. by rewrite with_count_id.
  - apply Forall_cons in Hk as [Hk Hks]. pose proof (tok_validate_Ok t k s Ht Hk) as Hv.
    cbv zeta in Hv. fold c in Hv. destruct (Z.leb_spec c k).
    + rewrite (bind_Ok _ _ _ _ _ Hv). set (s1 := thd_put _ _ s) in *.
      assert (thd_at s1 t = with_count k (thd_at s t)) as E1 by apply thd_at_put_eq.
      destruct (IH s1 Ht Hks) as (s' & Hr & H1 & H2). rewrite E1 in Hr, H1.
      change (sched_count (rcvcap (with_count k (thd_at s t)))) with k in *.
      rewrite (Z.max_r c k) by done.
      exists s'. rewrite (bind_Ok _ _ _ _ _ Hr). split_and!; [done|by rewrite H1|].
      intros u N. rewrite H2 by done. by apply thd_at_put_ne.
    + rewrite (bind_Ok _ _ _ _ _ Hv). destruct (IH s Ht Hks) as (s' & Hr & H1 & H2).
      fold c in Hr, H1. rewrite (Z.max_l c k) by lia.
      exists s'. by rewrite (bind_Ok _ _ _ _ _ Hr).
Qed.



(** The token of a dispatch, of the lower halves of two registers *)
Lemma dispatch_token r :
  u32 (r_di r) mod 65536 = 65535 -> Z.land (r_ax r) 65535 = 65535 ->
  Z.lor (Z.shiftr (u32 (Z.shiftl (u32 (__userregs_get3 r)) 16)) 16)
    (u32 (Z.shiftl (__userregs_getop r) 16)) = 4294967295.
Proof.
  intros Hdi Hax. unfold __userregs_getop, __userregs_get3, COS_CAPABILITY_OFFSET.
  change (Z.shiftl 1 16 - 1) with 65535. rewrite Hax.
  rewrite Z.shiftl_mul_pow2, Z.shiftr_div_pow2 by lia.
  replace (u32 (u32 (i32 (r_di r)) * 2 ^ 16) / 2 ^ 16) with 65535; [done|].
  unfold u32, i32 in *. Z.div_mod_to_equations. lia.
Qed.

(** A dispatch with the greatest token stops the kernel: the token comes
    from the registers of the system call, and [cap_sched_tok_validate]
    asserts that it is not [~0U] before it looks at it. *)
Theorem dispatch_token_halts thdc arcvc thd next ci s (r := kregs s) :
  PAGE_SIZE <= thdc -> PAGE_SIZE <= arcvc -> PAGE_SIZE <= next ->
  word s (thdc + CT_T) = next ->
  i32 (word s (thdc + CT_CPUID)) = cpuid (kcli s) -> thd_cpuid (thd_at s next) = cpuid (kcli s) ->
  lo16 (__userregs_get1 r) <> 0 ->
  captbl_lkup (ci_captbl ci) (lo16 (__userregs_get1 r)) s = Ok arcvc s ->
  h_type (hdr_of (word s arcvc)) = CAP_ARCV -> i32 (word s (arcvc + AR_CPUID)) = cpuid (kcli s) ->
  u32 (r_di r) mod 65536 = 65535 -> Z.land (r_ax r) 65535 = 65535 ->
  cap_thd_op thdc thd UserRegs ci s = Panic AssertFail.
Proof.
  intros Hc Ha Hn En Hcc Hcn Harcv Hlk Hty Hac Hdi Hax. unfold cap_thd_op.
  unfold PAGE_SIZE, CT_T, CT_CPUID in *. kstep. rewrite En.
  rewrite (bind_Ok (get_regs UserRegs) _ s r s eq_refl). cbv zeta. kstep.
  rewrite (bind_Ok get_cpuid _ s (cpuid (kcli s)) s eq_refl).
  rewrite (bind_Ok _ _ _ _ _ (get_thd_Ok next s Hn)), Hcc, Hcn, Z.eqb_refl. cbn [negb orb].
  rewrite (proj2 (Z.eqb_neq (lo16 _) 0)) by done. cbn [negb].
  rewrite (dispatch_token r Hdi Hax). unfold dispatch_rcv. rewrite !bind_assoc.
  rewrite (bind_Ok _ _ _ _ _ Hlk), bind_assoc.
  rewrite (bind_Ok (CAP_TYPECHK_CORE _ _ _) _ s true s).
  2:{ unfold CAP_TYPECHK_CORE, CAP_TYPECHK. rewrite (proj2 (Z.eqb_neq arcvc 0)) by lia.
      rewrite bind_assoc, (bind_Ok _ _ _ _ _ (load_hdr_Ok arcvc s Ha)), Hty.
      rewrite (bind_Ok (ret _) _ s true s eq_refl). cbn [negb]. unfold AR_CPUID in *. kstep.
      rewrite (bind_Ok get_cpuid _ s (cpuid (kcli s)) s eq_refl), Hac, Z.eqb_refl. done. }
  cbn [negb]. unfold AR_THD. rewrite bind_assoc. kstep. rewrite bind_assoc. unfold cap_sched_tok_validate.
  rewrite andb_false_r. reflexivity.
Qed.

(** A scheduler with the thread of [sw0] as capability 4 and its own end-point
    as capability 8, about to dispatch with the token [~0U] *)
Definition halt_setup : K unit :=
  ct <- captbl_create 2097152 ;;
  let! (p, _) := captbl_add ct 4 CAP_THD in
  store (p + CT_T) 1056768 ;; store (p + CT_CPUID) 0 ;;
  let! (q, _) := captbl_add ct 8 CAP_ARCV in
  store (q + AR_THD) 1048576 ;; store (q + AR_CPUID) 0 ;;
  modify (with_regs (Regs 8 0 0 0 65535 0 393215 0 0 0 0 0 0 0 0 0 0)).
Definition halt0 : kstate := run_state sw0 (halt_setup sw0).
#[global] Opaque halt0.

Lemma dispatch_token_halts_witness :
  cap_thd_op (2097152 + 2048 + 64) 1048576 UserRegs inv_caller halt0 = Panic AssertFail.
Proof.
  apply (dispatch_token_halts _ (2097152 + 2048 + 128) _ 1056768);
    try (apply lkup_run); by vm_compute.
Defined.
