(* ===== verification/Heap.v ===== *)
(** * The binary heap of the scheduling library

    [components/lib/heap.c]: an array heap of pointers, 1-indexed, with a
    comparison callback [h->c] ("is [a] at least as urgent as [b]?") and a
    callback [h->u] by which an entry learns its position, so that it can be
    removed or adjusted from the middle.

    The heap lives inside the state of its client.  [HeapClient] is the
    interface between the two: where the heap is, the two callbacks and the
    position an entry remembers; [HeapLaws] is what a client promises about
    its callbacks.  The scheduling policy and the timeout queue of the
    scheduler library are the two clients.

    [heap_wf] is the structural invariant (every entry remembers its own
    index), [heap_ord] the heap order.  The theorems show that every operation
    terminates without a failed assertion, keeps both invariants, and has the
    effect of its counterpart on the set of the entries. *)

From S2P Require Import Prelude.

(** ** The structure *)

(** [struct heap] without its callbacks: the end index, the bound, the array. *)
Record heap : Type := mkHeap { h_e : Z; h_max_sz : Z; h_data : gmap Z Z }.

Class HeapClient (S : Type) : Type := {
  hc_get : S -> heap;                (** the heap *)
  hc_put : heap -> S -> S;
  h_c : S -> Z -> Z -> bool;         (** [h->c(a, b)] *)
  h_u : Z -> Z -> S -> S;            (** [h->u(e, pos)] *)
  h_pos : S -> Z -> Z                (** the position [h->u] recorded last *)
}.

Section operations.
Context {S : Type} `{!HeapClient S}.

Definition hget : M S heap := gets hc_get.

(** [h->data[i]] *)
Definition hload (i : Z) : M S Z :=
  h <- hget ;;
  match h_data h !! i with Some x => ret x | None => panic OutOfBounds end.

(** [h->data[i] = x] *)
Definition hstore (i x : Z) : M S unit :=
  modify (fun s => let h := hc_get s in
                   hc_put (mkHeap (h_e h) (h_max_sz h) (<[i := x]> (h_data h))) s).

Definition hset_e (e : Z) : M S unit :=
  modify (fun s => let h := hc_get s in hc_put (mkHeap e (h_max_sz h) (h_data h)) s).

Definition hcmp (a b : Z) : M S bool := gets (fun s => h_c s a b).
Definition hupd (x i : Z) : M S unit := modify (h_u x i).

Definition swap_entries (a b : Z) : M S unit :=
  t <- hload a ;;
  x <- hload b ;; hstore a x ;;
  hstore b t ;;
  x <- hload a ;; hupd x a ;;
  x <- hload b ;; hupd x b.

(** The loop of [swap_down], with [l] the last entry. *)
Fixpoint swap_down_loop (fuel : nat) (l c : Z) : M S Z :=
  if negb (c <=? l / 2) then ret c else
  match fuel with
  | O => panic NoFuel
  | Datatypes.S fuel =>
      let left := 2 * c in
      let right := 2 * c + 1 in
      n <- (if right >? l then ret left else
            x <- hload left ;; y <- hload right ;;
            b <- hcmp x y ;;
            ret (if b : bool then left else right)) ;;
      h <- hget ;;
      massert (n <? h_e h) ;;
      x <- hload c ;; y <- hload n ;;
      b <- hcmp x y ;;
      if b : bool then ret c else
      swap_entries n c ;;
      swap_down_loop fuel l n
  end.

Definition swap_down (c : Z) : M S Z :=
  h <- hget ;;
  massert (negb (c =? 0)) ;;
  massert (c <=? h_e h) ;;
  swap_down_loop (Z.to_nat (h_e h)) (h_e h - 1) c.

Fixpoint swap_up_loop (fuel : nat) (c : Z) : M S Z :=
  if negb (c >? 1) then ret c else
  match fuel with
  | O => panic NoFuel
  | Datatypes.S fuel =>
      let p := c / 2 in
      massert (negb (p =? 0)) ;;
      x <- hload p ;; y <- hload c ;;
      b <- hcmp x y ;;
      if b : bool then ret c else
      swap_entries p c ;;
      swap_up_loop fuel p
  end.

Definition swap_up (c : Z) : M S Z :=
  h <- hget ;;
  massert (c <=? h_e h) ;;
  massert (c >? 0) ;;
  c <- swap_up_loop (Z.to_nat c) c ;;
  massert (negb (c =? 0)) ;;
  ret c.

Definition heapify (c : Z) : M S Z := c <- swap_up c ;; swap_down c.

Definition heap_init (max_sz : Z) : M S unit :=
  modify (fun s => hc_put (mkHeap 1 (max_sz + 1) (h_data (hc_get s))) s).

Definition heap_add (new : Z) : M S Z :=
  h <- hget ;;
  if h_max_sz h =? h_e h then ret (-1) else
  let c := h_e h in
  hstore c new ;;
  hupd new c ;;
  hset_e (c + 1) ;;
  heapify c ;;
  ret 0.

(** [NULL] is 0. *)
Definition heap_highest : M S Z :=
  h <- hget ;;
  if h_e h =? 1 then ret 0 else
  r <- hload 1 ;;
  hset_e (h_e h - 1) ;;
  x <- hload (h_e h - 1) ;; hstore 1 x ;;
  x <- hload 1 ;; hupd x 1 ;;
  swap_down 1 ;;
  hupd r 0 ;;
  ret r.

Definition heap_peek : M S Z :=
  h <- hget ;;
  if h_e h =? 1 then ret 0 else hload 1.

Definition heap_adjust (c : Z) : M S unit :=
  h <- hget ;;
  massert (c <? h_e h) ;;
  massert (c >? 0) ;;
  heapify c ;;
  ret tt.

Definition heap_remove (c : Z) : M S Z :=
  h <- hget ;;
  massert (c <? h_e h) ;;
  massert (c >=? 1) ;;
  if h_e h =? 1 then ret 0 else
  r <- hload c ;;
  hset_e (h_e h - 1) ;;
  hupd r 0 ;;
  if c =? h_e h - 1 then ret r else
  x <- hload (h_e h - 1) ;; hstore c x ;;
  x <- hload c ;; hupd x c ;;
  heap_adjust c ;;
  ret r.

Definition heap_size : M S Z := h <- hget ;; ret (h_e h - 1).

Definition heap_empty : M S bool := n <- heap_size ;; ret (n =? 0).

End operations.

(** ** What a client promises *)

Class HeapLaws (S : Type) `{!HeapClient S} : Prop := {
  hl_get_put h (s : S) : hc_get (hc_put h s) = h;
  hl_get_u x i (s : S) : hc_get (h_u x i s) = hc_get s;
  hl_c_put h (s : S) a b : h_c (hc_put h s) a b = h_c s a b;
  hl_c_u x i (s : S) a b : h_c (h_u x i s) a b = h_c s a b;
  hl_pos_put h (s : S) x : h_pos (hc_put h s) x = h_pos s x;
  hl_pos_u x i (s : S) y : h_pos (h_u x i s) y = if decide (y = x) then i else h_pos s y;
  hl_total (s : S) a b : h_c s a b = true \/ h_c s b a = true;
  hl_trans (s : S) a b c : h_c s a b = true -> h_c s b c = true -> h_c s a c = true
}.

Section invariants.
Context {S : Type} `{!HeapClient S}.

Definition hdat (s : S) (i : Z) : option Z := h_data (hc_get s) !! i.
Definition hend (s : S) : Z := h_e (hc_get s).

(** The slots in use are filled, and each entry remembers its slot.  In
    particular no entry is in two slots. *)
Definition heap_wf (s : S) : Prop :=
  1 <= hend s <= h_max_sz (hc_get s) /\
  forall i, 1 <= i < hend s -> exists x, hdat s i = Some x /\ h_pos s x = i /\ x <> 0.

Definition in_heap (s : S) (x : Z) : Prop := exists i, 1 <= i < hend s /\ hdat s i = Some x.

(** The entry in slot [i] is at least as urgent as the one in slot [j]. *)
Definition leq (s : S) (i j : Z) : Prop :=
  exists x y, hdat s i = Some x /\ hdat s j = Some y /\ h_c s x y = true.

Definition heap_ord (s : S) : Prop := forall i, 2 <= i < hend s -> leq s (i / 2) i.

(** Ordered apart from the edges from [c] to its children. *)
Definition ord_down (s : S) (c : Z) : Prop :=
  (forall i, 2 <= i < hend s -> i / 2 <> c -> leq s (i / 2) i) /\
  (2 <= c -> forall i, 2 <= i < hend s -> i / 2 = c -> leq s (c / 2) i).

(** Ordered apart from the edges of [c] in both directions. *)
Definition ord_hole (s : S) (c : Z) : Prop :=
  (forall i, 2 <= i < hend s -> i <> c -> i / 2 <> c -> leq s (i / 2) i) /\
  (2 <= c -> forall i, 2 <= i < hend s -> i / 2 = c -> leq s (c / 2) i).

(** The only changes a heap operation makes to the client's state. *)
Inductive heap_step (s : S) : S -> Prop :=
| step_put h : heap_step s (hc_put h s)
| step_u x i : heap_step s (h_u x i s).

(** Same entries, same order relation, no other entry touched. *)
Definition permuted (s s' : S) : Prop :=
  hend s' = hend s /\ h_max_sz (hc_get s') = h_max_sz (hc_get s) /\
  (forall a b, h_c s' a b = h_c s a b) /\
  (forall x, in_heap s' x <-> in_heap s x) /\
  (forall x, ~ in_heap s x -> h_pos s' x = h_pos s x) /\
  rtc heap_step s s'.

End invariants.

(** ** Lemmas *)

Section lemmas.
Context {S : Type} `{!HeapClient S, !HeapLaws S}.
Implicit Types s : S.

Lemma permuted_refl s : permuted s s.
Proof. by repeat split. Qed.

Lemma permuted_trans s1 s2 s3 : permuted s1 s2 -> permuted s2 s3 -> permuted s1 s3.
Proof.
  intros (E1 & M1 & C1 & I1 & P1 & R1) (E2 & M2 & C2 & I2 & P2 & R2).
  split_and!; [congruence|congruence| | | |by etrans].
  - intros. by rewrite C2, C1.
  - intros. by rewrite I2, I1.
  - intros x Hx. rewrite P2, P1; [done|done|by rewrite I1].
Qed.

Lemma wf_lookup s i : heap_wf s -> 1 <= i < hend s ->
  exists x, hdat s i = Some x /\ h_pos s x = i /\ x <> 0.
Proof. intros [_ H]. apply H. Qed.

Lemma wf_inj s i j x : heap_wf s -> 1 <= i < hend s -> 1 <= j < hend s ->
  hdat s i = Some x -> hdat s j = Some x -> i = j.
Proof.
  intros Hwf Hi Hj Ei Ej.
  destruct (wf_lookup s i Hwf Hi) as (y & Ey & Py & _).
  destruct (wf_lookup s j Hwf Hj) as (z & Ez & Pz & _). congruence.
Qed.

Lemma in_heap_pos s x : heap_wf s -> in_heap s x ->
  1 <= h_pos s x < hend s /\ hdat s (h_pos s x) = Some x /\ x <> 0.
Proof.
  intros Hwf (i & Hi & Ei). destruct (wf_lookup s i Hwf Hi) as (y & Ey & Py & Hy).
  assert (y = x) as -> by congruence. by rewrite Py.
Qed.

Lemma leq_trans s i j k : leq s i j -> leq s j k -> leq s i k.
Proof.
  intros (x & y & Ex & Ey & C1) (y' & z & Ey' & Ez & C2).
  exists x, z. split_and!; [done|done|]. assert (y' = y) as -> by congruence.
  by eapply hl_trans.
Qed.

(** [leq] only depends on the two slots and on the comparison. *)
Lemma leq_ext s s' i j i' j' :
  (forall a b, h_c s' a b = h_c s a b) ->
  hdat s' i' = hdat s i -> hdat s' j' = hdat s j -> leq s i j -> leq s' i' j'.
Proof. intros C Ei Ej (x & y & Ex & Ey & H). exists x, y. rewrite Ei, Ej, C. done. Qed.

(** Steps of the code, as equations. *)
Lemma hload_Ok s i x : hdat s i = Some x -> hload i s = Ok x s.
Proof. unfold hload, hget, hdat, bind, gets. by intros ->. Qed.

(** Evaluation of the client's state under the heap's updates. *)
Ltac hsimpl :=
  unfold hend, hdat in *;
  repeat first [ rewrite hl_get_put | rewrite hl_get_u | rewrite hl_c_put | rewrite hl_c_u
               | rewrite hl_pos_put | rewrite hl_pos_u | progress cbn [h_e h_max_sz h_data] ].

Lemma hstore_Ok s i x :
  hstore i x s = Ok tt (hc_put (mkHeap (hend s) (h_max_sz (hc_get s))
                                       (<[i := x]> (h_data (hc_get s)))) s).
Proof. done. Qed.

Lemma hupd_Ok s x i : hupd x i s = Ok tt (h_u x i s).
Proof. done. Qed.

Lemma swap_entries_Ok s a b :
  heap_wf s -> 1 <= a < hend s -> 1 <= b < hend s -> a <> b ->
  exists s', swap_entries a b s = Ok tt s' /\ heap_wf s' /\ permuted s s' /\
    hdat s' a = hdat s b /\ hdat s' b = hdat s a /\
    (forall i, i <> a -> i <> b -> hdat s' i = hdat s i).
Proof.
  intros Hwf Ha Hb Hab.
  destruct (wf_lookup s a Hwf Ha) as (x & Ex & Px & Nx).
  destruct (wf_lookup s b Hwf Hb) as (y & Ey & Py & Ny).
  assert (x <> y) as Hxy by congruence.
  unfold swap_entries.
  rewrite (bind_Ok _ _ _ _ _ (hload_Ok s a x Ex)), (bind_Ok _ _ _ _ _ (hload_Ok s b y Ey)).
  rewrite (bind_Ok _ _ _ _ _ (hstore_Ok s a y)), (bind_Ok _ _ _ _ _ (hstore_Ok _ b x)).
  erewrite bind_Ok by (apply hload_Ok; hsimpl; by rewrite lookup_insert_ne, lookup_insert_eq).
  rewrite (bind_Ok _ _ _ _ _ (hupd_Ok _ y a)).
  erewrite bind_Ok by (apply hload_Ok; hsimpl; by rewrite lookup_insert_eq).
  rewrite hupd_Ok. eexists. split; [reflexivity|].
  set (s' := h_u x b _).
  assert (hend s' = hend s) as He by (subst s'; by hsimpl).
  assert (hdat s' a = hdat s b) as Da.
  { subst s'. hsimpl. by rewrite lookup_insert_ne, lookup_insert_eq, Ey by done. }
  assert (hdat s' b = hdat s a) as Db.
  { subst s'. hsimpl. by rewrite lookup_insert_eq, Ex. }
  assert (forall i, i <> a -> i <> b -> hdat s' i = hdat s i) as Di.
  { intros i Hia Hib. subst s'. hsimpl. by rewrite !lookup_insert_ne by done. }
  assert (forall z, h_pos s' z = if decide (z = x) then b else if decide (z = y) then a
                                 else h_pos s z) as Pz by (intros; subst s'; by hsimpl).
  split; [|split; [|by split_and!]].
  - split; [rewrite He; destruct Hwf as [Hr _]; subst s'; hsimpl; lia|].
    rewrite He. intros i Hi. destruct (decide (i = a)) as [->|Hia].
    { exists y. rewrite Da, Pz. by rewrite decide_False, decide_True. }
    destruct (decide (i = b)) as [->|Hib].
    { exists x. rewrite Db, Pz. by rewrite decide_True. }
    destruct (wf_lookup s i Hwf Hi) as (z & Ez & Pz' & Nz). exists z. rewrite Di by done.
    rewrite Pz, !decide_False by congruence. done.
  - split_and!; [done| |subst s'; intros; by hsimpl| | |].
    + subst s'. by hsimpl.
    + intros z. split; intros (i & Hi & Ei).
      * rewrite He in Hi. destruct (decide (i = a)) as [->|Hia]; [exists b; split; [done|congruence]|].
        destruct (decide (i = b)) as [->|Hib]; [exists a; split; [done|congruence]|].
        exists i. rewrite <- Di by done. done.
      * destruct (decide (i = a)) as [->|Hia]; [exists b; rewrite He; split; [done|congruence]|].
        destruct (decide (i = b)) as [->|Hib]; [exists a; rewrite He; split; [done|congruence]|].
        exists i. rewrite He, Di by done. done.
    + intros z Hz. rewrite Pz, !decide_False; [done| |].
      * intros ->. apply Hz. by exists b.
      * intros ->. apply Hz. by exists a.
    + subst s'. do 4 (eapply rtc_r; [|constructor]). apply rtc_refl.
Qed.

Lemma half_lt c : 2 <= c -> 1 <= c / 2 < c.
Proof. intros. Z.div_mod_to_equations; lia. Qed.

Lemma leq_of_cmp s i j x y :
  hdat s i = Some x -> hdat s j = Some y -> h_c s x y = true -> leq s i j.
Proof. by exists x, y. Qed.

Lemma leq_of_not_cmp s i j x y :
  hdat s i = Some x -> hdat s j = Some y -> h_c s x y = false -> leq s j i.
Proof.
  intros Ex Ey H. exists y, x. split_and!; [done|done|].
  destruct (hl_total s x y) as [H'|H']; congruence.
Qed.

(** Moving the misplaced entry one level up keeps the rest in order. *)
Lemma ord_hole_up s s' c :
  permuted s s' -> ord_hole s c -> 2 <= c < hend s ->
  hdat s' (c / 2) = hdat s c -> hdat s' c = hdat s (c / 2) ->
  (forall i, i <> c / 2 -> i <> c -> hdat s' i = hdat s i) ->
  ord_hole s' (c / 2).
Proof.
  intros (He & _ & C & _) [H1 H2] Hc Dp Dc Di. pose proof (half_lt c ltac:(lia)) as Hp.
  unfold ord_hole. rewrite He. split.
  - intros i Hi Hip Hi2. pose proof (half_lt i ltac:(lia)).
    assert (i <> c) by congruence.
    destruct (decide (i / 2 = c)) as [E|E].
    + rewrite E. eapply leq_ext; [exact C|exact Dc|by apply Di|]. apply H2; lia.
    + eapply leq_ext; [exact C|by apply Di|by apply Di|]. by apply H1.
  - intros Hp2 i Hi Ei. pose proof (half_lt (c / 2) ltac:(lia)). pose proof (half_lt i ltac:(lia)).
    assert (leq s (c / 2 / 2) (c / 2)) as Hpp by (apply H1; lia).
    destruct (decide (i = c)) as [->|Hic].
    + eapply leq_ext; [exact C|apply Di; lia|exact Dc|exact Hpp].
    + eapply leq_ext; [exact C|apply Di; lia|apply Di; lia|].
      eapply leq_trans; [exact Hpp|]. rewrite <- Ei. apply H1; lia.
Qed.

Lemma swap_up_loop_Ok fuel : forall s c,
  heap_wf s -> ord_hole s c -> 1 <= c < hend s -> c <= Z.of_nat fuel ->
  exists c' s', swap_up_loop fuel c s = Ok c' s' /\ heap_wf s' /\ permuted s s' /\
    ord_down s' c' /\ 1 <= c' < hend s.
Proof.
  induction fuel as [|fuel IH]; intros s c Hwf Ho Hc Hf; [lia|].
  cbn [swap_up_loop]. destruct (Z.gtb_spec c 1) as [Hgt|Hle]; cbn [negb].
  2: { assert (c = 1) as -> by lia. exists 1, s. split_and!; try done; try lia; try apply permuted_refl.
       destruct Ho as [H1 _]. split; [|lia]. intros i Hi Hi2. apply H1; lia. }
  pose proof (half_lt c ltac:(lia)) as Hp.
  destruct (wf_lookup s (c / 2) Hwf ltac:(lia)) as (x & Ex & _).
  destruct (wf_lookup s c Hwf ltac:(lia)) as (y & Ey & _).
  rewrite (bind_Ok _ _ s tt s) by (apply massert_Ok; apply negb_true_iff, Z.eqb_neq; lia).
  rewrite (bind_Ok _ _ _ _ _ (hload_Ok _ _ _ Ex)), (bind_Ok _ _ _ _ _ (hload_Ok _ _ _ Ey)).
  rewrite (bind_Ok _ _ s (h_c s x y) s) by done.
  destruct (h_c s x y) eqn:Ec.
  - exists c, s. split_and!; try done; try lia; try apply permuted_refl.
    destruct Ho as [H1 H2]. split; [|done]. intros i Hi Hi2.
    destruct (decide (i = c)) as [->|]; [by eapply leq_of_cmp|by apply H1].
  - destruct (swap_entries_Ok s (c / 2) c Hwf) as (s1 & E1 & Hwf1 & Pm & Dp & Dc & Di); [lia..|].
    rewrite (bind_Ok _ _ _ _ _ E1). destruct (IH s1 (c / 2) Hwf1) as (c' & s' & E & Hwf' & Pm' & Hd & Hc').
    + eapply ord_hole_up; try done. lia.
    + destruct Pm as [-> _]. lia.
    + Z.div_mod_to_equations; lia.
    + pose proof (proj1 Pm) as He. rewrite He in Hc'. exists c', s'. rewrite E.
      split_and!; try done; try lia. by eapply permuted_trans.
Qed.

Lemma swap_up_Ok s c :
  heap_wf s -> ord_hole s c -> 1 <= c < hend s ->
  exists c' s', swap_up c s = Ok c' s' /\ heap_wf s' /\ permuted s s' /\
    ord_down s' c' /\ 1 <= c' < hend s.
Proof.
  intros Hwf Ho Hc. destruct (swap_up_loop_Ok (Z.to_nat c) s c Hwf Ho Hc ltac:(lia))
    as (c' & s' & E & Hwf' & Pm & Hd & Hc').
  exists c', s'. split_and!; try done; try lia.
  unfold swap_up. rewrite (bind_Ok _ _ s (hc_get s) s) by done. unfold hend in *.
  rewrite (bind_Ok _ _ s tt s) by (apply massert_Ok; lia).
  rewrite (bind_Ok _ _ s tt s) by (apply massert_Ok; lia).
  rewrite (bind_Ok _ _ _ _ _ E).
  rewrite (bind_Ok _ _ s' tt s') by (apply massert_Ok; apply negb_true_iff, Z.eqb_neq; lia).
  done.
Qed.

(** Moving the misplaced entry one level down, to the more urgent child [n]. *)
Lemma ord_down_step s s' c n :
  permuted s s' -> ord_down s c -> 1 <= c -> 2 <= n < hend s -> n / 2 = c ->
  leq s n c -> (forall i, 2 <= i < hend s -> i / 2 = c -> leq s n i) ->
  hdat s' n = hdat s c -> hdat s' c = hdat s n ->
  (forall i, i <> n -> i <> c -> hdat s' i = hdat s i) ->
  ord_down s' n.
Proof.
  intros (He & _ & C & _) [H1 H2] Hc Hn En Hnc Hmin Dn Dc Di.
  pose proof (half_lt n ltac:(lia)) as Hp. unfold ord_down. rewrite He. split.
  - intros i Hi Hi2. pose proof (half_lt i ltac:(lia)).
    destruct (decide (i = n)) as [->|Hin].
    { rewrite En. by eapply leq_ext. }
    destruct (decide (i = c)) as [->|Hic].
    { pose proof (H2 ltac:(lia) n Hn En). eapply leq_ext; [exact C|apply Di; lia|exact Dc|done]. }
    destruct (decide (i / 2 = c)) as [E|E].
    { rewrite E. eapply leq_ext; [exact C|exact Dc|by apply Di|]. by apply Hmin. }
    eapply leq_ext; [exact C|by apply Di|by apply Di|]. by apply H1.
  - intros _ i Hi Ei. pose proof (half_lt i ltac:(lia)). rewrite En.
    eapply leq_ext; [exact C|exact Dc|apply Di; lia|]. rewrite <- Ei. apply H1; lia.
Qed.

Lemma leq_refl s i x : hdat s i = Some x -> leq s i i.
Proof. intros E. exists x, x. split_and!; try done. by destruct (hl_total s x x). Qed.

(** The choice of the more urgent child. *)
Lemma pick_child_Ok s c l :
  heap_wf s -> l = hend s - 1 -> 1 <= c <= l / 2 ->
  exists n,
    (if 2 * c + 1 >? l then ret (2 * c) else
       x <- hload (2 * c) ;; y <- hload (2 * c + 1) ;; b <- hcmp x y ;;
       ret (if b : bool then 2 * c else 2 * c + 1)) s = Ok n s /\
    2 <= n < hend s /\ n / 2 = c /\ (forall i, 2 <= i < hend s -> i / 2 = c -> leq s n i).
Proof.
  intros Hwf -> Hc.
  assert (2 * c < hend s) as Hl by (Z.div_mod_to_equations; lia).
  destruct (wf_lookup s (2 * c) Hwf ltac:(lia)) as (x & Ex & _).
  assert (forall i, i / 2 = c -> i = 2 * c \/ i = 2 * c + 1) as Hch
    by (intros i ?; Z.div_mod_to_equations; lia).
  assert (2 * c / 2 = c /\ (2 * c + 1) / 2 = c) as [D1 D2] by (Z.div_mod_to_equations; lia).
  destruct (Z.gtb_spec (2 * c + 1) (hend s - 1)) as [Hgt|Hle].
  { exists (2 * c). split_and!; try done; try lia. intros i Hi Ei.
    destruct (Hch i Ei) as [->| ->]; [by eapply leq_refl|lia]. }
  destruct (wf_lookup s (2 * c + 1) Hwf ltac:(lia)) as (y & Ey & _).
  rewrite (bind_Ok _ _ _ _ _ (hload_Ok _ _ _ Ex)), (bind_Ok _ _ _ _ _ (hload_Ok _ _ _ Ey)).
  rewrite (bind_Ok _ _ s (h_c s x y) s) by done.
  exists (if h_c s x y then 2 * c else 2 * c + 1). split; [done|].
  destruct (h_c s x y) eqn:Ec; (split_and!; [lia|lia|done|]); intros i Hi Ei;
    destruct (Hch i Ei) as [->| ->].
  - by eapply leq_refl.
  - by eapply leq_of_cmp.
  - by eapply leq_of_not_cmp.
  - by eapply leq_refl.
Qed.

Lemma swap_down_loop_Ok fuel : forall s c l,
  heap_wf s -> ord_down s c -> 1 <= c -> l = hend s - 1 -> hend s - c <= Z.of_nat fuel ->
  exists c' s', swap_down_loop fuel l c s = Ok c' s' /\ heap_wf s' /\ permuted s s' /\
    heap_ord s'.
Proof.
  induction fuel as [|fuel IH]; intros s c l Hwf Ho Hc Hl Hf; cbn [swap_down_loop];
    pose proof (proj1 (proj1 Hwf)) as He1.
  { assert (c <=? l / 2 = false) as -> by (Z.div_mod_to_equations; lia). cbn [negb].
    exists c, s. split_and!; try done; try apply permuted_refl.
    intros i Hi. apply (proj1 Ho); [done|]. Z.div_mod_to_equations; lia. }
  destruct (Z.leb_spec c (l / 2)) as [Hle|Hgt]; cbn [negb].
  2: { exists c, s. split_and!; try done; try apply permuted_refl.
       intros i Hi. apply (proj1 Ho); [done|]. Z.div_mod_to_equations; lia. }
  destruct (pick_child_Ok s c l Hwf Hl ltac:(lia)) as (n & En & Hn & Hnc & Hmin).
  cbv zeta. rewrite (bind_Ok _ _ _ _ _ En).
  rewrite (bind_Ok _ _ s (hc_get s) s) by done.
  rewrite (bind_Ok _ _ s tt s) by (apply massert_Ok; unfold hend in *; lia).
  pose proof (half_lt n ltac:(lia)) as Hh.
  destruct (wf_lookup s c Hwf ltac:(lia)) as (x & Ex & _).
  destruct (wf_lookup s n Hwf ltac:(lia)) as (y & Ey & _).
  rewrite (bind_Ok _ _ _ _ _ (hload_Ok _ _ _ Ex)), (bind_Ok _ _ _ _ _ (hload_Ok _ _ _ Ey)).
  rewrite (bind_Ok _ _ s (h_c s x y) s) by done.
  destruct (h_c s x y) eqn:Ec.
  - exists c, s. split_and!; try done; try apply permuted_refl. intros i Hi.
    destruct (decide (i / 2 = c)) as [Ei|Ei]; [|by apply (proj1 Ho)].
    rewrite Ei. eapply leq_trans; [by eapply leq_of_cmp|by apply Hmin].
  - destruct (swap_entries_Ok s n c Hwf) as (s1 & E1 & Hwf1 & Pm & Dn & Dc & Di); [lia..|].
    rewrite (bind_Ok _ _ _ _ _ E1). pose proof (proj1 Pm) as He.
    destruct (IH s1 n l Hwf1) as (c' & s' & E & Hwf' & Pm' & Hd); [|lia|congruence|lia|].
    { eapply ord_down_step; try done; try lia. by eapply leq_of_not_cmp. }
    exists c', s'. rewrite E. split_and!; try done. by eapply permuted_trans.
Qed.

Lemma swap_down_Ok s c :
  heap_wf s -> ord_down s c -> 1 <= c <= hend s ->
  exists c' s', swap_down c s = Ok c' s' /\ heap_wf s' /\ permuted s s' /\ heap_ord s'.
Proof.
  intros Hwf Ho Hc. destruct (swap_down_loop_Ok (Z.to_nat (hend s)) s c (hend s - 1) Hwf Ho)
    as (c' & s' & E & H); [lia|done|lia|].
  exists c', s'. split; [|done]. unfold swap_down, hend in *.
  rewrite (bind_Ok _ _ s (hc_get s) s) by done.
  rewrite (bind_Ok _ _ s tt s) by (apply massert_Ok; apply negb_true_iff, Z.eqb_neq; lia).
  rewrite (bind_Ok _ _ s tt s) by (apply massert_Ok; lia). done.
Qed.

(** Restoring the order around any one slot. *)
Lemma heapify_Ok s c :
  heap_wf s -> ord_hole s c -> 1 <= c < hend s ->
  exists c' s', heapify c s = Ok c' s' /\ heap_wf s' /\ permuted s s' /\ heap_ord s'.
Proof.
  intros Hwf Ho Hc. destruct (swap_up_Ok s c Hwf Ho Hc) as (c1 & s1 & E1 & Hwf1 & Pm1 & Hd & Hc1).
  destruct (swap_down_Ok s1 c1 Hwf1 Hd) as (c2 & s2 & E2 & Hwf2 & Pm2 & Hord).
  { destruct Pm1 as [-> _]. lia. }
  exists c2, s2. unfold heapify. rewrite (bind_Ok _ _ _ _ _ E1). split_and!; try done.
  by eapply permuted_trans.
Qed.

(** In an ordered heap the first entry is the most urgent one. *)
Lemma heap_ord_root s i : heap_wf s -> heap_ord s -> 1 <= i < hend s -> leq s 1 i.
Proof.
  intros Hwf Ho. revert i.
  apply (well_founded_induction (Z.lt_wf 0) (fun i => 1 <= i < hend s -> leq s 1 i)).
  intros i IH Hi. destruct (decide (i = 1)) as [->|Hne].
  - destruct (wf_lookup s 1 Hwf Hi) as (x & Ex & _). by eapply leq_refl.
  - pose proof (half_lt i ltac:(lia)). eapply leq_trans; [apply (IH (i / 2)); lia|apply Ho; lia].
Qed.

(** The state after an operation: an ordered heap of the entries [P], the same
    order relation, and no entry touched that is in neither heap. *)
Definition heap_becomes (s s' : S) (P : Z -> Prop) : Prop :=
  heap_wf s' /\ heap_ord s' /\ h_max_sz (hc_get s') = h_max_sz (hc_get s) /\
  (forall a b, h_c s' a b = h_c s a b) /\
  (forall x, in_heap s' x <-> P x) /\
  (forall x, ~ in_heap s x -> ~ P x -> h_pos s' x = h_pos s x) /\
  rtc heap_step s s'.

(** Composition with the reordering that ends each operation. *)
Lemma heap_becomes_of s s1 s2 P :
  permuted s1 s2 -> heap_wf s2 -> heap_ord s2 ->
  h_max_sz (hc_get s1) = h_max_sz (hc_get s) ->
  (forall a b, h_c s1 a b = h_c s a b) ->
  (forall x, in_heap s1 x <-> P x) ->
  (forall x, ~ in_heap s x -> ~ P x -> h_pos s1 x = h_pos s x) ->
  rtc heap_step s s1 -> heap_becomes s s2 P.
Proof.
  intros (He & Hm & C & I & Ps & R) Hwf Ho Hm1 C1 I1 P1 R1.
  split_and!; try done; [congruence| | | |by etrans].
  - intros. by rewrite C, C1.
  - intros. by rewrite I, I1.
  - intros x Hx HP. rewrite Ps; [by apply P1|]. by rewrite I1.
Qed.

Lemma heap_add_full s x : hend s = h_max_sz (hc_get s) -> heap_add x s = Ok (-1) s.
Proof.
  intros H. unfold heap_add, hend in *. rewrite (bind_Ok _ _ s (hc_get s) s) by done.
  by rewrite H, Z.eqb_refl.
Qed.

Lemma heap_add_Ok s x :
  heap_wf s -> heap_ord s -> x <> 0 -> ~ in_heap s x -> hend s < h_max_sz (hc_get s) ->
  exists s', heap_add x s = Ok 0 s' /\ hend s' = hend s + 1 /\
    heap_becomes s s' (fun y => y = x \/ in_heap s y).
Proof.
  intros Hwf Ho Hx0 Hx Hlt. unfold heap_add.
  rewrite (bind_Ok _ _ s (hc_get s) s) by done.
  assert (h_max_sz (hc_get s) =? h_e (hc_get s) = false) as -> by (unfold hend in *; lia).
  cbv zeta. rewrite (bind_Ok _ _ _ _ _ (hstore_Ok s _ x)), (bind_Ok _ _ _ _ _ (hupd_Ok _ x _)).
  unfold hset_e at 1. rewrite (bind_Ok (modify _) _ _ tt _ eq_refl).
  set (s1 := hc_put _ _). fold (hend s) in s1.
  assert (hend s1 = hend s + 1) as He by (subst s1; by hsimpl).
  assert (hdat s1 (hend s) = Some x) as Dx by (subst s1; hsimpl; by rewrite lookup_insert_eq).
  assert (forall i, i <> hend s -> hdat s1 i = hdat s i) as Di
    by (intros i Hi; subst s1; hsimpl; by rewrite lookup_insert_ne).
  assert (forall y, h_pos s1 y = if decide (y = x) then hend s else h_pos s y) as Ps
    by (intros y; subst s1; by hsimpl).
  assert (forall a b, h_c s1 a b = h_c s a b) as Cs by (intros; subst s1; by hsimpl).
  assert (h_max_sz (hc_get s1) = h_max_sz (hc_get s)) as Hm by (subst s1; by hsimpl).
  pose proof (proj1 (proj1 Hwf)) as He1.
  assert (heap_wf s1) as Hwf1.
  { split; [rewrite He, Hm; lia|]. rewrite He. intros i Hi.
    destruct (decide (i = hend s)) as [->|Hne].
    { exists x. by rewrite Ps, decide_True. }
    destruct (wf_lookup s i Hwf ltac:(lia)) as (y & Ey & Py & Ny).
    exists y. rewrite Di, Ps by done. rewrite decide_False; [done|].
    intros ->. apply Hx. exists i. split; [lia|done]. }
  assert (ord_hole s1 (hend s)) as Hh.
  { split; rewrite He.
    - intros i Hi Hne Hne2. pose proof (half_lt i ltac:(lia)).
      eapply leq_ext; [exact Cs|by apply Di|by apply Di|]. apply Ho. lia.
    - intros _ i Hi Hi2. pose proof (half_lt i ltac:(lia)). lia. }
  destruct (heapify_Ok s1 (hend s) Hwf1 Hh ltac:(lia)) as (c' & s' & E & Hwf' & Pm & Ho').
  rewrite (bind_Ok _ _ _ _ _ E). exists s'. split; [done|]. split; [destruct Pm as [-> _]; lia|].
  eapply heap_becomes_of; try done.
  - intros y. unfold in_heap. rewrite He. split.
    + intros (i & Hi & Ei). destruct (decide (i = hend s)) as [->|Hne]; [left; congruence|].
      right. exists i. rewrite <- Di by done. split; [lia|done].
    + intros [->|(i & Hi & Ei)]; [by exists (hend s); split; [lia|]|].
      exists i. rewrite Di by lia. split; [lia|done].
  - intros y Hy Hn. rewrite Ps, decide_False; [done|]. intros ->. apply Hn. by left.
  - subst s1. do 3 (eapply rtc_r; [|constructor]). apply rtc_refl.
Qed.

Lemma heap_adjust_Ok s c :
  heap_wf s -> ord_hole s c -> 1 <= c < hend s ->
  exists s', heap_adjust c s = Ok tt s' /\ hend s' = hend s /\ heap_becomes s s' (in_heap s).
Proof.
  intros Hwf Ho Hc. destruct (heapify_Ok s c Hwf Ho Hc) as (c' & s' & E & Hwf' & Pm & Ho').
  exists s'. unfold heap_adjust, hend in *. rewrite (bind_Ok _ _ s (hc_get s) s) by done.
  rewrite (bind_Ok _ _ s tt s) by (apply massert_Ok; lia).
  rewrite (bind_Ok _ _ s tt s) by (apply massert_Ok; lia).
  rewrite (bind_Ok _ _ _ _ _ E). split; [done|]. split; [apply Pm|].
  by eapply heap_becomes_of.
Qed.

(** Taking the entry [r] out of slot [c] by moving the last entry [l] there. *)
Lemma take_out s s1 c r l :
  heap_wf s -> heap_ord s -> 1 <= c < hend s - 1 ->
  hdat s c = Some r -> hdat s (hend s - 1) = Some l ->
  hend s1 = hend s - 1 -> h_max_sz (hc_get s1) = h_max_sz (hc_get s) ->
  (forall a b, h_c s1 a b = h_c s a b) -> hdat s1 c = Some l ->
  (forall i, i <> c -> hdat s1 i = hdat s i) ->
  h_pos s1 l = c -> (forall y, y <> l -> y <> r -> h_pos s1 y = h_pos s y) ->
  heap_wf s1 /\ ord_hole s1 c /\ (forall y, in_heap s1 y <-> in_heap s y /\ y <> r).
Proof.
  intros Hwf Ho Hc Er El He Hm Cs Dc Di Pl Py.
  assert (forall i x, 1 <= i < hend s -> i <> c -> i <> hend s - 1 -> hdat s i = Some x ->
            x <> l /\ x <> r) as Hother.
  { intros i x Hi Hic Hil Ex. split; intros ->; [apply Hil|apply Hic];
      eapply wf_inj; try done; lia. }
  assert (l <> r) as Hlr.
  { intros ->. assert (c = hend s - 1) by (eapply wf_inj; try done; lia). lia. }
  split_and!.
  - split; [rewrite He, Hm; pose proof (proj1 Hwf); lia|]. rewrite He. intros i Hi.
    destruct (decide (i = c)) as [->|Hic].
    { exists l. split_and!; try done. destruct (wf_lookup s (hend s - 1) Hwf)
        as (l' & El' & _ & ?); [lia|congruence]. }
    destruct (wf_lookup s i Hwf ltac:(lia)) as (x & Ex & Px & Nx). exists x.
    destruct (Hother i x ltac:(lia) Hic ltac:(lia) Ex). rewrite Di, Py by done. done.
  - split; rewrite He.
    + intros i Hi H1 H2. eapply leq_ext; [exact Cs|by apply Di|by apply Di|]. apply Ho. lia.
    + intros Hc2 i Hi Ei. pose proof (half_lt i ltac:(lia)). pose proof (half_lt c ltac:(lia)).
      eapply leq_ext; [exact Cs|apply Di; lia|apply Di; lia|].
      eapply leq_trans; [apply Ho; lia|]. rewrite <- Ei. apply Ho. lia.
  - intros y. unfold in_heap. rewrite He. split.
    + intros (i & Hi & Ei). destruct (decide (i = c)) as [->|Hic].
      { assert (y = l) as -> by congruence. split; [|done]. exists (hend s - 1). split; [lia|done]. }
      rewrite Di in Ei by done. split; [exists i; split; [lia|done]|].
      apply (Hother i y); try done; lia.
    + intros [(i & Hi & Ei) Hne]. destruct (decide (i = c)) as [->|Hic]; [congruence|].
      destruct (decide (i = hend s - 1)) as [->|Hil].
      { exists c. split; [lia|congruence]. }
      exists i. rewrite Di by done. split; [lia|done].
Qed.

(** Taking out the last entry. *)
Lemma drop_last s s1 r :
  heap_wf s -> heap_ord s -> 2 <= hend s -> hdat s (hend s - 1) = Some r ->
  hend s1 = hend s - 1 -> h_max_sz (hc_get s1) = h_max_sz (hc_get s) ->
  (forall a b, h_c s1 a b = h_c s a b) ->
  (forall i, hdat s1 i = hdat s i) -> (forall y, y <> r -> h_pos s1 y = h_pos s y) ->
  heap_wf s1 /\ heap_ord s1 /\ (forall y, in_heap s1 y <-> in_heap s y /\ y <> r).
Proof.
  intros Hwf Ho H2 Er He Hm Cs Di Py.
  assert (forall i x, 1 <= i < hend s - 1 -> hdat s i = Some x -> x <> r) as Hother.
  { intros i x Hi Ex ->. assert (i = hend s - 1) by (eapply wf_inj; try done; lia). lia. }
  split_and!.
  - split; [rewrite He, Hm; pose proof (proj1 Hwf); lia|]. rewrite He. intros i Hi.
    destruct (wf_lookup s i Hwf ltac:(lia)) as (x & Ex & Px & Nx). exists x.
    rewrite Di, Py by (by eapply Hother). done.
  - intros i Hi. rewrite He in Hi. eapply leq_ext; [exact Cs|apply Di|apply Di|]. apply Ho. lia.
  - intros y. unfold in_heap. rewrite He. split.
    + intros (i & Hi & Ei). rewrite Di in Ei. split; [exists i; split; [lia|done]|].
      by eapply Hother.
    + intros [(i & Hi & Ei) Hne]. destruct (decide (i = hend s - 1)) as [->|Hil]; [congruence|].
      exists i. rewrite Di. split; [lia|done].
Qed.

(** Two steps in a row. *)
Lemma heap_becomes_trans s s1 s2 P :
  heap_becomes s1 s2 (in_heap s1) ->
  h_max_sz (hc_get s1) = h_max_sz (hc_get s) ->
  (forall a b, h_c s1 a b = h_c s a b) ->
  (forall x, in_heap s1 x <-> P x) ->
  (forall x, ~ in_heap s x -> ~ P x -> h_pos s1 x = h_pos s x) ->
  rtc heap_step s s1 -> heap_becomes s s2 P.
Proof.
  intros (Hwf & Ho & Hm & C & I & Ps & R) Hm1 C1 I1 P1 R1.
  split_and!; try done; [congruence| | | |by etrans].
  - intros. by rewrite C, C1.
  - intros. by rewrite I, I1.
  - intros x Hx HP. rewrite Ps by (by rewrite I1). by apply P1.
Qed.

(** [heap_remove] from a slot other than the last. *)
Lemma heap_remove_mid s c r l :
  heap_wf s -> heap_ord s -> 1 <= c < hend s - 1 ->
  hdat s c = Some r -> hdat s (hend s - 1) = Some l ->
  let s0 := h_u r 0 (hc_put (mkHeap (hend s - 1) (h_max_sz (hc_get s)) (h_data (hc_get s))) s) in
  exists s', (hstore c l ;; x <- hload c ;; hupd x c ;; heap_adjust c ;; ret r) s0 = Ok r s' /\
    hend s' = hend s - 1 /\ h_pos s' r = 0 /\
    heap_becomes s s' (fun y => in_heap s y /\ y <> r).
Proof.
  intros Hwf Ho Hc Er El s0.
  rewrite (bind_Ok _ _ _ _ _ (hstore_Ok _ c l)).
  erewrite bind_Ok by (apply hload_Ok; hsimpl; by rewrite lookup_insert_eq).
  rewrite (bind_Ok _ _ _ _ _ (hupd_Ok _ l c)).
  set (s1 := h_u l c _).
  assert (r <> l) as Hrl.
  { intros ->. assert (c = hend s - 1) by (eapply wf_inj; try done; lia). lia. }
  assert (forall y, h_pos s1 y = if decide (y = l) then c else
                    if decide (y = r) then 0 else h_pos s y) as Ps
    by (intros; subst s1 s0; by hsimpl).
  assert (rtc heap_step s s1) as Hst.
  { subst s1 s0. do 4 (eapply rtc_r; [|constructor]). apply rtc_refl. }
  assert (h_max_sz (hc_get s1) = h_max_sz (hc_get s)) as Hm by (subst s1 s0; by hsimpl).
  assert (forall a b, h_c s1 a b = h_c s a b) as Cs by (intros; subst s1 s0; by hsimpl).
  assert (hend s1 = hend s - 1) as He1 by (subst s1 s0; by hsimpl).
  destruct (take_out s s1 c r l) as (Hwf1 & Hh & I1); try done; try lia.
  { subst s1 s0. hsimpl. by rewrite lookup_insert_eq. }
  { intros i Hi. subst s1 s0. hsimpl. by rewrite lookup_insert_ne. }
  { by rewrite Ps, decide_True. }
  { intros y Hyl Hyr. by rewrite Ps, !decide_False. }
  destruct (heap_adjust_Ok s1 c Hwf1 Hh ltac:(lia)) as (s2 & E & He2 & Hb).
  rewrite (bind_Ok _ _ _ _ _ E). exists s2. split; [done|]. split; [lia|]. split.
  - destruct Hb as (_ & _ & _ & _ & _ & P2 & _).
    rewrite P2 by (rewrite I1; by intros [_ []]). by rewrite Ps, decide_False, decide_True.
  - eapply heap_becomes_trans; try done. intros y Hy Hn. rewrite Ps, !decide_False; [done| |].
    + intros ->. apply Hy. exists c. split; [lia|done].
    + intros ->. apply Hy. exists (hend s - 1). split; [lia|done].
Qed.

Lemma heap_remove_Ok s c r :
  heap_wf s -> heap_ord s -> 1 <= c < hend s -> hdat s c = Some r ->
  exists s', heap_remove c s = Ok r s' /\ hend s' = hend s - 1 /\ h_pos s' r = 0 /\
    heap_becomes s s' (fun y => in_heap s y /\ y <> r).
Proof.
  intros Hwf Ho Hc Er. unfold heap_remove.
  rewrite (bind_Ok _ _ s (hc_get s) s) by done. fold (hend s).
  rewrite (bind_Ok _ _ s tt s) by (apply massert_Ok; lia).
  rewrite (bind_Ok _ _ s tt s) by (apply massert_Ok; lia).
  assert (hend s =? 1 = false) as -> by lia.
  rewrite (bind_Ok _ _ _ _ _ (hload_Ok _ _ _ Er)).
  unfold hset_e at 1. rewrite (bind_Ok (modify _) _ _ tt _ eq_refl).
  rewrite (bind_Ok _ _ _ _ _ (hupd_Ok _ r 0)). cbv zeta.
  set (s0 := h_u r 0 _).
  destruct (Z.eqb_spec c (hend s - 1)) as [->|Hcl].
  - exists s0. destruct (drop_last s s0 r) as (Hwf0 & Ho0 & I0); try done; try lia.
    1-4: subst s0; intros; by hsimpl.
    { intros y Hy. subst s0. hsimpl. by rewrite decide_False. }
    split; [done|]. split; [subst s0; by hsimpl|].
    split; [subst s0; hsimpl; by rewrite decide_True|].
    split_and!; try done; try (subst s0; intros; by hsimpl).
    + intros y Hy Hn. subst s0. hsimpl. rewrite decide_False; [done|].
      intros ->. apply Hy. exists (hend s - 1). done.
    + subst s0. do 2 (eapply rtc_r; [|constructor]). apply rtc_refl.
  - destruct (wf_lookup s (hend s - 1) Hwf) as (l & El & _); [lia|].
    erewrite bind_Ok by (apply hload_Ok; subst s0; hsimpl; exact El).
    apply (heap_remove_mid s c r l Hwf Ho ltac:(lia) Er El).
Qed.

(** Telling an entry outside of the heap a position changes nothing else. *)
Lemma tell_outside s r i P s0 :
  heap_becomes s0 s P -> ~ P r -> in_heap s0 r -> heap_becomes s0 (h_u r i s) P.
Proof.
  intros (Hwf & Ho & Hm & C & I & Ps & R) Hr Hr0.
  assert (forall x, in_heap (h_u r i s) x <-> in_heap s x) as I'
    by (intros; unfold in_heap, hend, hdat; by rewrite hl_get_u).
  split_and!.
  - destruct Hwf as [H1 H2]. split; unfold hend, hdat in *; rewrite hl_get_u; [done|].
    intros j Hj. destruct (H2 j Hj) as (x & Ex & Px & Nx). exists x.
    rewrite hl_pos_u, decide_False; [done|]. intros ->. apply Hr, I. by exists j.
  - intros j Hj. unfold hend in Hj. rewrite hl_get_u in Hj.
    eapply leq_ext; [|by unfold hdat; rewrite hl_get_u..|by apply Ho]. intros. apply hl_c_u.
  - by rewrite hl_get_u.
  - intros. by rewrite hl_c_u, C.
  - intros x. by rewrite I', I.
  - intros x Hx HP. rewrite hl_pos_u, decide_False by (by intros ->). by apply Ps.
  - eapply rtc_r; [done|constructor].
Qed.

(** The state of [heap_highest] after the last entry took the first slot. *)
Lemma highest_moved s s1 r l :
  heap_wf s -> heap_ord s -> 2 <= hend s ->
  hdat s 1 = Some r -> hdat s (hend s - 1) = Some l ->
  hend s1 = hend s - 1 -> h_max_sz (hc_get s1) = h_max_sz (hc_get s) ->
  (forall a b, h_c s1 a b = h_c s a b) -> hdat s1 1 = Some l ->
  (forall i, i <> 1 -> hdat s1 i = hdat s i) ->
  (forall y, h_pos s1 y = if decide (y = l) then 1 else h_pos s y) ->
  heap_wf s1 /\ ord_down s1 1 /\ (forall y, in_heap s1 y <-> in_heap s y /\ y <> r).
Proof.
  intros Hwf Ho H2 Er El He1 Hm Cs D1 Di Ps. destruct (decide (hend s = 2)) as [E2|E2].
  - split; [split; [rewrite He1, Hm; pose proof (proj1 Hwf); lia|intros; lia]|].
    split; [split; intros; lia|]. intros y. split; [by intros (i & Hi & _); lia|].
    intros [(i & Hi & Ei) Hne]. replace i with 1 in Ei by lia. congruence.
  - destruct (take_out s s1 1 r l) as (? & [Hh _] & ?); try done; try lia.
    { by rewrite Ps, decide_True. }
    { intros. by rewrite Ps, decide_False. }
    split; [done|]. split; [|done]. split; [|lia]. intros i Hi Hi2. apply Hh; lia.
Qed.

Lemma heap_highest_Ok s r :
  heap_wf s -> heap_ord s -> 2 <= hend s -> hdat s 1 = Some r ->
  exists s', heap_highest s = Ok r s' /\ hend s' = hend s - 1 /\ h_pos s' r = 0 /\
    heap_becomes s s' (fun y => in_heap s y /\ y <> r).
Proof.
  intros Hwf Ho H2 Er. unfold heap_highest.
  rewrite (bind_Ok _ _ s (hc_get s) s) by done. fold (hend s).
  assert (hend s =? 1 = false) as -> by lia.
  rewrite (bind_Ok _ _ _ _ _ (hload_Ok _ _ _ Er)).
  unfold hset_e at 1. rewrite (bind_Ok (modify _) _ _ tt _ eq_refl). cbv zeta.
  destruct (wf_lookup s (hend s - 1) Hwf) as (l & El & _); [lia|].
  erewrite bind_Ok by (apply hload_Ok; hsimpl; exact El).
  rewrite (bind_Ok _ _ _ _ _ (hstore_Ok _ 1 l)).
  erewrite bind_Ok by (apply hload_Ok; hsimpl; by rewrite lookup_insert_eq).
  rewrite (bind_Ok _ _ _ _ _ (hupd_Ok _ l 1)).
  set (s1 := h_u l 1 _).
  assert (hend s1 = hend s - 1) as He1 by (subst s1; by hsimpl).
  assert (h_max_sz (hc_get s1) = h_max_sz (hc_get s)) as Hm by (subst s1; by hsimpl).
  assert (forall a b, h_c s1 a b = h_c s a b) as Cs by (intros; subst s1; by hsimpl).
  assert (forall i, i <> 1 -> hdat s1 i = hdat s i) as Di
    by (intros i Hi; subst s1; hsimpl; by rewrite lookup_insert_ne).
  assert (forall y, h_pos s1 y = if decide (y = l) then 1 else h_pos s y) as Ps
    by (intros; subst s1; by hsimpl).
  assert (hdat s1 1 = Some l) as D1 by (subst s1; hsimpl; by rewrite lookup_insert_eq).
  assert (rtc heap_step s s1) as Hst.
  { subst s1. do 3 (eapply rtc_r; [|constructor]). apply rtc_refl. }
  destruct (highest_moved s s1 r l) as (Hwf1 & Hd & I1); try done.
  clearbody s1.
  destruct (swap_down_Ok s1 1 Hwf1 Hd) as (c2 & s2 & E & Hwf2 & Pm & Ho2); [rewrite He1; lia|].
  rewrite (bind_Ok _ _ _ _ _ E), (bind_Ok _ _ _ _ _ (hupd_Ok _ r 0)).
  exists (h_u r 0 s2). split; [done|]. split; [|split].
  - transitivity (hend s2); [unfold hend; by rewrite hl_get_u|]. rewrite (proj1 Pm). lia.
  - by rewrite hl_pos_u, decide_True.
  - apply tell_outside; [|by intros [_ []]|exists 1; split; [lia|done]].
    eapply heap_becomes_of; try done. intros y Hy Hn. rewrite Ps, decide_False; [done|].
    intros ->. apply Hy. exists (hend s - 1). split; [lia|done].
Qed.

Lemma heap_peek_Ok s :
  heap_wf s -> heap_ord s ->
  (hend s = 1 -> heap_peek s = Ok 0 s) /\
  (2 <= hend s -> exists r, heap_peek s = Ok r s /\ hdat s 1 = Some r /\ r <> 0 /\
     in_heap s r /\ forall y, in_heap s y -> h_c s r y = true).
Proof.
  intros Hwf Ho. unfold heap_peek. rewrite (bind_Ok _ _ s (hc_get s) s) by done. fold (hend s).
  split; [by intros ->|]. intros H2. assert (hend s =? 1 = false) as -> by lia.
  destruct (wf_lookup s 1 Hwf ltac:(lia)) as (r & Er & _ & Nr). exists r.
  rewrite (hload_Ok _ _ _ Er). split_and!; try done; [exists 1; split; [lia|done]|].
  intros y (i & Hi & Ei). destruct (heap_ord_root s i Hwf Ho Hi) as (r' & y' & ? & ? & ?).
  congruence.
Qed.

(** ** Refinement of a priority queue *)

(** [s] holds a heap of exactly the entries [X]. *)
Definition heap_rep (s : S) (X : gset Z) : Prop :=
  heap_wf s /\ heap_ord s /\ (forall x, x ∈ X <-> in_heap s x).

(** The slots in use, as a list. *)
Definition heap_list (s : S) : list Z :=
  omap (fun i => hdat s (Z.of_nat i)) (seq 1 (Z.to_nat (hend s - 1))).

Lemma heap_list_app s n : heap_wf s -> (n <= Z.to_nat (hend s - 1))%nat ->
  length (omap (fun i => hdat s (Z.of_nat i)) (seq 1 n)) = n.
Proof.
  intros Hwf. induction n as [|n IH]; intros Hn; [done|].
  rewrite seq_S, omap_app, length_app, IH by lia. simpl.
  destruct (wf_lookup s (Z.of_nat (1 + n)) Hwf ltac:(lia)) as (x & Ex & _).
  cbn [Nat.add] in Ex. rewrite Ex. simpl. lia.
Qed.

Lemma elem_of_heap_list s x : x ∈ heap_list s <-> in_heap s x.
Proof.
  unfold heap_list. rewrite list_elem_of_omap. unfold in_heap. split.
  - intros (i & Hi & Ei). apply elem_of_seq in Hi. exists (Z.of_nat i). split; [lia|done].
  - intros (i & Hi & Ei). exists (Z.to_nat i). rewrite elem_of_seq. split; [lia|].
    by rewrite Z2Nat.id by lia.
Qed.

Lemma heap_list_NoDup_aux s n : heap_wf s -> (n <= Z.to_nat (hend s - 1))%nat ->
  NoDup (omap (fun i => hdat s (Z.of_nat i)) (seq 1 n)).
Proof.
  intros Hwf. induction n as [|n IH]; intros Hn; [constructor|].
  rewrite seq_S, omap_app. apply NoDup_app. split; [apply IH; lia|].
  destruct (wf_lookup s (Z.of_nat (1 + n)) Hwf ltac:(lia)) as (x & Ex & _).
  cbn [Nat.add] in Ex. simpl. rewrite Ex. split; [|apply NoDup_singleton].
  intros y Hy ->%list_elem_of_singleton. apply list_elem_of_omap in Hy as (i & Hi & Ei).
  apply elem_of_seq in Hi.
  assert (Z.of_nat i = Z.of_nat (Datatypes.S n)) by (eapply wf_inj; try done; lia). lia.
Qed.

(** [heap_size] counts the entries. *)
Lemma heap_rep_size s X : heap_rep s X -> hend s - 1 = Z.of_nat (size X).
Proof.
  intros (Hwf & _ & HX).
  assert (X = list_to_set (heap_list s)) as ->.
  { apply set_eq. intros x. by rewrite elem_of_list_to_set, elem_of_heap_list. }
  rewrite size_list_to_set by (by apply heap_list_NoDup_aux).
  unfold heap_list. rewrite heap_list_app by done. pose proof (proj1 Hwf). lia.
Qed.

Lemma heap_becomes_rep s s' P X :
  heap_becomes s s' P -> (forall x, x ∈ X <-> P x) -> heap_rep s' X.
Proof. intros (Hwf & Ho & _ & _ & I & _) HX. split_and!; try done. intros. by rewrite HX, I. Qed.

(** Telling an entry outside of the queue a position. *)
Lemma heap_rep_tell s X x i : heap_rep s X -> x ∉ X -> heap_rep (h_u x i s) X.
Proof.
  intros (Hwf & Ho & HX) Hx.
  unfold heap_rep, heap_wf, heap_ord, leq, in_heap, hend, hdat in *. rewrite hl_get_u.
  split_and!; try done; [apply Hwf|apply Hwf| |].
  - intros j Hj. destruct (proj2 Hwf j Hj) as (y & Ey & ? & ?). exists y.
    rewrite hl_pos_u, decide_False; [done|]. intros ->. apply Hx, HX. eauto.
  - intros j Hj. destruct (Ho j Hj) as (y & z & ? & ? & ?). exists y, z. by rewrite hl_c_u.
Qed.

(** The client changed how urgent the entry [x] is. *)
Definition rekeyed (s s1 : S) (x : Z) : Prop :=
  hc_get s1 = hc_get s /\ (forall y, h_pos s1 y = h_pos s y) /\
  (forall a b, a <> x -> b <> x -> h_c s1 a b = h_c s a b).

Lemma rekeyed_hole s s1 x :
  heap_wf s -> heap_ord s -> rekeyed s s1 x -> in_heap s x ->
  heap_wf s1 /\ ord_hole s1 (h_pos s x) /\ (forall y, in_heap s1 y <-> in_heap s y).
Proof.
  intros Hwf Ho (Eg & Ep & Ec) Hx. destruct (in_heap_pos s x Hwf Hx) as (Hpx & Dx & _).
  assert (hend s1 = hend s) as He by (unfold hend; by rewrite Eg).
  assert (forall i, hdat s1 i = hdat s i) as Di by (intros; unfold hdat; by rewrite Eg).
  assert (forall i j, 1 <= i < hend s -> 1 <= j < hend s -> i <> h_pos s x -> j <> h_pos s x ->
            leq s i j -> leq s1 i j) as Hl.
  { intros i j Hi Hj Hix Hjx (a & b & Ea & Eb & C). exists a, b. rewrite !Di. split_and!; try done.
    rewrite Ec; [done| |]; intros ->; [apply Hix|apply Hjx]; by eapply wf_inj. }
  split_and!.
  - destruct Hwf as [H1 H2]. split; [by rewrite He, Eg|]. rewrite He. intros i Hi.
    destruct (H2 i Hi) as (y & Ey & Py & Ny). exists y. by rewrite Di, Ep.
  - split; rewrite He.
    + intros i Hi H1 H2. pose proof (half_lt i ltac:(lia)). apply Hl; try lia. by apply Ho.
    + intros H2 i Hi Ei. pose proof (half_lt i ltac:(lia)).
      assert (1 <= h_pos s x / 2 < h_pos s x) by (by apply half_lt). apply Hl; try lia.
      eapply leq_trans; [apply Ho; lia|]. rewrite <- Ei. apply Ho. lia.
  - intros y. unfold in_heap. rewrite He. by setoid_rewrite Di.
Qed.

Lemma heap_rekey_rep s s1 x X :
  heap_rep s X -> rekeyed s s1 x -> x ∈ X ->
  exists s', heap_adjust (h_pos s x) s1 = Ok tt s' /\ hend s' = hend s /\
    heap_rep s' X /\ heap_becomes s1 s' (in_heap s).
Proof.
  intros (Hwf & Ho & HX) Hk Hx. apply HX in Hx as Hin.
  destruct (rekeyed_hole s s1 x Hwf Ho Hk Hin) as (Hwf1 & Hh & I).
  destruct (in_heap_pos s x Hwf Hin) as (Hpx & _).
  assert (hend s1 = hend s) as He by (unfold hend; by rewrite (proj1 Hk)).
  destruct (heap_adjust_Ok s1 (h_pos s x) Hwf1 Hh) as (s' & E & He' & Hb); [lia|].
  exists s'. split_and!; try done; [lia| |].
  - eapply heap_becomes_rep; [exact Hb|]. intros y. by rewrite HX, I.
  - destruct Hb as (? & ? & ? & ? & I' & Ps & ?). split_and!; try done.
    + intros y. by rewrite I', I.
    + intros y Hy Hy'. apply Ps; by rewrite I.
Qed.

End lemmas.

(** C11. The heap implements a priority queue.  On a heap that holds the
    entries [X], in any state of its client: [heap_size] counts them;
    [heap_peek] and [heap_highest] return NULL when there are none and
    otherwise a most urgent one, which [heap_highest] takes out; [heap_add]
    inserts a new entry, or returns -1 and changes nothing when the array is
    full; [heap_remove] takes out the entry whose recorded index it is given;
    and [heap_adjust] restores the heap after the client changed how urgent
    one entry is.  All of them return: no assertion fails, no loop runs away. *)
Theorem heap_refines_queue {S} `{!HeapClient S, !HeapLaws S} (s : S) (X : gset Z) :
  heap_rep s X ->
  heap_size s = Ok (Z.of_nat (size X)) s /\
  (X = ∅ -> heap_peek s = Ok 0 s /\ heap_highest s = Ok 0 s) /\
  (X <> ∅ -> exists r s',
     heap_peek s = Ok r s /\ heap_highest s = Ok r s' /\ r ∈ X /\
     (forall y, y ∈ X -> h_c s r y = true) /\ heap_rep s' (X ∖ {[r]})) /\
  (forall x, x <> 0 -> x ∉ X ->
     if Z.of_nat (size X) + 1 <? h_max_sz (hc_get s)
     then exists s', heap_add x s = Ok 0 s' /\ heap_rep s' (X ∪ {[x]})
     else heap_add x s = Ok (-1) s) /\
  (forall x, x ∈ X -> exists s',
     heap_remove (h_pos s x) s = Ok x s' /\ heap_rep s' (X ∖ {[x]})) /\
  (forall x s1, x ∈ X -> rekeyed s s1 x -> exists s',
     heap_adjust (h_pos s x) s1 = Ok tt s' /\ heap_rep s' X).
Proof.
  intros Hr. pose proof (heap_rep_size s X Hr) as Hsz. pose proof Hr as (Hwf & Ho & HX).
  split_and!.
  - unfold heap_size, hget. rewrite (bind_Ok _ _ s (hc_get s) s) by done. unfold hend in Hsz.
    by rewrite Hsz.
  - intros ->. rewrite size_empty in Hsz. assert (hend s = 1) as E1 by lia.
    destruct (heap_peek_Ok s Hwf Ho) as [Hp _]. split; [by apply Hp|].
    unfold heap_highest, hget. rewrite (bind_Ok _ _ s (hc_get s) s) by done.
    unfold hend in E1. by rewrite E1.
  - intros Hne. assert (2 <= hend s) as H2.
    { destruct (decide (size X = 0%nat)) as [E0|]; [|lia].
      by apply size_empty_inv, leibniz_equiv in E0. }
    destruct (heap_peek_Ok s Hwf Ho) as [_ Hp]. destruct (Hp H2) as (r & Ep & D1 & Nr & Hin & Hmin).
    destruct (heap_highest_Ok s r Hwf Ho H2 D1) as (s' & Eh & _ & _ & Hb).
    exists r, s'. split_and!; try done; [by apply HX|intros y Hy; by apply Hmin, HX|].
    eapply heap_becomes_rep; [exact Hb|]. intros y. rewrite elem_of_difference, HX. set_solver.
  - intros x Hx0 Hx. destruct (Z.ltb_spec (Z.of_nat (size X) + 1) (h_max_sz (hc_get s))).
    + destruct (heap_add_Ok s x) as (s' & E & _ & Hb); try done; [by rewrite <- HX|lia|].
      exists s'. split; [done|]. eapply heap_becomes_rep; [exact Hb|].
      intros y. rewrite elem_of_union, HX. set_solver.
    + apply heap_add_full. pose proof (proj1 Hwf). lia.
  - intros x Hx. apply HX in Hx. destruct (in_heap_pos s x Hwf Hx) as (Hp & Dx & _).
    destruct (heap_remove_Ok s _ x Hwf Ho Hp Dx) as (s' & E & _ & _ & Hb).
    exists s'. split; [done|]. eapply heap_becomes_rep; [exact Hb|].
    intros y. rewrite elem_of_difference, HX. set_solver.
  - intros x s1 Hx Hk. destruct (heap_rekey_rep s s1 x X Hr Hk Hx) as (s' & E & _ & Hr' & _).
    by exists s'.
Qed.

(** ** Deciding the representation of a concrete state *)

Section decide.
Context {S : Type} `{!HeapClient S}.

Definition zrange (lo hi : Z) : list Z := map (fun n => lo + Z.of_nat n) (seq 0 (Z.to_nat (hi - lo))).

Definition heap_repb (s : S) (X : gset Z) : bool :=
  (1 <=? hend s) && (hend s <=? h_max_sz (hc_get s)) &&
  forallb (fun i => match hdat s i with
                    | Some x => (h_pos s x =? i) && negb (x =? 0) && bool_decide (x ∈ X)
                    | None => false end) (zrange 1 (hend s)) &&
  forallb (fun i => match hdat s (i / 2), hdat s i with
                    | Some x, Some y => h_c s x y
                    | _, _ => false end) (zrange 2 (hend s)) &&
  forallb (fun x => (1 <=? h_pos s x) && (h_pos s x <? hend s) &&
                    bool_decide (hdat s (h_pos s x) = Some x)) (elements X).

Lemma zrange_forallb lo hi (P : Z -> bool) :
  forallb P (zrange lo hi) = true -> forall i, lo <= i < hi -> P i = true.
Proof.
  intros H i Hi. rewrite forallb_forall in H. apply H. apply in_map_iff.
  exists (Z.to_nat (i - lo)). split; [lia|]. apply in_seq. lia.
Qed.

Lemma heap_repb_sound s X : heap_repb s X = true -> heap_rep s X.
Proof.
  unfold heap_repb. rewrite !andb_true_iff. intros ((((H1 & H2) & Hd) & Ho) & HX).
  pose proof (zrange_forallb _ _ _ Hd) as Hd'. pose proof (zrange_forallb _ _ _ Ho) as Ho'.
  assert (forall i, 1 <= i < hend s -> exists x, hdat s i = Some x /\ h_pos s x = i /\ x <> 0 /\ x ∈ X)
    as Hw.
  { intros i Hi. specialize (Hd' i Hi). cbv beta in Hd'. destruct (hdat s i) as [x|]; [|done].
    rewrite !andb_true_iff, bool_decide_eq_true in Hd'. destruct Hd' as [[E N] I].
    exists x. split_and!; [done|lia| |done]. by apply negb_true_iff, Z.eqb_neq in N. }
  split_and!.
  - split; [lia|]. intros i Hi. destruct (Hw i Hi) as (x & ? & ? & ? & ?). by exists x.
  - intros i Hi. specialize (Ho' i Hi). cbv beta in Ho'. destruct (hdat s (i / 2)) as [x|] eqn:Ex; [|done].
    destruct (hdat s i) as [y|] eqn:Ey; [|done]. by exists x, y.
  - intros x. split.
    + intros Hx. rewrite forallb_forall in HX.
      specialize (HX x (proj1 (list_elem_of_In _ _) (proj2 (elem_of_elements _ _) Hx))).
      rewrite !andb_true_iff, bool_decide_eq_true in HX. exists (h_pos s x). split; [lia|apply HX].
    + intros (i & Hi & Ei). destruct (Hw i Hi) as (y & ? & _ & _ & ?). congruence.
Qed.

End decide.

(** ** The client of the heap's own test

    [struct hentry], [c_min] and [u] ([u_entry] here) of the test driver at the end of
    [heap.c]: entries with a value and an index. *)

Record hentry : Type := mkHentry { he_index : Z; he_value : Z }.
Record htest : Type := mkHtest { ht_heap : heap; ht_es : gmap Z hentry }.

Definition hentry_at (s : htest) (x : Z) : hentry := default (mkHentry 0 0) (ht_es s !! x).
Definition c_min (s : htest) (a b : Z) : bool := he_value (hentry_at s a) <=? he_value (hentry_at s b).
Definition u_entry (x pos : Z) (s : htest) : htest :=
  mkHtest (ht_heap s) (<[x := mkHentry pos (he_value (hentry_at s x))]> (ht_es s)).

#[export] Instance htest_client : HeapClient htest := {|
  hc_get := ht_heap; hc_put := fun h s => mkHtest h (ht_es s);
  h_c := c_min; h_u := u_entry; h_pos := fun s x => he_index (hentry_at s x) |}.

Lemma hentry_at_u x pos s y :
  hentry_at (u_entry x pos s) y =
  if decide (y = x) then mkHentry pos (he_value (hentry_at s x)) else hentry_at s y.
Proof.
  unfold hentry_at, u_entry. simpl. destruct (decide (y = x)) as [->|H].
  - by rewrite lookup_insert_eq.
  - by rewrite lookup_insert_ne by done.
Qed.

#[export] Instance htest_laws : HeapLaws htest.
Proof.
  split; try done; intros; simpl in *; unfold c_min in *; rewrite ?hentry_at_u.
  - repeat case_decide; simplify_eq; done.
  - by case_decide.
  - rewrite ?Z.leb_le in *. lia.
  - rewrite ?Z.leb_le in *. lia.
Qed.

(** Six entries with the values 50, 20, 40, 20, 10, 30, added in this order. *)
Definition ht_entries : gmap Z hentry :=
  list_to_map (imap (fun i v => (Z.of_nat i + 1, mkHentry 0 v)) [50; 20; 40; 20; 10; 30]).
Definition ht_run : outcome htest unit :=
  (heap_init 7 ;; for_n 6 1 (fun x => heap_add x ;; ret tt)) (mkHtest (mkHeap 0 0 ∅) ht_entries).
Definition ht_sample : htest :=
  match ht_run with Ok _ s => s | Panic _ => mkHtest (mkHeap 0 0 ∅) ∅ end.

(** The sample is the heap that the six insertions leave. *)
Lemma ht_sample_rep : heap_rep ht_sample {[1; 2; 3; 4; 5; 6]}.
Proof. apply heap_repb_sound. vm_compute. reflexivity. Qed.

(** On the sample the queue serves entry 5 first, whose value is 10. *)
Lemma heap_refines_queue_witness :
  heap_rep ht_sample {[1; 2; 3; 4; 5; 6]} /\
  (exists s', heap_highest ht_sample = Ok 5 s' /\ heap_rep s' ({[1; 2; 3; 4; 5; 6]} ∖ {[5]})).
Proof.
  split; [exact ht_sample_rep|].
  destruct (heap_refines_queue ht_sample {[1; 2; 3; 4; 5; 6]} ht_sample_rep) as (_ & _ & H & _).
  destruct H as (r & s' & Hp & Hh & _ & _ & Hr); [set_solver|].
  assert (r = 5) as ->.
  { assert (heap_peek ht_sample = Ok 5 ht_sample) as E by (vm_compute; reflexivity).
    exact (Ok_val _ _ _ _ (eq_trans (eq_sym Hp) E)). }
  exists s'. split; [exact Hh|exact Hr].
Defined.
