(* ===== verification/Ring.v ===== *)
(** * Interfaces of the container libraries

    The components use two libraries whose sources are not part of the
    repository: the bounded rings of ConcurrencyKit ([ck_ring.h]), by which
    cores send each other requests, and the intrusive lists of parsec
    ([ps_list.h]), on which the scheduler keeps pending events.  Each is a
    class of operations and a class of the laws their documentation promises,
    over an arbitrary type of containers; the definitions that use them take
    them as arguments.  Lists are an instance of both, so that the theorems
    that rely on the laws have concrete instances. *)

From S2P Require Import Prelude.

(** ** [ck_ring]: a bounded FIFO *)

Class CkRing (R A : Type) : Type := {
  ck_ring_enqueue : A -> R -> bool * R;
  ck_ring_dequeue : R -> option (A * R);
  ck_ring_size : R -> Z
}.

(** [ck_view] are the pending elements, oldest first; [ck_cap] is the number
    of elements a ring accepts. *)
Class CkRingLaws (R A : Type) `{!CkRing R A} : Type := {
  ck_view : R -> list A;
  ck_cap : R -> Z;
  ck_enqueue_room a r :
    Z.of_nat (length (ck_view r)) < ck_cap r ->
    exists r', ck_ring_enqueue a r = (true, r') /\ ck_view r' = ck_view r ++ [a] /\
               ck_cap r' = ck_cap r;
  ck_enqueue_full a r :
    ck_cap r <= Z.of_nat (length (ck_view r)) -> ck_ring_enqueue a r = (false, r);
  ck_dequeue_nil r : ck_view r = [] -> ck_ring_dequeue r = None;
  ck_dequeue_cons a l r :
    ck_view r = a :: l ->
    exists r', ck_ring_dequeue r = Some (a, r') /\ ck_view r' = l /\ ck_cap r' = ck_cap r;
  ck_size_view r : ck_ring_size r = Z.of_nat (length (ck_view r))
}.

(** ** [ps_list]: lists linked through their elements *)

Class PsList (L : Type) : Type := {
  pl_view : L -> list Z;      (** the elements, in the order of [ps_list_foreach] *)
  pl_append : Z -> L -> L;    (** [ps_list_head_append] *)
  pl_rem : Z -> L -> L        (** [ps_list_rem] *)
}.

Class PsListLaws (L : Type) `{!PsList L} : Prop := {
  pl_append_view x l : x ∉ pl_view l -> pl_view (pl_append x l) = pl_view l ++ [x];
  pl_rem_view x l : pl_view (pl_rem x l) = filter (.≠ x) (pl_view l);
  pl_view_nodup l : NoDup (pl_view l)
}.

(** [ps_list_singleton]: the element is on no list. *)
Definition pl_singleton {L} `{!PsList L} (x : Z) (l : L) : bool := bool_decide (x ∉ pl_view l).
Definition pl_head_empty {L} `{!PsList L} (l : L) : bool := bool_decide (pl_view l = []).

(** ** Lists as instances *)

(** A ring of at most 63 elements: [ck_ring] keeps one slot of its power-of-two
    size free. *)
#[export] Instance list_ck_ring A : CkRing (list A) A := {|
  ck_ring_enqueue a r := if Z.of_nat (length r) <? 63 then (true, r ++ [a]) else (false, r);
  ck_ring_dequeue r := match r with [] => None | a :: l => Some (a, l) end;
  ck_ring_size r := Z.of_nat (length r) |}.

#[export] Instance list_ck_ring_laws A : CkRingLaws (list A) A.
Proof.
  refine {| ck_view r := r; ck_cap _ := 63 |}; simpl.
  - intros a r H. rewrite (proj2 (Z.ltb_lt _ _) H). eauto.
  - intros a r H. by rewrite (proj2 (Z.ltb_ge _ _) H).
  - by intros r ->.
  - intros a l r ->. eauto.
  - done.
Defined.

(** Duplicate-free lists. *)
Record ulist : Type := mkUlist { ul_list : list Z; ul_nodup : bool_decide (NoDup ul_list) = true }.

Lemma ul_append_nodup (x : Z) (l : list Z) : bool_decide (NoDup l) = true ->
  bool_decide (NoDup (if bool_decide (x ∈ l) then l else l ++ [x])) = true.
Proof.
  rewrite !bool_decide_eq_true. intros H. case_bool_decide as Hx; [done|].
  apply NoDup_app. split_and!; [done| |apply NoDup_singleton].
  by intros y Hy ->%list_elem_of_singleton.
Qed.

Lemma ul_rem_nodup (x : Z) (l : list Z) : bool_decide (NoDup l) = true ->
  bool_decide (NoDup (filter (.≠ x) l)) = true.
Proof. rewrite !bool_decide_eq_true. apply NoDup_filter. Qed.

#[export] Instance ulist_ps_list : PsList ulist := {|
  pl_view := ul_list;
  pl_append x l := mkUlist _ (ul_append_nodup x (ul_list l) (ul_nodup l));
  pl_rem x l := mkUlist _ (ul_rem_nodup x (ul_list l) (ul_nodup l)) |}.

#[export] Instance ulist_ps_list_laws : PsListLaws ulist.
Proof.
  split; simpl.
  - intros x l H. by rewrite bool_decide_false by done.
  - done.
  - intros l. pose proof (ul_nodup l) as H. by rewrite bool_decide_eq_true in H.
Qed.

Definition ul_nil : ulist := mkUlist [] eq_refl.
