(* ===== verification/Sl.v ===== *)
(** * The scheduling library

    [components/lib/sl] with the earliest-deadline-first policy
    ([sl_mod_edf.c], the policy the EOS manager is linked with), the raw
    thread allocation ([sl_raw.c]) and the static thread table
    ([sl_thd_static_backend.c]): the data of one core and every operation on
    it that the scheduler library exports or uses internally.

    A thread is known by its identifier, which is the index of its structure
    in [__sl_threads]; 0 is the NULL pointer.  [struct sl_thd] and the policy's
    extension of it are functions from fields to words, as are the per-core
    globals, so that each assignment of the code is one update.  The timeout
    queue and the run queue are the two heaps of the core.

    Kernel entry points ([cos_switch] and the like), through which other
    threads run, are the parameter [KernelApi]: the state they return is the
    one the thread finds when it runs again. *)

From S2P Require Import Prelude Config Heap Ring.

(** ** Data *)

(** [sl_thd_state_t] *)
Definition SL_THD_FREE : Z := 0.
Definition SL_THD_BLOCKED : Z := 1.
Definition SL_THD_BLOCKED_TIMEOUT : Z := 2.
Definition SL_THD_WOKEN : Z := 3.
Definition SL_THD_RUNNABLE : Z := 4.
Definition SL_THD_DYING : Z := 5.

(** [sl_thd_property_t] *)
Definition SL_THD_PROPERTY_OWN_TCAP : Z := 1.
Definition SL_THD_PROPERTY_SEND : Z := 2.

(** [sched_param_type_t], the values that the policies know *)
Definition SCHEDP_NOOP : Z := 0.
Definition SCHEDP_PRIO : Z := 1.
Definition SCHEDP_PRIO_BLOCK : Z := 2.
Definition SCHEDP_DEADLINE : Z := 5.
Definition SCHEDP_BUDGET : Z := 6.
Definition SCHEDP_WINDOW : Z := 7.

Definition SL_MIN_PERIOD_US : Z := 500.
Definition SL_MAX_NUM_THDS : Z := MAX_NUM_THREADS.
Definition SL_CYCS_DIFF : Z := 16384.
Definition SL_EDF_MAX_THDS : Z := MAX_NUM_THREADS.
Definition SL_EDF_MAX_DEADLINE : Z := 18446744073709551615.
Definition TCAP_PRIO_LOWEST : Z := 281474976710655. (** [TCAP_PRIO_MIN] *)

(** Fields of [struct sl_thd], then those that [struct sl_thd_policy] adds. *)
Inductive thd_field : Type :=
| F_state | F_rcv_suspended | F_properties | F_aepinfo | F_sndcap | F_schedthd | F_ch_ring
| F_prio | F_budget | F_last_replenish | F_period | F_periodic_cycs | F_timeout_cycs
| F_wakeup_cycs | F_timeout_idx | F_wakeup_cnt | F_ev_blocked | F_ev_cycles | F_ev_timeout
| P_priority | P_period_usec | P_period | P_deadline | P_prio_idx.

(** [struct sl_global_cpu], with [sl_per_core] of the policy. *)
Inductive glob_field : Type :=
| G_lock | G_sched_thdcap | G_sched_tcap | G_sched_rcv | G_sched_thd | G_idle_thd
| G_cyc_per_usec | G_period | G_timer_next | G_timeout_next | G_child_ring | G_sl_per_core.

(** [struct cos_aep_info] *)
Inductive aep_field : Type := A_tc | A_thd | A_tid | A_rcv.

#[export] Instance thd_field_eq : EqDecision thd_field.
Proof. solve_decision. Defined.
#[export] Instance glob_field_eq : EqDecision glob_field.
Proof. solve_decision. Defined.
#[export] Instance aep_field_eq : EqDecision aep_field.
Proof. solve_decision. Defined.

(** [sl_xcpu_req_t] with the arguments of the requests that are implemented. *)
Inductive sl_xcpu_req : Type :=
| SL_XCPU_THD_ALLOC (fn data : Z) (params : list Z)
| SL_XCPU_INITAEP_ALLOC (dci sched_thd is_sched own_tcap ret_thd : Z)
| SL_XCPU_THD_SET_PARAM (tid sp : Z)
| SL_XCPU_THD_WAKEUP (tid : Z)
| SL_XCPU_THD_SET_TLS (ci tc tlsaddr : Z)
| SL_XCPU_THD_WAKEUP_WITH_DL (tid sp : Z).

(** [struct sl_xcpu_request] *)
Record sl_xcpu_request : Type := mkReq { req_client : Z; req_body : sl_xcpu_req }.

(** The state one core works on: its own data, and the rings and the bitmap of
    [struct sl_global] that all cores share. *)
Record slst (R L : Type) : Type := mkSl {
  thds : Z -> thd_field -> Z;           (** [__sl_threads[cpu]] *)
  aeps : Z -> aep_field -> Z;           (** [__sl_aep_infos[cpu]], from index 1 *)
  aep_off : Z;                          (** [__sl_aep_free_off[cpu]] *)
  edf : heap;                           (** [edf_heap[cpu]] *)
  tmo : heap;                           (** [timeout_heap[cpu]] *)
  glob : glob_field -> Z;
  events : L;                           (** [event_head] *)
  xrings : Z -> R;                      (** [xcpu_ring] and [xcpu_rbuf] *)
  cpu_bmp : Z -> bool;
  cpu : Z;                              (** [cos_cpuid()] *)
  cur : Z;                              (** [cos_thdid()] *)
  sl_tsc : nat -> Z; sl_tick : nat;     (** readings of the time-stamp counter *)
  xret : Z -> Z                         (** words of the component: [ret_thd], locks *)
}.
Arguments mkSl {R L}.
Arguments thds {R L}. Arguments aeps {R L}. Arguments aep_off {R L}. Arguments edf {R L}.
Arguments tmo {R L}. Arguments glob {R L}. Arguments events {R L}. Arguments xrings {R L}.
Arguments cpu_bmp {R L}. Arguments cpu {R L}. Arguments cur {R L}. Arguments sl_tsc {R L}.
Arguments sl_tick {R L}. Arguments xret {R L}.

(** Function update. *)
Definition fupd {A B} `{!EqDecision A} (a : A) (b : B) (f : A -> B) : A -> B :=
  fun x => if decide (x = a) then b else f x.

Section updates.
Context {R L : Type}.
Implicit Types s : slst R L.

Definition with_thds (f : Z -> thd_field -> Z) s : slst R L :=
  mkSl f (aeps s) (aep_off s) (edf s) (tmo s) (glob s) (events s) (xrings s) (cpu_bmp s)
       (cpu s) (cur s) (sl_tsc s) (sl_tick s) (xret s).
Definition with_aeps (f : Z -> aep_field -> Z) (n : Z) s : slst R L :=
  mkSl (thds s) f n (edf s) (tmo s) (glob s) (events s) (xrings s) (cpu_bmp s)
       (cpu s) (cur s) (sl_tsc s) (sl_tick s) (xret s).
Definition with_edf (h : heap) s : slst R L :=
  mkSl (thds s) (aeps s) (aep_off s) h (tmo s) (glob s) (events s) (xrings s) (cpu_bmp s)
       (cpu s) (cur s) (sl_tsc s) (sl_tick s) (xret s).
Definition with_tmo (h : heap) s : slst R L :=
  mkSl (thds s) (aeps s) (aep_off s) (edf s) h (glob s) (events s) (xrings s) (cpu_bmp s)
       (cpu s) (cur s) (sl_tsc s) (sl_tick s) (xret s).
Definition with_glob (f : glob_field -> Z) s : slst R L :=
  mkSl (thds s) (aeps s) (aep_off s) (edf s) (tmo s) f (events s) (xrings s) (cpu_bmp s)
       (cpu s) (cur s) (sl_tsc s) (sl_tick s) (xret s).
Definition with_events (l : L) s : slst R L :=
  mkSl (thds s) (aeps s) (aep_off s) (edf s) (tmo s) (glob s) l (xrings s) (cpu_bmp s)
       (cpu s) (cur s) (sl_tsc s) (sl_tick s) (xret s).
Definition with_xrings (f : Z -> R) s : slst R L :=
  mkSl (thds s) (aeps s) (aep_off s) (edf s) (tmo s) (glob s) (events s) f (cpu_bmp s)
       (cpu s) (cur s) (sl_tsc s) (sl_tick s) (xret s).
Definition with_tick (n : nat) s : slst R L :=
  mkSl (thds s) (aeps s) (aep_off s) (edf s) (tmo s) (glob s) (events s) (xrings s) (cpu_bmp s)
       (cpu s) (cur s) (sl_tsc s) n (xret s).

Definition with_xret (f : Z -> Z) s : slst R L :=
  mkSl (thds s) (aeps s) (aep_off s) (edf s) (tmo s) (glob s) (events s) (xrings s) (cpu_bmp s)
       (cpu s) (cur s) (sl_tsc s) (sl_tick s) f.

(** [t->f], [t->f = v], and the same for the globals. *)
Definition getf (t : Z) (f : thd_field) : M (slst R L) Z := gets (fun s => thds s t f).
Definition upd_thd (t : Z) (f : thd_field) (v : Z) s : slst R L :=
  with_thds (fupd t (fupd f v (thds s t)) (thds s)) s.
Definition setf (t : Z) (f : thd_field) (v : Z) : M (slst R L) unit := modify (upd_thd t f v).
Definition getg (f : glob_field) : M (slst R L) Z := gets (fun s => glob s f).
Definition setg (f : glob_field) (v : Z) : M (slst R L) unit :=
  modify (fun s => with_glob (fupd f v (glob s)) s).

(** [cos_faa] on a field: returns the old value. *)
Definition faaf (t : Z) (f : thd_field) (d : Z) : M (slst R L) Z :=
  v <- getf t f ;; setf t f (i32 (v + d)) ;; ret v.

(** [ps_tsc], [rdtscll], [sl_now] *)
Definition sl_now : M (slst R L) Z :=
  n <- gets sl_tick ;; f <- gets sl_tsc ;; modify (with_tick (S n)) ;; ret (f n).

End updates.

(** ** The two heaps

    [__compare_min] and [__update_idx] of the policy, [__sl_timeout_compare_min]
    and [__sl_timeout_update_idx] of the timeout queue.  Both order the same
    state, so each has a type of its own for the class to select. *)

Record edfst (R L : Type) : Type := EdfSt { un_edf : slst R L }.
Record tmost (R L : Type) : Type := TmoSt { un_tmo : slst R L }.
Arguments EdfSt {R L}. Arguments un_edf {R L}. Arguments TmoSt {R L}. Arguments un_tmo {R L}.

Definition __compare_min {R L} (s : slst R L) (a b : Z) : bool :=
  thds s a P_deadline <=? thds s b P_deadline.
Definition __update_idx {R L} (e pos : Z) (s : slst R L) : slst R L := upd_thd e P_prio_idx pos s.
Definition __sl_timeout_compare_min {R L} (s : slst R L) (a b : Z) : bool :=
  thds s a F_timeout_cycs <=? thds s b F_timeout_cycs.
Definition __sl_timeout_update_idx {R L} (e pos : Z) (s : slst R L) : slst R L :=
  upd_thd e F_timeout_idx pos s.

#[export] Instance edf_client {R L} : HeapClient (edfst R L) := {|
  hc_get s := edf (un_edf s);
  hc_put h s := EdfSt (with_edf h (un_edf s));
  h_c s := __compare_min (un_edf s);
  h_u e pos s := EdfSt (__update_idx e pos (un_edf s));
  h_pos s x := thds (un_edf s) x P_prio_idx |}.

#[export] Instance tmo_client {R L} : HeapClient (tmost R L) := {|
  hc_get s := tmo (un_tmo s);
  hc_put h s := TmoSt (with_tmo h (un_tmo s));
  h_c s := __sl_timeout_compare_min (un_tmo s);
  h_u e pos s := TmoSt (__sl_timeout_update_idx e pos (un_tmo s));
  h_pos s x := thds (un_tmo s) x F_timeout_idx |}.

(** Running a heap operation on the state of the core. *)
Definition on_edf {R L A} (m : M (edfst R L) A) : M (slst R L) A :=
  fun s => match m (EdfSt s) with Ok a s' => Ok a (un_edf s') | Panic h => Panic h end.
Definition on_tmo {R L A} (m : M (tmost R L) A) : M (slst R L) A :=
  fun s => match m (TmoSt s) with Ok a s' => Ok a (un_tmo s') | Panic h => Panic h end.

(** ** The kernel's interface to the library *)

Inductive kcall : Type :=
| K_sched_sync                                        (** [cos_sched_sync] *)
| K_defswitch (c prio timeout tok : Z)                (** [cos_defswitch] *)
| K_switch (c tc prio timeout rcv tok : Z)            (** [cos_switch] *)
| K_sched_asnd (snd timeout srcv tok : Z)             (** [cos_sched_asnd] *)
| K_asnd (snd yield : Z)                              (** [cos_asnd] *)
| K_introspect (cap op : Z)                           (** [cos_introspect] *)
| K_tcap_transfer (dst src res prio : Z)              (** [cos_tcap_transfer] *)
| K_thd_mod (ci tc tlsaddr : Z)                       (** [cos_thd_mod] *)
| K_thd_alloc (fn data : Z)                           (** [cos_thd_alloc] *)
| K_thd_alloc_ext (dci idx : Z)                       (** [cos_thd_alloc_ext] *)
| K_asnd_alloc (rcv : Z)                              (** [cos_asnd_alloc] *)
| K_initaep_alloc (dci sched is_sched : Z)            (** [cos_initaep_alloc] *)
| K_initaep_tcap_alloc (dci tc sched : Z)             (** [cos_initaep_tcap_alloc] *)
| K_child_enqueue (ring type tid : Z)                 (** [ck_ring_enqueue_spsc_child] *)
| K_cycles_per_usec.                                  (** [cos_hw_cycles_per_usec] *)

Definition TCAP_GET_BUDGET : Z := 0.
Definition THD_GET_TID : Z := 0.

(** What [cos_sched_rcv] returns and stores through its arguments. *)
Record sched_event : Type := mkEvent {
  se_pending : Z; se_tid : Z; se_blocked : Z; se_cycles : Z; se_timeout : Z }.

Class KernelApi (S : Type) : Type := {
  kapi : kcall -> M S Z;
  sched_aep_get : Z -> M S (aep_field -> Z);          (** [cos_sched_aep_get] of a component *)
  cos_sched_rcv : Z -> Z -> Z -> M S sched_event;
  child_ring_dequeue : Z -> M S (option (Z * Z));     (** [ck_ring_dequeue_spsc_child] *)
  child_ring_size : Z -> M S Z
}.

(** ** Scheduling parameters, [res_spec.h]

    A packed bit field: the type in the low 8 bits, the value in the other 56. *)

Definition sched_param_pack (type value : Z) : Z := u8 type + 256 * (value mod 2 ^ 56).
Definition sched_param_get (sp : Z) : Z * Z := (u8 sp, u64 sp / 256).

Section ops.
Context {R L : Type} `{!CkRing R sl_xcpu_request, !PsList L, !KernelApi (slst R L)}.

(** Bound on the retries of the critical-section and scheduling loops. *)
Variable spin : nat.

Abbreviation SL := (M (slst R L)).

(** ** Time *)

Definition sl_cyc2usec (cyc : Z) : SL Z := c <- getg G_cyc_per_usec ;; ret (cyc / c).
Definition sl_usec2cyc (usec : Z) : SL Z := c <- getg G_cyc_per_usec ;; ret (u64 (usec * c)).

Definition sl_timeout_oneshot (absolute : Z) : SL unit :=
  setg G_timer_next absolute ;; setg G_timeout_next (tcap_cyc2time absolute).

Definition sl_timeout_relative (offset : Z) : SL unit :=
  now <- sl_now ;; sl_timeout_oneshot (u64 (now + offset)).

Definition sl_timeout_expended (now oldtimeout : Z) : SL unit :=
  massert (now >=? oldtimeout) ;;
  period <- getg G_period ;;
  let offset := (now - oldtimeout) mod period in
  sl_timeout_oneshot (u64 (now + period - offset)).

Definition sl_timeout_period (period : Z) : SL unit :=
  p <- sl_usec2cyc period ;;
  setg G_period p ;;
  sl_timeout_relative p.

(** ** Thread table *)

Definition sl_thd_lookup_backend (tid : Z) : SL Z :=
  massert (tid <? SL_MAX_NUM_THDS) ;; ret tid.
Definition sl_thd_alloc_backend (tid : Z) : SL Z :=
  massert (tid <? SL_MAX_NUM_THDS) ;; ret tid.
Definition sl_thd_retrieve (tid : Z) : SL Z := sl_thd_lookup_backend tid.

Definition sl_thd_lkup (tid : Z) : SL Z :=
  massert (negb (tid =? 0)) ;;
  if tid >? MAX_NUM_THREADS then ret 0 else sl_thd_retrieve tid.

Definition sl_thd_try_lkup (tid : Z) : SL Z :=
  massert (negb (tid =? 0)) ;;
  if tid >? MAX_NUM_THREADS then ret 0 else
  t <- sl_thd_lookup_backend tid ;;
  a <- getf t F_aepinfo ;;
  ret (if a =? 0 then 0 else t).

Definition sl_thdid : SL Z :=
  tid <- gets cur ;;
  massert (negb (tid =? 0)) ;; massert (tid <? MAX_NUM_THREADS) ;; ret tid.

Definition sl_thd_curr : SL Z := tid <- sl_thdid ;; sl_thd_lkup tid.

(** Fields of [t->aepinfo]; dereferencing NULL faults. *)
Definition aep_get (t : Z) (f : aep_field) : SL Z :=
  a <- getf t F_aepinfo ;;
  if a =? 0 then panic NullDeref else gets (fun s => aeps s a f).
Definition sl_thd_thdcap (t : Z) : SL Z := aep_get t A_thd.
Definition sl_thd_tcap (t : Z) : SL Z := aep_get t A_tc.
Definition sl_thd_rcvcap (t : Z) : SL Z := aep_get t A_rcv.
Definition sl_thd_thdid (t : Z) : SL Z := aep_get t A_tid.
Definition sl_thd_asndcap (t : Z) : SL Z := getf t F_sndcap.
Definition sl_thd_setprio (t p : Z) : SL unit := setf t F_prio p.

(** [sl_thd_alloc_aep_backend]: the entries are [__sl_aep_infos[i]], [i + 1] here. *)
Definition sl_thd_alloc_aep_backend : SL Z :=
  n <- gets aep_off ;;
  massert (n <? SL_MAX_NUM_THDS) ;;
  modify (fun s => with_aeps (aeps s) (u32 (n + 1)) s) ;;
  ret (n + 1).

Definition set_aep (a : Z) (v : aep_field -> Z) : SL unit :=
  modify (fun s => with_aeps (fupd a v (aeps s)) (aep_off s) s).
Definition set_aep_field (a : Z) (f : aep_field) (v : Z) : SL unit :=
  modify (fun s => with_aeps (fupd a (fupd f v (aeps s a)) (aeps s)) (aep_off s) s).

Definition sl_thd_init_backend : SL unit :=
  massert (SL_MAX_NUM_THDS <=? MAX_NUM_THREADS) ;;
  modify (with_thds (fun _ _ => 0)) ;;
  modify (with_aeps (fun _ _ => 0) 0).

(** ** The policy: [sl_mod_edf.c] *)

(** The time spent in the policy, [sl_per_core]. *)
Definition sl_account (start : Z) : SL unit :=
  stop <- sl_now ;; n <- getg G_sl_per_core ;; setg G_sl_per_core (u64 (n + (stop - start))).

Definition sl_mod_execution (t cycles : Z) : SL unit := ret tt.

Definition sl_mod_schedule : SL Z :=
  start <- sl_now ;;
  t <- on_edf heap_peek ;;
  sl_account start ;;
  ret t.

Definition sl_mod_block (t : Z) : SL unit :=
  start <- sl_now ;;
  idx <- getf t P_prio_idx ;;
  massert (idx >=? 0) ;;
  on_edf (heap_remove idx) ;;
  setf t F_state SL_THD_BLOCKED ;;
  setf t P_prio_idx (-1) ;;
  sl_account start.

Definition sl_mod_wakeup (t : Z) : SL unit :=
  start <- sl_now ;;
  dl <- getf t P_deadline ;;
  massert (negb (dl =? SL_EDF_MAX_DEADLINE)) ;;
  idx <- getf t P_prio_idx ;;
  (if idx <? 0 then on_edf (heap_add t) ;; ret tt
   else massert (idx >? 0) ;; on_edf (heap_adjust idx)) ;;
  sl_account start.

Definition sl_mod_yield (t yield_to : Z) : SL unit := ret tt.

Definition sl_mod_thd_create (t : Z) : SL unit :=
  setf t P_period 0 ;;
  setf t P_period_usec 0 ;;
  setf t P_deadline SL_EDF_MAX_DEADLINE ;;
  setf t P_priority SL_EDF_MAX_DEADLINE ;;
  setf t P_prio_idx (-1) ;;
  n <- on_edf heap_size ;;
  massert (n + 1 <? SL_EDF_MAX_THDS).

Definition sl_mod_thd_delete (t : Z) : SL unit :=
  idx <- getf t P_prio_idx ;; on_edf (heap_remove idx) ;; ret tt.

Definition sl_mod_thd_param_set (t type v : Z) : SL unit :=
  start <- sl_now ;;
  _ <- sl_now ;;
  (if type =? SCHEDP_PRIO then
     setf t P_priority v ;;
     sl_thd_setprio t v ;;
     setf t P_deadline SL_EDF_MAX_DEADLINE ;;
     idx <- getf t P_prio_idx ;;
     massert (idx <? 0) ;;
     on_edf (heap_add t) ;; ret tt
   else if type =? SCHEDP_PRIO_BLOCK then
     setf t P_priority v ;;
     sl_thd_setprio t v ;;
     setf t F_state SL_THD_BLOCKED ;;
     setf t P_deadline SL_EDF_MAX_DEADLINE ;;
     idx <- getf t P_prio_idx ;;
     massert (idx <? 0)
   else if type =? SCHEDP_WINDOW then panic AssertFail
   else if type =? SCHEDP_DEADLINE then
     setf t P_deadline v ;;
     setf t P_priority v
   else panic AssertFail) ;;
  sl_account start.

Definition sl_mod_init : SL unit :=
  on_edf (heap_init SL_EDF_MAX_THDS) ;;
  setg G_sl_per_core 0 ;;
  _ <- sl_now ;; ret tt.

(** ** The timeout queue *)

Definition sl_timeout_block (t timeout : Z) : SL unit :=
  idx <- getf t F_timeout_idx ;;
  massert (negb (t =? 0) && (idx =? -1)) ;;
  n <- on_tmo heap_size ;;
  massert (n <? SL_MAX_NUM_THDS) ;;
  (if timeout =? 0 then
     tmp <- getf t F_periodic_cycs ;;
     period <- getf t F_period ;;
     massert (negb (period =? 0)) ;;
     setf t F_periodic_cycs (u64 (tmp + period)) ;;
     p <- getf t F_periodic_cycs ;;
     massert (tmp <? p) ;;
     setf t F_timeout_cycs p
   else setf t F_timeout_cycs timeout) ;;
  setf t F_wakeup_cycs 0 ;;
  on_tmo (heap_add t) ;; ret tt.

Definition sl_timeout_remove (t : Z) : SL unit :=
  idx <- getf t F_timeout_idx ;;
  massert (negb (t =? 0) && (idx >? 0)) ;;
  n <- on_tmo heap_size ;;
  massert (negb (n =? 0)) ;;
  on_tmo (heap_remove idx) ;;
  setf t F_timeout_idx (-1).

Definition sl_timeout_init (period : Z) : SL unit :=
  massert (period >=? SL_MIN_PERIOD_US) ;;
  sl_timeout_period period ;;
  modify (with_tmo (mkHeap 0 0 ∅)) ;;
  on_tmo (heap_init SL_MAX_NUM_THDS).

(** ** Notifications to child schedulers, [sl_child.c] *)

Definition SL_CHILD_THD_BLOCK : Z := 0.
Definition SL_CHILD_THD_WAKEUP : Z := 1.

Definition sl_parent_notif_enqueue (thd type tid : Z) : SL Z :=
  massert (negb (thd =? 0)) ;;
  p <- getf thd F_properties ;;
  massert (Z.testbit p 1) ;;
  ring <- getf thd F_ch_ring ;;
  if ring =? 0 then ret (-1) else
  ok <- kapi (K_child_enqueue ring type tid) ;;
  if ok =? 0 then ret (-1) else
  snd <- sl_thd_asndcap thd ;;
  r <- kapi (K_asnd snd 0) ;;
  if negb (r =? 0) then ret (-1) else ret 0.

Definition sl_parent_notif_block_no_cs (child thd : Z) : SL Z :=
  tid <- sl_thd_thdid thd ;; sl_parent_notif_enqueue child SL_CHILD_THD_BLOCK tid.
Definition sl_parent_notif_wakeup_no_cs (child thd : Z) : SL Z :=
  tid <- sl_thd_thdid thd ;; sl_parent_notif_enqueue child SL_CHILD_THD_WAKEUP tid.

Definition sl_child_notif_dequeue : SL (option (Z * Z)) :=
  ring <- getg G_child_ring ;;
  if ring =? 0 then ret None else child_ring_dequeue ring.
Definition sl_child_notif_empty : SL bool :=
  ring <- getg G_child_ring ;;
  if ring =? 0 then ret true else n <- child_ring_size ring ;; ret (n =? 0).

(** ** Blocking and waking, without the critical section *)

Definition sl_thd_is_runnable (t : Z) : SL bool :=
  st <- getf t F_state ;; ret ((st =? SL_THD_RUNNABLE) || (st =? SL_THD_WOKEN)).

Definition is_blocked_state (st : Z) : bool := (st =? SL_THD_BLOCKED) || (st =? SL_THD_BLOCKED_TIMEOUT).

Definition sl_thd_wakeup_no_cs_rm (t : Z) : SL Z :=
  massert (negb (t =? 0)) ;;
  setf t F_state SL_THD_RUNNABLE ;;
  sl_mod_wakeup t ;;
  r <- faaf t F_wakeup_cnt 1 ;;
  massert (r >=? 0) ;;
  setf t F_rcv_suspended 0 ;;
  ret 0.

Definition sl_thd_wakeup_no_cs (t : Z) : SL Z :=
  massert (negb (t =? 0)) ;;
  c <- sl_thd_curr ;;
  massert (negb (c =? t)) ;;
  sched <- getf t F_schedthd ;;
  if negb (sched =? 0) then sl_parent_notif_wakeup_no_cs sched t ;; ret 0 else
  run <- sl_thd_is_runnable t ;;
  if run : bool then setf t F_state SL_THD_WOKEN ;; ret 1 else
  st <- getf t F_state ;;
  massert (is_blocked_state st) ;;
  (if st =? SL_THD_BLOCKED_TIMEOUT then sl_timeout_remove t else ret tt) ;;
  sl_thd_wakeup_no_cs_rm t.

Definition sl_thd_sched_unblock_no_cs (t : Z) : SL Z :=
  rs <- getf t F_rcv_suspended ;;
  if rs =? 0 then ret 0 else
  setf t F_rcv_suspended 0 ;;
  st <- getf t F_state ;;
  if negb (is_blocked_state st) then ret 0 else
  (if st =? SL_THD_BLOCKED_TIMEOUT then sl_timeout_remove t else ret tt) ;;
  sl_thd_wakeup_no_cs_rm t ;;
  ret 1.

Definition sl_thd_sched_wakeup_no_cs (t : Z) : SL Z :=
  massert (negb (t =? 0)) ;;
  rs <- getf t F_rcv_suspended ;;
  if rs =? 0 then ret 1 else
  setf t F_rcv_suspended 0 ;;
  run <- sl_thd_is_runnable t ;;
  if run : bool then ret 1 else
  st <- getf t F_state ;;
  massert (is_blocked_state st) ;;
  (if st =? SL_THD_BLOCKED_TIMEOUT then sl_timeout_remove t else ret tt) ;;
  setf t F_state SL_THD_RUNNABLE ;;
  sl_mod_wakeup t ;;
  ret 0.

Definition sl_thd_sched_block_no_cs (t block_type timeout : Z) : SL Z :=
  massert (negb (t =? 0)) ;;
  massert ((block_type =? SL_THD_BLOCKED_TIMEOUT) || (block_type =? SL_THD_BLOCKED)) ;;
  sched <- getf t F_schedthd ;;
  if negb (sched =? 0) then sl_parent_notif_block_no_cs sched t ;; ret 0 else
  st <- getf t F_state ;;
  (if is_blocked_state st then
     if st =? SL_THD_BLOCKED_TIMEOUT then sl_timeout_remove t else ret tt
   else
     run <- sl_thd_is_runnable t ;;
     massert run ;;
     sl_mod_block t) ;;
  setf t F_state block_type ;;
  (if block_type =? SL_THD_BLOCKED_TIMEOUT then sl_timeout_block t timeout else ret tt) ;;
  setf t F_rcv_suspended 1 ;;
  ret 0.

Definition sl_thd_block_no_cs (t block_type timeout : Z) : SL Z :=
  massert (negb (t =? 0)) ;;
  c <- gets cur ;; tid <- sl_thd_thdid t ;;
  massert (c =? tid) ;;
  massert ((block_type =? SL_THD_BLOCKED_TIMEOUT) || (block_type =? SL_THD_BLOCKED)) ;;
  st <- getf t F_state ;;
  if st =? SL_THD_WOKEN then
    rs <- getf t F_rcv_suspended ;;
    massert (rs =? 0) ;;
    setf t F_state SL_THD_RUNNABLE ;;
    ret 1
  else
  sl_thd_sched_unblock_no_cs t ;;
  st <- getf t F_state ;;
  massert (st =? SL_THD_RUNNABLE) ;;
  sl_mod_block t ;;
  setf t F_state block_type ;;
  (if block_type =? SL_THD_BLOCKED_TIMEOUT then sl_timeout_block t timeout else ret tt) ;;
  ret 0.

(** [sl_timeout_wakeup_expired]: at most one round per entry of the queue. *)
Fixpoint sl_timeout_wakeup_loop (fuel : nat) (now : Z) : SL unit :=
  match fuel with
  | O => panic NoFuel
  | S fuel =>
      tp <- on_tmo heap_peek ;;
      massert (negb (tp =? 0)) ;;
      tc <- getf tp F_timeout_cycs ;;
      if tc >? now then ret tt else
      th <- on_tmo heap_highest ;;
      massert (negb (th =? 0) && (th =? tp)) ;;
      setf th F_timeout_idx (-1) ;;
      wc <- getf th F_wakeup_cycs ;;
      massert (wc =? 0) ;;
      setf th F_wakeup_cycs now ;;
      sl_thd_wakeup_no_cs_rm th ;;
      n <- on_tmo heap_size ;;
      if n =? 0 then ret tt else sl_timeout_wakeup_loop fuel now
  end.

Definition sl_timeout_wakeup_expired (now : Z) : SL unit :=
  n <- on_tmo heap_size ;;
  if n =? 0 then ret tt else sl_timeout_wakeup_loop (Z.to_nat n) now.

(** ** The critical section

    [union sl_cs_intern]: the owner's thread capability in the low 31 bits,
    the contention flag in the top one. *)

Definition cs_owner (v : Z) : Z := v mod 2 ^ 31.
Definition cs_contention (v : Z) : Z := v / 2 ^ 31.
Definition cs_word (owner contention : Z) : Z := owner mod 2 ^ 31 + 2 ^ 31 * (contention mod 2).

(** [ps_cas] on the lock word *)
Definition lock_cas (old new : Z) : SL bool :=
  v <- getg G_lock ;;
  if v =? old then setg G_lock new ;; ret true else ret false.

Definition sl_cs_owner : SL bool :=
  v <- getg G_lock ;; t <- sl_thd_curr ;; c <- sl_thd_thdcap t ;; ret (cs_owner v =? c).

Definition sl_cs_enter_contention (csi cached curr tok : Z) : SL Z :=
  t <- sl_thd_curr ;;
  c <- sl_thd_thdcap t ;;
  massert (negb (cs_owner csi =? c)) ;;
  ok <- (if cs_contention csi =? 0
         then lock_cas cached (cs_word (cs_owner csi) 1) else ret true) ;;
  if negb ok then ret 1 else
  prio <- getf t F_prio ;;
  sched <- getg G_sched_thd ;;
  sc <- sl_thd_thdcap sched ;;
  tn <- getg G_timeout_next ;;
  r <- kapi (K_defswitch (cs_owner csi) prio (if cs_owner csi =? sc then TCAP_TIME_NIL else tn) tok) ;;
  if negb (r =? 0) then ret r else ret 1.

Definition sl_cs_exit_contention (csi cached tok : Z) : SL Z :=
  t <- sl_thd_curr ;;
  ok <- lock_cas cached 0 ;;
  if negb ok then ret 1 else
  c <- getg G_sched_thdcap ;;
  prio <- getf t F_prio ;;
  _ <- kapi (K_defswitch c prio TCAP_TIME_NIL tok) ;;
  ret 0.

Definition sl_cs_enter_nospin : SL Z :=
  t <- sl_thd_curr ;;
  massert (negb (t =? 0)) ;;
  tok <- kapi K_sched_sync ;;
  csi <- getg G_lock ;;
  if negb (cs_owner csi =? 0) then
    c <- sl_thd_thdcap t ;; sl_cs_enter_contention csi csi c tok
  else
  c <- sl_thd_thdcap t ;;
  ok <- lock_cas csi (cs_word c (cs_contention csi)) ;;
  ret (if ok : bool then 0 else 1).

Fixpoint sl_cs_enter_loop (fuel : nat) : SL unit :=
  match fuel with
  | O => panic NoFuel
  | S fuel => r <- sl_cs_enter_nospin ;; if r =? 0 then ret tt else sl_cs_enter_loop fuel
  end.
Definition sl_cs_enter : SL unit := sl_cs_enter_loop spin.

Fixpoint sl_cs_enter_sched_loop (fuel : nat) : SL Z :=
  match fuel with
  | O => panic NoFuel
  | S fuel =>
      r <- sl_cs_enter_nospin ;;
      if (r =? 0) || (r =? - EBUSY) then ret r else sl_cs_enter_sched_loop fuel
  end.
Definition sl_cs_enter_sched : SL Z := sl_cs_enter_sched_loop spin.

Fixpoint sl_cs_exit_loop (fuel : nat) : SL unit :=
  match fuel with
  | O => panic NoFuel
  | S fuel =>
      tok <- kapi K_sched_sync ;;
      csi <- getg G_lock ;;
      if negb (cs_contention csi =? 0) then
        r <- sl_cs_exit_contention csi csi tok ;;
        if negb (r =? 0) then sl_cs_exit_loop fuel else ret tt
      else
      ok <- lock_cas csi 0 ;;
      if ok : bool then ret tt else sl_cs_exit_loop fuel
  end.
Definition sl_cs_exit : SL unit :=
  o <- sl_cs_owner ;; massert o ;; sl_cs_exit_loop spin.

(** ** Dispatch *)

Definition sl_thd_activate (t tok : Z) : SL Z :=
  p <- getf t F_properties ;;
  tn <- getg G_timeout_next ;;
  rcv <- getg G_sched_rcv ;;
  prio <- getf t F_prio ;;
  if Z.testbit p 1 then
    snd <- getf t F_sndcap ;; kapi (K_sched_asnd snd tn rcv tok)
  else if Z.testbit p 0 then
    c <- sl_thd_thdcap t ;; tc <- sl_thd_tcap t ;; kapi (K_switch c tc prio tn rcv tok)
  else
    c <- sl_thd_thdcap t ;;
    sched <- getg G_sched_thd ;;
    r <- kapi (K_defswitch c prio (if t =? sched then TCAP_TIME_NIL else tn) tok) ;;
    if negb (t =? sched) || negb (r =? - EPERM) then ret r else
    sched <- getg G_sched_thd ;;
    c <- sl_thd_thdcap sched ;;
    prio <- getf t F_prio ;;
    kapi (K_switch c 0 prio 0 rcv tok).

(** The replenishment of a thread that has a budget of its own. *)
Definition sl_thd_replenish (t now : Z) : SL unit :=
  p <- getf t F_properties ;;
  budget <- getf t F_budget ;;
  if negb (Z.testbit p 0 && negb (budget =? 0)) then ret tt else
  period <- getf t F_period ;;
  massert (negb (period =? 0)) ;;
  tc <- sl_thd_tcap t ;; stc <- getg G_sched_tcap ;;
  massert (negb (tc =? stc)) ;;
  last <- getf t F_last_replenish ;;
  if (last =? 0) || (u64 (last + period) <=? now) then
    let replenish := u64 (now - u64 (now - last) mod period) in
    currbudget <- kapi (K_introspect tc TCAP_GET_BUDGET) ;;
    let currbudget := u32 currbudget in
    r <- (if negb (cycles_same currbudget budget SL_CYCS_DIFF) && (currbudget <? budget) then
            rcv <- sl_thd_rcvcap t ;;
            prio <- getf t F_prio ;;
            kapi (K_tcap_transfer rcv stc (u32 (budget - currbudget)) prio)
          else ret 0) ;;
    if r =? 0 then setf t F_last_replenish replenish else ret tt
  else ret tt.

Definition sl_thd_block_expiry (t : Z) : SL unit :=
  sched <- getg G_sched_thd ;;
  massert (negb (t =? sched)) ;;
  p <- getf t F_properties ;;
  if negb (Z.testbit p 0) then
    rs <- getf t F_rcv_suspended ;; massert (rs =? 0)
  else
  period <- getf t F_period ;;
  massert (negb (period =? 0)) ;;
  sl_cs_enter ;;
  sl_thd_sched_unblock_no_cs t ;;
  sl_thd_sched_block_no_cs t SL_THD_BLOCKED_TIMEOUT 0 ;;
  setf t F_rcv_suspended 0 ;;
  sl_cs_exit.

(** The thread to run: [to] if it is given and runnable, else the policy's
    choice, else the idle thread. *)
Definition sl_pick (to : Z) : SL Z :=
  run <- (if to =? 0 then ret false else sl_thd_is_runnable to) ;;
  if run : bool then ret to else
  pt <- sl_mod_schedule ;;
  if pt =? 0 then getg G_idle_thd else ret pt.

Definition sl_cs_exit_schedule_nospin_arg (to : Z) : SL Z :=
  o <- sl_cs_owner ;;
  (if o : bool then ret tt else sl_cs_enter) ;;
  tok <- kapi K_sched_sync ;;
  now <- sl_now ;;
  tn <- getg G_timer_next ;;
  (if negb (tn =? 0) && (sext 64 (tn - now) <=? 0) then sl_timeout_expended now tn else ret tt) ;;
  sl_timeout_wakeup_expired now ;;
  t <- sl_pick to ;;
  sl_thd_replenish t now ;;
  sl_cs_exit ;;
  r <- sl_thd_activate t tok ;;
  if r =? - EPERM then
    sl_thd_block_expiry t ;;
    c <- sl_thd_curr ;;
    sched <- getg G_sched_thd ;;
    if negb (c =? sched) then sl_thd_activate sched tok else ret r
  else ret r.

Definition sl_cs_exit_schedule_nospin : SL Z := sl_cs_exit_schedule_nospin_arg 0.

Fixpoint sl_cs_exit_schedule_loop (fuel : nat) : SL unit :=
  match fuel with
  | O => panic NoFuel
  | S fuel => r <- sl_cs_exit_schedule_nospin ;; if r =? 0 then ret tt else sl_cs_exit_schedule_loop fuel
  end.
Definition sl_cs_exit_schedule : SL unit := sl_cs_exit_schedule_loop spin.

Definition sl_cs_exit_switchto (to : Z) : SL unit :=
  r <- sl_cs_exit_schedule_nospin_arg to ;;
  if negb (r =? 0) then sl_cs_exit_schedule else ret tt.

(** ** The thread API *)

Definition sl_thd_block (tid : Z) : SL unit :=
  massert (tid =? 0) ;;
  sl_cs_enter ;;
  t <- sl_thd_curr ;;
  cnt <- faaf t F_wakeup_cnt (-1) ;;
  massert (cnt >=? 1) ;;
  woken <- (if cnt =? 1 then sl_thd_block_no_cs t SL_THD_BLOCKED 0 else ret 0) ;;
  if negb (woken =? 0) then sl_cs_exit else sl_cs_exit_schedule.

Definition sl_thd_block_timeout_intern (timeout : Z) : SL Z :=
  sl_cs_enter ;;
  t <- sl_thd_curr ;;
  r <- sl_thd_block_no_cs t SL_THD_BLOCKED_TIMEOUT timeout ;;
  if negb (r =? 0) then sl_cs_exit ;; ret 1 else
  sl_cs_exit_schedule ;; ret 0.

Definition sl_thd_block_timeout (tid abs_timeout : Z) : SL Z :=
  t <- sl_thd_curr ;;
  massert (tid =? 0) ;;
  if abs_timeout =? 0 then sl_thd_block tid ;; ret 0 else
  r <- sl_thd_block_timeout_intern abs_timeout ;;
  if negb (r =? 0) then ret 0 else
  wcycs <- getf t F_wakeup_cycs ;;
  tcycs <- getf t F_timeout_cycs ;;
  ret (if wcycs >? tcycs then wcycs - tcycs else 0).

Definition sl_thd_block_periodic (tid : Z) : SL Z :=
  t <- sl_thd_curr ;;
  massert (tid =? 0) ;;
  period <- getf t F_period ;;
  massert (negb (period =? 0)) ;;
  r <- sl_thd_block_timeout_intern 0 ;;
  if negb (r =? 0) then ret 0 else
  wcycs <- getf t F_wakeup_cycs ;;
  pcycs <- getf t F_periodic_cycs ;;
  period <- getf t F_period ;;
  ret (if wcycs >? pcycs then u32 (u32 ((wcycs - pcycs) / period) + 1) else 0).

Definition sl_thd_wakeup (tid : Z) : SL unit :=
  sl_cs_enter ;;
  t <- sl_thd_lkup tid ;;
  if t =? 0 then sl_cs_exit else
  r <- sl_thd_wakeup_no_cs t ;;
  if negb (r =? 0) then sl_cs_exit else sl_cs_exit_schedule.

Definition sl_thd_yield_cs_exit (tid : Z) : SL unit :=
  t <- sl_thd_curr ;;
  sl_thd_sched_unblock_no_cs t ;;
  if negb (tid =? 0) then
    to <- sl_thd_lkup tid ;;
    massert (negb (to =? 0)) ;;
    sl_cs_exit_switchto to
  else
    sl_mod_yield t 0 ;;
    sl_cs_exit_schedule.

Definition sl_thd_yield (tid : Z) : SL unit := sl_cs_enter ;; sl_thd_yield_cs_exit tid.

Definition sl_thd_param_set (t sp : Z) : SL unit :=
  massert (negb (t =? 0)) ;;
  let '(type, value) := sched_param_get sp in
  (if type =? SCHEDP_WINDOW then
     p <- sl_usec2cyc value ;; setf t F_period p ;;
     now <- sl_now ;; setf t F_periodic_cycs now
   else if type =? SCHEDP_BUDGET then
     b <- sl_usec2cyc value ;; setf t F_budget (u32 b)
   else ret tt) ;;
  sl_mod_thd_param_set t type value.

(** ** Events of the scheduler's receive end-point *)

Definition sl_thd_event_info_reset (t : Z) : SL unit :=
  setf t F_ev_blocked 0 ;; setf t F_ev_cycles 0 ;; setf t F_ev_timeout 0.

Definition sl_thd_event_enqueue (t blocked cycles timeout : Z) : SL unit :=
  l <- gets events ;;
  (if pl_singleton t l then modify (with_events (pl_append t l)) else ret tt) ;;
  setf t F_ev_blocked blocked ;;
  c <- getf t F_ev_cycles ;;
  setf t F_ev_cycles (u64 (c + cycles)) ;;
  setf t F_ev_timeout timeout.

Definition sl_thd_event_dequeue (t : Z) : SL (Z * Z * Z) :=
  l <- gets events ;;
  modify (with_events (pl_rem t l)) ;;
  blocked <- getf t F_ev_blocked ;;
  cycles <- getf t F_ev_cycles ;;
  timeout <- getf t F_ev_timeout ;;
  sl_thd_event_info_reset t ;;
  ret (blocked, cycles, timeout).

(** The body of the loop over the pending events. *)
Definition sl_event_process (t : Z) : SL unit :=
  let! (blocked, cycles, thd_timeout) := sl_thd_event_dequeue t in
  st <- getf t F_state ;;
  if st =? SL_THD_FREE then ret tt else
  sl_mod_execution t cycles ;;
  if negb (blocked =? 0) then
    if negb (cycles =? 0) then
      (if negb (thd_timeout =? 0) then
         now <- sl_now ;;
         sl_thd_sched_block_no_cs t SL_THD_BLOCKED_TIMEOUT (tcap_time2cyc thd_timeout now) ;; ret tt
       else sl_thd_sched_block_no_cs t SL_THD_BLOCKED 0 ;; ret tt)
    else ret tt
  else sl_thd_sched_wakeup_no_cs t ;; ret tt.

(** [ps_list_foreach_del]: over the elements at the start of the loop. *)
Fixpoint sl_events_loop (ts : list Z) : SL unit :=
  match ts with
  | [] => ret tt
  | t :: ts => sl_event_process t ;; sl_events_loop ts
  end.

(** ** Threads, [sl_raw.c] *)

Definition sl_thd_alloc_init (aep sndcap prps : Z) : SL Z :=
  tid <- gets (fun s => aeps s aep A_tid) ;;
  massert (negb (tid =? 0)) ;;
  t <- sl_thd_alloc_backend tid ;;
  setf t F_properties prps ;;
  setf t F_aepinfo aep ;;
  setf t F_sndcap sndcap ;;
  setf t F_state SL_THD_RUNNABLE ;;
  setf t F_rcv_suspended 0 ;;
  setf t F_budget 0 ;;
  setf t F_last_replenish 0 ;;
  setf t F_periodic_cycs 0 ;; setf t F_timeout_cycs 0 ;; setf t F_period 0 ;;
  setf t F_wakeup_cycs 0 ;;
  setf t F_timeout_idx (-1) ;;
  setf t F_prio TCAP_PRIO_LOWEST ;;
  l <- gets events ;; modify (with_events (pl_rem t l)) ;;
  sl_thd_event_info_reset t ;;
  ret t.

Definition sl_thd_alloc_no_cs (fn data : Z) : SL Z :=
  aep <- sl_thd_alloc_aep_backend ;;
  c <- kapi (K_thd_alloc fn data) ;;
  set_aep_field aep A_thd c ;;
  if c =? 0 then ret 0 else
  tid <- kapi (K_introspect c THD_GET_TID) ;;
  set_aep_field aep A_tid (u16 tid) ;;
  if u16 tid =? 0 then ret 0 else
  t <- sl_thd_alloc_init aep 0 0 ;;
  sl_mod_thd_create t ;;
  ret t.

Definition sl_thd_comp_init_no_cs (comp prps snd : Z) : SL Z :=
  sa <- sched_aep_get comp ;;
  aep <- sl_thd_alloc_aep_backend ;;
  set_aep aep sa ;;
  snd <- (if (snd =? 0) && Z.testbit prps 1 then
            c <- kapi (K_asnd_alloc (sa A_rcv)) ;;
            massert (negb (c =? 0)) ;; ret c
          else ret snd) ;;
  t <- sl_thd_alloc_init aep snd prps ;;
  sl_mod_thd_create t ;;
  ret t.

Definition sl_thd_alloc_ext_no_cs (comp idx : Z) : SL Z :=
  if negb (idx =? 0) then
    aep <- sl_thd_alloc_aep_backend ;;
    c <- kapi (K_thd_alloc_ext comp idx) ;;
    set_aep_field aep A_thd c ;;
    if c =? 0 then ret 0 else
    tid <- kapi (K_introspect c THD_GET_TID) ;;
    set_aep_field aep A_tid (u16 tid) ;;
    if u16 tid =? 0 then ret 0 else
    t <- sl_thd_alloc_init aep 0 0 ;;
    sl_mod_thd_create t ;;
    ret t
  else
    r <- kapi (K_initaep_alloc comp 0 0) ;;
    if negb (r =? 0) then ret 0 else sl_thd_comp_init_no_cs comp 0 0.

(** The branch of [sl_thd_aep_alloc_ext_no_cs] for a thread that is a
    scheduler, which is the one [sl_thd_initaep_alloc_no_cs] takes. *)
Definition sl_thd_sched_aep_alloc_no_cs (comp sched prps : Z) : SL Z :=
  massert (negb (sched =? 0)) ;;
  a <- getf sched F_aepinfo ;;
  r <- (if Z.testbit prps 0 then kapi (K_initaep_alloc comp a (Z.land prps SL_THD_PROPERTY_SEND))
        else tc <- sl_thd_tcap sched ;; kapi (K_initaep_tcap_alloc comp tc a)) ;;
  if negb (r =? 0) then ret 0 else sl_thd_comp_init_no_cs comp prps 0.

Definition sl_thd_initaep_alloc_no_cs (comp sched_thd is_sched own_tcap : Z) : SL Z :=
  if is_sched =? 0 then sl_thd_alloc_ext_no_cs comp 0
  else sl_thd_sched_aep_alloc_no_cs comp sched_thd
         (Z.lor SL_THD_PROPERTY_SEND (if own_tcap =? 0 then 0 else SL_THD_PROPERTY_OWN_TCAP)).

Definition sl_thd_alloc (fn data : Z) : SL Z :=
  sl_cs_enter ;; t <- sl_thd_alloc_no_cs fn data ;; sl_cs_exit ;; ret t.

Definition sl_thd_initaep_alloc (comp sched_thd is_sched own_tcap : Z) : SL Z :=
  if comp =? 0 then ret 0 else
  sl_cs_enter ;;
  t <- sl_thd_initaep_alloc_no_cs comp sched_thd is_sched own_tcap ;;
  sl_cs_exit ;; ret t.

(** A thread that frees itself never continues: [while (1) sl_cs_exit_schedule();] *)
Fixpoint sl_exit_forever (fuel : nat) : SL unit :=
  match fuel with
  | O => panic NoFuel
  | S fuel => sl_cs_exit_schedule ;; sl_exit_forever fuel
  end.

Definition sl_thd_free_no_cs (t : Z) : SL unit :=
  ct <- sl_thd_curr ;;
  massert (negb (t =? 0)) ;;
  st <- getf t F_state ;;
  massert (negb (st =? SL_THD_FREE)) ;;
  (if st =? SL_THD_BLOCKED_TIMEOUT then sl_timeout_remove t else ret tt) ;;
  sl_mod_thd_delete t ;;
  setf t F_state SL_THD_FREE ;;
  if t =? ct then sl_exit_forever spin else ret tt.

Definition sl_thd_free (t : Z) : SL unit :=
  massert (negb (t =? 0)) ;; sl_cs_enter ;; sl_thd_free_no_cs t ;; sl_cs_exit.

Definition sl_thd_exit : SL unit := t <- sl_thd_curr ;; sl_thd_free t.

(** ** Requests between cores, [sl_xcpu.c] *)

(** Checks that every request starts with; [Some e] is the error returned. *)
Definition sl_xcpu_guard (target : Z) : SL (option Z) :=
  c <- gets cpu ;; b <- gets cpu_bmp ;;
  ret (if target =? c then Some (- EINVAL) else if b target then None else Some (- EINVAL)).

(** [SL_REQ_TYPE] and the enqueue; the two variants differ in leaving the
    critical section. *)
Definition __sl_xcpu_req_exit_test (target : Z) (q : sl_xcpu_req) : SL Z :=
  c <- gets cpu ;; rs <- gets xrings ;;
  let '(ok, r) := ck_ring_enqueue (mkReq c q) (rs target) in
  modify (with_xrings (fupd target r rs)) ;;
  ret (if ok then 0 else - ENOMEM).

Definition __sl_xcpu_req_exit (target : Z) (q : sl_xcpu_req) : SL Z :=
  r <- __sl_xcpu_req_exit_test target q ;; sl_cs_exit ;; ret r.

Definition sl_xcpu_send (target : Z) (q : sl_xcpu_req) : SL Z :=
  e <- sl_xcpu_guard target ;;
  match e with
  | Some e => ret e
  | None => sl_cs_enter ;; __sl_xcpu_req_exit target q
  end.

(** [sz = sizeof(params) / sizeof(params[0])] is the size of a pointer over
    that of a parameter, 4 / 8 = 0: no parameter is sent. *)
Definition sl_xcpu_thd_alloc (target fn data : Z) (params : list Z) : SL Z :=
  sl_xcpu_send target (SL_XCPU_THD_ALLOC fn data (take (Z.to_nat (4 / 8)) params)).
Definition sl_xcpu_initaep_alloc (target dci sched_thd is_sched own_tcap ret_thd : Z) : SL Z :=
  sl_xcpu_send target (SL_XCPU_INITAEP_ALLOC dci sched_thd is_sched own_tcap ret_thd).
Definition sl_xcpu_thd_param_set (target tid sp : Z) : SL Z :=
  sl_xcpu_send target (SL_XCPU_THD_SET_PARAM tid sp).
Definition sl_xcpu_thd_wakeup (target tid : Z) : SL Z :=
  sl_xcpu_send target (SL_XCPU_THD_WAKEUP tid).
Definition sl_xcpu_thd_set_tls (target ci tc tlsaddr : Z) : SL Z :=
  sl_xcpu_send target (SL_XCPU_THD_SET_TLS ci tc tlsaddr).

Definition sl_xcpu_thd_wakeup_with_dl (target tid sp : Z) : SL Z :=
  e <- sl_xcpu_guard target ;;
  match e with
  | Some e => ret e
  | None => __sl_xcpu_req_exit_test target (SL_XCPU_THD_WAKEUP_WITH_DL tid sp)
  end.

Fixpoint sl_params_set (t : Z) (params : list Z) : SL unit :=
  match params with
  | [] => ret tt
  | sp :: params => sl_thd_param_set t sp ;; sl_params_set t params
  end.

(** One round of [sl_xcpu_process_no_cs]. *)
Definition sl_xcpu_handle (q : sl_xcpu_request) : SL unit :=
  c <- gets cpu ;;
  massert (negb (req_client q =? c)) ;;
  match req_body q with
  | SL_XCPU_THD_ALLOC fn data params =>
      massert (negb (fn =? 0)) ;;
      t <- sl_thd_alloc_no_cs fn data ;;
      massert (negb (t =? 0)) ;;
      sl_params_set t params
  | SL_XCPU_INITAEP_ALLOC dci sched_thd is_sched own_tcap ret_thd =>
      t <- sl_thd_initaep_alloc_no_cs dci sched_thd is_sched own_tcap ;;
      massert (negb (t =? 0)) ;;
      modify (fun s => with_xret (fupd ret_thd t (xret s)) s)
  | SL_XCPU_THD_SET_PARAM tid sp =>
      t <- sl_thd_lkup tid ;; massert (negb (t =? 0)) ;; sl_thd_param_set t sp
  | SL_XCPU_THD_WAKEUP tid =>
      t <- sl_thd_lkup tid ;; massert (negb (t =? 0)) ;; sl_thd_wakeup_no_cs_rm t ;; ret tt
  | SL_XCPU_THD_SET_TLS ci tc tlsaddr => _ <- kapi (K_thd_mod ci tc tlsaddr) ;; ret tt
  | SL_XCPU_THD_WAKEUP_WITH_DL tid sp =>
      t <- sl_thd_lkup tid ;; massert (negb (t =? 0)) ;;
      sl_thd_param_set t sp ;; sl_thd_wakeup_no_cs_rm t ;; ret tt
  end.

(** The loop ends when the ring is found empty; other cores may refill it. *)
Fixpoint sl_xcpu_process_loop (fuel : nat) (num : Z) : SL Z :=
  match fuel with
  | O => panic NoFuel
  | S fuel =>
      c <- gets cpu ;; rs <- gets xrings ;;
      match ck_ring_dequeue (rs c) with
      | None => ret num
      | Some (q, r) =>
          modify (with_xrings (fupd c r rs)) ;;
          sl_xcpu_handle q ;;
          sl_xcpu_process_loop fuel (num + 1)
      end
  end.
Definition sl_xcpu_process_no_cs : SL Z := sl_xcpu_process_loop spin 0.

(** ** The scheduler thread *)

Definition RCV_NON_BLOCKING : Z := 1.
Definition RCV_ALL_PENDING : Z := 2.

(** Notifications from the parent scheduler. *)
Fixpoint sl_child_notif_loop (fuel : nat) : SL unit :=
  match fuel with
  | O => panic NoFuel
  | S fuel =>
      n <- sl_child_notif_dequeue ;;
      match n with
      | None => ret tt
      | Some (type, tid) =>
          t <- sl_thd_lkup tid ;;
          (if type =? SL_CHILD_THD_BLOCK then sl_thd_block_no_cs t SL_THD_BLOCKED 0
           else sl_thd_wakeup_no_cs t) ;;
          sl_child_notif_loop fuel
      end
  end.

(** The body of the [do ... while (pending > 0)] loop; returns [pending]. *)
Definition sl_sched_rcv (rfl : Z) : SL Z :=
  timeout <- getg G_timeout_next ;;
  rcv <- getg G_sched_rcv ;;
  ev <- cos_sched_rcv rcv rfl timeout ;;
  (if se_tid ev =? 0 then ret tt else
   t <- sl_thd_lkup (se_tid ev) ;;
   massert (negb (t =? 0)) ;;
   idle <- getg G_idle_thd ;;
   st <- getf t F_state ;;
   if (t =? idle) || (st =? SL_THD_FREE) then ret tt else
   sl_thd_event_enqueue t (se_blocked ev) (se_cycles ev) (se_timeout ev)) ;;
  l <- gets events ;;
  c <- gets cpu ;; rs <- gets xrings ;;
  nochild <- sl_child_notif_empty ;;
  if pl_head_empty l && (ck_ring_size (rs c) =? 0) && nochild then ret (se_pending ev) else
  r <- sl_cs_enter_sched ;;
  if negb (r =? 0) then ret (se_pending ev) else
  l <- gets events ;;
  sl_events_loop (pl_view l) ;;
  sl_child_notif_loop spin ;;
  sl_xcpu_process_no_cs ;;
  sl_cs_exit ;;
  ret (se_pending ev).

Fixpoint sl_sched_rcv_loop (fuel : nat) (rfl : Z) : SL unit :=
  match fuel with
  | O => panic NoFuel
  | S fuel => p <- sl_sched_rcv rfl ;; if p >? 0 then sl_sched_rcv_loop fuel rfl else ret tt
  end.

(** One round of the [while (1)] loop of [sl_sched_loop_intern]. *)
Definition sl_sched_round (non_block : bool) : SL unit :=
  let rfl := Z.lor (if non_block then RCV_NON_BLOCKING else 0) RCV_ALL_PENDING in
  sl_sched_rcv_loop spin rfl ;;
  r <- sl_cs_enter_sched ;;
  if negb (r =? 0) then ret tt else
  sl_cs_exit_schedule_nospin ;; ret tt.

(** One round of the idle thread, [sl_idle]. *)
Definition sl_idle_round : SL unit :=
  c <- gets cpu ;; rs <- gets xrings ;;
  (if negb (ck_ring_size (rs c) =? 0) then
     sl_cs_enter ;; sl_xcpu_process_no_cs ;; sl_cs_exit
   else ret tt) ;;
  sl_thd_yield 0.

(** ** Initialisation of a core

    [sl_init] after the rings are set up.  The scheduler's own [cos_aep_info]
    is static, index -1 here; [BOOT_CAPTBL_SELF_INIT*_CPU_BASE] are its
    capabilities.  [sl_idle] is passed as the function [idle_fn]. *)

Definition BOOT_CAPTBL_SELF_INITTHD_BASE : Z := 36.
Definition BOOT_CAPTBL_SELF_INITRCV_BASE : Z :=
  round_up_to_pow2 (BOOT_CAPTBL_SELF_INITTHD_BASE + NUM_CPU * 4) 4.

Definition sl_xcpu_asnd_alloc : SL unit :=
  for_n (Z.to_nat NUM_CPU) 0 (fun i =>
    c <- gets cpu ;; b <- gets cpu_bmp ;;
    if (i =? c) || negb (b i) then ret tt else
    snd <- kapi (K_asnd_alloc (BOOT_CAPTBL_SELF_INITRCV_BASE + i * 4)) ;;
    massert (negb (snd =? 0))).

Definition sl_init (period idle_fn : Z) : SL unit :=
  modify (fun s => with_glob (fun f => match f with
                                       | G_child_ring | G_sl_per_core => glob s f
                                       | _ => 0 end) s) ;;
  cyc <- kapi K_cycles_per_usec ;; setg G_cyc_per_usec cyc ;;
  setg G_lock 0 ;;
  sl_thd_init_backend ;;
  sl_mod_init ;;
  sl_timeout_init period ;;
  sa <- sched_aep_get 0 ;;
  set_aep (-1) sa ;;
  t <- sl_thd_alloc_init (-1) 0 0 ;;
  setg G_sched_thd t ;;
  massert (negb (t =? 0)) ;;
  c <- gets cpu ;;
  setg G_sched_thdcap (BOOT_CAPTBL_SELF_INITTHD_BASE + c * 4) ;;
  setg G_sched_tcap (BOOT_CAPTBL_SELF_INITTHD_BASE + c * 4 + 1) ;;
  setg G_sched_rcv (BOOT_CAPTBL_SELF_INITRCV_BASE + c * 4) ;;
  setf t F_prio 0 ;;
  idle <- sl_thd_alloc idle_fn 0 ;;
  setg G_idle_thd idle ;;
  massert (negb (idle =? 0)) ;;
  sl_xcpu_asnd_alloc.

(** ** Locks of components, [sl_lock.h]

    [holder] is the word of the lock; the loop of [sl_lock_take] yields to the
    holder until the lock is free.  Words of locks are in [xret]'s memory. *)

Definition lock_holder (lock : Z) : SL Z := gets (fun s => xret s lock).
Definition lock_set (lock v : Z) : SL unit := modify (fun s => with_xret (fupd lock v (xret s)) s).

Fixpoint sl_lock_take_loop (fuel : nat) (lock : Z) : SL unit :=
  h <- lock_holder lock ;;
  if h =? 0 then ret tt else
  match fuel with
  | O => panic NoFuel
  | S fuel => sl_thd_yield_cs_exit h ;; sl_cs_enter ;; sl_lock_take_loop fuel lock
  end.

Definition sl_lock_take (lock : Z) : SL unit :=
  sl_cs_enter ;;
  sl_lock_take_loop spin lock ;;
  tid <- sl_thdid ;; lock_set lock tid ;;
  sl_cs_exit.

Definition sl_lock_release (lock : Z) : SL unit :=
  sl_cs_enter ;;
  h <- lock_holder lock ;; tid <- sl_thdid ;;
  massert (h =? tid) ;;
  lock_set lock 0 ;;
  sl_cs_exit.

Definition sl_lock_try_take (lock : Z) : SL Z :=
  sl_cs_enter ;;
  h <- lock_holder lock ;;
  r <- (if h =? 0 then tid <- sl_thdid ;; lock_set lock tid ;; ret 1 else ret 0) ;;
  sl_cs_exit ;;
  ret r.

Fixpoint sl_lock_timed_loop (fuel : nat) (lock deadline : Z) : SL unit :=
  h <- lock_holder lock ;;
  if h =? 0 then ret tt else
  now <- sl_now ;;
  if negb (now <? deadline) then ret tt else
  match fuel with
  | O => panic NoFuel
  | S fuel =>
      h <- lock_holder lock ;;
      sl_thd_yield_cs_exit h ;; sl_cs_enter ;; sl_lock_timed_loop fuel lock deadline
  end.

Definition sl_lock_timed_take (lock max_wait_time : Z) : SL Z :=
  now <- sl_now ;; d <- sl_usec2cyc max_wait_time ;;
  let deadline := u64 (now + d) in
  sl_cs_enter ;;
  sl_lock_timed_loop spin lock deadline ;;
  h <- lock_holder lock ;;
  r <- (if h =? 0 then tid <- sl_thdid ;; lock_set lock tid ;; ret 1 else ret 0) ;;
  sl_cs_exit ;;
  ret r.

(** ** Operations on the thread of any core, [eos_sched.c] *)

Definition eos_initaep_alloc (target dci sched_thd is_sched own_tcap ret_thd : Z) : SL Z :=
  c <- gets cpu ;;
  if target =? c then
    t <- sl_thd_initaep_alloc dci sched_thd is_sched own_tcap ;;
    modify (fun s => with_xret (fupd ret_thd t (xret s)) s) ;;
    ret 0
  else sl_xcpu_initaep_alloc target dci sched_thd is_sched own_tcap ret_thd.

(** [arg_thd] is the address of the pointer to the thread. *)
Definition eos_thd_param_set (target arg_thd sp : Z) : SL Z :=
  c <- gets cpu ;;
  t <- gets (fun s => xret s arg_thd) ;;
  if target =? c then sl_thd_param_set t sp ;; ret 0
  else
    if t =? 0 then panic NullDeref else
    tid <- sl_thd_thdid t ;; sl_xcpu_thd_param_set target tid sp.

Definition eos_thd_wakeup (target tid : Z) : SL Z :=
  c <- gets cpu ;;
  if target =? c then sl_thd_wakeup tid ;; ret 0 else sl_xcpu_thd_wakeup target tid.

Definition eos_thd_wakeup_with_dl (target tid deadline : Z) : SL Z :=
  c <- gets cpu ;;
  if target =? c then panic AssertFail
  else sl_xcpu_thd_wakeup_with_dl target tid (sched_param_pack SCHEDP_DEADLINE deadline).

Definition eos_thd_set_tls (target ci tc tlsaddr : Z) : SL Z :=
  c <- gets cpu ;;
  if target =? c then panic AssertFail else sl_xcpu_thd_set_tls target ci tc tlsaddr.

End ops.
