(* ===== verification/SlSpec.v ===== *)
(** * Properties of the scheduling library

    The run queue and the timeout queue are heaps ([Heap.v]) whose entries are
    threads; [sl_inv] ties them to the indices that threads record.  The
    theorems show that blocking, waking and parameter changes are the
    operations of the abstract scheduler ([runq], the set of threads that may
    run, ordered by deadline), that a blocking thread hands the processor to
    the thread with the earliest deadline, that timeouts fire in order, and
    what a wake-up sent from another core does when it arrives. *)

From S2P Require Import Prelude Config Heap Ring Sl.

(** ** The heap laws of the two queues *)

Lemma fupd_eq {A B} `{!EqDecision A} (a : A) (b : B) f : fupd a b f a = b.
Proof. unfold fupd. by rewrite decide_True. Qed.
Lemma fupd_ne {A B} `{!EqDecision A} (a x : A) (b : B) f : x <> a -> fupd a b f x = f x.
Proof. intros. unfold fupd. by rewrite decide_False. Qed.

Lemma upd_thd_at {R L} t f v (s : slst R L) x g :
  thds (upd_thd t f v s) x g = if decide (x = t /\ g = f) then v else thds s x g.
Proof.
  unfold upd_thd, fupd. simpl. destruct (decide (x = t)) as [->|Hx].
  - destruct (decide (g = f)) as [->|Hg]; [by rewrite decide_True|].
    rewrite decide_False; [done|naive_solver].
  - rewrite decide_False; [done|naive_solver].
Qed.

#[global] Arguments upd_thd : simpl never.

#[export] Instance edf_laws {R L} : HeapLaws (edfst R L).
Proof.
  split; try done; cbn [h_c h_u h_pos hc_get hc_put edf_client un_edf];
    unfold __compare_min, __update_idx.
  - intros. rewrite !upd_thd_at. by rewrite !decide_False by naive_solver.
  - intros x i s y. rewrite upd_thd_at. destruct (decide (y = x)) as [->|]; [by rewrite decide_True|].
    rewrite decide_False; naive_solver.
  - intros s a b. rewrite !Z.leb_le. lia.
  - intros s a b c. rewrite !Z.leb_le. lia.
Qed.

#[export] Instance tmo_laws {R L} : HeapLaws (tmost R L).
Proof.
  split; try done; cbn [h_c h_u h_pos hc_get hc_put tmo_client un_tmo];
    unfold __sl_timeout_compare_min, __sl_timeout_update_idx.
  - intros. rewrite !upd_thd_at. by rewrite !decide_False by naive_solver.
  - intros x i s y. rewrite upd_thd_at. destruct (decide (y = x)) as [->|]; [by rewrite decide_True|].
    rewrite decide_False; naive_solver.
  - intros s a b. rewrite !Z.leb_le. lia.
  - intros s a b c. rewrite !Z.leb_le. lia.
Qed.

(** ** Frames *)

(** [quiet T s s']: apart from the fields [T] of threads, the two queues, the
    accounting of the policy and the clock, nothing changed. *)
Definition quiet {R L} (T : Z -> thd_field -> Prop) (s s' : slst R L) : Prop :=
  (forall x f, ~ T x f -> thds s' x f = thds s x f) /\
  (forall f, f <> G_sl_per_core -> glob s' f = glob s f) /\
  aeps s' = aeps s /\ aep_off s' = aep_off s /\ events s' = events s /\
  xrings s' = xrings s /\ cpu_bmp s' = cpu_bmp s /\ cpu s' = cpu s /\ cur s' = cur s /\
  sl_tsc s' = sl_tsc s /\ xret s' = xret s.

Lemma quiet_refl {R L} T (s : slst R L) : quiet T s s.
Proof. by repeat split. Qed.

Lemma quiet_trans {R L} (T1 T2 T : Z -> thd_field -> Prop) (s1 s2 s3 : slst R L) :
  quiet T1 s1 s2 -> quiet T2 s2 s3 ->
  (forall x f, T1 x f -> T x f) -> (forall x f, T2 x f -> T x f) -> quiet T s1 s3.
Proof.
  intros (A1 & G1 & B1) (A2 & G2 & B2) H1 H2. split.
  { intros x f Hn. rewrite A2, A1; [done|by intros ?%H1|by intros ?%H2]. }
  split; [intros f Hf; by rewrite G2, G1|].
  destruct_and!. split_and!; congruence.
Qed.

Lemma quiet_weaken {R L} (T1 T : Z -> thd_field -> Prop) (s s' : slst R L) :
  quiet T1 s s' -> (forall x f, T1 x f -> T x f) -> quiet T s s'.
Proof. intros H1 H. eapply quiet_trans; [exact H1|apply (quiet_refl (fun _ _ => False))|done|done]. Qed.

Lemma quiet_seq {R L} (T : Z -> thd_field -> Prop) (s1 s2 s3 : slst R L) :
  quiet T s1 s2 -> quiet T s2 s3 -> quiet T s1 s3.
Proof. intros. by eapply quiet_trans. Qed.

Lemma quiet_upd {R L} (T : Z -> thd_field -> Prop) t f v (s : slst R L) :
  T t f -> quiet T s (upd_thd t f v s).
Proof.
  intros Hf. split_and!; try done. intros x g Hg. rewrite upd_thd_at, decide_False; [done|].
  intros [-> ->]. by apply Hg.
Qed.

(** Operations on the run queue change [edf] and [P_prio_idx] only, those on
    the timeout queue [tmo] and [F_timeout_idx]. *)
Definition is_field (g : thd_field) : Z -> thd_field -> Prop := fun _ f => f = g.

Lemma edf_steps {R L} (s s' : edfst R L) : rtc heap_step s s' ->
  quiet (is_field P_prio_idx) (un_edf s) (un_edf s') /\ tmo (un_edf s') = tmo (un_edf s) /\
  sl_tick (un_edf s') = sl_tick (un_edf s) /\ glob (un_edf s') = glob (un_edf s).
Proof.
  induction 1 as [s|s1 s2 s3 Hs _ (IH1 & IH2 & IH3 & IH4)]; [by split; [apply quiet_refl|]|].
  destruct Hs as [h|x i]; (split; [|done]).
  - eapply (quiet_trans (is_field P_prio_idx)); [|exact IH1|done|done]. by repeat split.
  - eapply (quiet_trans (is_field P_prio_idx)); [by apply quiet_upd|exact IH1|done|done].
Qed.

Lemma tmo_steps {R L} (s s' : tmost R L) : rtc heap_step s s' ->
  quiet (is_field F_timeout_idx) (un_tmo s) (un_tmo s') /\ edf (un_tmo s') = edf (un_tmo s) /\
  sl_tick (un_tmo s') = sl_tick (un_tmo s) /\ glob (un_tmo s') = glob (un_tmo s).
Proof.
  induction 1 as [s|s1 s2 s3 Hs _ (IH1 & IH2 & IH3 & IH4)]; [by split; [apply quiet_refl|]|].
  destruct Hs as [h|x i]; (split; [|done]).
  - eapply (quiet_trans (is_field F_timeout_idx)); [|exact IH1|done|done]. by repeat split.
  - eapply (quiet_trans (is_field F_timeout_idx)); [by apply quiet_upd|exact IH1|done|done].
Qed.

(** The representation of a queue depends on the heap, the index and the key. *)
Lemma edf_rep_ext {R L} (s s' : slst R L) X :
  edf s' = edf s -> (forall x, thds s' x P_prio_idx = thds s x P_prio_idx) ->
  (forall x, thds s' x P_deadline = thds s x P_deadline) ->
  heap_rep (EdfSt s) X -> heap_rep (EdfSt s') X.
Proof.
  intros He Hp Hd (Hwf & Ho & HX). unfold heap_rep, heap_wf, heap_ord, leq, in_heap, hend, hdat in *.
  cbn [hc_get h_pos h_c edf_client un_edf] in *. unfold __compare_min in *. rewrite He.
  split_and!; try done; [apply Hwf|apply Hwf| |].
  - intros i Hi. destruct (proj2 Hwf i Hi) as (x & ? & ? & ?). exists x. by rewrite Hp.
  - intros i Hi. destruct (Ho i Hi) as (x & y & ? & ? & ?). exists x, y. by rewrite !Hd.
Qed.

Lemma tmo_rep_ext {R L} (s s' : slst R L) X :
  tmo s' = tmo s -> (forall x, thds s' x F_timeout_idx = thds s x F_timeout_idx) ->
  (forall x, thds s' x F_timeout_cycs = thds s x F_timeout_cycs) ->
  heap_rep (TmoSt s) X -> heap_rep (TmoSt s') X.
Proof.
  intros He Hp Hd (Hwf & Ho & HX). unfold heap_rep, heap_wf, heap_ord, leq, in_heap, hend, hdat in *.
  cbn [hc_get h_pos h_c tmo_client un_tmo] in *. unfold __sl_timeout_compare_min in *. rewrite He.
  split_and!; try done; [apply Hwf|apply Hwf| |].
  - intros i Hi. destruct (proj2 Hwf i Hi) as (x & ? & ? & ?). exists x. by rewrite Hp.
  - intros i Hi. destruct (Ho i Hi) as (x & y & ? & ? & ?). exists x, y. by rewrite !Hd.
Qed.

(** ** Running the code *)

Lemma upd_thd_same {R L} t f v (s : slst R L) : thds (upd_thd t f v s) t f = v.
Proof. by rewrite upd_thd_at, decide_True. Qed.
Lemma upd_thd_fld {R L} t f v (s : slst R L) x g : g <> f -> thds (upd_thd t f v s) x g = thds s x g.
Proof. intros. rewrite upd_thd_at, decide_False; naive_solver. Qed.
Lemma upd_thd_other {R L} t f v (s : slst R L) x g : x <> t -> thds (upd_thd t f v s) x g = thds s x g.
Proof. intros. rewrite upd_thd_at, decide_False; naive_solver. Qed.

(** The state after [sl_account]. *)
Definition accounted {R L} (start : Z) (s : slst R L) : slst R L :=
  with_glob (fupd G_sl_per_core (u64 (glob s G_sl_per_core + (sl_tsc s (sl_tick s) - start))) (glob s))
            (with_tick (S (sl_tick s)) s).

Lemma quiet_accounted {R L} T start (s : slst R L) : quiet T s (accounted start s).
Proof. split_and!; try done. intros f Hf. simpl. by rewrite fupd_ne. Qed.

Lemma quiet_tick {R L} T n (s : slst R L) : quiet T s (with_tick n s).
Proof. by repeat split. Qed.

Lemma sl_account_eq {R L} n (s : slst R L) : sl_account n s = Ok tt (accounted n s).
Proof. done. Qed.

(** [slstep] runs the next assignment, read or assertion. *)
Ltac slstep :=
  lazymatch goal with
  | |- context [bind (bind ?m ?k) ?l ?s] => rewrite (bind_assoc m k l s)
  | |- context [bind (ret ?a) ?k ?s] => change (bind (ret a) k s) with (k a s)
  | |- context [bind (getf ?t ?f) ?k ?s] => change (bind (getf t f) k s) with (k (thds s t f) s)
  | |- context [bind (setf ?t ?f ?v) ?k ?s] =>
      change (bind (setf t f v) k s) with (k tt (upd_thd t f v s))
  | |- context [bind (faaf ?t ?f ?d) ?k ?s] =>
      change (bind (faaf t f d) k s) with (k (thds s t f) (upd_thd t f (i32 (thds s t f + d)) s))
  | |- context [bind (getg ?f) ?k ?s] => change (bind (getg f) k s) with (k (glob s f) s)
  | |- context [bind (setg ?f ?v) ?k ?s] =>
      change (bind (setg f v) k s) with (k tt (with_glob (fupd f v (glob s)) s))
  | |- context [bind sl_now ?k ?s] =>
      change (bind sl_now k s) with (k (sl_tsc s (sl_tick s)) (with_tick (S (sl_tick s)) s))
  | |- context [bind (sl_account ?n) ?k ?s] =>
      change (bind (sl_account n) k s) with (k tt (accounted n s))
  | |- context [bind (gets ?f) ?k ?s] => change (bind (gets f) k s) with (k (f s) s)
  | |- context [bind (modify ?f) ?k ?s] => change (bind (modify f) k s) with (k tt (f s))
  end; cbv beta.

(** [slassert tac]: the assertion holds by [tac]. *)
Ltac slassert tac :=
  match goal with
  | |- context [bind (massert ?b) ?k ?s] =>
      rewrite (bind_Ok (massert b) k s tt s) by (apply massert_Ok; tac); cbv beta
  end.

(** [slgo] runs as far as reads, writes and evident assertions go. *)
Ltac slside :=
  unfold SL_MAX_NUM_THDS; first [ done | lia | apply negb_true_iff, Z.eqb_neq; first [done | lia] ].
Ltac slgo := repeat first [ slstep | slassert slside ].

Lemma on_edf_Ok {R L A} (m : M (edfst R L) A) s a s' :
  m (EdfSt s) = Ok a (EdfSt s') -> on_edf m s = Ok a s'.
Proof. unfold on_edf. by intros ->. Qed.
Lemma on_tmo_Ok {R L A} (m : M (tmost R L) A) s a s' :
  m (TmoSt s) = Ok a (TmoSt s') -> on_tmo m s = Ok a s'.
Proof. unfold on_tmo. by intros ->. Qed.

(** ** Operations on the two queues *)

(** The effect of a heap operation on the state of the core: [X] were the
    entries, [X'] are. *)
Definition edf_effect {R L} (s s' : slst R L) (X X' : gset Z) : Prop :=
  heap_rep (EdfSt s') X' /\ h_max_sz (edf s') = h_max_sz (edf s) /\
  (forall x, x ∉ X -> x ∉ X' -> thds s' x P_prio_idx = thds s x P_prio_idx) /\
  quiet (is_field P_prio_idx) s s' /\ tmo s' = tmo s.

Definition tmo_effect {R L} (s s' : slst R L) (X X' : gset Z) : Prop :=
  heap_rep (TmoSt s') X' /\ h_max_sz (tmo s') = h_max_sz (tmo s) /\
  (forall x, x ∉ X -> x ∉ X' -> thds s' x F_timeout_idx = thds s x F_timeout_idx) /\
  quiet (is_field F_timeout_idx) s s' /\ edf s' = edf s.

Lemma edf_effect_of {R L} (s s' : slst R L) P X X' :
  heap_becomes (EdfSt s) (EdfSt s') P ->
  (forall x, x ∈ X <-> in_heap (EdfSt s) x) -> (forall x, x ∈ X' <-> P x) ->
  edf_effect s s' X X'.
Proof.
  intros Hb HX HX'. pose proof Hb as (_ & _ & Hm & _ & _ & Ps & Rt).
  destruct (edf_steps _ _ Rt) as (Q & Ht & _). split_and!; try done.
  - by eapply heap_becomes_rep.
  - intros x Hx Hx'. apply (Ps x); [by rewrite <- HX|by rewrite <- HX'].
Qed.

Lemma tmo_effect_of {R L} (s s' : slst R L) P X X' :
  heap_becomes (TmoSt s) (TmoSt s') P ->
  (forall x, x ∈ X <-> in_heap (TmoSt s) x) -> (forall x, x ∈ X' <-> P x) ->
  tmo_effect s s' X X'.
Proof.
  intros Hb HX HX'. pose proof Hb as (_ & _ & Hm & _ & _ & Ps & Rt).
  destruct (tmo_steps _ _ Rt) as (Q & Ht & _). split_and!; try done.
  - by eapply heap_becomes_rep.
  - intros x Hx Hx'. apply (Ps x); [by rewrite <- HX|by rewrite <- HX'].
Qed.

(** At most [n - 1] threads have an identifier in [[1, n)]. *)
Lemma tids_size (X : gset Z) n : (forall x, x ∈ X -> 1 <= x < n) -> Z.of_nat (size X) <= Z.max 0 (n - 1).
Proof.
  intros H. transitivity (Z.of_nat (length (seqZ 1 (n - 1)))).
  - apply Nat2Z.inj_le. rewrite <- (size_list_to_set (C:=gset Z)) by apply NoDup_seqZ.
    apply subseteq_size. intros x Hx. apply elem_of_list_to_set, elem_of_seqZ.
    specialize (H x Hx). lia.
  - rewrite length_seqZ. lia.
Qed.

Section queue_ops.
Context {R L : Type}.
Implicit Types s : slst R L.

Lemma edf_add s X t :
  heap_rep (EdfSt s) X -> t ∉ X -> t <> 0 -> Z.of_nat (size X) + 1 < h_max_sz (edf s) ->
  exists s', on_edf (heap_add t) s = Ok 0 s' /\ edf_effect s s' X (X ∪ {[t]}).
Proof.
  intros Hr Ht H0 Hlt. pose proof (heap_rep_size _ _ Hr) as Hsz. pose proof Hr as (Hwf & Ho & HX).
  destruct (heap_add_Ok (EdfSt s) t) as ([s'] & E & _ & Hb); try done; [by rewrite <- HX| |].
  { cbn. cbn in Hsz. lia. }
  exists s'. split; [by apply on_edf_Ok|]. eapply edf_effect_of; [exact Hb|done|].
  intros x. rewrite elem_of_union, elem_of_singleton, HX. naive_solver.
Qed.

Lemma edf_remove s X t :
  heap_rep (EdfSt s) X -> t ∈ X ->
  exists s', on_edf (heap_remove (thds s t P_prio_idx)) s = Ok t s' /\ edf_effect s s' X (X ∖ {[t]}) /\
    1 <= thds s t P_prio_idx.
Proof.
  intros (Hwf & Ho & HX) Ht. apply HX in Ht. destruct (in_heap_pos _ t Hwf Ht) as (Hp & Dx & _).
  destruct (heap_remove_Ok (EdfSt s) _ t Hwf Ho Hp Dx) as ([s'] & E & _ & _ & Hb).
  exists s'. split_and!; [by apply on_edf_Ok| |apply Hp]. eapply edf_effect_of; [exact Hb|done|].
  intros x. rewrite elem_of_difference, elem_of_singleton, HX. done.
Qed.

Lemma edf_adjust s0 s X t :
  heap_rep (EdfSt s0) X -> rekeyed (EdfSt s0) (EdfSt s) t -> t ∈ X ->
  exists s', on_edf (heap_adjust (thds s t P_prio_idx)) s = Ok tt s' /\ edf_effect s s' X X /\
    1 <= thds s t P_prio_idx.
Proof.
  intros Hr Hk Ht. pose proof Hr as (Hwf & Ho & HX). pose proof (proj1 (HX t) Ht) as Hin.
  destruct (heap_rekey_rep _ _ t X Hr Hk Ht) as ([s'] & E & _ & _ & Hb).
  destruct (rekeyed_hole _ _ t Hwf Ho Hk Hin) as (_ & _ & I).
  destruct Hk as (_ & Hp & _). specialize (Hp t). cbn [h_pos edf_client un_edf] in Hp, E.
  rewrite <- Hp in E. exists s'. split_and!; [by apply on_edf_Ok| |].
  - eapply edf_effect_of; [exact Hb|intros x; by rewrite HX, I|done].
  - rewrite Hp. by apply (in_heap_pos (EdfSt s0) t Hwf Hin).
Qed.

(** A thread that is not queued can be given any deadline. *)
Lemma edf_rekey_out s0 s X t :
  heap_rep (EdfSt s0) X -> rekeyed (EdfSt s0) (EdfSt s) t -> t ∉ X -> heap_rep (EdfSt s) X.
Proof.
  intros (Hwf & Ho & HX) (Eg & Ep & Ec) Ht.
  unfold heap_rep, heap_wf, heap_ord, leq, in_heap, hend, hdat in *. rewrite Eg.
  split_and!; try done; [apply Hwf|apply Hwf| |].
  - intros i Hi. destruct (proj2 Hwf i Hi) as (x & ? & ? & ?). exists x. by rewrite Ep.
  - intros i Hi. destruct (Ho i Hi) as (x & y & Ex & Ey & ?). exists x, y.
    pose proof (half_lt i ltac:(lia)).
    rewrite Ec; [done| |]; intros ->; apply Ht, HX; eexists; (split; [|eassumption]); lia.
Qed.

Lemma edf_peek s X : heap_rep (EdfSt s) X ->
  exists r, on_edf heap_peek s = Ok r s /\ (X = ∅ -> r = 0) /\
    (X <> ∅ -> r ∈ X /\ r <> 0 /\ forall y, y ∈ X -> thds s r P_deadline <= thds s y P_deadline).
Proof.
  intros Hr. pose proof (heap_rep_size _ _ Hr) as Hsz. pose proof Hr as (Hwf & Ho & HX).
  destruct (heap_peek_Ok _ Hwf Ho) as [P0 P1]. destruct (decide (X = ∅)) as [->|Hne].
  - exists 0. split_and!; try done. apply on_edf_Ok, P0. rewrite size_empty in Hsz. lia.
  - destruct P1 as (r & Ep & _ & Nr & Hin & Hmin).
    { destruct (decide (size X = 0%nat)) as [E0|]; [|lia].
      by apply size_empty_inv, leibniz_equiv in E0. }
    exists r. split_and!; try done; [by apply on_edf_Ok|]. intros _. split_and!; [by apply HX|done|].
    intros y Hy. specialize (Hmin y (proj1 (HX y) Hy)). cbn in Hmin.
    unfold __compare_min in Hmin. lia.
Qed.

Lemma tmo_add s X t :
  heap_rep (TmoSt s) X -> t ∉ X -> t <> 0 -> Z.of_nat (size X) + 1 < h_max_sz (tmo s) ->
  exists s', on_tmo (heap_add t) s = Ok 0 s' /\ tmo_effect s s' X (X ∪ {[t]}).
Proof.
  intros Hr Ht H0 Hlt. pose proof (heap_rep_size _ _ Hr) as Hsz. pose proof Hr as (Hwf & Ho & HX).
  destruct (heap_add_Ok (TmoSt s) t) as ([s'] & E & _ & Hb); try done; [by rewrite <- HX| |].
  { cbn. cbn in Hsz. lia. }
  exists s'. split; [by apply on_tmo_Ok|]. eapply tmo_effect_of; [exact Hb|done|].
  intros x. rewrite elem_of_union, elem_of_singleton, HX. naive_solver.
Qed.

Lemma tmo_remove s X t :
  heap_rep (TmoSt s) X -> t ∈ X ->
  exists s', on_tmo (heap_remove (thds s t F_timeout_idx)) s = Ok t s' /\
    tmo_effect s s' X (X ∖ {[t]}) /\ 1 <= thds s t F_timeout_idx.
Proof.
  intros (Hwf & Ho & HX) Ht. apply HX in Ht. destruct (in_heap_pos _ t Hwf Ht) as (Hp & Dx & _).
  destruct (heap_remove_Ok (TmoSt s) _ t Hwf Ho Hp Dx) as ([s'] & E & _ & _ & Hb).
  exists s'. split_and!; [by apply on_tmo_Ok| |apply Hp]. eapply tmo_effect_of; [exact Hb|done|].
  intros x. rewrite elem_of_difference, elem_of_singleton, HX. done.
Qed.

Lemma tmo_size s X : heap_rep (TmoSt s) X -> on_tmo heap_size s = Ok (Z.of_nat (size X)) s.
Proof.
  intros Hr. pose proof (heap_rep_size _ _ Hr) as Hsz. apply on_tmo_Ok.
  unfold heap_size, hget. rewrite (bind_Ok _ _ (TmoSt s) (hc_get (TmoSt s)) (TmoSt s)) by done.
  unfold hend in Hsz. by rewrite Hsz.
Qed.

(** The entry with the earliest timeout, seen and taken. *)
Lemma tmo_highest s X : heap_rep (TmoSt s) X -> X <> ∅ ->
  exists r s', on_tmo heap_peek s = Ok r s /\ on_tmo heap_highest s = Ok r s' /\
    r ∈ X /\ r <> 0 /\ (forall y, y ∈ X -> thds s r F_timeout_cycs <= thds s y F_timeout_cycs) /\
    tmo_effect s s' X (X ∖ {[r]}).
Proof.
  intros Hr Hne. pose proof (heap_rep_size _ _ Hr) as Hsz. pose proof Hr as (Hwf & Ho & HX).
  assert (2 <= hend (TmoSt s)) as H2.
  { destruct (decide (size X = 0%nat)) as [E0|]; [|lia].
    by apply size_empty_inv, leibniz_equiv in E0. }
  destruct (heap_peek_Ok _ Hwf Ho) as [_ P1]. destruct (P1 H2) as (r & Ep & D1 & Nr & Hin & Hmin).
  destruct (heap_highest_Ok _ r Hwf Ho H2 D1) as ([s'] & Eh & _ & _ & Hb).
  exists r, s'. split_and!; [by apply on_tmo_Ok|by apply on_tmo_Ok|by apply HX|done| |].
  - intros y Hy. specialize (Hmin y (proj1 (HX y) Hy)). cbn in Hmin.
    unfold __sl_timeout_compare_min in Hmin. lia.
  - eapply tmo_effect_of; [exact Hb|done|].
    intros x. rewrite elem_of_difference, elem_of_singleton, HX. done.
Qed.

End queue_ops.

(** ** The invariant of a core

    [D] are the threads the scheduler manages, [X] those in the run queue and
    [Y] those in the timeout queue.  A thread outside of a queue has the index
    -1 there. *)
Definition sl_inv {R L} (s : slst R L) (D X Y : gset Z) : Prop :=
  heap_rep (EdfSt s) X /\ heap_rep (TmoSt s) Y /\ X ⊆ D /\ Y ⊆ D /\
  (forall t, t ∈ D -> 1 <= t < MAX_NUM_THREADS) /\
  h_max_sz (edf s) = SL_EDF_MAX_THDS + 1 /\ h_max_sz (tmo s) = SL_MAX_NUM_THDS + 1 /\
  (forall t, t ∈ D -> t ∉ X -> thds s t P_prio_idx = -1) /\
  (forall t, t ∈ D -> t ∉ Y -> thds s t F_timeout_idx = -1).

(** [near t s0 s]: the queues are those of [s0], apart from the deadline of [t]. *)
Definition near {R L} (t : Z) (s0 s : slst R L) : Prop :=
  edf s = edf s0 /\ tmo s = tmo s0 /\
  (forall x f, f ∈ [P_prio_idx; F_timeout_idx; F_timeout_cycs] -> thds s x f = thds s0 x f) /\
  (forall x, x <> t -> thds s x P_deadline = thds s0 x P_deadline).

Section inv_ops.
Context {R L : Type}.
Implicit Types s : slst R L.

Lemma near_refl t s : near t s s.
Proof. by repeat split. Qed.

Lemma near_tick t s0 s n : near t s0 s -> near t s0 (with_tick n s).
Proof. done. Qed.

Lemma near_accounted t s0 s n : near t s0 s -> near t s0 (accounted n s).
Proof. done. Qed.

Lemma near_upd t s0 s x f v :
  near t s0 s -> f ∉ [P_prio_idx; F_timeout_idx; F_timeout_cycs] -> (f = P_deadline -> x = t) ->
  near t s0 (upd_thd x f v s).
Proof.
  intros (E & T & H1 & H2) Hf Hd. split_and!; try done.
  - intros y g Hg. rewrite upd_thd_fld; [by apply H1|]. by intros ->.
  - intros y Hy. rewrite upd_thd_at. destruct (decide _) as [[-> <-]|_]; [by destruct Hy; auto|].
    by apply H2.
Qed.

Lemma near_rekeyed t s0 s : near t s0 s -> rekeyed (EdfSt s0) (EdfSt s) t.
Proof.
  intros (E & T & H1 & H2). split_and!; [done|intros; apply H1; set_solver|].
  intros a b Ha Hb. cbn. unfold __compare_min. by rewrite !H2.
Qed.

Lemma near_tmo t s0 s Y : near t s0 s -> heap_rep (TmoSt s0) Y -> heap_rep (TmoSt s) Y.
Proof. intros (E & T & H1 & H2). apply tmo_rep_ext; [done| |]; intros; apply H1; set_solver. Qed.

Lemma sl_inv_ext s s' D X Y :
  sl_inv s D X Y -> edf s' = edf s -> tmo s' = tmo s ->
  (forall x f, f ∈ [P_prio_idx; F_timeout_idx; F_timeout_cycs; P_deadline] ->
               thds s' x f = thds s x f) ->
  sl_inv s' D X Y.
Proof.
  intros (RX & RY & SX & SY & HD & MX & MY & IX & IY) E T Hf. unfold sl_inv. rewrite E, T.
  split_and!; try done.
  - eapply edf_rep_ext; [done| | |done]; intros; apply Hf; set_solver.
  - eapply tmo_rep_ext; [done| | |done]; intros; apply Hf; set_solver.
  - intros t Ht Hx. rewrite Hf by set_solver. by apply IX.
  - intros t Ht Hx. rewrite Hf by set_solver. by apply IY.
Qed.

(** An operation on the run queue, seen from the invariant. *)
Lemma sl_inv_edf s s' D X X' Y :
  (forall t, t ∈ D -> t ∉ X -> thds s t P_prio_idx = -1) ->
  (forall t, t ∈ D -> t ∉ Y -> thds s t F_timeout_idx = -1) ->
  h_max_sz (edf s) = SL_EDF_MAX_THDS + 1 -> h_max_sz (tmo s) = SL_MAX_NUM_THDS + 1 ->
  (forall t, t ∈ D -> 1 <= t < MAX_NUM_THREADS) ->
  heap_rep (TmoSt s) Y -> Y ⊆ D -> edf_effect s s' X X' -> X' ⊆ D ->
  (forall t, t ∈ X -> t ∉ X' -> thds s' t P_prio_idx = -1) ->
  sl_inv s' D X' Y.
Proof.
  intros IX IY MX MY HD RY SY (RX' & MX' & PX' & Q & T) SX' Hout.
  destruct Q as (QT & _). split_and!; try done.
  - eapply tmo_rep_ext; [done| | |done]; intros; by apply QT.
  - by rewrite MX'.
  - by rewrite T.
  - intros t Ht Hx'. destruct (decide (t ∈ X)); [by apply Hout|]. rewrite PX' by done. by apply IX.
  - intros t Ht Hy. rewrite QT by done. by apply IY.
Qed.

Lemma sl_mod_wakeup_Ok s0 s t D X Y :
  sl_inv s0 D X Y -> near t s0 s -> t ∈ D -> thds s t P_deadline <> SL_EDF_MAX_DEADLINE ->
  exists s', sl_mod_wakeup t s = Ok tt s' /\ sl_inv s' D (X ∪ {[t]}) Y /\
    quiet (is_field P_prio_idx) s s'.
Proof.
  intros (RX & RY & SX & SY & HD & MX & MY & IX & IY) Hn Ht Hdl.
  pose proof (HD t Ht) as Htr. pose proof (near_tmo _ _ _ _ Hn RY) as RY'.
  assert (forall x, x ∈ D -> x ∉ X -> thds s x P_prio_idx = -1) as IX'.
  { intros x Hx Hnx. destruct Hn as (_ & _ & H1 & _). rewrite H1 by set_solver. by apply IX. }
  assert (forall x, x ∈ D -> x ∉ Y -> thds s x F_timeout_idx = -1) as IY'.
  { intros x Hx Hnx. destruct Hn as (_ & _ & H1 & _). rewrite H1 by set_solver. by apply IY. }
  assert (h_max_sz (edf s) = SL_EDF_MAX_THDS + 1 /\ h_max_sz (tmo s) = SL_MAX_NUM_THDS + 1)
    as [MX' MY'] by (destruct Hn as (-> & -> & _); done).
  unfold sl_mod_wakeup. do 2 slstep. slassert ltac:(apply negb_true_iff, Z.eqb_neq; exact Hdl).
  slstep. set (s1 := with_tick _ s). set (start := sl_tsc s _).
  assert (near t s0 s1) as Hn1 by exact Hn.
  change (thds s1 t P_prio_idx) with (thds s t P_prio_idx).
  destruct (decide (t ∈ X)) as [Hin|Hout].
  - destruct (edf_adjust s0 s1 X t RX (near_rekeyed _ _ _ Hn1) Hin) as (s2 & E & Ef & Hp).
    change (thds s1 t P_prio_idx) with (thds s t P_prio_idx) in E, Hp.
    assert (thds s t P_prio_idx <? 0 = false) as -> by lia.
    slstep. slassert ltac:(lia). rewrite (bind_Ok _ _ _ _ _ E).
    exists (accounted start s2). split; [done|]. split.
    + replace (X ∪ {[t]}) with X by set_solver.
      eapply sl_inv_ext; [|done..]. eapply (sl_inv_edf s1 s2 D X X Y); try done.
    + eapply quiet_seq; [apply quiet_tick|]. eapply quiet_seq; [apply Ef|apply quiet_accounted].
  - rewrite (IX' t Ht Hout). cbn [Z.ltb Z.compare].
    assert (Z.of_nat (size X) <= MAX_NUM_THREADS - 1) as Hsz.
    { pose proof (tids_size X MAX_NUM_THREADS) as Hs. unfold MAX_NUM_THREADS, NUM_CPU in *.
      assert (Z.of_nat (size X) <= Z.max 0 (16 + 10 + 200 * (16 - 6) - 1)); [|lia].
      apply Hs. intros x Hx. apply HD. by apply SX. }
    destruct (edf_add s1 X t) as (s2 & E & Ef); [|done|lia| |].
    { eapply edf_rekey_out; [exact RX|by apply near_rekeyed|done]. }
    { change (edf s1) with (edf s). rewrite MX'. unfold SL_EDF_MAX_THDS. lia. }
    rewrite bind_assoc, (bind_Ok _ _ _ _ _ E). slstep.
    exists (accounted start s2). split; [done|]. split.
    + eapply sl_inv_ext; [|done..]. eapply (sl_inv_edf s1 s2 D X (X ∪ {[t]}) Y); try done.
      * intros y [Hy| ->%elem_of_singleton]%elem_of_union; [by apply SX|done].
      * intros y Hy []. by apply elem_of_union_l.
    + eapply quiet_seq; [apply quiet_tick|]. eapply quiet_seq; [apply Ef|apply quiet_accounted].
Qed.

Lemma sl_inv_field s D X Y t f v :
  sl_inv s D X Y -> f ∉ [P_prio_idx; F_timeout_idx; F_timeout_cycs; P_deadline] ->
  sl_inv (upd_thd t f v s) D X Y.
Proof.
  intros Hi Hf. eapply sl_inv_ext; [done|done|done|]. intros x g Hg. apply upd_thd_fld. by intros ->.
Qed.

(** Fields that neither queue uses. *)
Definition queue_field (f : thd_field) : bool :=
  match f with P_prio_idx | F_timeout_idx | F_timeout_cycs | P_deadline => true | _ => false end.

Lemma edf_effect_field s s' X X' t f v :
  edf_effect s s' X X' -> queue_field f = false ->
  heap_rep (EdfSt (upd_thd t f v s')) X'.
Proof.
  intros (RX & _) Hf. eapply (edf_rep_ext s'); [done| | |exact RX]; intros; apply upd_thd_fld; by intros <-.
Qed.

(** The end of a dequeue: the thread that left is given the index -1. *)
Lemma sl_inv_left s s2 t D X Y st :
  sl_inv s D X Y -> t ∈ X -> edf_effect s s2 X (X ∖ {[t]}) ->
  sl_inv (upd_thd t P_prio_idx (-1) (upd_thd t F_state st s2)) D (X ∖ {[t]}) Y.
Proof.
  intros (RX & RY & SX & SY & HD & MX & MY & IX & IY) Ht Ef. pose proof Ef as (RX2 & MX2 & PX2 & Q2 & T2).
  assert (forall x f, f <> P_prio_idx -> thds s2 x f = thds s x f) as Hs2
    by (intros x f Hf; by apply (proj1 Q2)).
  split_and!; try done.
  - refine (heap_rep_tell (EdfSt (upd_thd t F_state st s2)) (X ∖ {[t]}) t (-1) _ _); [|set_solver].
    eapply edf_effect_field; [exact Ef|done].
  - eapply tmo_rep_ext; [exact T2| | |exact RY]; intros x; by rewrite !upd_thd_fld, Hs2.
  - set_solver.
  - change (h_max_sz (edf s2) = SL_EDF_MAX_THDS + 1). by rewrite MX2.
  - change (h_max_sz (tmo s2) = SL_MAX_NUM_THDS + 1). by rewrite T2.
  - intros x Hx Hn. rewrite upd_thd_at. destruct (decide _) as [|Hd]; [done|].
    rewrite upd_thd_fld, PX2 by (done || set_solver). apply IX; set_solver.
  - intros x Hx Hn. rewrite !upd_thd_fld, Hs2 by done. by apply IY.
Qed.

Lemma sl_mod_block_Ok s t D X Y :
  sl_inv s D X Y -> t ∈ X ->
  exists s', sl_mod_block t s = Ok tt s' /\ sl_inv s' D (X ∖ {[t]}) Y /\
    quiet (fun x f => f = P_prio_idx \/ x = t /\ f = F_state) s s' /\
    thds s' t F_state = SL_THD_BLOCKED.
Proof.
  intros Hi Ht. unfold sl_mod_block. do 2 slstep.
  set (s1 := with_tick _ s). set (start := sl_tsc s _).
  assert (sl_inv s1 D X Y) as Hi1 by (by eapply sl_inv_ext).
  destruct (edf_remove s1 X t (proj1 Hi1) Ht) as (s2 & E & Ef & Hp).
  slassert lia. rewrite (bind_Ok _ _ _ _ _ E). do 2 slstep.
  set (s3 := upd_thd t P_prio_idx (-1) _).
  exists (accounted start s3). split; [done|]. split_and!.
  - eapply sl_inv_ext; [by apply (sl_inv_left s1)|done..].
  - eapply quiet_seq; [apply quiet_tick|]. eapply quiet_seq.
    { eapply quiet_weaken; [apply Ef|]. intros x f. unfold is_field. by left. }
    eapply quiet_seq; [apply quiet_upd; by right|].
    eapply quiet_seq; [apply quiet_upd; by left|apply quiet_accounted].
  - change (thds (accounted start s3) t F_state) with (thds s3 t F_state).
    subst s3. by rewrite upd_thd_fld, upd_thd_same.
Qed.

(** Waking a thread: it is runnable and queued, and has one more wake-up. *)
Lemma sl_thd_wakeup_no_cs_rm_Ok s0 s t D X Y :
  sl_inv s0 D X Y -> near t s0 s -> t ∈ D -> thds s t P_deadline <> SL_EDF_MAX_DEADLINE ->
  0 <= thds s t F_wakeup_cnt < 2147483647 ->
  exists s', sl_thd_wakeup_no_cs_rm t s = Ok 0 s' /\ sl_inv s' D (X ∪ {[t]}) Y /\
    quiet (fun x f => f = P_prio_idx \/
                      x = t /\ f ∈ [F_state; F_wakeup_cnt; F_rcv_suspended]) s s' /\
    thds s' t F_state = SL_THD_RUNNABLE /\ thds s' t F_rcv_suspended = 0 /\
    thds s' t F_wakeup_cnt = thds s t F_wakeup_cnt + 1.
Proof.
  intros Hi Hn Ht Hdl Hw. pose proof Hi as (_ & _ & _ & _ & HD & _). pose proof (HD t Ht).
  unfold sl_thd_wakeup_no_cs_rm. slassert ltac:(apply negb_true_iff, Z.eqb_neq; lia). slstep.
  destruct (sl_mod_wakeup_Ok s0 (upd_thd t F_state SL_THD_RUNNABLE s) t D X Y) as (s1 & E & Hi1 & Q1);
    [done|apply near_upd; [done|set_solver|done]|done|by rewrite upd_thd_fld|].
  rewrite (bind_Ok _ _ _ _ _ E). slstep.
  assert (forall x f, f <> P_prio_idx -> f <> F_state -> thds s1 x f = thds s x f) as H1.
  { intros x f Hf Hf'. rewrite (proj1 Q1), upd_thd_fld; done. }
  rewrite (H1 t F_wakeup_cnt) by done. slassert lia. slstep.
  eexists. split; [done|]. split_and!.
  - apply sl_inv_field; [apply sl_inv_field; [done|set_solver]|set_solver].
  - eapply quiet_seq; [apply (quiet_upd _ t F_state); right; set_solver|]. eapply quiet_seq.
    { eapply quiet_weaken; [exact Q1|]. intros x f. unfold is_field. by left. }
    eapply quiet_seq; apply quiet_upd; right; set_solver.
  - rewrite !upd_thd_fld by done. rewrite (proj1 Q1) by done. by rewrite upd_thd_same.
  - by rewrite upd_thd_same.
  - rewrite upd_thd_fld, upd_thd_same by done. unfold i32. rewrite Z.mod_small; lia.
Qed.

End inv_ops.

(** ** Scheduling parameters *)

Lemma sched_param_get_pack type value :
  sched_param_get (sched_param_pack type value) = (u8 type, value mod 2 ^ 56).
Proof.
  unfold sched_param_get, sched_param_pack, u8, u64.
  pose proof (Z.mod_pos_bound type 256 ltac:(lia)).
  pose proof (Z.mod_pos_bound value (2 ^ 56) ltac:(lia)).
  f_equal.
  - rewrite (Z.mul_comm 256), Z.mod_add by lia. by apply Z.mod_small.
  - rewrite (Z.mod_small (_ + _)) by lia. rewrite (Z.mul_comm 256), Z.div_add by lia.
    by rewrite (Z.div_small (type mod 256)).
Qed.

(** ** Threads that other cores wake

    The threads of network functions: each is woken with a deadline by the
    message-passing core and blocks when it has no more packets.  [wakeup_cnt]
    counts the wake-ups it has not yet consumed, and the thread is in the run
    queue exactly when there is one. *)

Record nf_thread {R L} (s : slst R L) (X : gset Z) (t : Z) : Prop := mkNf {
  nf_cnt : 0 <= thds s t F_wakeup_cnt < 2147483648;
  nf_queued : t ∈ X <-> 0 < thds s t F_wakeup_cnt;
  nf_state : thds s t F_state = if decide (t ∈ X) then SL_THD_RUNNABLE else SL_THD_BLOCKED;
  nf_rcv : thds s t F_rcv_suspended = 0;
  nf_sched : thds s t F_schedthd = 0;
  nf_prop : thds s t F_properties = 0;
  nf_aep : thds s t F_aepinfo <> 0;
  nf_tid : aeps s (thds s t F_aepinfo) A_tid = t;
  nf_cap : 0 < aeps s (thds s t F_aepinfo) A_thd < 2 ^ 31 }.

Definition nf_inv {R L} (s : slst R L) (D X : gset Z) : Prop :=
  sl_inv s D X ∅ /\ forall t, t ∈ D -> nf_thread s X t.

Section nf.
Context {R L : Type} `{!CkRing R sl_xcpu_request, !PsList L, !KernelApi (slst R L)}.
Implicit Types s : slst R L.

(** What a change of one thread leaves of the others. *)
Lemma nf_thread_other s s' X X' T t :
  quiet T s s' -> (forall f, T t f -> f ∈ [P_prio_idx; P_deadline; P_priority; F_prio]) ->
  (t ∈ X' <-> t ∈ X) -> nf_thread s X t -> nf_thread s' X' t.
Proof.
  intros Q HT HX [c1 c2 c3 c4 c5 c6 c7 c8 c9]. destruct Q as (QT & _ & Qa & _).
  assert (forall f, f ∉ [P_prio_idx; P_deadline; P_priority; F_prio] -> thds s' t f = thds s t f) as Hf.
  { intros f Hf. apply QT. by intros ?%HT. }
  split; rewrite ?Qa, ?Hf by set_solver; try done.
  - by rewrite HX.
  - rewrite c3. by destruct (decide (t ∈ X)), (decide (t ∈ X')); naive_solver.
Qed.

(** A deadline arrives together with the wake-up. *)
Lemma sl_thd_param_set_deadline s t dl :
  t <> 0 -> 0 <= dl < 2 ^ 56 ->
  exists s', sl_thd_param_set t (sched_param_pack SCHEDP_DEADLINE dl) s = Ok tt s' /\ near t s s' /\
    quiet (fun x f => x = t /\ f ∈ [P_deadline; P_priority]) s s' /\ thds s' t P_deadline = dl.
Proof.
  intros Ht Hdl. unfold sl_thd_param_set. slassert ltac:(by apply negb_true_iff, Z.eqb_neq).
  rewrite sched_param_get_pack, (Z.mod_small dl) by done.
  change (u8 SCHEDP_DEADLINE) with SCHEDP_DEADLINE.
  change (SCHEDP_DEADLINE =? SCHEDP_WINDOW) with false.
  change (SCHEDP_DEADLINE =? SCHEDP_BUDGET) with false. cbv iota.
  slstep. unfold sl_mod_thd_param_set. do 2 slstep.
  change (SCHEDP_DEADLINE =? SCHEDP_PRIO) with false.
  change (SCHEDP_DEADLINE =? SCHEDP_PRIO_BLOCK) with false.
  change (SCHEDP_DEADLINE =? SCHEDP_WINDOW) with false.
  change (SCHEDP_DEADLINE =? SCHEDP_DEADLINE) with true. cbv iota.
  do 3 slstep. rewrite sl_account_eq. eexists. split; [reflexivity|]. split_and!.
  - apply near_accounted, near_upd; [|set_solver|done]. apply near_upd; [done|set_solver|done].
  - eapply quiet_seq; [apply quiet_tick|]. eapply quiet_seq; [apply quiet_tick|].
    eapply quiet_seq; [apply (quiet_upd _ t P_deadline dl); set_solver|].
    eapply quiet_seq; [apply (quiet_upd _ t P_priority dl); set_solver|apply quiet_accounted].
  - change (thds (upd_thd t P_priority dl (upd_thd t P_deadline dl
      (with_tick (S (S (sl_tick s))) s))) t P_deadline = dl).
    by rewrite upd_thd_fld, upd_thd_same.
Qed.

(** The request that [eos_thd_wakeup_with_dl] sends, when it is handled. *)
Lemma handle_wakeup_with_dl s D X t dl client :
  nf_inv s D X -> t ∈ D -> client <> cpu s -> 0 <= dl < 2 ^ 56 ->
  thds s t F_wakeup_cnt < 2147483647 ->
  exists s', sl_xcpu_handle (mkReq client
      (SL_XCPU_THD_WAKEUP_WITH_DL t (sched_param_pack SCHEDP_DEADLINE dl))) s = Ok tt s' /\
    nf_inv s' D (X ∪ {[t]}) /\
    quiet (fun x f => f = P_prio_idx \/
       x = t /\ f ∈ [F_state; F_wakeup_cnt; F_rcv_suspended; P_deadline; P_priority]) s s' /\
    thds s' t F_wakeup_cnt = thds s t F_wakeup_cnt + 1 /\ thds s' t P_deadline = dl.
Proof.
  intros [Hi Hnf] Ht Hcl Hdl Hcnt. pose proof Hi as (_ & _ & _ & _ & HD & _). pose proof (HD t Ht) as Htr.
  pose proof (Hnf t Ht) as Hnt. unfold sl_xcpu_handle. cbn [req_client req_body].
  slstep. slassert ltac:(by apply negb_true_iff, Z.eqb_neq).
  unfold sl_thd_lkup, sl_thd_retrieve, sl_thd_lookup_backend. slstep.
  slassert ltac:(apply negb_true_iff, Z.eqb_neq; lia).
  assert (t >? MAX_NUM_THREADS = false) as -> by lia. slstep.
  slassert ltac:(unfold SL_MAX_NUM_THDS; lia). slstep.
  slassert ltac:(apply negb_true_iff, Z.eqb_neq; lia).
  destruct (sl_thd_param_set_deadline s t dl) as (s1 & E1 & Hn & Q1 & Ed); [lia|done|].
  rewrite (bind_Ok _ _ _ _ _ E1).
  assert (forall f, f ∉ [P_deadline; P_priority] -> thds s1 t f = thds s t f) as H1.
  { intros f Hf. apply (proj1 Q1). naive_solver. }
  destruct (sl_thd_wakeup_no_cs_rm_Ok s s1 t D X ∅ Hi Hn Ht) as (s2 & E2 & Hi2 & Q2 & St & Rs & Wc).
  { rewrite Ed. unfold SL_EDF_MAX_DEADLINE. lia. }
  { rewrite H1 by set_solver. pose proof (nf_cnt _ _ _ Hnt). lia. }
  rewrite (bind_Ok _ _ _ _ _ E2). exists s2. split; [done|].
  assert (quiet (fun x f => f = P_prio_idx \/
     x = t /\ f ∈ [F_state; F_wakeup_cnt; F_rcv_suspended; P_deadline; P_priority]) s s2) as Q.
  { eapply quiet_trans; [exact Q1|exact Q2| |]; simpl; intros x f; set_solver. }
  rewrite H1 in Wc by set_solver. split; [split; [exact Hi2|]|split; [exact Q|split; [exact Wc|]]].
  - intros x Hx. destruct (decide (x = t)) as [->|Hne].
    + destruct Hnt as [c1 c2 c3 c4 c5 c6 c7 c8 c9]. destruct Q as (QT & _ & Qa & _).
      assert (forall f, f ∉ [F_state; F_wakeup_cnt; F_rcv_suspended; P_deadline; P_priority; P_prio_idx] ->
                thds s2 t f = thds s t f) as H2 by (intros f Hf; apply QT; set_solver).
      split; rewrite ?Qa, ?Wc, ?(H2 F_schedthd), ?(H2 F_properties), ?(H2 F_aepinfo) by set_solver; try done.
      * lia.
      * split; [lia|set_solver].
      * rewrite St. by rewrite decide_True by set_solver.
    + eapply nf_thread_other; [exact Q| | |by apply Hnf]; [|set_solver].
      intros f [->|[? _]]; [set_solver|done].
  - rewrite (proj1 Q2), Ed by set_solver. done.
Qed.

(** A list of wake-ups: client core, thread, deadline. *)
Definition wake_req (w : Z * Z * Z) : sl_xcpu_request :=
  let '(client, t, dl) := w in
  mkReq client (SL_XCPU_THD_WAKEUP_WITH_DL t (sched_param_pack SCHEDP_DEADLINE dl)).
Definition wake_tid (w : Z * Z * Z) : Z := w.1.2.
Definition wake_dl (w : Z * Z * Z) : Z := w.2.

(** The wake-ups of [t] in the list, and the deadline the last of them sets. *)
Definition wakes (t : Z) (ws : list (Z * Z * Z)) : Z :=
  Z.of_nat (length (filter (fun w => wake_tid w = t) ws)).
Fixpoint last_dl (t : Z) (ws : list (Z * Z * Z)) (d : Z) : Z :=
  match ws with
  | [] => d
  | w :: ws => last_dl t ws (if decide (wake_tid w = t) then wake_dl w else d)
  end.

Definition wake_ok (D : gset Z) (c : Z) (w : Z * Z * Z) : Prop :=
  w.1.1 <> c /\ wake_tid w ∈ D /\ 0 <= wake_dl w < 2 ^ 56.

Lemma wakes_cons t w ws : wakes t (w :: ws) = (if decide (wake_tid w = t) then 1 else 0) + wakes t ws.
Proof. unfold wakes. rewrite filter_cons. case_decide; simpl; lia. Qed.

Context `{!CkRingLaws R sl_xcpu_request}.

(** Everything that is in the ring is processed, in order. *)
Lemma process_wakeups_aux ws : forall s D X fuel n,
  nf_inv s D X -> ck_view (xrings s (cpu s)) = map wake_req ws -> Forall (wake_ok D (cpu s)) ws ->
  (length ws < fuel)%nat -> (forall t, t ∈ D -> thds s t F_wakeup_cnt + Z.of_nat (length ws) < 2147483648) ->
  exists s', sl_xcpu_process_loop fuel n s = Ok (n + Z.of_nat (length ws)) s' /\
    nf_inv s' D (X ∪ list_to_set (map wake_tid ws)) /\
    (forall t, t ∈ D -> thds s' t F_wakeup_cnt = thds s t F_wakeup_cnt + wakes t ws /\
                        thds s' t P_deadline = last_dl t ws (thds s t P_deadline)) /\
    ck_view (xrings s' (cpu s')) = [] /\ cpu s' = cpu s.
Proof.
  induction ws as [|w ws IH]; intros s D X fuel n Hi Hv Hok Hf Hb; (destruct fuel as [|fuel]; [simpl in Hf; lia|]);
    cbn [sl_xcpu_process_loop]; do 2 slstep.
  - rewrite (ck_dequeue_nil _ Hv). exists s. split; [|split; [|split; [|done]]].
    + cbn [length Z.of_nat]. by rewrite Z.add_0_r.
    + replace (X ∪ list_to_set (map wake_tid [])) with X by set_solver. apply Hi.
    + intros t Ht. simpl. unfold wakes. simpl. split; [lia|done].
  - destruct (ck_dequeue_cons _ _ _ Hv) as (r & -> & Hv' & _). slstep.
    set (s1 := with_xrings _ s). destruct w as [[cl t] dl].
    apply Forall_cons_1 in Hok as [(Hcl & Ht & Hdl) Hok']. cbn [wake_tid wake_dl fst snd] in *.
    assert (nf_inv s1 D X) as Hi1.
    { destruct Hi as [Hsl Hnf]. split; [by eapply sl_inv_ext|]. intros x Hx.
      destruct (Hnf x Hx). by split. }
    destruct (handle_wakeup_with_dl s1 D X t dl cl Hi1 Ht Hcl Hdl) as (s2 & E2 & Hi2 & Q2 & Wc & Dl).
    { specialize (Hb t Ht). change (thds s t F_wakeup_cnt < 2147483647). simpl in Hb. lia. }
    cbn [wake_req]. rewrite (bind_Ok _ _ _ _ _ E2).
    pose proof Q2 as (QT & _ & _ & _ & _ & Qr & _ & Qc & _).
    assert (forall x, x <> t -> thds s2 x F_wakeup_cnt = thds s x F_wakeup_cnt /\
                                thds s2 x P_deadline = thds s x P_deadline) as Hoth.
    { intros x Hx. split; apply QT; naive_solver. }
    destruct (IH s2 D (X ∪ {[t]}) fuel (n + 1)) as (s' & E & Hi' & Hc & Hv2 & Hcpu); try done.
    { rewrite Qr, Qc. cbn. by rewrite fupd_eq. }
    { by rewrite Qc. }
    { simpl in Hf. lia. }
    { intros x Hx. specialize (Hb x Hx). simpl in Hb. destruct (decide (x = t)) as [->|Hne].
      - rewrite Wc. change (thds s1 t F_wakeup_cnt) with (thds s t F_wakeup_cnt). lia.
      - destruct (Hoth x Hne) as [-> _]. lia. }
    exists s'. split; [rewrite E; f_equal; simpl; lia|]. split; [|split; [|split; [done|by rewrite Hcpu, Qc]]].
    + replace (X ∪ list_to_set (map wake_tid ((cl, t, dl) :: ws)))
        with (X ∪ {[t]} ∪ list_to_set (C:=gset Z) (map wake_tid ws)) by set_solver. done.
    + intros x Hx. destruct (Hc x Hx) as [-> ->]. rewrite wakes_cons. cbn [last_dl wake_tid wake_dl fst snd].
      destruct (decide (t = x)) as [->|Hne].
      * rewrite Wc, Dl. change (thds s1 x F_wakeup_cnt) with (thds s x F_wakeup_cnt). split; [lia|done].
      * destruct (Hoth x) as [-> ->]; [congruence|]. split; [lia|done].
Qed.

(** ** The critical section, without contention *)

(** The current thread is [t], a thread with the capability [c]. *)
Definition running s (t c : Z) : Prop :=
  cur s = t /\ 1 <= t < MAX_NUM_THREADS /\ thds s t F_aepinfo <> 0 /\
  aeps s (thds s t F_aepinfo) A_thd = c /\ 0 < c < 2 ^ 31.

Lemma sl_thd_curr_Ok s t c : running s t c -> sl_thd_curr s = Ok t s.
Proof.
  intros (E & Ht & _). unfold sl_thd_curr, sl_thdid. do 2 slstep. rewrite E. slgo.
  unfold sl_thd_lkup. slgo. assert (t >? MAX_NUM_THREADS = false) as -> by lia.
  unfold sl_thd_retrieve, sl_thd_lookup_backend. by slgo.
Qed.

Lemma sl_thd_thdcap_Ok s t :
  thds s t F_aepinfo <> 0 -> sl_thd_thdcap t s = Ok (aeps s (thds s t F_aepinfo) A_thd) s.
Proof.
  intros H. unfold sl_thd_thdcap, aep_get. slstep.
  by assert (thds s t F_aepinfo =? 0 = false) as -> by (by apply Z.eqb_neq).
Qed.

Lemma lock_cas_Ok s old v :
  glob s G_lock = old -> lock_cas old v s = Ok true (with_glob (fupd G_lock v (glob s)) s).
Proof. intros <-. unfold lock_cas. slstep. by rewrite Z.eqb_refl. Qed.

Lemma cs_word_owner c k : 0 <= c < 2 ^ 31 -> cs_owner (cs_word c k) = c.
Proof.
  intros Hc. unfold cs_owner, cs_word. rewrite (Z.mul_comm (2 ^ 31)), Z.mod_add by lia.
  by rewrite Z.mod_mod, Z.mod_small by lia.
Qed.

Lemma cs_word_contention c : 0 <= c < 2 ^ 31 -> cs_contention (cs_word c 0) = 0.
Proof. intros Hc. unfold cs_contention, cs_word. rewrite (Z.mod_small c) by lia.
  change (2 ^ 31 * (0 mod 2)) with 0. rewrite Z.add_0_r. by apply Z.div_small. Qed.

Lemma sl_cs_owner_Ok s t c :
  running s t c -> sl_cs_owner s = Ok (cs_owner (glob s G_lock) =? c) s.
Proof.
  intros Hr. pose proof Hr as (_ & Ht & Ha & Hc & _). unfold sl_cs_owner. slstep.
  rewrite (bind_Ok _ _ _ _ _ (sl_thd_curr_Ok _ _ _ Hr)).
  by rewrite (bind_Ok _ _ _ _ _ (sl_thd_thdcap_Ok _ _ Ha)), Hc.
Qed.

Variable spin : nat.
Hypothesis Hspin : (1 <= spin)%nat.

(** The token is a counter of the library below; reading it does not touch
    the scheduler's data. *)
Hypothesis Hsync : forall s : slst R L, exists tok, kapi K_sched_sync s = Ok tok s.

(** Entering a free critical section takes it at once. *)
Lemma sl_cs_enter_Ok s t c :
  running s t c -> glob s G_lock = 0 ->
  sl_cs_enter spin s = Ok tt (with_glob (fupd G_lock (cs_word c 0) (glob s)) s).
Proof.
  intros Hr Hl. pose proof Hr as (_ & Ht & Ha & Hc & _). unfold sl_cs_enter.
  destruct spin as [|n]; [lia|]. cbn [sl_cs_enter_loop]. unfold sl_cs_enter_nospin.
  slstep. rewrite (bind_Ok _ _ _ _ _ (sl_thd_curr_Ok _ _ _ Hr)). slgo.
  destruct (Hsync s) as (tok & Et). rewrite (bind_Ok _ _ _ _ _ Et). slgo. rewrite Hl.
  change (negb (cs_owner 0 =? 0)) with false. cbv iota. slgo.
  rewrite (bind_Ok _ _ _ _ _ (sl_thd_thdcap_Ok _ _ Ha)), Hc. slgo.
  change (cs_contention 0) with 0. by rewrite (bind_Ok _ _ _ _ _ (lock_cas_Ok _ _ _ Hl)).
Qed.

(** Leaving it, with no contention, frees it. *)
Lemma sl_cs_exit_Ok s t c :
  running s t c -> glob s G_lock = cs_word c 0 ->
  sl_cs_exit spin s = Ok tt (with_glob (fupd G_lock 0 (glob s)) s).
Proof.
  intros Hr Hl. pose proof Hr as (_ & Ht & Ha & Hc & Hcr). unfold sl_cs_exit.
  rewrite (bind_Ok _ _ _ _ _ (sl_cs_owner_Ok _ _ _ Hr)), Hl, cs_word_owner by lia.
  slassert ltac:(apply Z.eqb_refl). destruct spin as [|n]; [lia|]. cbn [sl_cs_exit_loop].
  destruct (Hsync s) as (tok & Et). rewrite (bind_Ok _ _ _ _ _ Et). slstep.
  rewrite Hl, cs_word_contention by lia. cbn [Z.eqb negb].
  by rewrite (bind_Ok _ _ _ _ _ (lock_cas_Ok _ _ _ Hl)).
Qed.

(** ** Blocking *)

Lemma sl_thd_block_no_cs_Ok s t D X Y :
  sl_inv s D X Y -> t ∈ X -> cur s = t -> thds s t F_state = SL_THD_RUNNABLE ->
  thds s t F_rcv_suspended = 0 -> thds s t F_aepinfo <> 0 ->
  aeps s (thds s t F_aepinfo) A_tid = t ->
  exists s', sl_thd_block_no_cs t SL_THD_BLOCKED 0 s = Ok 0 s' /\ sl_inv s' D (X ∖ {[t]}) Y /\
    quiet (fun x f => f = P_prio_idx \/ x = t /\ f = F_state) s s' /\
    thds s' t F_state = SL_THD_BLOCKED.
Proof.
  intros Hi Ht Hc Hst Hrs Ha Htid. pose proof Hi as (_ & _ & SX & _ & HD & _).
  pose proof (HD t (SX t Ht)) as Htr. unfold sl_thd_block_no_cs, sl_thd_thdid, aep_get. slgo.
  assert (thds s t F_aepinfo =? 0 = false) as -> by (by apply Z.eqb_neq). slgo.
  rewrite Hst.
  change (SL_THD_RUNNABLE =? SL_THD_WOKEN) with false. cbv iota.
  unfold sl_thd_sched_unblock_no_cs. slgo. rewrite Hrs. cbn [Z.eqb]. slgo.
  destruct (sl_mod_block_Ok s t D X Y Hi Ht) as (s1 & E & Hi1 & Q1 & St1).
  rewrite (bind_Ok _ _ _ _ _ E). slgo. cbn [Z.eqb SL_THD_BLOCKED SL_THD_BLOCKED_TIMEOUT Pos.eqb].
  eexists. split; [reflexivity|]. split; [apply sl_inv_field; [done|set_solver]|]. split.
  - eapply quiet_seq; [exact Q1|]. apply quiet_upd. by right.
  - by rewrite upd_thd_same.
Qed.

(** The choice of the next thread: the earliest deadline, or the idle thread. *)
Lemma sl_pick_Ok s D X Y :
  sl_inv s D X Y ->
  exists u s', sl_pick 0 s = Ok u s' /\ (X = ∅ -> u = glob s G_idle_thd) /\
    (X <> ∅ -> u ∈ X /\ forall y, y ∈ X -> thds s u P_deadline <= thds s y P_deadline) /\
    sl_inv s' D X Y /\ quiet (fun _ _ => False) s s'.
Proof.
  intros Hi. unfold sl_pick. cbn [Z.eqb]. slgo. unfold sl_mod_schedule. slgo.
  set (s1 := with_tick _ s). assert (sl_inv s1 D X Y) as Hi1 by (by eapply sl_inv_ext).
  destruct (edf_peek s1 X (proj1 Hi1)) as (r & E & H0 & H1). rewrite (bind_Ok _ _ _ _ _ E). slgo.
  set (s2 := accounted _ s1). assert (quiet (fun _ _ => False) s s2) as Q.
  { eapply quiet_seq; [apply quiet_tick|apply quiet_accounted]. }
  assert (sl_inv s2 D X Y) as Hi2 by (by eapply sl_inv_ext).
  destruct (decide (X = ∅)) as [HX|HX].
  - rewrite (H0 HX). cbn [Z.eqb]. exists (glob s G_idle_thd), s2.
    split; [|by split; [|split; [|split]]].
    change (getg G_idle_thd s2) with (Ok (glob s2 G_idle_thd) s2). by rewrite (proj1 (proj2 Q)).
  - destruct (H1 HX) as (Hin & Hr0 & Hmin). rewrite (proj2 (Z.eqb_neq _ _) Hr0).
    exists r, s2. by split; [|split; [|split; [|split]]].
Qed.

(** Nothing times out while the queue of timeouts is empty. *)
Lemma sl_timeout_wakeup_none s D X now :
  sl_inv s D X ∅ -> sl_timeout_wakeup_expired now s = Ok tt s.
Proof.
  intros Hi. unfold sl_timeout_wakeup_expired.
  rewrite (bind_Ok _ _ _ _ _ (tmo_size s ∅ (proj1 (proj2 Hi)))). by rewrite size_empty.
Qed.

(** [calm]: only the timer, the lock and the accounting changed. *)
Definition calm s s' : Prop :=
  (forall x f, thds s' x f = thds s x f) /\ aeps s' = aeps s /\ cur s' = cur s /\
  (forall f, f ∉ [G_sl_per_core; G_timer_next; G_timeout_next; G_lock] -> glob s' f = glob s f).

Lemma calm_trans s1 s2 s3 : calm s1 s2 -> calm s2 s3 -> calm s1 s3.
Proof.
  intros (A1 & B1 & C1 & D1) (A2 & B2 & C2 & D2). split_and!; [|congruence..|].
  - intros. by rewrite A2, A1.
  - intros f Hf. by rewrite D2, D1.
Qed.

Lemma calm_glob s f v : f ∈ [G_sl_per_core; G_timer_next; G_timeout_next; G_lock] ->
  calm s (with_glob (fupd f v (glob s)) s).
Proof. intros Hf. split_and!; try done. intros g Hg. cbn. rewrite fupd_ne; [done|]. by intros ->. Qed.

Lemma calm_quiet s s' : quiet (fun _ _ => False) s s' -> calm s s'.
Proof.
  intros (A & B & C & _ & _ & _ & _ & _ & D & _). split_and!; try done.
  - intros x f. apply A. by intros [].
  - intros f Hf. apply B. set_solver.
Qed.

Lemma calm_running s s' t c : calm s s' -> running s t c -> running s' t c.
Proof. intros (A & B & C & _) Hr. unfold running. rewrite C, !A, B. exact Hr. Qed.

(** The timer of the scheduler: re-armed when it has passed. *)
Definition clock_ok s : Prop :=
  0 <= glob s G_timer_next < 2 ^ 63 /\ forall n, 0 <= sl_tsc s n < 2 ^ 63.

Lemma sl_timer_Ok s now :
  0 <= glob s G_timer_next < 2 ^ 63 -> 0 <= now < 2 ^ 63 ->
  exists s', (if negb (glob s G_timer_next =? 0) && (sext 64 (glob s G_timer_next - now) <=? 0)
              then sl_timeout_expended now (glob s G_timer_next) else ret tt) s = Ok tt s' /\
    calm s s' /\ glob s' G_lock = glob s G_lock /\ edf s' = edf s /\ tmo s' = tmo s.
Proof.
  intros Ht Hn.
  assert (sext 64 (glob s G_timer_next - now) = glob s G_timer_next - now) as ->.
  { unfold sext. change (2 ^ (64 - 1)) with (2 ^ 63). rewrite Z.mod_small; lia. }
  destruct (_ && _) eqn:E.
  - apply andb_true_iff in E as [_ E]. unfold sl_timeout_expended. slgo.
    unfold sl_timeout_oneshot. slgo. eexists. split; [reflexivity|]. split; [|done].
    eapply calm_trans; apply calm_glob; set_solver.
  - exists s. split; [done|]. split; [by repeat split|done].
Qed.

Lemma sl_cs_exit_schedule_loop_S fuel s :
  (1 <= fuel)%nat -> sl_cs_exit_schedule_loop spin fuel s =
  bind (sl_cs_exit_schedule_nospin spin)
       (fun r => if r =? 0 then ret tt else sl_cs_exit_schedule_loop spin (pred fuel)) s.
Proof. intros. destruct fuel; [lia|done]. Qed.

Lemma sl_thd_activate_Ok s u tok :
  thds s u F_properties = 0 -> thds s u F_aepinfo <> 0 ->
  exists timeout k, sl_thd_activate u tok s =
    bind (kapi (K_defswitch (aeps s (thds s u F_aepinfo) A_thd) (thds s u F_prio) timeout tok)) k s.
Proof.
  intros Hp Ha. unfold sl_thd_activate. slgo. rewrite Hp, !Z.testbit_0_l.
  rewrite (bind_Ok _ _ _ _ _ (sl_thd_thdcap_Ok _ _ Ha)). slgo. by eexists _, _.
Qed.

Lemma sl_thd_replenish_none s u now : thds s u F_properties = 0 -> sl_thd_replenish u now s = Ok tt s.
Proof. intros Hp. unfold sl_thd_replenish. slgo. by rewrite Hp. Qed.

(** Leaving the critical section by scheduling: what is dispatched first. *)
Lemma sl_cs_exit_schedule_Ok s t c D X :
  running s t c -> glob s G_lock = cs_word c 0 -> clock_ok s -> sl_inv s D X ∅ ->
  (forall u, u ∈ X \/ u = glob s G_idle_thd -> thds s u F_properties = 0 /\ thds s u F_aepinfo <> 0) ->
  exists s1 u tok timeout k,
    sl_cs_exit_schedule spin s =
      bind (kapi (K_defswitch (aeps s (thds s u F_aepinfo) A_thd) (thds s u F_prio) timeout tok)) k s1 /\
    (X = ∅ -> u = glob s G_idle_thd) /\
    (X <> ∅ -> u ∈ X /\ forall y, y ∈ X -> thds s u P_deadline <= thds s y P_deadline) /\
    glob s1 G_lock = 0 /\ sl_inv s1 D X ∅ /\ calm s s1.
Proof.
  intros Hr Hl [Htn Htsc] Hi Hprop. pose proof Hr as (_ & _ & _ & _ & Hcr).
  unfold sl_cs_exit_schedule. rewrite sl_cs_exit_schedule_loop_S by done.
  unfold sl_cs_exit_schedule_nospin, sl_cs_exit_schedule_nospin_arg. slstep.
  rewrite (bind_Ok _ _ _ _ _ (sl_cs_owner_Ok _ _ _ Hr)), Hl, cs_word_owner, Z.eqb_refl by lia. slgo.
  destruct (Hsync s) as (tok & Et). rewrite (bind_Ok _ _ _ _ _ Et). slgo.
  set (s2 := with_tick _ s). set (now := sl_tsc s _).
  destruct (sl_timer_Ok s2 now Htn (Htsc _)) as (s3 & E3 & C3 & L3 & Ed3 & Tm3).
  rewrite (bind_Ok _ _ _ _ _ E3). slgo.
  assert (calm s s3) as C03 by (eapply calm_trans; [apply calm_quiet, quiet_tick|exact C3]).
  assert (sl_inv s3 D X ∅) as Hi3 by (eapply sl_inv_ext; [exact Hi|done..|]; intros; apply C03).
  rewrite (bind_Ok _ _ _ _ _ (sl_timeout_wakeup_none s3 D X now Hi3)). slgo.
  destruct (sl_pick_Ok s3 D X ∅ Hi3) as (u & s4 & E4 & Hu0 & Hu1 & Hi4 & Q4).
  rewrite (bind_Ok _ _ _ _ _ E4). slgo.
  assert (calm s s4) as C04 by (eapply calm_trans; [exact C03|by apply calm_quiet]).
  pose proof C03 as (T3 & A3 & _ & G3). pose proof C04 as (T4 & A4 & _ & G4).
  rewrite G3 in Hu0 by set_solver.
  assert (thds s u F_properties = 0 /\ thds s u F_aepinfo <> 0) as [Hp Ha].
  { apply Hprop. destruct (decide (X = ∅)) as [HX|HX]; [right; by apply Hu0|left; by apply Hu1]. }
  rewrite (bind_Ok _ _ _ _ _ (sl_thd_replenish_none s4 u now ltac:(by rewrite T4))). slgo.
  rewrite (bind_Ok _ _ _ _ _ (sl_cs_exit_Ok s4 t c (calm_running _ _ _ _ C04 Hr)
             ltac:(rewrite (proj1 (proj2 Q4)), L3 by done; exact Hl))). slgo.
  set (s5 := with_glob _ s4).
  destruct (sl_thd_activate_Ok s5 u tok) as (timeout & k & E5);
    [change (thds s4 u F_properties = 0); by rewrite T4|
     change (thds s4 u F_aepinfo <> 0); by rewrite T4|].
  change (thds s5) with (thds s4) in E5. change (aeps s5) with (aeps s4) in E5.
  rewrite !T4, A4 in E5. rewrite (bind_first _ _ _ _ _ _ E5).
  exists s5, u, tok, timeout. eexists. split; [reflexivity|]. split; [done|]. split.
  { intros HX. destruct (Hu1 HX) as [Hin Hmin]. split; [done|]. intros y Hy.
    rewrite <- !T3. by apply Hmin. }
  split; [cbn; by rewrite fupd_eq|]. split; [by eapply sl_inv_ext|].
  eapply calm_trans; [exact C04|apply calm_glob; set_solver].
Qed.

(** The invariant after the thread [t] consumed one wake-up. *)
Lemma nf_inv_consumed s s' D X X' t cnt :
  nf_inv s D X -> t ∈ X -> thds s t F_wakeup_cnt = cnt ->
  X' = (if cnt =? 1 then X ∖ {[t]} else X) -> sl_inv s' D X' ∅ ->
  quiet (fun x f => f = P_prio_idx \/ x = t /\ f ∈ [F_state; F_wakeup_cnt]) s s' ->
  thds s' t F_wakeup_cnt = cnt - 1 ->
  thds s' t F_state = (if cnt =? 1 then SL_THD_BLOCKED else SL_THD_RUNNABLE) ->
  nf_inv s' D X'.
Proof.
  intros [Hi Hnf] Ht Hcnt HX' Hi' Q Hc Hst. split; [done|]. intros x Hx.
  destruct (decide (x = t)) as [->|Hne].
  - destruct (Hnf t Hx) as [c1 c2 c3 c4 c5 c6 c7 c8 c9]. pose proof (proj1 c2 Ht). rewrite Hcnt in *.
    destruct Q as (QT & _ & Qa & _).
    assert (forall f, f ∉ [F_state; F_wakeup_cnt; P_prio_idx] -> thds s' t f = thds s t f) as Hf
      by (intros f Hf; apply QT; set_solver).
    assert (t ∈ X' <-> 0 < cnt - 1) as HtX.
    { subst X'. destruct (Z.eqb_spec cnt 1) as [->|]; [set_solver|]. split; [lia|done]. }
    split; rewrite ?Qa, ?Hc, ?Hst, ?(Hf F_schedthd), ?(Hf F_properties), ?(Hf F_aepinfo),
      ?(Hf F_rcv_suspended) by set_solver; try done; [lia|].
    destruct (Z.eqb_spec cnt 1) as [->|].
    + rewrite decide_False; [done|]. rewrite HtX. lia.
    + rewrite decide_True; [done|]. rewrite HtX. lia.
  - eapply nf_thread_other; [exact Q| | |by apply Hnf].
    + intros f [->|[? _]]; [set_solver|done].
    + subst X'. destruct (cnt =? 1); set_solver.
Qed.

(** The body of [sl_thd_block] inside of the critical section. *)
Lemma block_body s D X t cnt :
  nf_inv s D X -> cur s = t -> t ∈ X -> thds s t F_wakeup_cnt = cnt ->
  exists s', (if cnt =? 1 then sl_thd_block_no_cs t SL_THD_BLOCKED 0 else ret 0)
               (upd_thd t F_wakeup_cnt (i32 (cnt + -1)) s) = Ok 0 s' /\
    nf_inv s' D (if cnt =? 1 then X ∖ {[t]} else X) /\
    quiet (fun x f => f = P_prio_idx \/ x = t /\ f ∈ [F_state; F_wakeup_cnt]) s s' /\
    thds s' t F_wakeup_cnt = cnt - 1.
Proof.
  intros Hnf Hcur Ht Hcnt. pose proof Hnf as [Hi Hth]. pose proof Hi as (_ & _ & SX & _).
  pose proof (Hth t (SX t Ht)) as [c1 c2 c3 c4 c5 c6 c7 c8 c9]. rewrite decide_True in c3 by done.
  pose proof (proj1 c2 Ht). rewrite Hcnt in *.
  set (s1 := upd_thd t F_wakeup_cnt _ s).
  assert (sl_inv s1 D X ∅) as Hi1 by (apply sl_inv_field; [done|set_solver]).
  assert (quiet (fun x f => f = P_prio_idx \/ x = t /\ f ∈ [F_state; F_wakeup_cnt]) s s1) as Q1.
  { apply quiet_upd. right. set_solver. }
  assert (thds s1 t F_wakeup_cnt = cnt - 1) as W1.
  { subst s1. rewrite upd_thd_same. unfold i32. rewrite Z.mod_small; lia. }
  assert (forall f, f <> F_wakeup_cnt -> thds s1 t f = thds s t f) as Hf
    by (intros f Hf; by apply upd_thd_fld).
  destruct (cnt =? 1) eqn:E1.
  - destruct (sl_thd_block_no_cs_Ok s1 t D X ∅) as (s2 & E2 & Hi2 & Q2 & St2);
      rewrite ?Hf by done; try done.
    exists s2. assert (quiet (fun x f => f = P_prio_idx \/ x = t /\ f ∈ [F_state; F_wakeup_cnt]) s s2) as Q.
    { eapply quiet_seq; [exact Q1|]. eapply quiet_weaken; [exact Q2|]. intros x f. set_solver. }
    assert (thds s2 t F_wakeup_cnt = cnt - 1) as W2 by (rewrite (proj1 Q2) by naive_solver; done).
    split; [done|]. split; [|done]. eapply nf_inv_consumed; try done; rewrite E1; done.
  - exists s1. split; [done|]. split; [|done].
    eapply nf_inv_consumed; try done; rewrite E1; [done|]. by rewrite Hf.
Qed.

(** C7. A network function that runs out of packets calls [sl_thd_block].  In
    an uncontended critical section it consumes one of its wake-ups, and leaves
    the run queue exactly when that was the last; then the first thing the
    kernel is asked is to switch to a runnable thread of earliest deadline, or
    to the idle thread when none is runnable.  At that point the lock is free,
    the invariant of the core holds, and no deadline has changed. *)
Theorem edf_block_dispatch s D X t :
  nf_inv s D X -> cur s = t -> t ∈ X -> glob s G_lock = 0 -> clock_ok s ->
  thds s (glob s G_idle_thd) F_properties = 0 -> thds s (glob s G_idle_thd) F_aepinfo <> 0 ->
  let X' := if thds s t F_wakeup_cnt =? 1 then X ∖ {[t]} else X in
  exists s1 u tok timeout k,
    sl_thd_block spin 0 s =
      bind (kapi (K_defswitch (aeps s (thds s u F_aepinfo) A_thd) (thds s u F_prio) timeout tok)) k s1 /\
    (X' = ∅ -> u = glob s G_idle_thd) /\
    (X' <> ∅ -> u ∈ X' /\ forall y, y ∈ X' -> thds s u P_deadline <= thds s y P_deadline) /\
    glob s1 G_lock = 0 /\ nf_inv s1 D X' /\
    thds s1 t F_wakeup_cnt = thds s t F_wakeup_cnt - 1 /\
    (forall y, thds s1 y P_deadline = thds s y P_deadline).
Proof.
  intros Hnf Hcur Ht Hl Hck Hip Hia X'. pose proof Hnf as [Hi Hth]. pose proof Hi as (_ & _ & SX & _ & HD & _).
  pose proof (Hth t (SX t Ht)) as Hnt. pose proof (proj1 (nf_queued _ _ _ Hnt) Ht) as Hpos.
  set (cnt := thds s t F_wakeup_cnt) in *. set (c := aeps s (thds s t F_aepinfo) A_thd).
  assert (running s t c) as Hr.
  { split_and!; try done; [apply HD, SX, Ht|apply HD, SX, Ht|apply Hnt|apply (nf_cap _ _ _ Hnt)..]. }
  unfold sl_thd_block. slassert ltac:(done). rewrite (bind_Ok _ _ _ _ _ (sl_cs_enter_Ok s t c Hr Hl)).
  set (s1 := with_glob _ s).
  assert (calm s s1) as C1 by (apply calm_glob; set_solver).
  assert (nf_inv s1 D X) as Hnf1.
  { split; [by eapply sl_inv_ext|]. intros x Hx. destruct (Hth x Hx). by split. }
  rewrite (bind_Ok _ _ _ _ _ (sl_thd_curr_Ok s1 t c (calm_running _ _ _ _ C1 Hr))).
  slgo. change (thds s1 t F_wakeup_cnt) with cnt. slassert lia.
  destruct (block_body s1 D X t cnt Hnf1 Hcur Ht eq_refl) as (s2 & E2 & Hnf2 & Q2 & W2).
  rewrite (bind_Ok _ _ _ _ _ E2). cbn [Z.eqb negb].
  pose proof Q2 as (QT & Qg & Qa & _ & _ & _ & _ & _ & Qcur & Qtsc & _).
  assert (forall x f, f ∉ [F_state; F_wakeup_cnt; P_prio_idx] -> thds s2 x f = thds s x f) as Hf
    by (intros x f Hf'; apply QT; set_solver).
  assert (forall f, f <> G_sl_per_core -> glob s2 f = glob s1 f) as Hg by (intros f ?; by apply Qg).
  destruct (sl_cs_exit_schedule_Ok s2 t c D X') as (s3 & u & tok & tmo & k & E3 & U0 & U1 & L3 & Hi3 & C3).
  { unfold running. rewrite Qcur, Hf, Qa by set_solver. exact Hr. }
  { rewrite Hg by done. cbn. by rewrite fupd_eq. }
  { unfold clock_ok. rewrite Hg, Qtsc by done. exact Hck. }
  { apply Hnf2. }
  { intros u. rewrite !Hf, (Hg G_idle_thd) by set_solver. intros [Hu| ->]; [|done].
    assert (u ∈ D) as Hu' by (apply (proj1 (proj2 (proj2 (proj1 Hnf2)))), Hu).
    by destruct (Hth u Hu'). }
  rewrite !Hf, Qa in E3 by set_solver. exists s3, u, tok, tmo, k. rewrite Hg in U0 by done.
  pose proof C3 as (T3 & A3 & _).
  split; [exact E3|]. split; [exact U0|]. split.
  { intros HX. destruct (U1 HX) as [? Hm]. split; [done|]. intros y Hy. specialize (Hm y Hy).
    by rewrite !Hf in Hm by set_solver. }
  split; [done|]. split; [|split; [by rewrite T3|intros y; by rewrite T3, Hf by set_solver]].
  split; [done|]. intros x Hx. destruct (proj2 Hnf2 x Hx). split; by rewrite ?T3, ?A3.
Qed.

End nf.
