(* ===== verification/SlTime.v ===== *)
(** * Timeouts of the scheduler

    [sl_timeout_wakeup_expired] wakes exactly the threads whose timeout has
    passed, within one round of its loop per queued thread. *)

From S2P Require Import Prelude Config Heap Ring Sl SlSpec.

(** ** Expired timeouts *)

(** A thread that blocked with a timeout. *)
Record timed {R L} (s : slst R L) (t : Z) : Prop := mkTimed {
  tm_cycs : thds s t F_wakeup_cycs = 0;
  tm_dl : thds s t P_deadline <> SL_EDF_MAX_DEADLINE;
  tm_cnt : 0 <= thds s t F_wakeup_cnt < 2147483647 }.

Definition expired {R L} (s : slst R L) (now : Z) (Y : gset Z) : gset Z :=
  filter (fun t => thds s t F_timeout_cycs <= now) Y.

(** What firing the timeouts of the threads in [W] may change. *)
Definition fires (W : gset Z) (x : Z) (f : thd_field) : Prop :=
  f ∈ [P_prio_idx; F_timeout_idx] \/
  x ∈ W /\ f ∈ [F_state; F_wakeup_cnt; F_rcv_suspended; F_wakeup_cycs].

(** The thread [t] after its timeout fired. *)
Definition fired {R L} (s s' : slst R L) (now t : Z) : Prop :=
  thds s' t F_state = SL_THD_RUNNABLE /\ thds s' t F_wakeup_cycs = now /\
  thds s' t F_wakeup_cnt = thds s t F_wakeup_cnt + 1.

Section timeouts.
Context {R L : Type} `{!CkRing R sl_xcpu_request, !PsList L, !KernelApi (slst R L)}.
Implicit Types s : slst R L.

(** The thread that left the timeout queue is given the index -1. *)
Lemma sl_inv_tmo_left s s1 t D X Y :
  sl_inv s D X Y -> t ∈ Y -> tmo_effect s s1 Y (Y ∖ {[t]}) ->
  sl_inv (upd_thd t F_timeout_idx (-1) s1) D X (Y ∖ {[t]}).
Proof.
  intros (RX & RY & SX & SY & HD & MX & MY & IX & IY) Ht (RY1 & MY1 & PY1 & Q1 & E1).
  assert (forall x f, f <> F_timeout_idx -> thds s1 x f = thds s x f) as Hs1
    by (intros x f Hf; by apply (proj1 Q1)).
  split_and!; try done.
  - eapply (edf_rep_ext s); [done| | |done]; intros; by rewrite upd_thd_fld, Hs1.
  - refine (heap_rep_tell (TmoSt s1) (Y ∖ {[t]}) t (-1) RY1 _). set_solver.
  - set_solver.
  - change (h_max_sz (edf s1) = SL_EDF_MAX_THDS + 1). by rewrite E1.
  - change (h_max_sz (tmo s1) = SL_MAX_NUM_THDS + 1). by rewrite MY1.
  - intros x Hx Hn. rewrite upd_thd_fld, Hs1 by done. by apply IX.
  - intros x Hx Hn. rewrite upd_thd_at. destruct (decide _) as [|Hd]; [done|].
    rewrite PY1; [apply IY| |]; set_solver.
Qed.

(** One round of the loop, for a thread whose timeout has passed. *)
Lemma timeout_fire s D X Y now t s1 :
  sl_inv s D X Y -> t ∈ Y -> timed s t -> tmo_effect s s1 Y (Y ∖ {[t]}) ->
  exists s', (forall A (k : M (slst R L) A),
      (setf t F_timeout_idx (-1) ;; wc <- getf t F_wakeup_cycs ;; massert (wc =? 0) ;;
       setf t F_wakeup_cycs now ;; sl_thd_wakeup_no_cs_rm t ;; k) s1 = k s') /\
    sl_inv s' D (X ∪ {[t]}) (Y ∖ {[t]}) /\ quiet (fires {[t]}) s s' /\ fired s s' now t.
Proof.
  intros Hi Ht [Hw Hd Hc] Ef. pose proof (sl_inv_tmo_left _ _ _ _ _ _ Hi Ht Ef) as Hi2.
  pose proof Ef as (_ & _ & _ & Q1 & _).
  assert (forall x f, f <> F_timeout_idx -> thds s1 x f = thds s x f) as Hs1
    by (intros x f Hf; by apply (proj1 Q1)).
  set (s2 := upd_thd t F_timeout_idx (-1) s1) in *.
  assert (forall f, f <> F_timeout_idx -> thds s2 t f = thds s t f) as Hs2
    by (intros f Hf; subst s2; by rewrite upd_thd_fld, Hs1).
  set (s3 := upd_thd t F_wakeup_cycs now s2).
  assert (forall f, f <> F_timeout_idx -> f <> F_wakeup_cycs -> thds s3 t f = thds s t f) as Hs3
    by (intros f Hf Hf'; subst s3; rewrite upd_thd_fld, Hs2; done).
  assert (sl_inv s3 D X (Y ∖ {[t]})) as Hi3 by (apply sl_inv_field; [done|set_solver]).
  pose proof Hi as (_ & _ & _ & SY & _).
  destruct (sl_thd_wakeup_no_cs_rm_Ok s3 s3 t D X _ Hi3 (near_refl _ _) (SY t Ht))
    as (s4 & E4 & Hi4 & Q4 & St4 & _ & W4); rewrite ?Hs3 by done; try done.
  exists s4. split.
  { intros A k. do 2 slstep. fold s2. rewrite Hs2, Hw by done. slassert ltac:(done). slstep.
    by rewrite (bind_Ok _ _ _ _ _ E4). }
  split; [done|]. split.
  - eapply quiet_seq; [eapply quiet_weaken; [exact Q1|]; intros x f; unfold is_field, fires; set_solver|].
    eapply quiet_seq; [apply (quiet_upd _ t F_timeout_idx); left; set_solver|].
    eapply quiet_seq; [apply (quiet_upd _ t F_wakeup_cycs now); right; set_solver|].
    eapply quiet_weaken; [exact Q4|]. intros x f. unfold fires. set_solver.
  - split; [done|]. rewrite W4, Hs3 by done. split; [|done].
    rewrite (proj1 Q4) by set_solver. subst s3. by rewrite upd_thd_same.
Qed.

(** The frame of a round, from the point of view of the rest of the queue. *)
Lemma expired_step s s1 now t Y :
  t ∈ Y -> thds s t F_timeout_cycs <= now -> quiet (fires {[t]}) s s1 ->
  expired s now Y = {[t]} ∪ expired s1 now (Y ∖ {[t]}).
Proof.
  intros Ht Hle Q. apply set_eq. intros x. unfold expired. destruct Q as [QT _].
  rewrite elem_of_union, !elem_of_filter, elem_of_difference, elem_of_singleton.
  rewrite (QT x F_timeout_cycs) by (unfold fires; set_solver).
  destruct (decide (x = t)) as [->|]; naive_solver.
Qed.

Lemma timed_step s s1 t x :
  quiet (fires {[t]}) s s1 -> x <> t -> timed s x -> timed s1 x.
Proof.
  intros [QT _] Hx [? ? ?]. split; rewrite QT; try done; unfold fires; set_solver.
Qed.

(** The loop fires every expired timeout of the queue and stops. *)
Lemma timeout_loop_Ok n : forall s D X Y now,
  sl_inv s D X Y -> (forall t, t ∈ Y -> timed s t) -> Y <> ∅ -> (size Y <= n)%nat ->
  exists s', sl_timeout_wakeup_loop n now s = Ok tt s' /\
    sl_inv s' D (X ∪ expired s now Y) (Y ∖ expired s now Y) /\
    quiet (fires (expired s now Y)) s s' /\ (forall t, t ∈ expired s now Y -> fired s s' now t).
Proof.
  induction n as [|n IH]; intros s D X Y now Hi Htm Hne Hsz.
  { destruct Hne. apply leibniz_equiv, size_empty_inv. lia. }
  cbn [sl_timeout_wakeup_loop].
  destruct (tmo_highest s Y (proj1 (proj2 Hi)) Hne) as (r & s1 & Ep & Eh & Hr & Nr & Hmin & Ef).
  rewrite (bind_Ok _ _ _ _ _ Ep). slassert ltac:(by apply negb_true_iff, Z.eqb_neq). slstep.
  destruct (thds s r F_timeout_cycs >? now) eqn:Eg.
  { assert (expired s now Y = ∅) as ->.
    { apply set_eq. intros x. unfold expired. rewrite elem_of_filter. split; [|set_solver].
      intros [H1 H2]. specialize (Hmin x H2). lia. }
    exists s. split; [done|]. rewrite union_empty_r_L, difference_empty_L.
    split; [done|]. split; [apply quiet_refl|set_solver]. }
  rewrite (bind_Ok _ _ _ _ _ Eh). rewrite Z.eqb_refl.
  slassert ltac:(apply andb_true_iff; split; [by apply negb_true_iff, Z.eqb_neq|done]).
  destruct (timeout_fire s D X Y now r s1 Hi Hr (Htm r Hr) Ef) as (s2 & E2 & Hi2 & Q2 & F2).
  rewrite E2. clear E2. pose proof (proj1 (proj2 Hi2)) as Hr2. rewrite (bind_Ok _ _ _ _ _ (tmo_size _ _ Hr2)).
  rewrite (expired_step s s2 now r Y Hr ltac:(lia) Q2).
  assert (size (Y ∖ {[r]}) < size Y)%nat as Hlt by (apply subset_size; set_solver).
  destruct (Z.of_nat (size (Y ∖ {[r]})) =? 0) eqn:Esz.
  { apply Z.eqb_eq in Esz. assert (Y ∖ {[r]} = ∅) as HY by (apply leibniz_equiv, size_empty_inv; lia).
    rewrite HY in *. assert (expired s2 now ∅ = ∅) as -> by (unfold expired; set_solver).
    rewrite union_empty_r_L, HY. exists s2. split; [done|]. split; [done|]. split; [done|set_solver]. }
  destruct (IH s2 D (X ∪ {[r]}) (Y ∖ {[r]}) now Hi2) as (s3 & E3 & Hi3 & Q3 & F3).
  { intros x Hx. eapply timed_step; [exact Q2|set_solver|apply Htm; set_solver]. }
  { intros HY. rewrite HY, size_empty in Esz. done. }
  { lia. }
  exists s3. split; [done|]. split.
  { replace (X ∪ ({[r]} ∪ expired s2 now (Y ∖ {[r]}))) with (X ∪ {[r]} ∪ expired s2 now (Y ∖ {[r]}))
      by (clear; set_solver).
    replace (Y ∖ ({[r]} ∪ expired s2 now (Y ∖ {[r]}))) with (Y ∖ {[r]} ∖ expired s2 now (Y ∖ {[r]}))
      by (clear; set_solver). done. }
  split.
  - eapply quiet_trans; [exact Q2|exact Q3| |]; unfold fires; intros x f; set_solver.
  - intros x [->%elem_of_singleton|Hx]%elem_of_union.
    + destruct F2 as (A1 & A2 & A3). assert (r ∉ expired s2 now (Y ∖ {[r]})) by (unfold expired; set_solver).
      split_and!; (rewrite (proj1 Q3); [done|unfold fires; set_solver]).
    + destruct (F3 x Hx) as (A1 & A2 & A3). split_and!; try done. rewrite A3, (proj1 Q2); [done|].
      unfold fires, expired in *. set_solver.
Qed.

(** C12. On every scheduling decision the library fires the timeouts: every
    thread whose timeout has passed leaves the timeout queue, is runnable, is
    in the run queue, knows when it was woken and has one more wake-up; every
    other thread keeps its place, and its timeout is still to come.  The loop
    ends within one round per queued thread. *)
Theorem timeouts_fire s D X Y now :
  sl_inv s D X Y -> (forall t, t ∈ Y -> timed s t) ->
  exists s', sl_timeout_wakeup_expired now s = Ok tt s' /\
    sl_inv s' D (X ∪ expired s now Y) (Y ∖ expired s now Y) /\
    (forall t, t ∈ expired s now Y -> fired s s' now t) /\
    (forall t, t ∈ Y ∖ expired s now Y -> now < thds s' t F_timeout_cycs) /\
    quiet (fires (expired s now Y)) s s'.
Proof.
  intros Hi Htm. unfold sl_timeout_wakeup_expired.
  rewrite (bind_Ok _ _ _ _ _ (tmo_size _ _ (proj1 (proj2 Hi)))).
  destruct (decide (Y = ∅)) as [->|Hne].
  - rewrite size_empty. exists s. assert (expired s now ∅ = ∅) as -> by (unfold expired; set_solver).
    rewrite union_empty_r_L, difference_empty_L. split; [done|]. split; [done|].
    split; [set_solver|]. split; [set_solver|apply quiet_refl].
  - destruct (timeout_loop_Ok (size Y) s D X Y now Hi Htm Hne ltac:(lia)) as (s' & E & Hi' & Q & F).
    destruct (Z.of_nat (size Y) =? 0) eqn:Esz.
    { destruct Hne. apply leibniz_equiv, size_empty_inv. lia. }
    rewrite Nat2Z.id. exists s'. split; [done|]. split; [done|]. split; [done|]. split; [|done].
    intros t. unfold expired at 1. rewrite elem_of_difference, elem_of_filter. intros [H1 H2].
    rewrite (proj1 Q); [|unfold fires; set_solver].
    destruct (Z.lt_ge_cases now (thds s t F_timeout_cycs)); [done|]. destruct H2. split; [lia|done].
Qed.

End timeouts.
