(* ===== verification/SlXcpu.v ===== *)
(** * Wake-ups between cores, and scenarios of the scheduler

    The message-passing core wakes a thread of another core by a request in
    that core's ring, which the other core's scheduler processes.  The theorem
    composes the two sides.  The second half runs the library on concrete
    states of a core: it instantiates the theorems on the scheduler and shows
    the cases in which the library halts or drops what it was given. *)

From S2P Require Import Prelude Config Heap Ring Sl SlSpec SlTime.

(** ** Delivery *)

Section delivery.
Context {R L : Type} `{!CkRing R sl_xcpu_request, !PsList L, !KernelApi (slst R L)}.
Context `{!CkRingLaws R sl_xcpu_request}.
Implicit Types s : slst R L.

Lemma nf_inv_xrings s D X f : nf_inv s D X -> nf_inv (with_xrings f s) D X.
Proof.
  intros [Hsl Hnf]. split; [by eapply sl_inv_ext|]. intros x Hx. destruct (Hnf x Hx). by split.
Qed.

(** A core sends wake-ups, thread and deadline, one after the other; the
    results of the calls. *)
Fixpoint send_wakeups (target : Z) (ws : list (Z * Z)) : M (slst R L) (list Z) :=
  match ws with
  | [] => ret []
  | (t, dl) :: ws =>
      r <- eos_thd_wakeup_with_dl target t dl ;; rs <- send_wakeups target ws ;; ret (r :: rs)
  end.

(** Sending while there is room. *)
Lemma eos_wakeup_room s b t dl :
  cpu s <> b -> cpu_bmp s b = true ->
  Z.of_nat (length (ck_view (xrings s b))) < ck_cap (xrings s b) ->
  exists s', eos_thd_wakeup_with_dl b t dl s = Ok 0 s' /\
    ck_view (xrings s' b) = ck_view (xrings s b) ++ [wake_req (cpu s, t, dl)] /\
    ck_cap (xrings s' b) = ck_cap (xrings s b) /\ cpu s' = cpu s /\ cpu_bmp s' = cpu_bmp s.
Proof.
  intros Hne Hb Hroom. unfold eos_thd_wakeup_with_dl, sl_xcpu_thd_wakeup_with_dl, sl_xcpu_guard. slstep.
  rewrite (proj2 (Z.eqb_neq b (cpu s))) by congruence. slgo.
  rewrite (proj2 (Z.eqb_neq b (cpu s))), Hb by congruence. unfold __sl_xcpu_req_exit_test. slgo.
  destruct (ck_enqueue_room (mkReq (cpu s) (SL_XCPU_THD_WAKEUP_WITH_DL t (sched_param_pack SCHEDP_DEADLINE dl)))
    (xrings s b) Hroom) as (r' & -> & Hv & Hc). slgo.
  eexists. split; [reflexivity|]. cbn. by rewrite fupd_eq.
Qed.

(** A full ring refuses the request, and nothing else happens. *)
Lemma eos_wakeup_full s b t dl :
  cpu s <> b -> cpu_bmp s b = true ->
  ck_cap (xrings s b) <= Z.of_nat (length (ck_view (xrings s b))) ->
  exists s', eos_thd_wakeup_with_dl b t dl s = Ok (- ENOMEM) s' /\ xrings s' b = xrings s b /\
    cpu s' = cpu s /\ cpu_bmp s' = cpu_bmp s.
Proof.
  intros Hne Hb Hfull. unfold eos_thd_wakeup_with_dl, sl_xcpu_thd_wakeup_with_dl, sl_xcpu_guard. slstep.
  rewrite (proj2 (Z.eqb_neq b (cpu s))) by congruence. slgo.
  rewrite (proj2 (Z.eqb_neq b (cpu s))), Hb by congruence. unfold __sl_xcpu_req_exit_test. slgo.
  rewrite ck_enqueue_full by done. slgo. eexists. split; [reflexivity|]. cbn. by rewrite fupd_eq.
Qed.

Lemma send_wakeups_Ok ws : forall s b,
  cpu s <> b -> cpu_bmp s b = true ->
  exists s', let room := Z.to_nat (ck_cap (xrings s b) - Z.of_nat (length (ck_view (xrings s b)))) in
    send_wakeups b ws s =
      Ok (replicate (min room (length ws)) 0 ++ replicate (length ws - room) (- ENOMEM)) s' /\
    ck_view (xrings s' b) =
      ck_view (xrings s b) ++ map (fun '(t, dl) => wake_req (cpu s, t, dl)) (take room ws) /\
    cpu s' = cpu s.
Proof.
  induction ws as [|[t dl] ws IH]; intros s b Hne Hb.
  { exists s. cbn. rewrite Nat.min_0_r, take_nil. cbn. by rewrite app_nil_r. }
  cbn [send_wakeups]. set (room := Z.to_nat _).
  destruct (decide (Z.of_nat (length (ck_view (xrings s b))) < ck_cap (xrings s b))) as [Hr|Hr].
  - destruct (eos_wakeup_room s b t dl Hne Hb Hr) as (s1 & E1 & V1 & C1 & P1 & B1).
    rewrite (bind_Ok _ _ _ _ _ E1). destruct (IH s1 b) as (s2 & E2 & V2 & P2); [by rewrite P1|by rewrite B1|].
    cbv zeta in E2, V2. rewrite C1, V1, length_app in E2, V2.
    assert (room = S (Z.to_nat (ck_cap (xrings s b) - Z.of_nat
              (length (ck_view (xrings s b)) + length [wake_req (cpu s, t, dl)])))) as Hroom
      by (subst room; cbn [length]; lia).
    set (room' := Z.to_nat _) in E2, V2, Hroom. rewrite Hroom, (bind_Ok _ _ _ _ _ E2).
    exists s2. split; [done|]. split; [|by rewrite P2].
    rewrite V2, P1. cbn [take map]. by rewrite <- app_assoc.
  - destruct (eos_wakeup_full s b t dl Hne Hb ltac:(lia)) as (s1 & E1 & X1 & P1 & B1).
    rewrite (bind_Ok _ _ _ _ _ E1). destruct (IH s1 b) as (s2 & E2 & V2 & P2); [by rewrite P1|by rewrite B1|].
    cbv zeta in E2, V2. rewrite X1 in E2, V2. fold room in E2, V2.
    assert (room = O) as Hroom by (subst room; lia). rewrite Hroom in *.
    rewrite (bind_Ok _ _ _ _ _ E2). exists s2. split; [|split; [by rewrite V2|by rewrite P2]].
    cbn. by rewrite Nat.sub_0_r.
Qed.

(** C6. Wake-ups from core to core arrive.  The sending core asks for the
    threads to be woken with their deadlines; the receiving core, whose ring
    was empty, then processes its ring.  The calls for which the ring has room
    return 0 and the others -ENOMEM; every accepted wake-up is processed, in
    order: afterwards exactly the threads woken or already runnable are in the
    run queue, each has as many more wake-ups as were accepted for it, and the
    deadline of the last of them; the invariant holds. *)
Theorem xcpu_wakeups_delivered spin sa sb D X ws :
  let b := cpu sb in
  let room := Z.to_nat (ck_cap (xrings sa b)) in
  let got := map (fun '(t, dl) => (cpu sa, t, dl)) (take room ws) in
  nf_inv sb D X -> cpu sa <> b -> cpu_bmp sa b = true -> ck_view (xrings sa b) = [] ->
  (forall t dl, (t, dl) ∈ ws -> t ∈ D /\ 0 <= dl < 2 ^ 56) ->
  (forall t, t ∈ D -> thds sb t F_wakeup_cnt + Z.of_nat (length ws) < 2147483648) ->
  (length ws < spin)%nat ->
  exists sa' sb',
    send_wakeups b ws sa = Ok (replicate (min room (length ws)) 0 ++ replicate (length ws - room) (- ENOMEM)) sa' /\
    sl_xcpu_process_no_cs spin (with_xrings (xrings sa') sb) = Ok (Z.of_nat (min room (length ws))) sb' /\
    nf_inv sb' D (X ∪ list_to_set (map wake_tid got)) /\
    (forall t, t ∈ D -> thds sb' t F_wakeup_cnt = thds sb t F_wakeup_cnt + wakes t got /\
                        thds sb' t P_deadline = last_dl t got (thds sb t P_deadline)) /\
    ck_view (xrings sb' b) = [].
Proof.
  intros b room got Hnf Hne Hbmp Hv Hws Hcnt Hsp.
  destruct (send_wakeups_Ok ws sa b Hne Hbmp) as (sa' & E & V & Pa).
  cbv zeta in E, V. rewrite Hv in E, V. cbn [length Z.of_nat app] in E, V. rewrite Z.sub_0_r in E, V. fold room in E, V.
  assert (length got = min room (length ws)) as Hl by (subst got; by rewrite length_map, length_take).
  destruct (process_wakeups_aux got (with_xrings (xrings sa') sb) D X spin 0)
    as (sb' & Ep & Hi' & Hc & Hv' & Hcpu); try done.
  - by apply nf_inv_xrings.
  - cbn. fold b. rewrite V. subst got. rewrite map_map. apply map_ext. by intros [t dl].
  - apply Forall_forall. intros w. subst got. rewrite list_elem_of_In, in_map_iff.
    intros ([t dl] & <- & Hin). apply list_elem_of_In, elem_of_take in Hin as (i & Hin & _).
    destruct (Hws t dl) as [? ?]; [by eapply list_elem_of_lookup_2|]. done.
  - lia.
  - intros t Ht. specialize (Hcnt t Ht). cbn. lia.
  - exists sa', sb'. split; [exact E|]. split; [unfold sl_xcpu_process_no_cs; rewrite Ep, Hl; done|].
    split; [done|]. split; [done|]. rewrite Hcpu in Hv'. exact Hv'.
Qed.

End delivery.

(** ** Concrete states *)

(** Deciding the invariants of a given state. *)
Definition sl_invb {R L} (s : slst R L) (D X Y : gset Z) : bool :=
  heap_repb (EdfSt s) X && heap_repb (TmoSt s) Y && bool_decide (X ⊆ D) && bool_decide (Y ⊆ D) &&
  forallb (fun t => (1 <=? t) && (t <? MAX_NUM_THREADS)) (elements D) &&
  (h_max_sz (edf s) =? SL_EDF_MAX_THDS + 1) && (h_max_sz (tmo s) =? SL_MAX_NUM_THDS + 1) &&
  forallb (fun t => thds s t P_prio_idx =? -1) (elements (D ∖ X)) &&
  forallb (fun t => thds s t F_timeout_idx =? -1) (elements (D ∖ Y)).

Lemma forallb_elements (P : Z -> bool) (D : gset Z) :
  forallb P (elements D) = true -> forall t, t ∈ D -> P t = true.
Proof.
  intros H t Ht. rewrite forallb_forall in H. apply H, list_elem_of_In. by apply elem_of_elements.
Qed.

Lemma sl_invb_sound {R L} (s : slst R L) D X Y : sl_invb s D X Y = true -> sl_inv s D X Y.
Proof.
  unfold sl_invb. rewrite !andb_true_iff, !bool_decide_eq_true, !Z.eqb_eq.
  intros ((((((((H1 & H2) & H3) & H4) & H5) & H6) & H7) & H8) & H9).
  split; [by apply heap_repb_sound|]. split; [by apply heap_repb_sound|]. split_and!; try done.
  - intros t Ht. pose proof (forallb_elements _ _ H5 t Ht) as Hb. cbv beta in Hb. lia.
  - intros t Ht Hx. apply Z.eqb_eq, (forallb_elements _ _ H8). by apply elem_of_difference.
  - intros t Ht Hx. apply Z.eqb_eq, (forallb_elements _ _ H9). by apply elem_of_difference.
Qed.

Definition nf_threadb {R L} (s : slst R L) (X : gset Z) (t : Z) : bool :=
  let c := thds s t F_wakeup_cnt in let a := thds s t F_aepinfo in
  (0 <=? c) && (c <? 2147483648) && bool_decide (bool_decide (t ∈ X) = (0 <? c)) &&
  (thds s t F_state =? if decide (t ∈ X) then SL_THD_RUNNABLE else SL_THD_BLOCKED) &&
  (thds s t F_rcv_suspended =? 0) && (thds s t F_schedthd =? 0) && (thds s t F_properties =? 0) &&
  negb (a =? 0) && (aeps s a A_tid =? t) && (0 <? aeps s a A_thd) && (aeps s a A_thd <? 2 ^ 31).

Lemma nf_invb_sound {R L} (s : slst R L) D X :
  sl_invb s D X ∅ && forallb (nf_threadb s X) (elements D) = true -> nf_inv s D X.
Proof.
  rewrite andb_true_iff. intros [H1 H2]. split; [by apply sl_invb_sound|]. intros t Ht.
  pose proof (forallb_elements _ _ H2 t Ht) as Hb. unfold nf_threadb in Hb.
  rewrite !andb_true_iff, negb_true_iff, Z.eqb_neq, !Z.eqb_eq, bool_decide_eq_true in Hb.
  destruct Hb as ((((((((((? & ?) & Hq) & ?) & ?) & ?) & ?) & ?) & ?) & ?) & ?).
  split; try done; try lia. destruct (decide (t ∈ X)) as [Hin|Hin].
  - rewrite bool_decide_eq_true_2 in Hq by done. split; [lia|done].
  - rewrite bool_decide_eq_false_2 in Hq by done. split; [done|lia].
Qed.

(** A kernel that accepts every request and lets no other thread interfere. *)
Abbreviation core := (slst (list sl_xcpu_request) ulist).
#[export] Instance calm_kernel : KernelApi core := {|
  kapi _ := ret 0; sched_aep_get _ := ret (fun _ => 0);
  cos_sched_rcv _ _ _ := ret (mkEvent 0 0 0 0 0);
  child_ring_dequeue _ := ret None; child_ring_size _ := ret 0 |}.

(** A thread with a number of pending wake-ups, a deadline and an index in the
    run queue; its capability is 10 + its identifier. *)
Definition sample_thd (t cnt dl idx tmo_idx tmo_cycs : Z) (f : thd_field) : Z :=
  match f with
  | F_state => if idx <? 0 then (if tmo_idx <? 0 then SL_THD_BLOCKED else SL_THD_BLOCKED_TIMEOUT)
               else SL_THD_RUNNABLE
  | F_aepinfo => t | F_wakeup_cnt => cnt | P_deadline => dl | P_prio_idx => idx
  | F_timeout_idx => tmo_idx | F_timeout_cycs => tmo_cycs | _ => 0
  end.

(** Core 1: thread 3 runs, its deadline is 100; 5 is runnable with deadline
    200; 8 is blocked; 2 is the idle thread. *)
Definition core1 : core :=
  mkSl (fun t => if t =? 3 then sample_thd 3 1 100 1 (-1) 0 else if t =? 5 then sample_thd 5 2 200 2 (-1) 0
                 else if t =? 8 then sample_thd 8 0 50 (-1) (-1) 0 else sample_thd t 0 0 0 (-1) 0)
       (fun a f => match f with A_tid => a | A_thd => 10 + a | _ => 0 end) 0
       (mkHeap 3 (SL_EDF_MAX_THDS + 1) {[1 := 3; 2 := 5]}) (mkHeap 1 (SL_MAX_NUM_THDS + 1) ∅)
       (fun g => match g with G_idle_thd => 2 | G_cyc_per_usec => 1000 | G_period => 10000 | _ => 0 end)
       ul_nil (fun _ => []) (fun _ => true) 1 3 (fun n => 5000 + 10 * Z.min (Z.of_nat n) 1000) 0 (fun _ => 0).

Lemma core1_inv : nf_inv core1 {[3; 5; 8]} {[3; 5]}.
Proof. apply nf_invb_sound. vm_compute. reflexivity. Qed.

(** Thread 3 blocks; thread 5, with the capability 15, is dispatched. *)
Lemma edf_block_dispatch_witness :
  nf_inv core1 {[3; 5; 8]} {[3; 5]} /\
  exists s1 tok timeout k,
    sl_thd_block 1 0 core1 = bind (kapi (K_defswitch 15 0 timeout tok)) k s1 /\
    nf_inv s1 {[3; 5; 8]} ({[3; 5]} ∖ {[3]}).
Proof.
  split; [exact core1_inv|].
  destruct (edf_block_dispatch 1 ltac:(lia) (fun s => ex_intro _ 0 eq_refl) core1 {[3; 5; 8]} {[3; 5]} 3)
    as (s1 & u & tok & tmo & k & E & _ & U & _ & Hi & _).
  - exact core1_inv.
  - reflexivity.
  - set_solver.
  - reflexivity.
  - split; [cbn; lia|]. intros n. change (0 <= 5000 + 10 * Z.min (Z.of_nat n) 1000 < 2 ^ 63). lia.
  - reflexivity.
  - vm_compute. discriminate.
  - change (thds core1 3 F_wakeup_cnt =? 1) with true in U, Hi. cbv iota in U, Hi.
    destruct U as [Hu _]; [set_solver|]. assert (u = 5) as -> by set_solver.
    exists s1, tok, tmo, k. split; [exact E|exact Hi].
Defined.

(** Core 0 wakes threads 8 (twice) and 5 of core 1. *)
Definition core0 : core :=
  mkSl (fun t => sample_thd t 0 0 0 (-1) 0) (fun a f => a) 0 (mkHeap 1 (SL_EDF_MAX_THDS + 1) ∅)
       (mkHeap 1 (SL_MAX_NUM_THDS + 1) ∅) (fun _ => 0) ul_nil (fun _ => []) (fun _ => true) 0 4
       (fun n => 0) 0 (fun _ => 0).

Lemma xcpu_wakeups_delivered_witness :
  exists sa sb, send_wakeups 1 [(8, 300); (5, 90); (8, 70)] core0 = Ok [0; 0; 0] sa /\
    sl_xcpu_process_no_cs 4 (with_xrings (xrings sa) core1) = Ok 3 sb /\
    nf_inv sb {[3; 5; 8]} ({[3; 5]} ∪ {[8; 5]}) /\ thds sb 8 F_wakeup_cnt = 2 /\ thds sb 8 P_deadline = 70.
Proof.
  destruct (xcpu_wakeups_delivered 4 core0 core1 {[3; 5; 8]} {[3; 5]} [(8, 300); (5, 90); (8, 70)])
    as (sa & sb & E1 & E2 & Hi & Hc & _).
  - exact core1_inv.
  - discriminate.
  - reflexivity.
  - reflexivity.
  - intros t dl Hin. rewrite !elem_of_cons, elem_of_nil in Hin. naive_solver (set_solver || lia).
  - intros t Ht. assert (thds core1 t F_wakeup_cnt <= 2); [|cbn [length]; lia].
    rewrite !elem_of_union, !elem_of_singleton in Ht. by destruct Ht as [[-> | ->]| ->].
  - cbn [length]. lia.
  - exists sa, sb. split; [exact E1|]. split; [exact E2|]. split.
    + replace ({[8; 5]} : gset Z) with (list_to_set [8; 5; 8] : gset Z); [exact Hi|]. set_solver.
    + destruct (Hc 8) as [C1 C2]; [set_solver|]. split; [exact C1|exact C2].
Defined.

(** Core 1 where 5 and 8 wait for timeouts at 4000 and 9000. *)
Definition core1_timed : core :=
  with_tmo (mkHeap 3 (SL_MAX_NUM_THDS + 1) {[1 := 5; 2 := 8]})
    (with_edf (mkHeap 2 (SL_EDF_MAX_THDS + 1) {[1 := 3]})
      (with_thds (fun t => if t =? 3 then sample_thd 3 1 100 1 (-1) 0
                           else if t =? 5 then sample_thd 5 0 200 (-1) 1 4000
                           else if t =? 8 then sample_thd 8 0 50 (-1) 2 9000
                           else sample_thd t 0 0 0 (-1) 0) core1)).

Lemma core1_timed_inv : sl_inv core1_timed {[3; 5; 8]} {[3]} {[5; 8]}.
Proof. apply sl_invb_sound. vm_compute. reflexivity. Qed.

(** At 5000 only thread 5 is woken. *)
Lemma timeouts_fire_witness :
  exists s', sl_timeout_wakeup_expired 5000 core1_timed = Ok tt s' /\
    sl_inv s' {[3; 5; 8]} {[3; 5]} {[8]} /\ fired core1_timed s' 5000 5 /\ 5000 < thds s' 8 F_timeout_cycs.
Proof.
  assert (expired core1_timed 5000 {[5; 8]} = {[5]}) as Ee by (vm_compute; reflexivity).
  destruct (timeouts_fire core1_timed {[3; 5; 8]} {[3]} {[5; 8]} 5000) as (s' & E & Hi & F & N & _).
  - exact core1_timed_inv.
  - intros t [->%elem_of_singleton| ->%elem_of_singleton]%elem_of_union;
      (split; [reflexivity|vm_compute; discriminate|vm_compute; split; [discriminate|reflexivity]]).
  - rewrite Ee in *. exists s'. split; [exact E|]. split.
    + replace ({[8]} : gset Z) with ({[5; 8]} ∖ {[5]} : gset Z) by set_solver. exact Hi.
    + split; [apply F; set_solver|apply N; set_solver].
Defined.

(** ** What goes wrong *)

Section wrong.
Context {R L : Type} `{!CkRing R sl_xcpu_request, !PsList L, !KernelApi (slst R L)}.
Implicit Types s : slst R L.

(** C39. A thread that is blocked cannot be freed: [sl_thd_free] takes it out of
    the run queue, in which it is not, and halts the core on the assertion of
    [heap_remove]. *)
Theorem free_blocked_halts spin s D X t u c :
  (1 <= spin)%nat -> (forall s : slst R L, exists tok, kapi K_sched_sync s = Ok tok s) ->
  nf_inv s D X -> t ∈ D -> t ∉ X -> running s u c -> glob s G_lock = 0 ->
  sl_thd_free spin t s = Panic AssertFail.
Proof.
  intros Hspin Hsync [Hi Hnf] Ht Hx Hr Hl. pose proof Hi as (RX & _ & _ & _ & HD & _ & _ & IX & _).
  pose proof (HD t Ht). unfold sl_thd_free. slassert ltac:(apply negb_true_iff, Z.eqb_neq; lia).
  rewrite (bind_Ok _ _ _ _ _ (sl_cs_enter_Ok spin Hspin Hsync s u c Hr Hl)).
  set (s1 := with_glob _ s). assert (running s1 u c) as Hr1 by exact Hr.
  apply bind_Panic. unfold sl_thd_free_no_cs. rewrite (bind_Ok _ _ _ _ _ (sl_thd_curr_Ok s1 u c Hr1)).
  slassert ltac:(apply negb_true_iff, Z.eqb_neq; lia). slstep.
  change (thds s1 t F_state) with (thds s t F_state).
  rewrite (nf_state _ _ _ (Hnf t Ht)), decide_False by done.
  slassert ltac:(done). change (SL_THD_BLOCKED =? SL_THD_BLOCKED_TIMEOUT) with false. cbv iota. slstep.
  apply bind_Panic. unfold sl_mod_thd_delete. slstep.
  change (thds s1 t P_prio_idx) with (thds s t P_prio_idx). rewrite (IX t Ht Hx).
  apply bind_Panic. unfold on_edf, heap_remove.
  rewrite (bind_Ok hget _ (EdfSt s1) (edf s) (EdfSt s1)) by done.
  destruct RX as (Hwf & _). destruct Hwf as [[He _] _].
  rewrite (bind_Ok (massert (-1 <? h_e (edf s))) _ (EdfSt s1) tt (EdfSt s1)); [done|].
  apply massert_Ok. apply Z.ltb_lt. unfold hend in He. cbn in He. lia.
Qed.

End wrong.

Lemma free_blocked_halts_witness :
  nf_inv core1 {[3; 5; 8]} {[3; 5]} /\ sl_thd_free 1 8 core1 = Panic AssertFail.
Proof.
  split; [exact core1_inv|]. apply (free_blocked_halts 1 core1 {[3; 5; 8]} {[3; 5]} 8 3 13).
  - lia.
  - intros s. by exists 0.
  - exact core1_inv.
  - set_solver.
  - set_solver.
  - split_and!; vm_compute; first [reflexivity | discriminate].
  - reflexivity.
Defined.

(** A deadline set on a queued thread from another core does not move it in
    the run queue: thread 3 with the deadline 100 is chosen although thread 5
    has the deadline 50. *)
Example remote_deadline_ignored :
  result ((sl_xcpu_handle (mkReq 0 (SL_XCPU_THD_SET_PARAM 5 (sched_param_pack SCHEDP_DEADLINE 50))) ;;
           u <- sl_pick 0 ;; d3 <- getf 3 P_deadline ;; d5 <- getf 5 P_deadline ;;
           ret (u, d3, d5)) core1) = inl (3, 100, 50).
Proof. vm_compute. reflexivity. Qed.

(** A wake-up from another core leaves a thread with a timeout in the timeout
    queue; when the thread next blocks with a timeout the core halts. *)
Example remote_wakeup_of_timed_halts :
  result ((sl_xcpu_handle (mkReq 0 (SL_XCPU_THD_WAKEUP 5)) ;;
           sl_timeout_block 5 7000) core1_timed) = inr AssertFail /\
  result ((sl_thd_wakeup_no_cs 5 ;; sl_timeout_block 5 7000) core1_timed) = inl tt.
Proof. split; vm_compute; reflexivity. Qed.
