(* ===== verification/Eos.v ===== *)
(** * Packet rings of the network functions

    [eos_ring.h] and [eos_pkt.h] of the EOS manager.  A network function has a
    segment of shared memory with an input ring, an output ring and packet
    buffers.  The message-passing core fills input nodes and takes output
    nodes; the function receives packets from the input ring, sends them on
    the output ring, and returns the buffers of nodes that were taken.

    Memory is three stores: the rings by their addresses, the nodes by theirs,
    and the bytes of the buffers.  The layout theorem of [EosSpec] shows that
    the addresses of a segment do not overlap. *)

From S2P Require Import Prelude Config.

Definition CACHE_LINE : Z := 64.
Definition EOS_PKT_MAX_SZ : Z := 256.
Definition EOS_RING_SIZE : Z := 128.
Definition EOS_PKT_PER_ENTRY : Z := 8.
Definition EOS_PKT_COLLECT_MULTIP : Z := 1.
Definition EOS_RING_MASK : Z := EOS_RING_SIZE - 1.

Definition EBLOCK : Z := 1.
Definition ECOLLET : Z := 2.
Definition ESENT : Z := 3.

(** [short] *)
Definition i16 (x : Z) : Z := sext 16 x.

Inductive pkt_states_t : Type :=
| PKT_EMPTY | PKT_FREE | PKT_RECV_READY | PKT_RECV_DONE | PKT_SENT_READY | PKT_SENT_DONE | PKT_TXING.

#[export] Instance pkt_states_eq : EqDecision pkt_states_t.
Proof. solve_decision. Defined.

Definition st_is (a b : pkt_states_t) : bool := bool_decide (a = b).

(** [struct pkt_meta] *)
Record pkt_meta : Type := mkMeta { m_pkt : Z; m_len : Z; m_port : Z }.

(** [struct eos_ring_node], 128 bytes *)
Record eos_ring_node : Type := mkNode {
  n_cnt : Z; n_idx : Z; n_alloc : Z;
  n_deadline : Z; n_arrive : Z;
  n_pkts : list pkt_meta;
  n_state : pkt_states_t }.

(** [struct eos_ring], 640 bytes *)
Record eos_ring : Type := mkRing {
  r_ring : Z; r_phy : Z; r_coreid : Z; r_thdid : Z;
  r_free_head : Z; r_pkt_cnt : Z;
  r_mca_head : Z;
  r_head : Z; r_tail : Z;
  r_cached : eos_ring_node }.

Definition sizeof_pkt_meta : Z := 4 + 4 + 4.
Definition sizeof_node : Z :=
  let fields := 3 * 2 + 2 * 8 + 4 + EOS_PKT_PER_ENTRY * sizeof_pkt_meta in
  fields + (2 * CACHE_LINE - fields).
Definition sizeof_ring : Z :=
  4 * 4 + (2 * CACHE_LINE - 4 * 4) + (2 * 4 + (2 * CACHE_LINE - 2 * 4)) +
  (4 + (2 * CACHE_LINE - 4)) + (2 * 4 + (2 * CACHE_LINE - 2 * 4)) + sizeof_node.

(** Memory filled with zeroes. *)
Definition zero_meta : pkt_meta := mkMeta 0 0 0.
Definition zero_node : eos_ring_node := mkNode 0 0 0 0 0 (replicate 8 zero_meta) PKT_EMPTY.
Definition zero_ring : eos_ring := mkRing 0 0 0 0 0 0 0 0 0 zero_node.

(** Assignments to fields. *)
Definition n_with_cnt (v : Z) (n : eos_ring_node) : eos_ring_node :=
  mkNode v (n_idx n) (n_alloc n) (n_deadline n) (n_arrive n) (n_pkts n) (n_state n).
Definition n_with_idx (v : Z) (n : eos_ring_node) : eos_ring_node :=
  mkNode (n_cnt n) v (n_alloc n) (n_deadline n) (n_arrive n) (n_pkts n) (n_state n).
Definition n_with_alloc (v : Z) (n : eos_ring_node) : eos_ring_node :=
  mkNode (n_cnt n) (n_idx n) v (n_deadline n) (n_arrive n) (n_pkts n) (n_state n).
Definition n_with_times (d a : Z) (n : eos_ring_node) : eos_ring_node :=
  mkNode (n_cnt n) (n_idx n) (n_alloc n) d a (n_pkts n) (n_state n).
Definition n_with_pkts (l : list pkt_meta) (n : eos_ring_node) : eos_ring_node :=
  mkNode (n_cnt n) (n_idx n) (n_alloc n) (n_deadline n) (n_arrive n) l (n_state n).
Definition n_with_state (st : pkt_states_t) (n : eos_ring_node) : eos_ring_node :=
  mkNode (n_cnt n) (n_idx n) (n_alloc n) (n_deadline n) (n_arrive n) (n_pkts n) st.

Definition r_with_cached (c : eos_ring_node) (r : eos_ring) : eos_ring :=
  mkRing (r_ring r) (r_phy r) (r_coreid r) (r_thdid r) (r_free_head r) (r_pkt_cnt r)
         (r_mca_head r) (r_head r) (r_tail r) c.
Definition r_with_tail (v : Z) (r : eos_ring) : eos_ring :=
  mkRing (r_ring r) (r_phy r) (r_coreid r) (r_thdid r) (r_free_head r) (r_pkt_cnt r)
         (r_mca_head r) (r_head r) v (r_cached r).
Definition r_with_head (v : Z) (r : eos_ring) : eos_ring :=
  mkRing (r_ring r) (r_phy r) (r_coreid r) (r_thdid r) (r_free_head r) (r_pkt_cnt r)
         (r_mca_head r) v (r_tail r) (r_cached r).
Definition r_with_mca_head (v : Z) (r : eos_ring) : eos_ring :=
  mkRing (r_ring r) (r_phy r) (r_coreid r) (r_thdid r) (r_free_head r) (r_pkt_cnt r)
         v (r_head r) (r_tail r) (r_cached r).
Definition r_with_free_head (v : Z) (r : eos_ring) : eos_ring :=
  mkRing (r_ring r) (r_phy r) (r_coreid r) (r_thdid r) v (r_pkt_cnt r)
         (r_mca_head r) (r_head r) (r_tail r) (r_cached r).
Definition r_with_pkt_cnt (v : Z) (r : eos_ring) : eos_ring :=
  mkRing (r_ring r) (r_phy r) (r_coreid r) (r_thdid r) (r_free_head r) v
         (r_mca_head r) (r_head r) (r_tail r) (r_cached r).
Definition r_with_owner (core tid : Z) (r : eos_ring) : eos_ring :=
  mkRing (r_ring r) (r_phy r) core tid (r_free_head r) (r_pkt_cnt r)
         (r_mca_head r) (r_head r) (r_tail r) (r_cached r).

(** ** Memory *)

Record eosm : Type := mkMem {
  rings : Z -> eos_ring;
  nodes : Z -> eos_ring_node;
  bytes : Z -> Z }.

Definition zupd {B} (a : Z) (b : B) (f : Z -> B) : Z -> B := fun x => if x =? a then b else f x.

Definition put_ring (a : Z) (r : eos_ring) (s : eosm) : eosm := mkMem (zupd a r (rings s)) (nodes s) (bytes s).
Definition put_node (a : Z) (n : eos_ring_node) (s : eosm) : eosm := mkMem (rings s) (zupd a n (nodes s)) (bytes s).
Definition put_bytes (f : Z -> Z) (s : eosm) : eosm := mkMem (rings s) (nodes s) f.

Definition getr (a : Z) : M eosm eos_ring := gets (fun s => rings s a).
Definition updr (a : Z) (f : eos_ring -> eos_ring) : M eosm unit :=
  modify (fun s => put_ring a (f (rings s a)) s).
Definition getn (a : Z) : M eosm eos_ring_node := gets (fun s => nodes s a).
Definition updn (a : Z) (f : eos_ring_node -> eos_ring_node) : M eosm unit :=
  modify (fun s => put_node a (f (nodes s a)) s).

(** [cos_faa(&(ring->pkt_cnt), d)] *)
Definition faa_pkt_cnt (a d : Z) : M eosm Z :=
  r <- getr a ;; updr a (r_with_pkt_cnt (i32 (r_pkt_cnt r + d))) ;; ret (r_pkt_cnt r).

(** [GET_RING_NODE(r, h)] *)
Definition GET_RING_NODE (r : eos_ring) (h : Z) : Z := r_ring r + h * sizeof_node.
Definition node_at (r : eos_ring) (h : Z) : Z := GET_RING_NODE r (Z.land h EOS_RING_MASK).

(** [node->pkts[i]]: outside of the array is undefined. *)
Definition meta_get (n : eos_ring_node) (i : Z) : M eosm pkt_meta :=
  if i <? 0 then panic OutOfBounds else
  match n_pkts n !! Z.to_nat i with Some m => ret m | None => panic OutOfBounds end.

(** ** Layout, [eos_ring.h] *)

Definition get_input_ring (rh : Z) : Z := rh.
Definition get_output_ring (rh : Z) : Z := rh + sizeof_ring + EOS_RING_SIZE * sizeof_node.

Definition round_up_to_page (x : Z) : Z := round_up_to_pow2 x PAGE_SIZE.
Definition FWP_RINGS_SIZE : Z := 2 * sizeof_ring + 2 * EOS_RING_SIZE * sizeof_node.
Definition FWP_MEMSEG_SIZE : Z :=
  round_up_to_page FWP_RINGS_SIZE + round_up_to_page (EOS_RING_SIZE * EOS_PKT_PER_ENTRY * EOS_PKT_MAX_SZ).

(** A node of the input ring after [eos_rings_init], with its buffers from [p]. *)
Definition init_node (p : Z) : eos_ring_node :=
  mkNode 0 0 0 0 0 (map (fun j => mkMeta (p + Z.of_nat j * EOS_PKT_MAX_SZ) EOS_PKT_MAX_SZ 0) (seq 0 8)) PKT_FREE.

(** The loop of [eos_rings_init] from entry [i], the buffers from [p]. *)
Fixpoint eos_init_loop (n : nat) (i ir or p : Z) : M eosm unit :=
  match n with
  | O => ret tt
  | S n =>
      updn (or + i * sizeof_node) (fun _ => zero_node) ;;
      updn (ir + i * sizeof_node) (fun _ => init_node p) ;;
      eos_init_loop n (i + 1) ir or (p + EOS_PKT_PER_ENTRY * EOS_PKT_MAX_SZ)
  end.

Section init.

(** What the kernel's introspection of the page table returns for a page. *)
Variable pgtbl_introspect : Z -> Z.

(** [cos_map_virt_to_phys], [ninf.c] *)
Definition cos_map_virt_to_phys (vaddr : Z) : M eosm Z :=
  massert (Z.land vaddr 4095 =? 0) ;;
  ret (Z.land (pgtbl_introspect vaddr) 4294963200).

Definition eos_rings_init (rh : Z) : M eosm unit :=
  massert (Z.land rh 4095 =? 0) ;;
  massert (2 * CACHE_LINE >? 3 * 2 + 2 * 8 + 4 + EOS_PKT_PER_ENTRY * sizeof_pkt_meta) ;;
  let input_ring := get_input_ring rh in
  updr input_ring (fun _ => zero_ring) ;;
  phy <- cos_map_virt_to_phys rh ;;
  updr input_ring (fun r => mkRing (input_ring + sizeof_ring) phy (r_coreid r) (r_thdid r) (r_free_head r)
    (r_pkt_cnt r) (r_mca_head r) (r_head r) (r_tail r) (r_cached r)) ;;
  let output_ring := get_output_ring rh in
  updr output_ring (fun _ => zero_ring) ;;
  updr output_ring (fun r => mkRing (output_ring + sizeof_ring) (phy + (output_ring - rh)) (r_coreid r)
    (r_thdid r) (r_free_head r) (r_pkt_cnt r) (r_mca_head r) (r_head r) (r_tail r)
    (n_with_state PKT_SENT_READY (r_cached r))) ;;
  let end_of_rings := output_ring + sizeof_ring + EOS_RING_SIZE * sizeof_node in
  eos_init_loop (Z.to_nat EOS_RING_SIZE) 0 (input_ring + sizeof_ring) (output_ring + sizeof_ring)
    (round_up_to_page end_of_rings).

End init.

(** ** Sending and receiving, [eos_pkt.h] *)

Definition eos_pkt_allocate (ring len : Z) : M eosm Z :=
  massert (len <=? EOS_PKT_MAX_SZ) ;;
  r <- getr ring ;;
  let c := r_cached r in
  (if n_cnt c =? n_idx c then massert (n_alloc c <? EOS_PKT_PER_ENTRY)
   else massert (n_alloc c <? n_idx c)) ;;
  meta <- meta_get c (n_alloc c) ;;
  updr ring (fun r => r_with_cached (n_with_alloc (i16 (n_alloc c + 1)) (r_cached r)) r) ;;
  ret (m_pkt meta).

(** The part that [eos_pkt_send_flush] and [eos_pkt_send_flush_force] share,
    from the test of [cached.idx] on. *)
Definition flush_node (ring : Z) : M eosm Z :=
  r <- getr ring ;;
  let c := r_cached r in
  if n_idx c <? n_cnt c then ret (- ESENT) else
  let rn := node_at r (r_tail r) in
  n <- getn rn ;;
  if st_is (n_state n) PKT_SENT_DONE then ret (- ECOLLET) else
  if negb (st_is (n_state n) PKT_EMPTY) then ret (- EBLOCK) else
  updr ring (fun r => r_with_cached (n_with_idx 0 (r_cached r)) r) ;;
  r <- getr ring ;;
  updn rn (fun _ => r_cached r) ;;
  updr ring (fun r => r_with_tail (i32 (r_tail r + 1)) r) ;;
  updr ring (fun r => r_with_cached (n_with_cnt 0 (r_cached r)) r) ;;
  faa_pkt_cnt ring 1 ;;
  ret 0.

Definition eos_pkt_send_flush_force (ring : Z) : M eosm Z :=
  r <- getr ring ;;
  massert (n_cnt (r_cached r) <=? EOS_PKT_PER_ENTRY) ;;
  flush_node ring.

Definition eos_pkt_send_flush (ring : Z) : M eosm Z :=
  r <- getr ring ;;
  massert (n_cnt (r_cached r) <=? EOS_PKT_PER_ENTRY) ;;
  if n_cnt (r_cached r) =? 0 then ret 0 else flush_node ring.

(** [meta = &(cache->pkts[cache->idx++])] and the three assignments to it. *)
Definition cache_append (ring pkt len port : Z) : M eosm unit :=
  r <- getr ring ;;
  let c := r_cached r in
  _ <- meta_get c (n_idx c) ;;
  updr ring (fun r => r_with_cached
    (n_with_idx (i16 (n_idx c + 1))
       (n_with_pkts (<[Z.to_nat (n_idx c) := mkMeta pkt len port]> (n_pkts c)) (r_cached r))) r).

Definition eos_pkt_send_test (ring pkt len port deadline arrive : Z) : M eosm Z :=
  updr ring (fun r => r_with_cached (n_with_times deadline arrive (r_cached r)) r) ;;
  r <- getr ring ;;
  let full := n_cnt (r_cached r) =? n_idx (r_cached r) in
  e <- (if full then eos_pkt_send_flush ring else ret 0) ;;
  if negb (e =? 0) then ret e else
  cache_append ring pkt len port ;;
  r <- getr ring ;;
  i <- (if n_cnt (r_cached r) =? n_idx (r_cached r)
        then e <- eos_pkt_send_flush ring ;; ret (b2z full + (if e =? 0 then 1 else 0))
        else ret (b2z full)) ;;
  massert (i <=? 1) ;;
  ret 0.

Definition eos_pkt_send (ring pkt len port : Z) : M eosm Z :=
  r <- getr ring ;;
  e <- (if n_cnt (r_cached r) =? n_idx (r_cached r) then eos_pkt_send_flush ring else ret 0) ;;
  if negb (e =? 0) then ret e else
  cache_append ring pkt len port ;;
  r <- getr ring ;;
  if n_cnt (r_cached r) =? n_idx (r_cached r) then eos_pkt_send_flush ring else ret 0.

(** The loop of [eos_pkt_recv_slow] over empty nodes: with every node empty it
    would not end, so its rounds are bounded by [fuel]. *)
Fixpoint recv_skip_empty (fuel : nat) (ring : Z) : M eosm Z :=
  match fuel with
  | O => panic NoFuel
  | S fuel =>
      r <- getr ring ;;
      let rn := node_at r (r_tail r) in
      n <- getn rn ;;
      if negb (st_is (n_state n) PKT_EMPTY) then ret rn else
      updr ring (fun r => r_with_tail (i32 (r_tail r + 1)) r) ;;
      recv_skip_empty fuel ring
  end.

Definition eos_pkt_recv_slow (fuel : nat) (ring sent : Z) : M eosm Z :=
  r <- getr ring ;;
  massert (n_cnt (r_cached r) =? n_idx (r_cached r)) ;;
  rn <- recv_skip_empty fuel ring ;;
  n <- getn rn ;;
  if st_is (n_state n) PKT_RECV_READY then
    updr ring (r_with_cached n) ;;
    massert (negb (n_cnt n =? 0)) ;;
    massert (n_idx n =? 0) ;;
    o <- getr sent ;;
    massert (n_cnt (r_cached o) =? 0) ;;
    massert (n_idx (r_cached o) =? 0) ;;
    updr sent (fun o => r_with_cached (n_with_pkts (n_pkts n) (r_cached o)) o) ;;
    updr ring (fun r => r_with_cached (n_with_alloc 0 (r_cached r)) r) ;;
    updr sent (fun o => r_with_cached (n_with_cnt (n_cnt n) (r_cached o)) o) ;;
    updn rn (n_with_state PKT_RECV_DONE) ;;
    updr ring (fun r => r_with_tail (i32 (r_tail r + 1)) r) ;;
    faa_pkt_cnt ring (- n_cnt n) ;;
    ret 0
  else if st_is (n_state n) PKT_RECV_DONE then ret (- ECOLLET)
  else ret (- EBLOCK).

(** What a receive gives: a packet, its length, its port, and the deadline and
    arrival of its node; or the error stored in [err]. *)
Record received : Type := mkRecvd { rx_pkt : Z; rx_len : Z; rx_port : Z; rx_deadline : Z; rx_arrive : Z }.

Definition eos_pkt_recv_test (fuel : nat) (ring sent : Z) : M eosm (received + Z) :=
  r <- getr ring ;;
  e <- (if n_cnt (r_cached r) =? n_idx (r_cached r) then eos_pkt_recv_slow fuel ring sent else ret 0) ;;
  if negb (e =? 0) then ret (inr e) else
  r <- getr ring ;;
  let c := r_cached r in
  meta <- meta_get c (n_idx c) ;;
  massert (negb (m_pkt meta =? 0)) ;;
  massert (negb (m_len meta =? 0)) ;;
  updr ring (fun r => r_with_cached (n_with_idx (i16 (n_idx c + 1)) (r_cached r)) r) ;;
  ret (inl (mkRecvd (m_pkt meta) (m_len meta) (m_port meta) (n_deadline c) (n_arrive c))).

(** [eos_pkt_recv] differs in not returning the times of the node. *)
Definition eos_pkt_recv (fuel : nat) (ring sent : Z) : M eosm ((Z * Z * Z) + Z) :=
  r <- eos_pkt_recv_test fuel ring sent ;;
  ret (match r with
       | inl p => inl (rx_pkt p, rx_len p, rx_port p)
       | inr e => inr e
       end).

(** The loop over the buffers of a node in [eos_pkt_collect]. *)
Definition same_pkts (a b : list pkt_meta) : bool :=
  forallb (fun j => bool_decide (m_pkt <$> a !! j = m_pkt <$> b !! j)) (seq 0 8).

(** [eos_pkt_collect] from its label [collect] on; each round empties an output
    node, so that one more round than the ring has nodes is enough. *)
Fixpoint collect_loop (fuel : nat) (recv sent c : Z) : M eosm Z :=
  match fuel with
  | O => panic NoFuel
  | S fuel =>
      ri <- getr recv ;; ro <- getr sent ;;
      let rn := node_at ri (r_head ri) in
      let sn := node_at ro (r_head ro) in
      n <- getn rn ;; m <- getn sn ;;
      if (st_is (n_state n) PKT_EMPTY || st_is (n_state n) PKT_RECV_DONE) && st_is (n_state m) PKT_SENT_DONE
      then
        massert (r_head ri =? r_head ro) ;;
        massert (same_pkts (n_pkts n) (n_pkts m)) ;;
        updn sn (n_with_state PKT_EMPTY) ;;
        updn rn (fun _ => n_with_state PKT_FREE (n_with_idx 0 (n_with_cnt 0 m))) ;;
        updr recv (fun r => r_with_head (i32 (r_head r + 1)) r) ;;
        updr sent (fun r => r_with_head (i32 (r_head r + 1)) r) ;;
        collect_loop fuel recv sent (c + 1)
      else ret c
  end.

Definition eos_pkt_collect (recv sent : Z) : M eosm Z :=
  collect_loop (S (Z.to_nat EOS_RING_SIZE)) recv sent 0.
