(* ===== verification/EosSpec.v ===== *)
(** * The packet rings deliver packets in order

    The invariant of the shared segment of a network function, and what each
    operation on its two rings does under it.  The history of the segment is
    kept beside the state: the batches that were ever put into the input ring
    and the batches that were ever sent.  Receiving yields the packets of the
    first history in order, and the output ring holds those of the second. *)

From S2P Require Import Prelude Config Eos.

(** ** Counters and addresses *)

Lemma land_mask x : Z.land (i32 x) EOS_RING_MASK = x mod 128.
Proof.
  change EOS_RING_MASK with (Z.ones 7). rewrite Z.land_ones by lia. change (2 ^ 7) with 128.
  unfold i32. Z.div_mod_to_equations. lia.
Qed.

Lemma i32_succ x : i32 (i32 x + 1) = i32 (x + 1).
Proof. unfold i32. Z.div_mod_to_equations. lia. Qed.

Definition outr (rh : Z) : Z := get_output_ring rh.
Definition innode (rh : Z) (i : nat) : Z := rh + sizeof_ring + (Z.of_nat i mod 128) * sizeof_node.
Definition outnode (rh : Z) (i : nat) : Z := outr rh + sizeof_ring + (Z.of_nat i mod 128) * sizeof_node.
Definition pkt_base (rh : Z) : Z := rh + 36864.
Definition buf (rh : Z) (i j : nat) : Z :=
  pkt_base rh + ((Z.of_nat i mod 128) * EOS_PKT_PER_ENTRY + Z.of_nat j) * EOS_PKT_MAX_SZ.

(** A segment that starts on a page, below the top of memory. *)
Definition seg_ok (rh : Z) : Prop := 0 < rh /\ rh mod 4096 = 0 /\ rh + FWP_MEMSEG_SIZE < 4294967296.

Ltac consts :=
  unfold innode, outnode, buf, pkt_base, outr, get_output_ring, sizeof_ring, sizeof_node, sizeof_pkt_meta,
    EOS_RING_SIZE, EOS_PKT_PER_ENTRY, EOS_PKT_MAX_SZ, CACHE_LINE in *.

Lemma memseg_size : FWP_MEMSEG_SIZE = 36864 + 262144.
Proof. reflexivity. Qed.

(** Within a window of 128 nodes, the addresses of nodes are distinct... *)
Lemma innode_inj rh (H i j : nat) :
  (H <= i < H + 128)%nat -> (H <= j < H + 128)%nat -> innode rh i = innode rh j -> i = j.
Proof. consts. intros. Z.div_mod_to_equations. lia. Qed.

Lemma outnode_inj rh (H i j : nat) :
  (H <= i < H + 128)%nat -> (H <= j < H + 128)%nat -> outnode rh i = outnode rh j -> i = j.
Proof. consts. intros. Z.div_mod_to_equations. lia. Qed.

Lemma in_out_node rh i j : innode rh i <> outnode rh j.
Proof. consts. Z.div_mod_to_equations. lia. Qed.

(** ... and buffers do not overlap. *)
Lemma buf_disjoint rh (H i i' j j' : nat) (x y : Z) :
  (H <= i < H + 128)%nat -> (H <= i' < H + 128)%nat -> (j < 8)%nat -> (j' < 8)%nat ->
  (i <> i' \/ j <> j') -> 0 <= x < 256 -> 0 <= y < 256 -> buf rh i j + x <> buf rh i' j' + y.
Proof. consts. intros. Z.div_mod_to_equations. lia. Qed.

(** A node that is collected comes back 128 places later. *)
Lemma innode_wrap rh i : innode rh (i + 128) = innode rh i.
Proof. unfold innode. do 2 f_equal. Z.div_mod_to_equations. lia. Qed.
Lemma outnode_wrap rh i : outnode rh (i + 128) = outnode rh i.
Proof. unfold outnode. do 2 f_equal. Z.div_mod_to_equations. lia. Qed.
Lemma buf_wrap rh i j : buf rh (i + 128) j = buf rh i j.
Proof. unfold buf. do 4 f_equal. Z.div_mod_to_equations. lia. Qed.

(** ** What is in the buffers *)

Record packet : Type := mkPkt { p_data : list Z; p_port : Z }.
Record batch : Type := mkBatch { b_pkts : list packet; b_deadline : Z; b_arrive : Z }.

Definition pkt_ok (p : packet) : Prop := (1 <= length (p_data p) <= 256)%nat.
Definition batch_ok (b : batch) : Prop := (1 <= length (b_pkts b) <= 8)%nat /\ Forall pkt_ok (b_pkts b).

(** The bytes from the address [a]. *)
Definition holds (s : eosm) (a : Z) (d : list Z) : Prop :=
  forall k x, d !! k = Some x -> bytes s (a + Z.of_nat k) = x.

(** The descriptor [m] describes the packet [p]. *)
Definition describes (s : eosm) (m : pkt_meta) (p : packet) : Prop :=
  m_len m = Z.of_nat (length (p_data p)) /\ m_port m = p_port p /\ holds s (m_pkt m) (p_data p).

(** The node carries the batch. *)
Definition carries (s : eosm) (n : eos_ring_node) (b : batch) : Prop :=
  n_cnt n = Z.of_nat (length (b_pkts b)) /\ n_idx n = 0 /\
  n_deadline n = b_deadline b /\ n_arrive n = b_arrive b /\
  forall j p, b_pkts b !! j = Some p -> exists m, n_pkts n !! j = Some m /\ describes s m p.

(** The node has the eight buffers of the input node [i]. *)
Definition ptrs (n : eos_ring_node) (rh : Z) (i : nat) : Prop :=
  length (n_pkts n) = 8%nat /\ forall j m, n_pkts n !! j = Some m -> m_pkt m = buf rh i j.

Lemma describes_bytes s s' m p :
  (forall x, 0 <= x < 256 -> bytes s' (m_pkt m + x) = bytes s (m_pkt m + x)) -> pkt_ok p ->
  describes s m p -> describes s' m p.
Proof.
  intros Hb [_ Hl] (H1 & H2 & H3). split_and!; try done. intros k x Hk.
  pose proof (lookup_lt_Some _ _ _ Hk). rewrite Hb by lia. by apply H3.
Qed.

Lemma describes_same s s' m p : bytes s' = bytes s -> describes s m p -> describes s' m p.
Proof. intros Hb (H1 & H2 & H3). split_and!; try done. intros k x Hk. rewrite Hb. by apply H3. Qed.

Lemma carries_bytes s s' n rh i b :
  (forall j x, (j < 8)%nat -> 0 <= x < 256 -> bytes s' (buf rh i j + x) = bytes s (buf rh i j + x)) ->
  ptrs n rh i -> batch_ok b -> carries s n b -> carries s' n b.
Proof.
  intros Hb [Hl Hp] [_ Hok] (H1 & H2 & H3 & H4 & H5). split_and!; try done. intros j p Hj.
  destruct (H5 j p Hj) as (m & Hm & Hd). exists m. split; [done|].
  eapply describes_bytes; [|by eapply Forall_lookup_1|exact Hd]. intros x Hx.
  rewrite (Hp j m Hm). apply Hb; [|done]. apply lookup_lt_Some in Hm. lia.
Qed.

(** ** The invariant *)

(** The history of a segment: the batches put into the input ring and those
    sent; how many nodes were collected ([g_H]), taken from the output ring
    ([g_M]) and received ([g_T]); of the batch in work, how many packets were
    received and which were sent. *)
Record ghost : Type := mkG {
  g_ins : list batch; g_outs : list batch;
  g_H : nat; g_M : nat; g_T : nat; g_k : nat; g_part : list packet }.

Definition with_work (T k : nat) (part : list packet) (g : ghost) : ghost :=
  mkG (g_ins g) (g_outs g) (g_H g) (g_M g) T k part.

Definition with_H (H : nat) (g : ghost) : ghost :=
  mkG (g_ins g) (g_outs g) H (g_M g) (g_T g) (g_k g) (g_part g).
Definition with_M (M : nat) (g : ghost) : ghost :=
  mkG (g_ins g) (g_outs g) (g_H g) M (g_T g) (g_k g) (g_part g).
Definition with_ins (l : list batch) (g : ghost) : ghost :=
  mkG l (g_outs g) (g_H g) (g_M g) (g_T g) (g_k g) (g_part g).

Definition g_F (g : ghost) : nat := length (g_ins g).
Definition g_S (g : ghost) : nat := length (g_outs g).

Definition in_state (g : ghost) (i : nat) : pkt_states_t :=
  if decide (i < g_T g)%nat then PKT_RECV_DONE else if decide (i < g_F g)%nat then PKT_RECV_READY else PKT_FREE.
(** A node that was taken is done, or still being transmitted. *)
Definition taken (st : pkt_states_t) : Prop := st = PKT_SENT_DONE \/ st = PKT_TXING.
Definition out_state (g : ghost) (i : nat) (st : pkt_states_t) : Prop :=
  if decide (i < g_M g)%nat then taken st
  else st = if decide (i < g_S g)%nat then PKT_SENT_READY else PKT_EMPTY.

Definition in_node_ok (s : eosm) (rh : Z) (g : ghost) (i : nat) : Prop :=
  let n := nodes s (innode rh i) in
  n_state n = in_state g i /\ ptrs n rh i /\
  ((g_T g <= i < g_F g)%nat -> exists b, g_ins g !! i = Some b /\ carries s n b) /\
  ((g_F g <= i)%nat -> n_cnt n = 0 /\ n_idx n = 0).

Definition out_node_ok (s : eosm) (rh : Z) (g : ghost) (i : nat) : Prop :=
  let n := nodes s (outnode rh i) in
  out_state g i (n_state n) /\
  ((i < g_S g)%nat -> ptrs n rh i) /\
  ((g_M g <= i < g_S g)%nat -> exists b, g_outs g !! i = Some b /\ carries s n b).

(** Between batches, and in the middle of one. *)
Definition idle (s : eosm) (rh : Z) (g : ghost) : Prop :=
  n_cnt (r_cached (rings s rh)) = n_idx (r_cached (rings s rh)) /\
  n_cnt (r_cached (rings s (outr rh))) = 0 /\ n_idx (r_cached (rings s (outr rh))) = 0 /\
  g_k g = 0%nat /\ g_part g = [].

Record busy (s : eosm) (rh : Z) (g : ghost) (b : batch) : Prop := mkBusy {
  bz_in_cnt : n_cnt (r_cached (rings s rh)) = Z.of_nat (length (b_pkts b));
  bz_in_idx : n_idx (r_cached (rings s rh)) = Z.of_nat (g_k g);
  bz_in_ptrs : ptrs (r_cached (rings s rh)) rh (g_S g);
  bz_out_cnt : n_cnt (r_cached (rings s (outr rh))) = Z.of_nat (length (b_pkts b));
  bz_out_idx : n_idx (r_cached (rings s (outr rh))) = Z.of_nat (length (g_part g));
  bz_out_ptrs : ptrs (r_cached (rings s (outr rh))) rh (g_S g);
  bz_part : (length (g_part g) < length (b_pkts b))%nat;
  bz_k : (length (g_part g) <= g_k g <= length (b_pkts b))%nat;
  bz_part_ok : Forall pkt_ok (g_part g);
  bz_deadline : n_deadline (r_cached (rings s rh)) = b_deadline b;
  bz_arrive : n_arrive (r_cached (rings s rh)) = b_arrive b;
  bz_todo : forall j p, (g_k g <= j)%nat -> b_pkts b !! j = Some p ->
     exists m, n_pkts (r_cached (rings s rh)) !! j = Some m /\ describes s m p;
  bz_done : forall j p, g_part g !! j = Some p ->
     exists m, n_pkts (r_cached (rings s (outr rh))) !! j = Some m /\ describes s m p }.

Record region (s : eosm) (rh : Z) (g : ghost) : Prop := mkRegion {
  rg_seg : seg_ok rh;
  rg_in_ring : r_ring (rings s rh) = rh + sizeof_ring;
  rg_out_ring : r_ring (rings s (outr rh)) = outr rh + sizeof_ring;
  rg_order : (g_H g <= g_M g <= g_S g)%nat /\ (g_S g <= g_T g <= g_S g + 1)%nat /\
             (g_T g <= g_F g <= g_H g + 128)%nat;
  rg_in_head : r_head (rings s rh) = i32 (Z.of_nat (g_H g));
  rg_out_head : r_head (rings s (outr rh)) = i32 (Z.of_nat (g_H g));
  rg_in_tail : r_tail (rings s rh) = i32 (Z.of_nat (g_T g));
  rg_out_tail : r_tail (rings s (outr rh)) = i32 (Z.of_nat (g_S g));
  rg_free_head : r_free_head (rings s rh) = i32 (Z.of_nat (g_F g));
  rg_mca_head : r_mca_head (rings s (outr rh)) = i32 (Z.of_nat (g_M g));
  rg_ins : Forall batch_ok (g_ins g);
  rg_outs : Forall batch_ok (g_outs g);
  rg_in_nodes : forall i, (g_H g <= i < g_H g + 128)%nat -> in_node_ok s rh g i;
  rg_out_nodes : forall i, (g_H g <= i < g_H g + 128)%nat -> out_node_ok s rh g i;
  rg_cached : n_state (r_cached (rings s (outr rh))) = PKT_SENT_READY;
  rg_work : (g_T g = g_S g /\ idle s rh g) \/
            (g_T g = S (g_S g) /\ exists b, g_ins g !! g_S g = Some b /\ busy s rh g b) }.

(** ** Executing the operations *)

Lemma bind_getr {A} a (k : eos_ring -> M eosm A) s : bind (getr a) k s = k (rings s a) s.
Proof. reflexivity. Qed.
Lemma bind_updr {A} a f (k : unit -> M eosm A) s :
  bind (updr a f) k s = k tt (put_ring a (f (rings s a)) s).
Proof. reflexivity. Qed.
Lemma bind_getn {A} a (k : eos_ring_node -> M eosm A) s : bind (getn a) k s = k (nodes s a) s.
Proof. reflexivity. Qed.
Lemma bind_updn {A} a f (k : unit -> M eosm A) s :
  bind (updn a f) k s = k tt (put_node a (f (nodes s a)) s).
Proof. reflexivity. Qed.
Lemma bind_ret {A B} (v : A) (k : A -> M eosm B) s : bind (ret v) k s = k v s.
Proof. reflexivity. Qed.
Lemma bind_faa {A} a d (k : Z -> M eosm A) s :
  bind (faa_pkt_cnt a d) k s =
  k (r_pkt_cnt (rings s a)) (put_ring a (r_with_pkt_cnt (i32 (r_pkt_cnt (rings s a) + d)) (rings s a)) s).
Proof. reflexivity. Qed.
Lemma bind_massert {A} b (k : unit -> M eosm A) s : b = true -> bind (massert b) k s = k tt s.
Proof. by intros ->. Qed.

Lemma rings_put a r s b : rings (put_ring a r s) b = if b =? a then r else rings s b.
Proof. reflexivity. Qed.
Lemma nodes_put a n s b : nodes (put_node a n s) b = if b =? a then n else nodes s b.
Proof. reflexivity. Qed.
Lemma ring_eq a r s : rings (put_ring a r s) a = r.
Proof. by rewrite rings_put, Z.eqb_refl. Qed.
Lemma ring_ne a r s b : b <> a -> rings (put_ring a r s) b = rings s b.
Proof. intros H. by rewrite rings_put, (proj2 (Z.eqb_neq _ _) H). Qed.
Lemma node_eq a n s : nodes (put_node a n s) a = n.
Proof. by rewrite nodes_put, Z.eqb_refl. Qed.
Lemma node_ne a n s b : b <> a -> nodes (put_node a n s) b = nodes s b.
Proof. intros H. by rewrite nodes_put, (proj2 (Z.eqb_neq _ _) H). Qed.

Lemma rings_node a n s : rings (put_node a n s) = rings s.
Proof. reflexivity. Qed.
Lemma nodes_ring a r s : nodes (put_ring a r s) = nodes s.
Proof. reflexivity. Qed.
Lemma bytes_ring a r s : bytes (put_ring a r s) = bytes s.
Proof. reflexivity. Qed.
Lemma bytes_node a n s : bytes (put_node a n s) = bytes s.
Proof. reflexivity. Qed.

Lemma outr_ne rh : outr rh <> rh.
Proof. consts. lia. Qed.
Lemma outr_ne' rh : rh <> outr rh.
Proof. consts. lia. Qed.

Lemma i16_small x : -32768 <= x < 32768 -> i16 x = x.
Proof. intros H. unfold i16, sext. change (2 ^ (16 - 1)) with 32768. change (2 ^ 16) with 65536.
  rewrite Z.mod_small; lia. Qed.

(** [est] runs the accesses to memory, [esimp] evaluates what was stored. *)
Ltac est :=
  repeat first [rewrite bind_getr | rewrite bind_updr | rewrite bind_getn | rewrite bind_updn
               | rewrite bind_ret | rewrite bind_faa]; cbv beta.
Ltac esimp :=
  rewrite ?rings_node, ?nodes_ring, ?bytes_ring, ?bytes_node in *;
  cbn [r_ring r_phy r_coreid r_thdid r_free_head r_pkt_cnt
       r_mca_head r_head r_tail r_cached r_with_cached r_with_tail r_with_head r_with_mca_head r_with_free_head
       r_with_pkt_cnt r_with_owner n_cnt n_idx n_alloc n_deadline n_arrive n_pkts n_state n_with_cnt n_with_idx
       n_with_alloc n_with_times n_with_pkts n_with_state m_pkt m_len m_port
       with_work with_H with_M with_ins g_ins g_outs g_H g_M g_T g_k g_part] in *.
(** Reading back what was stored. *)
Ltac eread :=
  repeat first [progress rewrite ?rings_node, ?nodes_ring, ?bytes_ring, ?bytes_node
               | rewrite ring_eq | rewrite ring_ne by (done || apply outr_ne || apply outr_ne')
               | rewrite node_eq | rewrite node_ne by done | progress esimp].
Ltac gsimp := unfold g_S, g_F in *; esimp.
#[global] Arguments put_ring : simpl never.
#[global] Arguments put_node : simpl never.

(** The node that a counter of the ring designates. *)
Lemma in_node_at s rh g (i : nat) r :
  region s rh g -> r_ring r = rh + sizeof_ring -> node_at r (i32 (Z.of_nat i)) = innode rh i.
Proof. intros _ Hr. unfold node_at, GET_RING_NODE, innode. by rewrite land_mask, Hr. Qed.

Lemma out_node_at s rh g (i : nat) r :
  region s rh g -> r_ring r = outr rh + sizeof_ring -> node_at r (i32 (Z.of_nat i)) = outnode rh i.
Proof. intros _ Hr. unfold node_at, GET_RING_NODE, outnode. by rewrite land_mask, Hr. Qed.

Lemma meta_get_ptrs n rh i (j : nat) :
  ptrs n rh i -> (j < 8)%nat ->
  exists m, n_pkts n !! j = Some m /\ m_pkt m = buf rh i j /\
    forall A (k : pkt_meta -> M eosm A) s, bind (meta_get n (Z.of_nat j)) k s = k m s.
Proof.
  intros [Hl Hp] Hj. destruct (lookup_lt_is_Some_2 (n_pkts n) j) as [m Hm]; [lia|].
  exists m. split_and!; [done|by apply Hp|]. intros A k s. unfold meta_get.
  assert (Z.of_nat j <? 0 = false) as -> by lia. by rewrite Nat2Z.id, Hm.
Qed.

(** Nodes that an operation does not touch. *)
Lemma in_node_keep s s' rh g g' i :
  in_node_ok s rh g i -> nodes s' (innode rh i) = nodes s (innode rh i) ->
  ((g_T g' <= i < g_F g')%nat ->
     (forall j x, (j < 8)%nat -> 0 <= x < 256 -> bytes s' (buf rh i j + x) = bytes s (buf rh i j + x)) /\
     Forall batch_ok (g_ins g) /\ (g_T g <= i)%nat /\ g_ins g' !! i = g_ins g !! i) ->
  in_state g' i = in_state g i -> ((g_F g' <= i)%nat -> (g_F g <= i)%nat) -> in_node_ok s' rh g' i.
Proof.
  intros (St & Pt & Hb & Hf) Hn Hk Hst HF. unfold in_node_ok. rewrite Hn. split_and!.
  - by rewrite Hst.
  - done.
  - intros Hi. destruct (Hk Hi) as (Hby & Hok & HT & Hl). rewrite Hl.
    destruct (Hb ltac:(split; [done|]; apply lookup_lt_is_Some_1; rewrite <- Hl;
      apply lookup_lt_is_Some_2; apply Hi)) as (b & Eb & Hc).
    exists b. split; [done|]. eapply carries_bytes; try done. by eapply Forall_lookup_1.
  - intros Hi. by apply Hf, HF.
Qed.

Lemma out_node_keep s s' rh g g' i :
  out_node_ok s rh g i -> nodes s' (outnode rh i) = nodes s (outnode rh i) ->
  ((g_M g' <= i < g_S g')%nat ->
     (forall j x, (j < 8)%nat -> 0 <= x < 256 -> bytes s' (buf rh i j + x) = bytes s (buf rh i j + x)) /\
     Forall batch_ok (g_outs g) /\ (g_M g <= i)%nat /\ g_outs g' !! i = g_outs g !! i) ->
  (forall st, out_state g i st -> out_state g' i st) -> ((i < g_S g')%nat -> (i < g_S g)%nat) -> out_node_ok s' rh g' i.
Proof.
  intros (St & Pt & Hb) Hn Hk Hst HS. unfold out_node_ok. rewrite Hn. split_and!.
  - by apply Hst.
  - intros Hi. by apply Pt, HS.
  - intros Hi. destruct (Hk Hi) as (Hby & Hok & HM & Hl). rewrite Hl.
    destruct (Hb ltac:(split; [done|]; by apply HS, Hi)) as (b & Eb & Hc).
    exists b. split; [done|]. eapply carries_bytes; try done; [|by eapply Forall_lookup_1].
    apply Pt, HS, Hi.
Qed.

(** What an operation on a segment leaves alone. *)
Definition local (rh : Z) (s s' : eosm) : Prop :=
  (forall a, a <> rh -> a <> outr rh -> rings s' a = rings s a) /\
  (forall a, (forall i, a <> innode rh i) -> (forall i, a <> outnode rh i) -> nodes s' a = nodes s a) /\
  (forall a, ~ (pkt_base rh <= a < pkt_base rh + 262144) -> bytes s' a = bytes s a).

(** ** Receiving *)

(** From the batch in work. *)
Lemma recv_busy fuel s rh g b p :
  region s rh g -> g_T g = S (g_S g) -> g_ins g !! g_S g = Some b -> b_pkts b !! g_k g = Some p ->
  exists s', eos_pkt_recv_test fuel rh (outr rh) s =
      Ok (inl (mkRecvd (buf rh (g_S g) (g_k g)) (Z.of_nat (length (p_data p))) (p_port p)
                       (b_deadline b) (b_arrive b))) s' /\
    region s' rh (with_work (g_T g) (S (g_k g)) (g_part g) g) /\
    holds s' (buf rh (g_S g) (g_k g)) (p_data p) /\ local rh s s' /\ bytes s' = bytes s.
Proof.
  intros Hrg HT Hb Hp. destruct (rg_work _ _ _ Hrg) as [[? _]|[_ (b' & Hb' & Hw)]]; [lia|].
  assert (b' = b) as -> by congruence.
  destruct Hw as [w1 w2 w3 w4 w5 w6 w7 w8 w9 w10 w11 w12 w13].
  pose proof (lookup_lt_Some _ _ _ Hp) as Hk.
  pose proof (Forall_lookup_1 _ _ _ _ (rg_ins _ _ _ Hrg) Hb) as [Hlb Hpk].
  pose proof (Forall_lookup_1 _ _ _ _ Hpk Hp) as Hok.
  unfold eos_pkt_recv_test. est. rewrite w1, w2.
  assert (Z.of_nat (length (b_pkts b)) =? Z.of_nat (g_k g) = false) as -> by lia. est. cbn [Z.eqb negb]. est.
  rewrite w2. destruct (meta_get_ptrs _ _ _ (g_k g) w3) as (m & Em & Pm & Run); [lia|]. rewrite Run.
  destruct (w12 (g_k g) p ltac:(lia) Hp) as (m' & Em' & D1 & D2 & D3). assert (m' = m) as -> by congruence.
  rewrite bind_massert, bind_massert.
  2: { rewrite D1. destruct Hok. apply negb_true_iff, Z.eqb_neq. lia. }
  2: { rewrite Pm. apply negb_true_iff, Z.eqb_neq. destruct (rg_seg _ _ _ Hrg). consts.
       Z.div_mod_to_equations. lia. }
  est. rewrite i16_small by lia. eexists. split; [rewrite D1, D2, Pm, w10, w11; reflexivity|].
  split; [|split; [by rewrite <- Pm|split; [split_and!; [intros; by apply ring_ne|done|done]|done]]].
  destruct Hrg as [f1 f2 f3 f4 f5 f6 f7 f8 f9 f10 f11 f12 f13 f14 f15 f16].
  split; rewrite ?ring_eq, ?(ring_ne _ _ _ (outr rh)) by apply outr_ne; try done.
  right. split; [done|]. exists b. split; [done|].
  split; rewrite ?ring_eq, ?(ring_ne _ _ _ (outr rh)) by apply outr_ne; esimp; try done; try lia.
  intros j q Hj. apply w12. lia.
Qed.

(** The node at the tail of the input ring, and its state. *)
Lemma recv_skip_Ok fuel s rh g :
  region s rh g -> (g_T g < g_H g + 128)%nat -> (1 <= fuel)%nat ->
  recv_skip_empty fuel rh s = Ok (innode rh (g_T g)) s.
Proof.
  intros Hrg Hlt Hf. destruct fuel as [|fuel]; [lia|]. cbn [recv_skip_empty]. est.
  rewrite (rg_in_tail _ _ _ Hrg), (in_node_at s rh g _ _ Hrg (rg_in_ring _ _ _ Hrg)).
  destruct (rg_order _ _ _ Hrg) as (o1 & o2 & o3).
  destruct (rg_in_nodes _ _ _ Hrg (g_T g)) as (St & _); [lia|]. rewrite St. unfold in_state.
  rewrite decide_False by lia. by destruct (decide _).
Qed.

(** Taking the next input node into work. *)
Lemma recv_slow_ready fuel s rh g n :
  region s rh g -> g_T g = g_S g -> (g_T g < g_F g)%nat -> (1 <= fuel)%nat ->
  n = nodes s (innode rh (g_T g)) ->
  exists s', eos_pkt_recv_slow fuel rh (outr rh) s = Ok 0 s' /\
    (let r := rings s rh in
     rings s' rh = mkRing (r_ring r) (r_phy r) (r_coreid r) (r_thdid r) (r_free_head r)
      (i32 (r_pkt_cnt r + - n_cnt n)) (r_mca_head r) (r_head r) (i32 (r_tail r + 1)) (n_with_alloc 0 n)) /\
    (let o := rings s (outr rh) in
     rings s' (outr rh) = r_with_cached (n_with_cnt (n_cnt n) (n_with_pkts (n_pkts n) (r_cached o))) o) /\
    nodes s' (innode rh (g_T g)) = n_with_state PKT_RECV_DONE n /\
    (forall a, a <> innode rh (g_T g) -> nodes s' a = nodes s a) /\ local rh s s' /\ bytes s' = bytes s.
Proof.
  intros Hrg HT HF Hfu ->. pose proof (rg_order _ _ _ Hrg) as (o1 & o2 & o3).
  destruct (rg_work _ _ _ Hrg) as [[_ (i1 & i2 & i3 & _)]|[? _]]; [|lia].
  destruct (rg_in_nodes _ _ _ Hrg (g_T g)) as (St & _ & Hc & _); [lia|].
  destruct (Hc ltac:(lia)) as (b & Hb & c1 & c2 & _).
  pose proof (Forall_lookup_1 _ _ _ _ (rg_ins _ _ _ Hrg) Hb) as [Hlb _].
  unfold eos_pkt_recv_slow. est. rewrite bind_massert by (rewrite i1; apply Z.eqb_refl).
  rewrite (bind_Ok _ _ _ _ _ (recv_skip_Ok fuel s rh g Hrg ltac:(lia) Hfu)). est.
  assert (st_is (n_state (nodes s (innode rh (g_T g)))) PKT_RECV_READY = true) as ->.
  { rewrite St. unfold in_state. rewrite decide_False, decide_True by lia. done. }
  est. rewrite bind_massert by (rewrite c1; apply negb_true_iff, Z.eqb_neq; lia).
  rewrite bind_massert by (rewrite c2; done). est.
  rewrite (ring_ne _ _ _ (outr rh)) by apply outr_ne.
  rewrite bind_massert by (rewrite i2; done). rewrite bind_massert by (rewrite i3; done). est.
  eexists. split; [reflexivity|]. pose proof (outr_ne rh). pose proof (outr_ne' rh).
  split; [cbv zeta; eread; done|]. split; [cbv zeta; eread; done|]. split; [eread; done|].
  split; [intros a Ha; eread; done|]. split; [|eread; done].
  split; [intros a Ha Ha'; eread; done|]. split; [intros a Ha Ha'; eread; done|done].
Qed.

Lemma region_slow fuel s rh g s' :
  region s rh g -> g_T g = g_S g -> (g_T g < g_F g)%nat -> (1 <= fuel)%nat ->
  eos_pkt_recv_slow fuel rh (outr rh) s = Ok 0 s' -> region s' rh (with_work (S (g_T g)) 0 [] g).
Proof.
  intros Hrg HT HF Hfu E.
  destruct (recv_slow_ready fuel s rh g _ Hrg HT HF Hfu eq_refl) as (s1 & E1 & Ri & Ro & Ni & No & _ & By).
  rewrite E in E1. injection E1 as <-. clear E.
  pose proof Hrg as [f1 f2 f3 (o1 & o2 & o3) f5 f6 f7 f8 f9 f10 f11 f12 f13 f14 f15 f16].
  destruct (f13 (g_T g)) as (St & Pt & Hc & _); [lia|]. destruct (Hc ltac:(lia)) as (b & Hb & Cr).
  pose proof (Forall_lookup_1 _ _ _ _ f11 Hb) as Hok. cbv zeta in Ri, Ro.
  split; rewrite ?Ri, ?Ro; esimp; try done.
  - gsimp. lia.
  - rewrite f7, i32_succ. do 2 f_equal. lia.
  - intros i Hi. destruct (decide (i = g_T g)) as [->|Hne].
    + unfold in_node_ok. rewrite Ni. esimp. split_and!; try done; [|gsimp; lia|gsimp; lia].
      unfold in_state. gsimp. by rewrite decide_True by lia.
    + eapply in_node_keep; [by apply f13| | | |].
      * apply No. intros Heq. apply Hne. by eapply (innode_inj rh (g_H g)); [lia|lia|].
      * gsimp. intros. split_and!; try done; [by rewrite By|lia].
      * unfold in_state. gsimp. repeat case_decide; done || lia.
      * gsimp. lia.
  - intros i Hi. eapply out_node_keep; [by apply f14| | |done|done].
    + apply No. apply not_eq_sym, in_out_node.
    + gsimp. intros. split_and!; try done; [by rewrite By|lia].
  - right. split; [gsimp; lia|]. exists b.
    change (g_S (with_work (S (g_T g)) 0 [] g)) with (g_S g). rewrite <- HT. split; [done|].
    destruct Cr as (c1 & c2 & c3 & c4 & c5). destruct Hok as [Hl Hpk].
    split; rewrite ?Ri, ?Ro; esimp; change (g_S (with_work (S (g_T g)) 0 [] g)) with (g_S g); rewrite <- ?HT;
      try done; try (gsimp; simpl; lia).
    + destruct f16 as [[_ (_ & i2 & i3 & _)]|[? _]]; [done|lia].
    + intros j p _ Hj. destruct (c5 j p Hj) as (m & Hm & Hd). exists m. split; [done|]. by eapply describes_same.
Qed.

(** The first packet of the next batch. *)
Lemma recv_next fuel s rh g b p :
  region s rh g -> g_T g = g_S g -> (1 <= fuel)%nat -> g_ins g !! g_T g = Some b -> b_pkts b !! 0%nat = Some p ->
  exists s', eos_pkt_recv_test fuel rh (outr rh) s =
      Ok (inl (mkRecvd (buf rh (g_T g) 0) (Z.of_nat (length (p_data p))) (p_port p)
                       (b_deadline b) (b_arrive b))) s' /\
    region s' rh (with_work (S (g_T g)) 1 [] g) /\
    holds s' (buf rh (g_T g) 0) (p_data p) /\ local rh s s' /\ bytes s' = bytes s.
Proof.
  intros Hrg HT Hfu Hb Hp. pose proof (lookup_lt_Some _ _ _ Hb) as HF.
  destruct (recv_slow_ready fuel s rh g _ Hrg HT HF Hfu eq_refl) as (s1 & E1 & Ri & _ & _ & _ & L1 & By).
  pose proof (region_slow fuel s rh g s1 Hrg HT HF Hfu E1) as Hrg1.
  destruct (recv_busy fuel s1 rh (with_work (S (g_T g)) 0 [] g) b p Hrg1) as (s2 & E2 & Hrg2 & Hh & L2 & By2);
    [gsimp; lia|change (g_ins g !! g_S g = Some b); by rewrite <- HT|done|].
  change (g_S (with_work (S (g_T g)) 0 [] g)) with (g_S g) in *. rewrite <- HT in *. esimp.
  exists s2. split; [|split; [exact Hrg2|split; [done|split; [|by rewrite By2]]]].
  - rewrite <- E2. unfold eos_pkt_recv_test. est.
    destruct (rg_work _ _ _ Hrg) as [[_ (i1 & _)]|[? _]]; [|lia]. rewrite i1, Z.eqb_refl.
    rewrite (bind_Ok _ _ _ _ _ E1). cbn [Z.eqb negb]. est.
    destruct (rg_work _ _ _ Hrg1) as [[? _]|[_ (b' & Hb' & Hw)]]; [gsimp; lia|].
    assert (n_cnt (r_cached (rings s1 rh)) =? n_idx (r_cached (rings s1 rh)) = false) as ->; [|by est].
    rewrite (bz_in_cnt _ _ _ _ Hw), (bz_in_idx _ _ _ _ Hw). pose proof (bz_part _ _ _ _ Hw) as Hlt.
    esimp. cbn [length] in Hlt. apply Z.eqb_neq. clear - Hlt. lia.
  - destruct L1 as (a1 & a2 & a3), L2 as (c1 & c2 & c3).
    split_and!; intros; [rewrite c1, a1|rewrite c2, a2|rewrite c3, a3]; done.
Qed.

(** Nothing to receive: the next input node is free, or the ring is full of
    nodes that wait to be collected. *)
Lemma recv_none fuel s rh g :
  region s rh g -> g_T g = g_S g -> g_T g = g_F g -> (1 <= fuel)%nat ->
  eos_pkt_recv_test fuel rh (outr rh) s =
    Ok (inr (if decide (g_F g < g_H g + 128)%nat then - EBLOCK else - ECOLLET)) s.
Proof.
  intros Hrg HT HF Hfu. pose proof (rg_order _ _ _ Hrg) as (o1 & o2 & o3).
  destruct (rg_work _ _ _ Hrg) as [[_ (i1 & _)]|[? _]]; [|lia].
  set (st := if decide (g_F g < g_H g + 128)%nat then PKT_FREE else PKT_RECV_DONE).
  assert (n_state (nodes s (innode rh (g_T g))) = st) as St.
  { subst st. destruct (decide _).
    - destruct (rg_in_nodes _ _ _ Hrg (g_T g)) as (-> & _); [lia|].
      unfold in_state. by rewrite !decide_False by lia.
    - replace (g_T g) with (g_H g + 128)%nat by lia. rewrite innode_wrap.
      destruct (rg_in_nodes _ _ _ Hrg (g_H g)) as (-> & _); [lia|].
      unfold in_state. by rewrite decide_True by lia. }
  assert (recv_skip_empty fuel rh s = Ok (innode rh (g_T g)) s) as Es.
  { destruct fuel as [|fuel]; [lia|]. cbn [recv_skip_empty]. est.
    rewrite (rg_in_tail _ _ _ Hrg), (in_node_at s rh g _ _ Hrg (rg_in_ring _ _ _ Hrg)), St.
    subst st. by destruct (decide _). }
  unfold eos_pkt_recv_test. est. rewrite i1, Z.eqb_refl. unfold eos_pkt_recv_slow.
  rewrite bind_assoc. est. rewrite i1, bind_assoc, bind_massert by apply Z.eqb_refl.
  rewrite bind_assoc, (bind_Ok _ _ _ _ _ Es). rewrite bind_assoc. est. rewrite St.
  subst st. by destruct (decide _).
Qed.

(** ** Sending *)

(** The history after the packet [p] is sent; [d] and [a] are the times in the
    cached output node. *)
Definition sent (g : ghost) (b : batch) (p : packet) (d a : Z) : ghost :=
  if decide (S (length (g_part g)) = length (b_pkts b))
  then mkG (g_ins g) (g_outs g ++ [mkBatch (g_part g ++ [p]) d a]) (g_H g) (g_M g) (g_T g) 0 []
  else with_work (g_T g) (g_k g) (g_part g ++ [p]) g.

(** The cached node after the descriptor of the packet was stored. *)
Definition appended (c : eos_ring_node) (j : nat) (m : pkt_meta) : eos_ring_node :=
  n_with_idx (Z.of_nat (S j)) (n_with_pkts (<[j := m]> (n_pkts c)) c).

Lemma cache_append_Ok s ring (j : nat) pkt len port :
  n_idx (r_cached (rings s ring)) = Z.of_nat j -> (j < 8)%nat -> length (n_pkts (r_cached (rings s ring))) = 8%nat ->
  cache_append ring pkt len port s =
    Ok tt (put_ring ring (r_with_cached (appended (r_cached (rings s ring)) j (mkMeta pkt len port)) (rings s ring)) s).
Proof.
  intros Hi Hj Hl. unfold cache_append. est. rewrite Hi.
  destruct (lookup_lt_is_Some_2 (n_pkts (r_cached (rings s ring))) j) as [m Hm]; [lia|].
  unfold meta_get. assert (Z.of_nat j <? 0 = false) as -> by lia. rewrite Nat2Z.id, Hm. est.
  rewrite i16_small by lia. unfold updr, modify, appended. do 6 f_equal. lia.
Qed.

(** A descriptor stored at the next place. *)
Lemma appended_parts s rh i c part p :
  ptrs c rh i -> (length part < 8)%nat ->
  (forall j q, part !! j = Some q -> exists m, n_pkts c !! j = Some m /\ describes s m q) ->
  holds s (buf rh i (length part)) (p_data p) ->
  let c' := appended c (length part)
              (mkMeta (buf rh i (length part)) (Z.of_nat (length (p_data p))) (p_port p)) in
  ptrs c' rh i /\
  (forall j q, (part ++ [p]) !! j = Some q -> exists m, n_pkts c' !! j = Some m /\ describes s m q).
Proof.
  intros [Hl Hp] Hlt Hd Hh c'. split; [split|].
  - unfold c', appended. esimp. by rewrite length_insert.
  - intros j m. unfold c', appended. esimp. intros [(-> & <- & _)|[_ Hm]]%list_lookup_insert_Some; [done|].
    by apply Hp.
  - intros j q Hq. unfold c', appended. esimp. apply lookup_app_Some in Hq as [Hq|[Hge Hq]].
    + destruct (Hd j q Hq) as (m & Hm & Hdm). exists m. split; [|done].
      rewrite list_lookup_insert_ne; [done|]. apply lookup_lt_Some in Hq. lia.
    + apply list_lookup_singleton_Some in Hq as [Hj <-]. assert (j = length part) as -> by lia.
      eexists. rewrite list_lookup_insert_eq by lia. split; [done|]. by split_and!.
Qed.

(** The cached output node is complete: it becomes the output node [g_S]. *)
Lemma flush_Ok s rh (Sn : nat) c :
  r_ring (rings s (outr rh)) = outr rh + sizeof_ring -> r_tail (rings s (outr rh)) = i32 (Z.of_nat Sn) ->
  r_cached (rings s (outr rh)) = c -> n_cnt c = n_idx c -> 0 < n_cnt c <= 8 ->
  n_state (nodes s (outnode rh Sn)) = PKT_EMPTY ->
  exists s', eos_pkt_send_flush (outr rh) s = Ok 0 s' /\
    (exists v, rings s' (outr rh) = r_with_pkt_cnt v (r_with_tail (i32 (Z.of_nat (S Sn)))
                 (r_with_cached (n_with_cnt 0 (n_with_idx 0 c)) (rings s (outr rh))))) /\
    nodes s' (outnode rh Sn) = n_with_idx 0 c /\
    (forall a, a <> outnode rh Sn -> nodes s' a = nodes s a) /\
    (forall a, a <> outr rh -> rings s' a = rings s a) /\ bytes s' = bytes s.
Proof.
  intros Hr Ht Hc Hci Hcn St. unfold eos_pkt_send_flush. est. rewrite Hc.
  rewrite bind_massert by (apply Z.leb_le; unfold EOS_PKT_PER_ENTRY; lia).
  assert (n_cnt c =? 0 = false) as -> by lia. unfold flush_node. est. rewrite Hc.
  assert (n_idx c <? n_cnt c = false) as -> by lia.
  assert (node_at (rings s (outr rh)) (r_tail (rings s (outr rh))) = outnode rh Sn) as Hn.
  { unfold node_at, GET_RING_NODE, outnode. by rewrite Ht, land_mask, Hr. }
  rewrite Hn. est. rewrite St. cbn [st_is bool_decide]. est. eexists. split; [reflexivity|].
  split; [eexists; eread; rewrite Hc; esimp; rewrite Ht, i32_succ; unfold r_with_pkt_cnt; esimp;
    replace (Z.of_nat Sn + 1) with (Z.of_nat (S Sn)) by lia; reflexivity|].
  split; [eread; by rewrite Hc|]. split; [intros a Ha; by eread|]. split; [intros a Ha; by eread|by eread].
Qed.

(** A packet that completes its batch. *)
Lemma send_last s rh g b p s1 c :
  region s rh g -> g_T g = S (g_S g) -> g_ins g !! g_S g = Some b -> pkt_ok p ->
  S (length (g_part g)) = length (b_pkts b) -> (length (g_part g) < g_k g)%nat ->
  holds s (buf rh (g_S g) (length (g_part g))) (p_data p) ->
  c = appended (r_cached (rings s (outr rh))) (length (g_part g))
        (mkMeta (buf rh (g_S g) (length (g_part g))) (Z.of_nat (length (p_data p))) (p_port p)) ->
  s1 = put_ring (outr rh) (r_with_cached c (rings s (outr rh))) s ->
  exists s', eos_pkt_send_flush (outr rh) s1 = Ok 0 s' /\
    region s' rh (sent g b p (n_deadline c) (n_arrive c)) /\ local rh s s' /\ bytes s' = bytes s.
Proof.
  intros Hrg HT Hb Hp Hlast Hk Hh -> ->. set (c := appended _ _ _).
  pose proof Hrg as [f1 f2 f3 (o1 & o2 & o3) f5 f6 f7 f8 f9 f10 f11 f12 f13 f14 f15 f16].
  destruct f16 as [[? _]|[_ (b' & Hb' & Hw)]]; [lia|]. assert (b' = b) as -> by congruence.
  destruct Hw as [w1 w2 w3 w4 w5 w6 w7 w8 w9 w10 w11 w12 w13].
  pose proof (Forall_lookup_1 _ _ _ _ f11 Hb) as [Hlb _].
  destruct (appended_parts s rh (g_S g) _ (g_part g) p w6 ltac:(lia) w13 Hh) as [Pc Dc]. fold c in Pc, Dc.
  set (s1 := put_ring _ _ s). destruct (f14 (g_S g)) as (St & _ & _); [lia|].
  destruct (flush_Ok s1 rh (g_S g) c) as (s' & E & (v & Ro) & No & Nn & Rn & By); subst s1; eread; try done.
  { subst c. unfold appended. esimp. lia. }
  { subst c. unfold appended. esimp. lia. }
  { unfold out_state in St. by rewrite !decide_False in St by lia. }
  rewrite ring_eq in Ro. exists s'. split; [done|]. split; [|split; [|done]].
  2: { split_and!; intros; [rewrite Rn by done; by eread|apply Nn; naive_solver|by rewrite By]. }
  unfold sent. rewrite decide_True by done.
  set (b1 := mkBatch (g_part g ++ [p]) (n_deadline c) (n_arrive c)).
  set (g' := mkG _ _ _ _ _ _ _). assert (g_S g' = S (g_S g)) as HS
    by (subst g'; gsimp; rewrite length_app; simpl; lia).
  assert (rings s' rh = rings s rh) as Ri by (rewrite Rn by apply outr_ne'; by eread).
  split; rewrite ?Ro, ?Ri; esimp; try done.
  - rewrite HS. subst g'. gsimp. lia.
  - by rewrite HS.
  - subst g'. esimp. apply Forall_app. split; [done|]. apply Forall_singleton. split.
    + subst b1. cbn. rewrite length_app. simpl. lia.
    + subst b1. cbn. apply Forall_app. split; [done|by apply Forall_singleton].
  - intros i Hi. eapply in_node_keep; [by apply f13| | |done|done].
    + rewrite Nn by apply in_out_node. by eread.
    + intros Hi'. split_and!; try done; [by rewrite By|apply Hi'].
  - intros i Hi. change (g_H g <= i < g_H g + 128)%nat in Hi. destruct (decide (i = g_S g)) as [->|Hne].
    + unfold out_node_ok. rewrite No. split_and!.
      * unfold out_state. rewrite decide_False, decide_True; [|rewrite HS; lia|subst g'; esimp; lia].
        esimp. rewrite <- f15. subst c. by unfold appended.
      * intros _. exact Pc.
      * intros _. exists b1. split; [subst g'; esimp; unfold g_S; by rewrite lookup_app_r, Nat.sub_diag by lia|].
        subst b1. unfold carries. esimp. cbn [b_pkts b_deadline b_arrive].
        split_and!; try done; [subst c; unfold appended; esimp; rewrite length_app; simpl; lia|].
        intros j q Hq. destruct (Dc j q Hq) as (m & Hm & Hd). exists m. split; [done|]. by eapply describes_same.
    + assert ((i < g_S g')%nat -> (i < g_S g)%nat) as Hlt by (rewrite HS; lia).
      eapply out_node_keep; [by apply f14| | | |done].
      * rewrite Nn; [by eread|]. intros Heq. by apply Hne, (outnode_inj rh (g_H g)); [lia|lia|].
      * intros [Hi1 Hi2]. split_and!; try done; [by rewrite By|].
        subst g'. esimp. rewrite lookup_app_l; [done|]. apply Hlt, Hi2.
      * intros st. unfold out_state. rewrite HS. subst g'. esimp. repeat case_decide; done || lia.
  - left. rewrite HS. split; [subst g'; esimp; lia|]. unfold idle. rewrite Ri, Ro. esimp.
    split_and!; try done. rewrite w1, w2. lia.
Qed.

(** A packet in the middle of its batch. *)
Lemma send_more s rh g b p c :
  region s rh g -> g_T g = S (g_S g) -> g_ins g !! g_S g = Some b -> pkt_ok p ->
  S (length (g_part g)) <> length (b_pkts b) -> (length (g_part g) < g_k g)%nat ->
  holds s (buf rh (g_S g) (length (g_part g))) (p_data p) ->
  c = appended (r_cached (rings s (outr rh))) (length (g_part g))
        (mkMeta (buf rh (g_S g) (length (g_part g))) (Z.of_nat (length (p_data p))) (p_port p)) ->
  region (put_ring (outr rh) (r_with_cached c (rings s (outr rh))) s) rh
         (sent g b p (n_deadline c) (n_arrive c)).
Proof.
  intros Hrg HT Hb Hp Hmore Hk Hh ->. set (c := appended _ _ _).
  pose proof Hrg as [f1 f2 f3 f4 f5 f6 f7 f8 f9 f10 f11 f12 f13 f14 f15 f16].
  destruct f16 as [[? _]|[_ (b' & Hb' & Hw)]]; [lia|]. assert (b' = b) as -> by congruence.
  destruct Hw as [w1 w2 w3 w4 w5 w6 w7 w8 w9 w10 w11 w12 w13].
  pose proof (Forall_lookup_1 _ _ _ _ f11 Hb) as [Hlb _].
  destruct (appended_parts s rh (g_S g) _ (g_part g) p w6 ltac:(lia) w13 Hh) as [Pc Dc]. fold c in Pc, Dc.
  unfold sent. rewrite decide_False by done.
  split; rewrite ?ring_eq, ?(ring_ne _ _ _ rh) by apply outr_ne'; try done.
  right. split; [done|]. exists b. split; [done|].
  split; rewrite ?ring_eq, ?(ring_ne _ _ _ rh) by apply outr_ne'; esimp; try done.
  - subst c. unfold appended. esimp. rewrite length_app. cbn [length]. lia.
  - rewrite length_app. cbn [length]. lia.
  - rewrite length_app. cbn [length]. lia.
  - apply Forall_app. split; [done|by apply Forall_singleton].
Qed.

(** Sending a packet that was received, from its own buffer, in order. *)
Lemma send_Ok s rh g b p :
  region s rh g -> g_T g = S (g_S g) -> g_ins g !! g_S g = Some b -> pkt_ok p ->
  (length (g_part g) < g_k g)%nat -> holds s (buf rh (g_S g) (length (g_part g))) (p_data p) ->
  exists s', eos_pkt_send (outr rh) (buf rh (g_S g) (length (g_part g))) (Z.of_nat (length (p_data p)))
               (p_port p) s = Ok 0 s' /\
    region s' rh (sent g b p (n_deadline (r_cached (rings s (outr rh)))) (n_arrive (r_cached (rings s (outr rh))))) /\
    local rh s s' /\ bytes s' = bytes s.
Proof.
  intros Hrg HT Hb Hp Hk Hh. destruct (rg_work _ _ _ Hrg) as [[? _]|[_ (b' & Hb' & Hw)]]; [lia|].
  assert (b' = b) as -> by congruence. pose proof Hw as [w1 w2 w3 w4 w5 w6 w7 w8 w9 w10 w11 w12 w13].
  pose proof (Forall_lookup_1 _ _ _ _ (rg_ins _ _ _ Hrg) Hb) as [Hlb _].
  unfold eos_pkt_send. est. rewrite w4, w5.
  assert (Z.of_nat (length (b_pkts b)) =? Z.of_nat (length (g_part g)) = false) as -> by lia.
  est. cbn [Z.eqb negb].
  rewrite (bind_Ok _ _ _ _ _ (cache_append_Ok s (outr rh) _ _ _ _ w5 ltac:(lia) (proj1 w6))). est.
  rewrite ring_eq. esimp. set (c := appended _ _ _).
  assert (n_cnt c = Z.of_nat (length (b_pkts b))) as Hc by (subst c; unfold appended; by esimp).
  assert (n_idx c = Z.of_nat (S (length (g_part g)))) as Hi by (subst c; unfold appended; by esimp).
  rewrite Hc, Hi. destruct (decide (S (length (g_part g)) = length (b_pkts b))) as [Hl|Hl].
  - rewrite Hl, Z.eqb_refl.
    destruct (send_last s rh g b p _ c Hrg HT Hb Hp Hl Hk Hh eq_refl eq_refl) as (s' & E & Hr & L & By).
    exists s'. by split_and!.
  - assert (Z.of_nat (length (b_pkts b)) =? Z.of_nat (S (length (g_part g))) = false) as -> by (apply Z.eqb_neq; lia).
    eexists. split; [done|]. split; [exact (send_more s rh g b p c Hrg HT Hb Hp Hl Hk Hh eq_refl)|].
    split; [|done]. split_and!; intros; by eread.
Qed.

(** Changing the times of the cached output node. *)
Lemma region_times s rh g d a :
  region s rh g ->
  region (put_ring (outr rh) (r_with_cached (n_with_times d a (r_cached (rings s (outr rh)))) (rings s (outr rh))) s) rh g.
Proof.
  intros [f1 f2 f3 f4 f5 f6 f7 f8 f9 f10 f11 f12 f13 f14 f15 f16].
  split; rewrite ?ring_eq, ?(ring_ne _ _ _ rh) by apply outr_ne'; try done.
  destruct f16 as [[HT Hi]|[HT (b & Hb & [])]]; [left|right]; (split; [done|]).
  - unfold idle in *. by rewrite ring_eq, (ring_ne _ _ _ rh) by apply outr_ne'.
  - exists b. split; [done|]. split; rewrite ?ring_eq, ?(ring_ne _ _ _ rh) by apply outr_ne'; done.
Qed.

(** The same with times. *)
Lemma send_test_Ok s rh g b p d a :
  region s rh g -> g_T g = S (g_S g) -> g_ins g !! g_S g = Some b -> pkt_ok p ->
  (length (g_part g) < g_k g)%nat -> holds s (buf rh (g_S g) (length (g_part g))) (p_data p) ->
  exists s', eos_pkt_send_test (outr rh) (buf rh (g_S g) (length (g_part g))) (Z.of_nat (length (p_data p)))
               (p_port p) d a s = Ok 0 s' /\
    region s' rh (sent g b p d a) /\ local rh s s' /\ bytes s' = bytes s.
Proof.
  intros Hrg HT Hb Hp Hk Hh. set (s0 := put_ring (outr rh) (r_with_cached (n_with_times d a
    (r_cached (rings s (outr rh)))) (rings s (outr rh))) s).
  destruct (send_Ok s0 rh g b p (region_times _ _ _ d a Hrg) HT Hb Hp Hk Hh) as (s' & E & Hr & L & By).
  subst s0. rewrite ring_eq in Hr. esimp. exists s'. split; [|split; [exact Hr|split; [|exact By]]].
  2: { destruct L as (a1 & a2 & a3). split_and!; intros; [rewrite a1 by done|rewrite a2|rewrite a3]; by eread. }
  destruct (rg_work _ _ _ Hrg) as [[? _]|[_ (b' & Hb' & [w1 w2 w3 w4 w5 w6 w7 w8 w9 w10 w11 w12 w13])]]; [lia|].
  unfold eos_pkt_send_test, eos_pkt_send in *. est. rewrite bind_getr in E.
  set (s0 := put_ring _ _ s) in *. assert (n_cnt (r_cached (rings s0 (outr rh))) =?
    n_idx (r_cached (rings s0 (outr rh))) = false) as Hf.
  { subst s0. rewrite ring_eq. esimp. rewrite w4, w5. lia. }
  rewrite Hf in *. rewrite bind_ret in *. cbn [Z.eqb negb] in *.
  apply bind_inv in E as ([] & s1 & E1 & E2). rewrite (bind_Ok _ _ _ _ _ E1). rewrite bind_getr in *.
  destruct (_ =? _).
  - rewrite bind_assoc, (bind_Ok _ _ _ _ _ E2). by est.
  - injection E2 as <-. by est.
Qed.

(** ** Collecting *)

Lemma ptrs_same n m rh i : ptrs n rh i -> ptrs m rh i -> same_pkts (n_pkts n) (n_pkts m) = true.
Proof.
  intros [L1 P1] [L2 P2]. unfold same_pkts. apply forallb_forall. intros j Hj%in_seq.
  apply bool_decide_eq_true_2.
  destruct (lookup_lt_is_Some_2 (n_pkts n) j) as [x Hx]; [lia|].
  destruct (lookup_lt_is_Some_2 (n_pkts m) j) as [y Hy]; [lia|].
  rewrite Hx, Hy. cbn. by rewrite (P1 _ _ Hx), (P2 _ _ Hy).
Qed.

Lemma idle_ext s s' rh g :
  r_cached (rings s' rh) = r_cached (rings s rh) ->
  r_cached (rings s' (outr rh)) = r_cached (rings s (outr rh)) -> idle s rh g -> idle s' rh g.
Proof. unfold idle. by intros -> ->. Qed.

Lemma busy_ext s s' rh g b :
  r_cached (rings s' rh) = r_cached (rings s rh) ->
  r_cached (rings s' (outr rh)) = r_cached (rings s (outr rh)) -> bytes s' = bytes s ->
  busy s rh g b -> busy s' rh g b.
Proof.
  intros H1 H2 By []. split; rewrite ?H1, ?H2; try done.
  - intros j p Hj Hp. destruct (bz_todo0 j p Hj Hp) as (m & ? & ?). exists m. split; [done|].
    by eapply describes_same.
  - intros j p Hp. destruct (bz_done0 j p Hp) as (m & ? & ?). exists m. split; [done|].
    by eapply describes_same.
Qed.

(** One round, on a node that was taken. *)
Lemma collect_round fuel c s rh g :
  region s rh g -> (g_H g < g_M g)%nat -> n_state (nodes s (outnode rh (g_H g))) = PKT_SENT_DONE ->
  exists s', collect_loop (S fuel) rh (outr rh) c s = collect_loop fuel rh (outr rh) (c + 1) s' /\
    region s' rh (with_H (S (g_H g)) g) /\ local rh s s' /\ bytes s' = bytes s /\
    forall i, (g_H g < i < g_H g + 128)%nat -> nodes s' (outnode rh i) = nodes s (outnode rh i).
Proof.
  intros Hrg HM So. pose proof Hrg as [f1 f2 f3 (o1 & o2 & o3) f5 f6 f7 f8 f9 f10 f11 f12 f13 f14 f15 f16].
  destruct (f13 (g_H g)) as (Si & Pi & _); [lia|]. destruct (f14 (g_H g)) as (_ & Po & _); [lia|].
  cbn [collect_loop]. est. rewrite f5, f6, (in_node_at s rh g _ _ Hrg f2), (out_node_at s rh g _ _ Hrg f3).
  rewrite Si, So. unfold in_state. rewrite !decide_True by lia. cbn [st_is bool_decide orb andb].
  change (st_is PKT_RECV_DONE PKT_RECV_DONE) with true. change (st_is PKT_SENT_DONE PKT_SENT_DONE) with true.
  rewrite orb_true_r. cbn [andb]. rewrite bind_massert by apply Z.eqb_refl.
  rewrite bind_massert by (eapply ptrs_same; [exact Pi|apply Po; lia]). est.
  eexists. split; [reflexivity|]. set (m := nodes s (outnode rh (g_H g))).
  set (s' := put_ring (outr rh) _ _).
  assert (bytes s' = bytes s) as By by (subst s'; by eread).
  assert (rings s' rh = r_with_head (i32 (Z.of_nat (g_H g) + 1)) (rings s rh)) as Ri.
  { subst s'. eread. by rewrite f5, i32_succ. }
  assert (rings s' (outr rh) = r_with_head (i32 (Z.of_nat (g_H g) + 1)) (rings s (outr rh))) as Ro.
  { subst s'. eread. by rewrite f6, i32_succ. }
  assert (nodes s' (innode rh (g_H g)) = n_with_state PKT_FREE (n_with_idx 0 (n_with_cnt 0 m))) as Ni
    by (subst s'; by eread).
  assert (nodes s' (outnode rh (g_H g)) = n_with_state PKT_EMPTY m) as No.
  { subst s'. eread. rewrite node_ne by apply not_eq_sym, in_out_node. by rewrite node_eq. }
  assert (forall a, a <> innode rh (g_H g) -> a <> outnode rh (g_H g) -> nodes s' a = nodes s a) as Nn
    by (intros a Ha Ha'; subst s'; by eread).
  assert (forall a, a <> rh -> a <> outr rh -> rings s' a = rings s a) as Rn by (intros; subst s'; by eread).
  clearbody s'. split; [|split; [|split; [done|]]].
  2: { split_and!; [done|intros; apply Nn; naive_solver|intros; by rewrite By]. }
  2: { intros i Hi. apply Nn; [apply not_eq_sym, in_out_node|]. intros Heq.
       apply (outnode_inj rh (g_H g)) in Heq; lia. }
  replace (Z.of_nat (g_H g) + 1) with (Z.of_nat (S (g_H g))) in * by lia.
  split; rewrite ?Ri, ?Ro; esimp; try done.
  - gsimp. lia.
  - intros i Hi. destruct (decide (i = g_H g + 128)%nat) as [->|Hne].
    + unfold in_node_ok. rewrite innode_wrap, Ni. esimp. split_and!; [| |gsimp; lia|done].
      * unfold in_state. gsimp. by rewrite !decide_False by lia.
      * destruct (Po ltac:(lia)) as [Hl Hp]. split; [done|]. intros j x Hx. rewrite buf_wrap. by apply Hp.
    + eapply in_node_keep; [apply f13; lia| | |done|done].
      * apply Nn; [|apply in_out_node]. intros Heq. apply Hne, (innode_inj rh (S (g_H g))); [lia|lia|].
        by rewrite innode_wrap.
      * intros Hi'. split_and!; try done; [by rewrite By|apply Hi'].
  - intros i Hi. destruct (decide (i = g_H g + 128)%nat) as [->|Hne].
    + unfold out_node_ok. rewrite outnode_wrap, No. esimp. split_and!; [|gsimp; lia|gsimp; lia].
      unfold out_state. gsimp. by rewrite !decide_False by lia.
    + eapply out_node_keep; [apply f14; lia| | |done|done].
      * apply Nn; [apply not_eq_sym, in_out_node|]. intros Heq.
        apply Hne, (outnode_inj rh (S (g_H g))); [lia|lia|]. by rewrite outnode_wrap.
      * intros Hi'. split_and!; try done; [by rewrite By|apply Hi'].
  - destruct f16 as [[HT Hid]|[HT (b & Hb & Hbz)]]; [left|right]; (split; [done|]).
    + eapply (idle_ext s); rewrite ?Ri, ?Ro; done.
    + exists b. split; [done|]. change (busy s' rh (with_H (S (g_H g)) g) b).
      destruct (busy_ext s s' rh g b) as []; rewrite ?Ri, ?Ro; done.
Qed.

(** Collecting returns nodes up to the first one that is not done: nothing is
    skipped, and the loop ends within its bound. *)
(** The [n] nodes that are collected were done; those behind them stay. *)
Definition collected (rh : Z) (g : ghost) (n : nat) (s s' : eosm) : Prop :=
  (forall i, (g_H g <= i < g_H g + n)%nat -> n_state (nodes s (outnode rh i)) = PKT_SENT_DONE) /\
  (forall i, (g_H g + n <= i < g_H g + 128)%nat -> nodes s' (outnode rh i) = nodes s (outnode rh i)).

Lemma collect_Ok s rh g :
  region s rh g ->
  exists (n : nat) s', eos_pkt_collect rh (outr rh) s = Ok (Z.of_nat n) s' /\
    (g_H g + n <= g_M g)%nat /\
    (g_H g + n = g_M g \/ n_state (nodes s' (outnode rh (g_H g + n))) = PKT_TXING)%nat /\
    region s' rh (with_H (g_H g + n) g) /\ local rh s s' /\ bytes s' = bytes s /\ collected rh g n s s'.
Proof.
  intros Hrg. unfold eos_pkt_collect. change (Z.to_nat EOS_RING_SIZE) with 128%nat.
  destruct (rg_order _ _ _ Hrg) as (o1 & o2 & o3).
  assert (forall m fuel c s g, region s rh g -> (g_M g - g_H g = m)%nat -> (m < fuel)%nat ->
    exists (n : nat) s', collect_loop fuel rh (outr rh) c s = Ok (c + Z.of_nat n) s' /\
      (g_H g + n <= g_M g)%nat /\
      (g_H g + n = g_M g \/ n_state (nodes s' (outnode rh (g_H g + n))) = PKT_TXING)%nat /\
      region s' rh (with_H (g_H g + n) g) /\ local rh s s' /\ bytes s' = bytes s /\ collected rh g n s s') as Hloop.
  { clear. induction m as [|m IH]; intros fuel c s g Hrg Hm Hf; (destruct fuel as [|fuel]; [lia|]);
      pose proof Hrg as [f1 f2 f3 (o1 & o2 & o3) f5 f6 f7 f8 f9 f10 f11 f12 f13 f14 f15 f16];
      destruct (f14 (g_H g)) as (So & _ & _); try lia.
    - exists 0%nat, s. unfold collected. rewrite Nat.add_0_r. split_and!; try done; try lia; [|by destruct g].
      unfold out_state in So. rewrite decide_False in So by lia. cbn [collect_loop]. est.
      rewrite f6, (out_node_at s rh g _ _ Hrg f3), So.
      assert (st_is (if decide (g_H g < g_S g)%nat then PKT_SENT_READY else PKT_EMPTY) PKT_SENT_DONE = false)
        as -> by (by destruct (decide _)).
      rewrite andb_false_r. cbn [Z.of_nat]. by rewrite Z.add_0_r.
    - unfold out_state in So. rewrite decide_True in So by lia. destruct So as [So|So].
      + destruct (collect_round fuel c s rh g Hrg) as (s1 & E1 & Hr1 & L1 & B1 & N1); [lia|done|].
        destruct (IH fuel (c + 1) s1 _ Hr1) as (n & s2 & E2 & Hn & Hst & Hr2 & L2 & B2 & D2 & K2); [esimp; lia|lia|].
        esimp. exists (S n), s2. rewrite Nat.add_succ_comm in *.
        split; [rewrite E1, E2; f_equal; lia|]. split; [done|]. split; [done|]. split; [exact Hr2|].
        split; [|split; [by rewrite B2|split]].
        * destruct L1 as (a1 & a2 & a3), L2 as (c1 & c2 & c3).
          split_and!; intros; [rewrite c1, a1|rewrite c2, a2|rewrite c3, a3]; done.
        * intros i Hi. destruct (decide (i = g_H g)) as [->|Hne]; [done|]. rewrite <- N1 by lia. apply D2. lia.
        * intros i Hi. rewrite K2, N1 by lia. done.
      + exists 0%nat, s. unfold collected. rewrite Nat.add_0_r. split_and!; try done; try lia; [|by right|by destruct g].
        cbn [collect_loop]. est. rewrite f6, (out_node_at s rh g _ _ Hrg f3), So.
        rewrite andb_false_r. cbn [Z.of_nat]. by rewrite Z.add_0_r. }
  destruct (Hloop (g_M g - g_H g)%nat 129%nat 0 s g Hrg eq_refl) as (n & s' & E & H); [lia|].
  exists n, s'. split; [exact E|exact H].
Qed.

(** ** The other side of the rings

    What the message-passing core may do to a segment, stated on the state
    before and after, whatever else changes in memory. *)

(** Rings up to the count of pending packets, which is only a hint. *)
Definition ring_like (r r' : eos_ring) : Prop := exists v, r' = r_with_pkt_cnt v r.

Lemma ring_like_refl r : ring_like r r.
Proof. exists (r_pkt_cnt r). by destruct r. Qed.

(** The nodes and the buffers of a segment are as before. *)
Definition nodes_same (rh : Z) (s s' : eosm) : Prop :=
  forall i, nodes s' (innode rh i) = nodes s (innode rh i) /\ nodes s' (outnode rh i) = nodes s (outnode rh i).
Definition bytes_same (rh : Z) (s s' : eosm) : Prop :=
  forall a, pkt_base rh <= a < pkt_base rh + 262144 -> bytes s' a = bytes s a.

Lemma buf_in_seg rh i j x : (j < 8)%nat -> 0 <= x < 256 -> pkt_base rh <= buf rh i j + x < pkt_base rh + 262144.
Proof. consts. intros. Z.div_mod_to_equations. lia. Qed.

Lemma busy_like s s' rh g b :
  r_cached (rings s' rh) = r_cached (rings s rh) ->
  r_cached (rings s' (outr rh)) = r_cached (rings s (outr rh)) ->
  (forall j x, (j < 8)%nat -> 0 <= x < 256 ->
     (j < length (g_part g) \/ g_k g <= j)%nat -> bytes s' (buf rh (g_S g) j + x) = bytes s (buf rh (g_S g) j + x)) ->
  batch_ok b -> busy s rh g b -> busy s' rh g b.
Proof.
  intros H1 H2 By [Hl Hok] []. split; rewrite ?H1, ?H2; try done.
  - intros j p Hj Hp. destruct (bz_todo0 j p Hj Hp) as (m & Hm & Hd). exists m. split; [done|].
    eapply describes_bytes; [|exact (Forall_lookup_1 _ _ _ _ Hok Hp)|exact Hd]. intros x Hx.
    rewrite (proj2 bz_in_ptrs0 _ _ Hm). apply By; [|done|lia]. apply lookup_lt_Some in Hp. lia.
  - intros j p Hp. destruct (bz_done0 j p Hp) as (m & Hm & Hd). exists m. split; [done|].
    eapply describes_bytes; [|exact (Forall_lookup_1 _ _ _ _ bz_part_ok0 Hp)|exact Hd]. intros x Hx.
    rewrite (proj2 bz_out_ptrs0 _ _ Hm). apply lookup_lt_Some in Hp. apply By; [lia|done|lia].
Qed.

(** The invariant only depends on the segment. *)
Lemma region_frame s s' rh g :
  region s rh g -> ring_like (rings s rh) (rings s' rh) -> ring_like (rings s (outr rh)) (rings s' (outr rh)) ->
  nodes_same rh s s' -> bytes_same rh s s' -> region s' rh g.
Proof.
  intros [f1 f2 f3 (o1 & o2 & o3) f5 f6 f7 f8 f9 f10 f11 f12 f13 f14 f15 f16] [v1 E1] [v2 E2] Ns Bs.
  split; rewrite ?E1, ?E2; esimp; try done.
  - intros i Hi. eapply in_node_keep; [by apply f13|apply Ns| |done|done]. intros Hi'.
    split_and!; try done; [|apply Hi']. intros. by apply Bs, buf_in_seg.
  - intros i Hi. eapply out_node_keep; [by apply f14|apply Ns| |done|done]. intros Hi'.
    split_and!; try done; [|apply Hi']. intros. by apply Bs, buf_in_seg.
  - destruct f16 as [[HT Hid]|[HT (b & Hb & Hbz)]]; [left|right]; (split; [done|]).
    + eapply (idle_ext s); rewrite ?E1, ?E2; done.
    + exists b. split; [done|]. eapply (busy_like s); rewrite ?E1, ?E2; try done.
      * intros. by apply Bs, buf_in_seg.
      * exact (Forall_lookup_1 _ _ _ _ f11 Hb).
Qed.

(** Taking the oldest output node. *)
Lemma region_take s s' rh g st :
  region s rh g -> (g_M g < g_S g)%nat -> taken st -> ring_like (rings s rh) (rings s' rh) ->
  ring_like (r_with_mca_head (i32 (Z.of_nat (S (g_M g)))) (rings s (outr rh))) (rings s' (outr rh)) ->
  nodes s' (outnode rh (g_M g)) = n_with_state st (nodes s (outnode rh (g_M g))) ->
  (forall i, nodes s' (innode rh i) = nodes s (innode rh i)) ->
  (forall i, outnode rh i <> outnode rh (g_M g) -> nodes s' (outnode rh i) = nodes s (outnode rh i)) ->
  bytes_same rh s s' -> region s' rh (with_M (S (g_M g)) g).
Proof.
  intros [f1 f2 f3 (o1 & o2 & o3) f5 f6 f7 f8 f9 f10 f11 f12 f13 f14 f15 f16] HM Hst [v1 E1] [v2 E2] No Ni Nn Bs.
  split; rewrite ?E1, ?E2; esimp; try done.
  - gsimp. lia.
  - intros i Hi. eapply in_node_keep; [by apply f13|apply Ni| |done|done]. intros Hi'.
    split_and!; try done; [|apply Hi']. intros. by apply Bs, buf_in_seg.
  - intros i Hi. destruct (decide (i = g_M g)) as [->|Hne].
    + destruct (f14 (g_M g)) as (_ & Pt & _); [lia|]. unfold out_node_ok. rewrite No. esimp.
      split_and!; [|exact Pt|gsimp; lia]. unfold out_state. gsimp. by rewrite decide_True by lia.
    + eapply out_node_keep; [by apply f14| | | |done].
      * apply Nn. intros Heq. by apply Hne, (outnode_inj rh (g_H g)); [lia|lia|].
      * gsimp. intros Hi'. split_and!; try done; [|lia]. intros. by apply Bs, buf_in_seg.
      * intros st'. unfold out_state. gsimp. repeat case_decide; done || lia.
  - destruct f16 as [[HT Hid]|[HT (b & Hb & Hbz)]]; [left|right]; (split; [done|]).
    + eapply (idle_ext s); rewrite ?E1, ?E2; done.
    + exists b. split; [done|]. destruct (busy_like s s' rh g b); rewrite ?E1, ?E2; try done.
      * intros. by apply Bs, buf_in_seg.
      * exact (Forall_lookup_1 _ _ _ _ f11 Hb).
Qed.

(** Putting a batch into the next free input node. *)
Lemma region_put s s' rh g b n' :
  region s rh g -> (g_F g < g_H g + 128)%nat -> batch_ok b ->
  ring_like (r_with_free_head (i32 (Z.of_nat (S (g_F g)))) (rings s rh)) (rings s' rh) ->
  ring_like (rings s (outr rh)) (rings s' (outr rh)) ->
  nodes s' (innode rh (g_F g)) = n' -> n_state n' = PKT_RECV_READY -> ptrs n' rh (g_F g) -> carries s' n' b ->
  (forall i, innode rh i <> innode rh (g_F g) -> nodes s' (innode rh i) = nodes s (innode rh i)) ->
  (forall i, nodes s' (outnode rh i) = nodes s (outnode rh i)) ->
  (forall a, pkt_base rh <= a < pkt_base rh + 262144 ->
     (forall j x, (j < 8)%nat -> 0 <= x < 256 -> a <> buf rh (g_F g) j + x) -> bytes s' a = bytes s a) ->
  region s' rh (with_ins (g_ins g ++ [b]) g).
Proof.
  intros [f1 f2 f3 (o1 & o2 & o3) f5 f6 f7 f8 f9 f10 f11 f12 f13 f14 f15 f16] HF Hb [v1 E1] [v2 E2]
    Nf Sn Pn Cn Ni No Bs.
  assert (g_F (with_ins (g_ins g ++ [b]) g) = S (g_F g)) as HF' by (gsimp; rewrite length_app; cbn [length]; lia).
  assert (forall i j x, (g_H g <= i < g_H g + 128)%nat -> i <> g_F g -> (j < 8)%nat -> 0 <= x < 256 ->
    bytes s' (buf rh i j + x) = bytes s (buf rh i j + x)) as Bi.
  { intros i j x Hi Hne Hj Hx. apply Bs; [by apply buf_in_seg|]. intros j' x' Hj' Hx'.
    apply (buf_disjoint rh (g_H g)); try done; try lia. }
  split; rewrite ?E1, ?E2; esimp; try done.
  - rewrite HF'. gsimp. lia.
  - by rewrite HF'.
  - apply Forall_app. split; [done|by apply Forall_singleton].
  - intros i Hi. destruct (decide (i = g_F g)) as [->|Hne].
    + unfold in_node_ok. rewrite Nf. split_and!; [|done| |rewrite HF'; lia].
      * rewrite Sn. unfold in_state. rewrite HF'. esimp. by rewrite decide_False, decide_True by lia.
      * intros _. exists b. split; [|done]. esimp. unfold g_F. by rewrite lookup_app_r, Nat.sub_diag by lia.
    + eapply in_node_keep; [by apply f13| | | |rewrite HF'; lia].
      * apply Ni. intros Heq. by apply Hne, (innode_inj rh (g_H g)); [lia|lia|].
      * rewrite HF'. esimp. intros Hi'. split_and!; try done; [intros; by apply Bi|apply Hi'|].
        rewrite lookup_app_l; [done|]. unfold g_F in *. lia.
      * unfold in_state. rewrite HF'. esimp. repeat case_decide; done || lia.
  - intros i Hi. eapply out_node_keep; [by apply f14|apply No| |done|done]. intros Hi'. esimp.
    change (g_S (with_ins (g_ins g ++ [b]) g)) with (g_S g) in Hi'.
    split_and!; try done; [|apply Hi']. intros. apply Bi; try done. lia.
  - destruct f16 as [[HT Hid]|[HT (b' & Hb' & Hbz)]]; [left|right]; (split; [done|]).
    + eapply (idle_ext s); rewrite ?E1, ?E2; done.
    + exists b'. esimp. pose proof (lookup_lt_Some _ _ _ Hb').
      change (g_S (with_ins (g_ins g ++ [b]) g)) with (g_S g). split; [by rewrite lookup_app_l by lia|].
      destruct (busy_like s s' rh g b'); rewrite ?E1, ?E2; try done.
      * intros. apply Bi; try done; [lia|]. unfold g_F. lia.
      * exact (Forall_lookup_1 _ _ _ _ f11 Hb').
Qed.

(** ** The function's own work

    Between receiving and sending it may change the bytes of the buffers of
    the packets it has received and not yet sent. *)
Lemma region_write s rh g (f : Z -> Z) :
  region s rh g ->
  (forall a, (forall j x, (length (g_part g) <= j < g_k g)%nat -> 0 <= x < 256 -> a <> buf rh (g_S g) j + x) ->
             f a = bytes s a) ->
  region (put_bytes f s) rh g.
Proof.
  intros [f1 f2 f3 (o1 & o2 & o3) f5 f6 f7 f8 f9 f10 f11 f12 f13 f14 f15 f16] Hf.
  assert (g_k g <= 8)%nat as Hk8.
  { destruct f16 as [[_ (_ & _ & _ & -> & _)]|[_ (b & Hb & Hbz)]]; [lia|].
    pose proof (bz_k _ _ _ _ Hbz). destruct (Forall_lookup_1 _ _ _ _ f11 Hb) as [? _]. lia. }
  assert (forall i j x, (g_H g <= i < g_H g + 128)%nat -> (g_T g = S (g_S g)) -> (j < 8)%nat -> 0 <= x < 256 ->
    (i <> g_S g \/ (j < length (g_part g) \/ g_k g <= j)%nat) -> f (buf rh i j + x) = bytes s (buf rh i j + x)) as Bi.
  { intros i j x Hi HT Hj Hx Hne. apply Hf. intros j' x' Hj' Hx'.
    apply (buf_disjoint rh (g_H g)); try done; lia. }
  assert (g_T g = g_S g -> forall a, f a = bytes s a) as B0.
  { intros HT a. apply Hf. destruct f16 as [[_ (_ & _ & _ & -> & _)]|[? _]]; lia. }
  assert (forall i j x, (g_H g <= i < g_H g + 128)%nat -> i <> g_S g -> (j < 8)%nat -> 0 <= x < 256 ->
    f (buf rh i j + x) = bytes s (buf rh i j + x)) as Bo.
  { intros i j x Hi Hne Hj Hx. destruct (decide (g_T g = g_S g)); [by apply B0|]. apply Bi; try done; lia. }
  split; try done.
  - intros i Hi. destruct (decide (g_T g = g_S g)) as [HT|HT].
    + eapply in_node_keep; [by apply f13|done| |done|done]. intros Hi'.
      split_and!; try done; [|apply Hi']. intros. by apply B0.
    + eapply in_node_keep; [by apply f13|done| |done|done]. intros Hi'.
      split_and!; try done; [|apply Hi']. intros. apply Bo; try done. lia.
  - intros i Hi. eapply out_node_keep; [by apply f14|done| |done|done]. intros Hi'.
    split_and!; try done; [|apply Hi']. intros. apply Bo; try done. lia.
  - destruct f16 as [[HT Hid]|[HT (b & Hb & Hbz)]]; [by left|right]. split; [done|]. exists b. split; [done|].
    eapply (busy_like s); try done; [|exact (Forall_lookup_1 _ _ _ _ f11 Hb)].
    intros j x Hj Hx Hd. apply Bi; try done; [lia|by right].
Qed.

(** ** Initialisation *)

Lemma eos_init_loop_Ok n : forall i ir or p s,
  (forall a b, 0 <= a < 128 -> 0 <= b < 128 -> ir + a * sizeof_node <> or + b * sizeof_node) ->
  0 <= i -> i + Z.of_nat n <= 128 ->
  exists s', eos_init_loop n i ir or p s = Ok tt s' /\ rings s' = rings s /\ bytes s' = bytes s /\
    (forall k, i <= k < i + Z.of_nat n -> nodes s' (or + k * sizeof_node) = zero_node /\
       nodes s' (ir + k * sizeof_node) = init_node (p + (k - i) * (EOS_PKT_PER_ENTRY * EOS_PKT_MAX_SZ))) /\
    (forall a, (forall k, i <= k < i + Z.of_nat n -> a <> or + k * sizeof_node /\ a <> ir + k * sizeof_node) ->
       nodes s' a = nodes s a).
Proof.
  induction n as [|n IH]; intros i ir or p s Hd Hi Hn.
  { exists s. split_and!; try done. intros k Hk. lia. }
  cbn [eos_init_loop]. est. set (s1 := put_node (ir + _) _ _).
  destruct (IH (i + 1) ir or (p + EOS_PKT_PER_ENTRY * EOS_PKT_MAX_SZ) s1 Hd) as (s' & E & R & B & Hk & Hl);
    [lia|lia|].
  exists s'. split; [done|]. split; [by rewrite R|]. split; [by rewrite B|]. split.
  - intros k Hk'. destruct (decide (k = i)) as [->|Hne].
    + rewrite !Hl. 2,3: intros k Hk2; pose proof (Hd i k ltac:(lia) ltac:(lia)); pose proof (Hd k i ltac:(lia) ltac:(lia));
        change sizeof_node with 128 in *; lia.
      subst s1. rewrite Z.sub_diag, Z.mul_0_l, Z.add_0_r.
      rewrite node_eq, node_ne, node_eq; [done|]. apply not_eq_sym, Hd; lia.
    + destruct (Hk k) as [-> ->]; [lia|]. split; [done|]. f_equal. lia.
  - intros a Ha. rewrite Hl by (intros k Hk'; apply Ha; lia). subst s1. destruct (Ha i) as [Ha1 Ha2]; [lia|].
    by rewrite !node_ne.
Qed.

Definition fresh : ghost := mkG [] [] 0 0 0 0 [].

Lemma round_page rh : seg_ok rh ->
  round_up_to_page (outr rh + sizeof_ring + EOS_RING_SIZE * sizeof_node) = pkt_base rh.
Proof.
  intros (H1 & H2 & H3). rewrite memseg_size in H3.
  unfold round_up_to_page, round_up_to_pow2. change PAGE_SIZE with (2 ^ 12).
  assert (outr rh + sizeof_ring + EOS_RING_SIZE * sizeof_node + 2 ^ 12 - 1 = rh + 38143) as -> by (consts; lia).
  unfold u32. rewrite Z.mod_small by lia. rewrite round_to_pow2_spec by lia. unfold pkt_base.
  change (2 ^ 12) with 4096. Z.div_mod_to_equations. lia.
Qed.

(** A segment that was initialised satisfies the invariant with no history. *)
Lemma eos_rings_init_Ok pgtbl s rh :
  seg_ok rh ->
  exists s', eos_rings_init pgtbl rh s = Ok tt s' /\ region s' rh fresh /\ local rh s s'.
Proof.
  intros Hs. pose proof Hs as (H1 & H2 & H3).
  assert (Z.land rh 4095 = 0) as Hl.
  { change 4095 with (Z.ones 12). by rewrite Z.land_ones by lia. }
  unfold eos_rings_init. rewrite bind_massert by (by rewrite Hl). rewrite bind_massert by done.
  unfold get_input_ring. est. unfold cos_map_virt_to_phys. rewrite bind_assoc, bind_massert by (by rewrite Hl).
  est. fold (outr rh). rewrite round_page by done. change (Z.to_nat EOS_RING_SIZE) with 128%nat.
  set (s1 := put_ring (outr rh) _ _).
  destruct (eos_init_loop_Ok 128 0 (rh + sizeof_ring) (outr rh + sizeof_ring) (pkt_base rh) s1)
    as (s' & E & R & B & Hk & Hl').
  { intros a b Ha Hb. consts. lia. }
  { lia. }
  { lia. }
  exists s'. split; [exact E|]. split.
  2: { split; [intros a Ha Ha'; rewrite R; subst s1; by eread|]. split; [|intros a Ha; by rewrite B].
       intros a Ha Ha'. rewrite Hl'; [done|]. intros k Hk'.
       specialize (Ha (Z.to_nat k)). specialize (Ha' (Z.to_nat k)). unfold innode, outnode in *.
       rewrite Z2Nat.id, Z.mod_small in * by lia. done. }
  assert (forall i : nat, nodes s' (innode rh i) = init_node (buf rh i 0) /\ nodes s' (outnode rh i) = zero_node) as Hn.
  { intros i. unfold innode, outnode. destruct (Hk (Z.of_nat i mod 128)) as [-> ->]; [Z.div_mod_to_equations; lia|].
    split; [|done]. f_equal. unfold buf, EOS_PKT_PER_ENTRY, EOS_PKT_MAX_SZ. lia. }
  assert (forall i, ptrs (init_node (buf rh i 0)) rh i) as Hp.
  { intros i. split; [done|]. intros j m. unfold init_node. cbn [n_pkts]. rewrite list_lookup_fmap.
    destruct (decide (j < 8)%nat) as [Hj|Hj].
    - rewrite lookup_seq_lt by done. intros [= <-]. cbn [m_pkt]. consts. lia.
    - by rewrite lookup_seq_ge by lia. }
  subst s1. split; rewrite ?R; eread; try done.
  - cbn. lia.
  - intros i Hi. unfold in_node_ok. rewrite (proj1 (Hn i)). split_and!; try done.
    intros Hi'. cbn in Hi'. lia.
  - intros i Hi. unfold out_node_ok. rewrite (proj2 (Hn i)). split_and!; try done; intros Hi'; cbn in Hi'; lia.
  - left. split; [done|]. unfold idle. rewrite R. by eread.
Qed.
