(* ===== verification/Mca.v ===== *)
(** * The message-passing core

    [eos_mca.c], [eos_mca.h] and the deadline reset of [fwp_sinv.c]: the core
    that moves batches of packets from the output ring of one network function
    to the input ring of the next and wakes the receiving thread with the
    deadline of the packets.

    The state is the shared memory, the table of deadlines, the connections,
    the rings of the deadline resets, and the scheduler's state on every core
    with the request rings all cores share. *)

From S2P Require Import Prelude Config Heap Ring Sl Eos.

(** [eos_utils.h] *)
Definition FWP_MGR_CORE : Z := 0.
Definition MCA_CORE : Z := 1.
Definition NINF_RX_CORE : Z := 2.
Definition NINF_TX_CORE : Z := 3.
Definition NF_MIN_CORE : Z := 4.
Definition NF_MAX_CORE : Z := NUM_CPU.
Definition EOS_MAX_NF_CHAIN_TYPE_NUM : Z := 3.
Definition EOS_MAX_CHAIN_NUM_PER_CORE : Z := 1.
Definition EOS_MAX_CHAIN_NUM : Z := EOS_MAX_CHAIN_NUM_PER_CORE * (NUM_CPU - NF_MIN_CORE) + EOS_MAX_NF_CHAIN_TYPE_NUM.
Definition EOS_MAX_NF_TYPE_NUM : Z := 5.
Definition EOS_MAX_CHAIN_LEN : Z := 1.
Definition EOS_MAX_NF_NUM_PER_CORE : Z := EOS_MAX_CHAIN_LEN * EOS_MAX_CHAIN_NUM_PER_CORE.
Definition EOS_MAX_NF_NUM : Z := 2 + EOS_MAX_NF_TYPE_NUM + EOS_MAX_NF_NUM_PER_CORE * (NUM_CPU - NF_MIN_CORE).
Definition EOS_MAX_FLOW_NUM : Z := 2048.
Definition EOS_MAX_DEADLINE : Z := 18446744073709551615.
Definition EOS_MAX_MEMSEGS_NUM : Z := EOS_MAX_CHAIN_LEN * EOS_MAX_CHAIN_NUM.

(** [eos_mca.c] *)
Definition MCA_CONN_MAX_NUM : Z := 2048.
Definition OFFSET_US : Z := 1000.
Definition MCA_BURST_CNT : Z := 32 / EOS_PKT_PER_ENTRY.

(** [struct mca_conn]: rings by address, infos by their index in
    [global_info], connections by their place in the pool, from 1. *)
Record mca_conn : Type := mkConn {
  c_src_ring : Z; c_dst_ring : Z; c_next : Z; c_src_info : Z; c_dst_info : Z; c_used : Z }.

(** [struct mca_info], the fields that are used *)
Record mca_info : Type := mkInfo { i_deadline : Z; i_info_idx : Z; i_used : Z; i_empty_flag : Z }.

(** [struct mca_op] *)
Record mca_op : Type := mkOp { op_tid : Z; op_shmem_addr : Z }.

Definition zero_conn : mca_conn := mkConn 0 0 0 0 0 0.
Definition zero_info : mca_info := mkInfo 0 0 0 0.

Definition c_with_next (v : Z) (c : mca_conn) : mca_conn :=
  mkConn (c_src_ring c) (c_dst_ring c) v (c_src_info c) (c_dst_info c) (c_used c).
Definition c_with_used (v : Z) (c : mca_conn) : mca_conn :=
  mkConn (c_src_ring c) (c_dst_ring c) (c_next c) (c_src_info c) (c_dst_info c) v.
Definition i_with_deadline (v : Z) (i : mca_info) : mca_info :=
  mkInfo v (i_info_idx i) (i_used i) (i_empty_flag i).
Definition i_with_idx (v : Z) (i : mca_info) : mca_info :=
  mkInfo (i_deadline i) v (i_used i) (i_empty_flag i).
Definition i_with_empty (v : Z) (i : mca_info) : mca_info :=
  mkInfo (i_deadline i) (i_info_idx i) (i_used i) v.

Record sysst (R L Q : Type) : Type := mkSys {
  mem : eosm;
  global_info : Z -> mca_info;
  conns : Z -> mca_conn;
  fl : Z; lh : Z;                      (** the free and the active connections *)
  mca_ring : Z -> Q;                   (** [mca_global_data] *)
  sl_of : Z -> slst R L;               (** the scheduler of each core *)
  xring : Z -> R;                      (** its request rings, shared *)
  tsc_at : nat -> Z; tsc_n : nat }.    (** readings of the time-stamp counter *)
Arguments mkSys {R L Q}. Arguments mem {R L Q}. Arguments global_info {R L Q}. Arguments conns {R L Q}.
Arguments fl {R L Q}. Arguments lh {R L Q}. Arguments mca_ring {R L Q}. Arguments sl_of {R L Q}.
Arguments xring {R L Q}. Arguments tsc_at {R L Q}. Arguments tsc_n {R L Q}.

Section access.
Context {R L Q : Type}.
Implicit Types s : sysst R L Q.

Definition s_with_mem (m : eosm) s : sysst R L Q :=
  mkSys m (global_info s) (conns s) (fl s) (lh s) (mca_ring s) (sl_of s) (xring s) (tsc_at s) (tsc_n s).
Definition s_with_info (f : Z -> mca_info) s : sysst R L Q :=
  mkSys (mem s) f (conns s) (fl s) (lh s) (mca_ring s) (sl_of s) (xring s) (tsc_at s) (tsc_n s).
Definition s_with_conns (f : Z -> mca_conn) s : sysst R L Q :=
  mkSys (mem s) (global_info s) f (fl s) (lh s) (mca_ring s) (sl_of s) (xring s) (tsc_at s) (tsc_n s).
Definition s_with_fl (v : Z) s : sysst R L Q :=
  mkSys (mem s) (global_info s) (conns s) v (lh s) (mca_ring s) (sl_of s) (xring s) (tsc_at s) (tsc_n s).
Definition s_with_lh (v : Z) s : sysst R L Q :=
  mkSys (mem s) (global_info s) (conns s) (fl s) v (mca_ring s) (sl_of s) (xring s) (tsc_at s) (tsc_n s).
Definition s_with_mca_ring (f : Z -> Q) s : sysst R L Q :=
  mkSys (mem s) (global_info s) (conns s) (fl s) (lh s) f (sl_of s) (xring s) (tsc_at s) (tsc_n s).
Definition s_with_sl (f : Z -> slst R L) (x : Z -> R) s : sysst R L Q :=
  mkSys (mem s) (global_info s) (conns s) (fl s) (lh s) (mca_ring s) f x (tsc_at s) (tsc_n s).
Definition s_with_tsc (n : nat) s : sysst R L Q :=
  mkSys (mem s) (global_info s) (conns s) (fl s) (lh s) (mca_ring s) (sl_of s) (xring s) (tsc_at s) n.

(** An operation on memory. *)
Definition on_mem {A} (m : M eosm A) : M (sysst R L Q) A :=
  fun s => match m (mem s) with Ok a m' => Ok a (s_with_mem m' s) | Panic h => Panic h end.

(** An operation of the scheduler on core [c]. *)
Definition on_core {A} (c : Z) (m : M (slst R L) A) : M (sysst R L Q) A :=
  fun s => match m (with_xrings (xring s) (sl_of s c)) with
           | Ok a l => Ok a (s_with_sl (fupd c l (sl_of s)) (xrings l) s)
           | Panic h => Panic h
           end.

Definition info_get (i : Z) : M (sysst R L Q) mca_info := gets (fun s => global_info s i).
Definition info_upd (i : Z) (f : mca_info -> mca_info) : M (sysst R L Q) unit :=
  modify (fun s => s_with_info (fupd i (f (global_info s i)) (global_info s)) s).
Definition conn_get (c : Z) : M (sysst R L Q) mca_conn := gets (fun s => conns s c).
Definition conn_upd (c : Z) (f : mca_conn -> mca_conn) : M (sysst R L Q) unit :=
  modify (fun s => s_with_conns (fupd c (f (conns s c)) (conns s)) s).
Definition ps_tsc : M (sysst R L Q) Z :=
  n <- gets tsc_n ;; f <- gets tsc_at ;; modify (s_with_tsc (S n)) ;; ret (f n).

End access.

(** ** Moving a batch *)

(** [memcpy]: the buffers do not overlap. *)
Definition mca_copy (dst src sl : Z) : M eosm unit :=
  if sl <? 0 then panic OutOfBounds else
  modify (fun s => put_bytes (fun a => if (dst <=? a) && (a <? dst + sl) then bytes s (src + (a - dst))
                                       else bytes s a) s).

(** One descriptor: the length and port are copied into [rn], the bytes into
    its buffer. *)
Definition transfer_pkt (sn rn : eos_ring_node) (i : Z) : M eosm eos_ring_node :=
  smeta <- meta_get sn i ;;
  rmeta <- meta_get rn i ;;
  mca_copy (m_pkt rmeta) (m_pkt smeta) (m_len smeta) ;;
  ret (n_with_pkts (<[Z.to_nat i := mkMeta (m_pkt rmeta) (m_len smeta) (m_port smeta)]> (n_pkts rn)) rn).

(** The loop of [mca_transfer] over all packets but the last. *)
Fixpoint transfer_loop (n : nat) (i : Z) (sn rn : eos_ring_node) : M eosm eos_ring_node :=
  match n with
  | O => ret rn
  | S n =>
      smeta <- meta_get sn i ;;
      massert (m_len smeta <=? EOS_PKT_MAX_SZ) ;;
      rn <- transfer_pkt sn rn i ;;
      transfer_loop n (i + 1) sn rn
  end.

Definition mca_transfer (sn rn : eos_ring_node) : M eosm eos_ring_node :=
  let cnt := n_cnt sn - 1 in
  rn <- transfer_loop (Z.to_nat cnt) 0 sn (n_with_times (n_deadline sn) (n_arrive sn) rn) ;;
  rn <- transfer_pkt sn rn cnt ;;
  ret (n_with_state PKT_RECV_READY (n_with_cnt (n_cnt sn) rn)).

Section ops.
Context {R L Q : Type} `{!CkRing R sl_xcpu_request, !PsList L, !KernelApi (slst R L), !CkRing Q mca_op}.

Abbreviation SYS := (M (sysst R L Q)).

(** Bound on the loops that end when a ring is empty. *)
Variable spin : nat.

(** ** Deadline resets *)

(** The body of the loop over the pending operations of a core: 1 if the
    deadline was reset. *)
Definition mca_op_process (op : mca_op) : SYS Z :=
  massert (op_tid op <? MCA_CONN_MAX_NUM) ;;
  let idx := op_tid op + EOS_MAX_CHAIN_NUM in
  o <- on_mem (getr (get_output_ring (op_shmem_addr op))) ;;
  if r_pkt_cnt o >? 0 then info_upd idx (i_with_empty 1) ;; ret 0
  else info_upd idx (i_with_deadline EOS_MAX_DEADLINE) ;; ret 1.

Fixpoint mca_ops_loop (fuel : nat) (cpu num : Z) : SYS Z :=
  match fuel with
  | O => panic NoFuel
  | S fuel =>
      rs <- gets mca_ring ;;
      match ck_ring_dequeue (rs cpu) with
      | None => ret num
      | Some (op, r) =>
          modify (s_with_mca_ring (fupd cpu r rs)) ;;
          n <- mca_op_process op ;;
          mca_ops_loop fuel cpu (num + n)
      end
  end.

Fixpoint mca_cpus_loop (n : nat) (cpu num : Z) : SYS Z :=
  match n with
  | O => ret num
  | S n => num <- mca_ops_loop spin cpu num ;; mca_cpus_loop n (cpu + 1) num
  end.

Definition mca_xcpu_process : SYS Z := mca_cpus_loop (Z.to_nat (NF_MAX_CORE - NF_MIN_CORE)) NF_MIN_CORE 0.

(** [__mca_xcpu_op_exit] and [mca_xcpu_thd_dl_reset]: on the core [core] that
    runs the thread, into the ring of [cpu]. *)
Definition mca_xcpu_thd_dl_reset (core tid cpu shmem_addr : Z) : SYS Z :=
  on_core core (sl_cs_enter spin) ;;
  rs <- gets mca_ring ;;
  let '(ok, r) := ck_ring_enqueue (mkOp tid shmem_addr) (rs cpu) in
  modify (s_with_mca_ring (fupd cpu r rs)) ;;
  massert ok ;;
  on_core core (sl_cs_exit spin) ;;
  ret 0.

(** ** The table of deadlines *)

Definition mca_info_get (tid : Z) : SYS Z :=
  massert (tid <? MCA_CONN_MAX_NUM + EOS_MAX_CHAIN_NUM) ;;
  info_upd tid (i_with_idx tid) ;;
  i <- info_get tid ;;
  if tid <? EOS_MAX_CHAIN_NUM then
    massert (i_used i =? 0) ;;
    info_upd tid (fun i => mkInfo EOS_MAX_DEADLINE tid 1 (i_empty_flag i)) ;;
    ret tid
  else
    (if i_used i =? 0 then info_upd tid (fun i => mkInfo EOS_MAX_DEADLINE tid 1 (i_empty_flag i))
     else ret tt) ;;
    ret tid.

(** ** Connections

    The compare-and-swap loops of [mca_push_l] and [mca_conn_alloc] as the one
    round that succeeds. *)

Definition mca_push_lh (c : Z) : SYS unit :=
  t <- gets lh ;; conn_upd c (c_with_next t) ;; modify (s_with_lh c).
Definition mca_push_fl (c : Z) : SYS unit :=
  t <- gets fl ;; conn_upd c (c_with_next t) ;; modify (s_with_fl c).
Definition mca_conn_collect (c : Z) : SYS unit := mca_push_fl c.

Definition mca_conn_alloc : SYS Z :=
  r <- gets fl ;;
  massert (negb (r =? 0)) ;;
  c <- conn_get r ;;
  modify (s_with_fl (c_next c)) ;;
  ret r.

Definition mca_conn_create (src dst src_thdid dst_thdid : Z) : SYS Z :=
  conn <- mca_conn_alloc ;;
  massert (negb (conn =? 0)) ;;
  conn_upd conn (fun c => mkConn src dst (c_next c) (c_src_info c) (c_dst_info c) (c_used c)) ;;
  si <- mca_info_get src_thdid ;;
  conn_upd conn (fun c => mkConn (c_src_ring c) (c_dst_ring c) (c_next c) si (c_dst_info c) (c_used c)) ;;
  i <- info_get si ;;
  massert (i_info_idx i =? src_thdid) ;;
  di <- mca_info_get dst_thdid ;;
  conn_upd conn (fun c => mkConn (c_src_ring c) (c_dst_ring c) (c_next c) (c_src_info c) di (c_used c)) ;;
  i <- info_get di ;;
  massert (i_info_idx i =? dst_thdid) ;;
  conn_upd conn (c_with_used 1) ;;
  mca_push_lh conn ;;
  ret conn.

Definition mca_conn_free (conn : Z) : SYS unit := conn_upd conn (c_with_used 0).

(** The pool is zeroed memory whose entries are chained; [q] are new rings. *)
Definition mca_init (q : Q) : SYS unit :=
  modify (s_with_lh 0) ;;
  modify (s_with_fl 1) ;;
  modify (s_with_conns (fun c => if (1 <=? c) && (c <? MCA_CONN_MAX_NUM) then c_with_next (c + 1) zero_conn
                                 else zero_conn)) ;;
  modify (fun s => s_with_mca_ring
    (fun c => if (NF_MIN_CORE <=? c) && (c <? NF_MAX_CORE) then q else mca_ring s c) s) ;;
  modify (s_with_info (fun _ => zero_info)).

(** ** [mca_process] *)

Definition max_ahead : Z := 500 * 1000 * 2100.

(** What is decided from the deadlines before the batch is moved: true if the
    round goes on.  [r] counts the batches already moved. *)
Definition mca_deadlines (c : mca_conn) (scache : eos_ring_node) (r : Z) : SYS bool :=
  mca_xcpu_process ;;
  let si := c_src_info c in let di := c_dst_info c in
  d <- info_get di ;;
  (if negb (i_empty_flag d =? 0) then
     o <- on_mem (getr (get_output_ring (c_dst_ring c))) ;;
     i <- on_mem (getr (get_input_ring (c_dst_ring c))) ;;
     if (r_pkt_cnt o =? 0) && (r_pkt_cnt i =? 0) then
       info_upd di (i_with_deadline EOS_MAX_DEADLINE) ;; info_upd di (i_with_empty 0)
     else ret tt
   else ret tt) ;;
  i <- info_get si ;;
  (if i_info_idx i <? EOS_MAX_CHAIN_NUM then
     info_upd si (i_with_deadline (n_deadline scache)) ;;
     i <- info_get si ;;
     massert (i_deadline i <? EOS_MAX_DEADLINE) ;;
     curr <- ps_tsc ;;
     massert (i_deadline i <=? u64 (max_ahead + curr))
   else ret tt) ;;
  i <- info_get si ;;
  massert (negb (i_deadline i =? 0)) ;;
  (if i_deadline i =? EOS_MAX_DEADLINE then info_upd si (i_with_deadline (n_deadline scache)) else ret tt) ;;
  i <- info_get si ;;
  massert (i_deadline i <? EOS_MAX_DEADLINE) ;;
  d <- info_get di ;;
  if (i_info_idx i >=? EOS_MAX_CHAIN_NUM) && (i_deadline i >? i_deadline d) then ret false else
  if (u64 (i_deadline i - OFFSET_US * 2100) >? i_deadline d) || (r >? 1) then ret false else
  massert (r <=? 1) ;;
  ret true.

(** The wake-up of the receiver after the batch was moved. *)
Definition mca_wakeup (c : mca_conn) : SYS unit :=
  let si := c_src_info c in let di := c_dst_info c in
  i <- info_get si ;; d <- info_get di ;;
  let dst_tid := u16 (i_info_idx d - EOS_MAX_CHAIN_NUM) in
  D <- on_mem (getr (c_dst_ring c)) ;;
  if i_deadline d >? i_deadline i then
    massert (i_deadline i <? EOS_MAX_DEADLINE) ;;
    massert (i_deadline d =? EOS_MAX_DEADLINE) ;;
    info_upd di (i_with_deadline (i_deadline i)) ;;
    d <- info_get di ;;
    massert (negb (i_deadline d =? 0)) ;;
    curr <- ps_tsc ;;
    massert (i_deadline d <=? u64 (curr + max_ahead)) ;;
    r <- on_core MCA_CORE (eos_thd_wakeup_with_dl (r_coreid D) dst_tid (i_deadline d)) ;;
    massert (r =? 0)
  else
    curr <- ps_tsc ;;
    massert (negb (i_deadline i =? EOS_MAX_DEADLINE)) ;;
    massert (negb (i_deadline d =? EOS_MAX_DEADLINE)) ;;
    massert (i_deadline d <=? u64 (curr + max_ahead)) ;;
    r <- on_core MCA_CORE (eos_thd_wakeup_with_dl (r_coreid D) dst_tid (i_deadline d)) ;;
    massert (r =? 0).

(** The two nodes of the next transfer, if there is one. *)
Definition mca_next (c : mca_conn) : SYS (option (Z * Z)) :=
  src <- on_mem (getr (c_src_ring c)) ;;
  let sn := node_at src (r_mca_head src) in
  n <- on_mem (getn sn) ;;
  if negb (st_is (n_state n) PKT_SENT_READY) then ret None else
  dst <- on_mem (getr (c_dst_ring c)) ;;
  let rn := node_at dst (r_free_head dst) in
  m <- on_mem (getn rn) ;;
  if negb (st_is (n_state m) PKT_FREE) then ret None else ret (Some (sn, rn)).

(** The transfer from node [sn] to node [rn]. *)
Definition mca_move (c : mca_conn) (sn rn : Z) (scache rcache : eos_ring_node) : M eosm unit :=
  rcache <- mca_transfer scache rcache ;;
  updn sn (n_with_state PKT_SENT_DONE) ;;
  updn rn (fun _ => rcache) ;;
  updr (c_dst_ring c) (fun r => r_with_free_head (i32 (r_free_head r + 1)) r) ;;
  updr (c_src_ring c) (fun r => r_with_mca_head (i32 (r_mca_head r + 1)) r) ;;
  n <- getn sn ;;
  faa_pkt_cnt (c_src_ring c) (- n_cnt n) ;;
  faa_pkt_cnt (c_dst_ring c) (n_cnt n) ;;
  ret tt.

(** [mca_process] from its label [loop]; [None] goes back to it. *)
Definition mca_round (conn burst r : Z) : SYS (option Z) :=
  c <- conn_get conn ;;
  nx <- mca_next c ;;
  match nx with
  | None => ret (Some (-1))
  | Some (sn, rn) =>
      n <- on_mem (getn sn) ;; m <- on_mem (getn rn) ;;
      massert (negb (n_cnt n =? 0)) ;;
      massert (n_cnt m =? 0) ;;
      go <- mca_deadlines c n r ;;
      if negb go then ret (Some (-1)) else
      on_mem (mca_move c sn rn n m) ;;
      mca_wakeup c ;;
      _ <- ps_tsc ;;
      ret (if r + 1 <? burst then None else Some (r + 1))
  end.

(** Every round but the last moves a batch, so [burst] rounds are enough. *)
Fixpoint mca_process_loop (fuel : nat) (conn burst r : Z) : SYS Z :=
  match fuel with
  | O => panic NoFuel
  | S fuel =>
      x <- mca_round conn burst r ;;
      match x with Some v => ret v | None => mca_process_loop fuel conn burst (r + 1) end
  end.

Definition mca_process (conn burst : Z) : SYS Z :=
  _ <- ps_tsc ;; mca_process_loop (Z.to_nat (Z.max 1 burst)) conn burst 0.

(** ** [mca_scan]: [p] is the connection before [c], 0 for the list's head *)

Fixpoint mca_scan_loop (fuel : nat) (p : Z) : SYS unit :=
  match fuel with
  | O => panic NoFuel
  | S fuel =>
      c <- (if p =? 0 then gets lh else x <- conn_get p ;; ret (c_next x)) ;;
      if c =? 0 then ret tt else
      x <- conn_get c ;;
      if negb (c_used x =? 0) then
        mca_process c MCA_BURST_CNT ;;
        mca_scan_loop fuel c
      else
        (if p =? 0 then modify (s_with_lh (c_next x)) else conn_upd p (c_with_next (c_next x))) ;;
        mca_conn_collect c ;;
        mca_scan_loop fuel p
  end.

(** One round of [mca_run]. *)
Definition mca_scan : SYS unit := mca_scan_loop spin 0.

End ops.
