(* ===== verification/McaSpec.v ===== *)
(** * Batches move from function to function in order

    What a transfer of the message-passing core does to the two segments, and
    the theorem that composes the rings, the table of deadlines, the core's
    loop and the scheduler's wake-up. *)

From S2P Require Import Prelude Config Heap Ring Sl SlSpec SlXcpu Eos EosSpec Mca.

(** ** Copying *)

(** The packets of a batch are described by the node [sn], whose buffers are
    outside of the segment [rh]. *)
Definition outside (rh a : Z) : Prop :=
  forall x, 0 <= x < 256 -> ~ (pkt_base rh <= a + x < pkt_base rh + 262144).
Definition offers (s : eosm) (rh : Z) (sn : eos_ring_node) (ps : list packet) : Prop :=
  forall j p, ps !! j = Some p -> exists m, n_pkts sn !! j = Some m /\ describes s m p /\ outside rh (m_pkt m).

Lemma transfer_pkt_Ok s sn rn rh F (i : nat) p m :
  ptrs rn rh F -> (i < 8)%nat -> n_pkts sn !! i = Some m -> describes s m p -> pkt_ok p -> outside rh (m_pkt m) ->
  exists s', transfer_pkt sn rn (Z.of_nat i) s =
      Ok (n_with_pkts (<[i := mkMeta (buf rh F i) (m_len m) (m_port m)]> (n_pkts rn)) rn) s' /\
    rings s' = rings s /\ nodes s' = nodes s /\
    (forall a, (a < buf rh F i \/ buf rh F i + 256 <= a) -> bytes s' a = bytes s a) /\
    holds s' (buf rh F i) (p_data p).
Proof.
  intros Hp Hi Hm (D1 & D2 & D3) [_ Hl] Ho. unfold transfer_pkt, meta_get at 1.
  assert (Z.of_nat i <? 0 = false) as -> by lia. rewrite Nat2Z.id, Hm. est.
  destruct (meta_get_ptrs rn rh F i Hp Hi) as (r & Er & Pr & Run). rewrite Run. unfold mca_copy.
  assert (m_len m <? 0 = false) as -> by lia. rewrite Pr.
  eexists. split; [reflexivity|]. split; [done|]. split; [done|]. split.
  - intros a Ha. cbn [bytes put_bytes].
    destruct ((buf rh F i <=? a) && (a <? buf rh F i + m_len m)) eqn:E; [|done].
    apply andb_true_iff in E as [E1 E2]. lia.
  - intros k x Hk. pose proof (lookup_lt_Some _ _ _ Hk). cbn [bytes put_bytes].
    assert ((buf rh F i <=? buf rh F i + Z.of_nat k) && (buf rh F i + Z.of_nat k <? buf rh F i + m_len m) = true) as ->
      by (apply andb_true_iff; split; lia).
    replace (buf rh F i + Z.of_nat k - buf rh F i) with (Z.of_nat k) by lia. by apply D3.
Qed.

(** The descriptors of the first [i] packets have arrived. *)
Definition arrived (s : eosm) (rh : Z) (F : nat) (ps : list packet) (l : list pkt_meta) (i : nat) : Prop :=
  length l = 8%nat /\ (forall j m, l !! j = Some m -> m_pkt m = buf rh F j) /\
  forall j p, (j < i)%nat -> ps !! j = Some p -> exists m, l !! j = Some m /\ describes s m p.

Lemma offers_keep s s' rh F sn ps i :
  Forall pkt_ok ps -> (i < 8)%nat ->
  (forall a, (a < buf rh F i \/ buf rh F i + 256 <= a) -> bytes s' a = bytes s a) ->
  offers s rh sn ps -> offers s' rh sn ps.
Proof.
  intros Hok Hi Hb Ho j p Hj. destruct (Ho j p Hj) as (m & Hm & Hd & Hout). exists m. split_and!; try done.
  eapply describes_bytes; [|exact (Forall_lookup_1 _ _ _ _ Hok Hj)|exact Hd]. intros x Hx. apply Hb.
  specialize (Hout x Hx). destruct (decide (m_pkt m + x < buf rh F i)); [by left|right].
  destruct (decide (buf rh F i + 256 <= m_pkt m + x)); [done|]. destruct Hout.
  replace (m_pkt m + x) with (buf rh F i + (m_pkt m + x - buf rh F i)) by lia. apply buf_in_seg; lia.
Qed.

Lemma arrived_step s s' rh F ps l i p len port :
  arrived s rh F ps l i -> (i < 8)%nat -> Forall pkt_ok ps -> (length ps <= 8)%nat -> ps !! i = Some p ->
  len = Z.of_nat (length (p_data p)) -> port = p_port p ->
  (forall a, (a < buf rh F i \/ buf rh F i + 256 <= a) -> bytes s' a = bytes s a) ->
  holds s' (buf rh F i) (p_data p) ->
  arrived s' rh F ps (<[i := mkMeta (buf rh F i) len port]> l) (S i).
Proof.
  intros (Hl & Hp & Ha) Hi Hok Hps Hpi -> -> Hb Hh. split_and!; [by rewrite length_insert| |].
  - intros j m [(-> & <- & _)|[_ Hm]]%list_lookup_insert_Some; [done|]. by apply Hp.
  - intros j q Hj Hq. destruct (decide (j = i)) as [->|Hne].
    + assert (q = p) as -> by congruence. eexists. rewrite list_lookup_insert_eq by lia.
      split; [done|]. by split_and!.
    + destruct (Ha j q ltac:(lia) Hq) as (m & Hm & Hd). exists m.
      rewrite list_lookup_insert_ne by done. split; [done|].
      eapply describes_bytes; [|exact (Forall_lookup_1 _ _ _ _ Hok Hq)|exact Hd]. intros x Hx. apply Hb.
      rewrite (Hp _ _ Hm). consts. lia.
Qed.

Lemma transfer_loop_Ok n : forall (i : nat) s sn rn rh F ps,
  ptrs rn rh F -> Forall pkt_ok ps -> (length ps <= 8)%nat -> (i + n <= length ps)%nat ->
  offers s rh sn ps -> arrived s rh F ps (n_pkts rn) i ->
  exists s' l, transfer_loop n (Z.of_nat i) sn rn s = Ok (n_with_pkts l rn) s' /\
    rings s' = rings s /\ nodes s' = nodes s /\ offers s' rh sn ps /\ arrived s' rh F ps l (i + n) /\
    (forall a, (forall j x, (j < 8)%nat -> 0 <= x < 256 -> a <> buf rh F j + x) -> bytes s' a = bytes s a).
Proof.
  induction n as [|n IH]; intros i s sn rn rh F ps Hp Hok H8 Hn Ho Ha.
  { exists s, (n_pkts rn). rewrite Nat.add_0_r. split_and!; try done. by destruct rn. }
  destruct (lookup_lt_is_Some_2 ps i) as [p Hpi]; [lia|].
  destruct (Ho i p Hpi) as (m & Hm & Hd & Hout). pose proof (Forall_lookup_1 _ _ _ _ Hok Hpi) as Hpok.
  destruct (transfer_pkt_Ok s sn rn rh F i p m Hp ltac:(lia) Hm Hd Hpok Hout) as (s1 & E1 & R1 & N1 & B1 & H1).
  destruct Hd as (D1 & D2 & D3).
  set (l1 := <[i := mkMeta (buf rh F i) (m_len m) (m_port m)]> (n_pkts rn)) in *.
  assert (arrived s1 rh F ps l1 (S i)) as Ha1 by (by eapply arrived_step; [..|exact B1|exact H1]; try lia).
  destruct (IH (S i) s1 sn (n_with_pkts l1 rn) rh F ps) as (s2 & l2 & E2 & R2 & N2 & O2 & A2 & B2); try done.
  { split; [apply Ha1|apply Ha1]. }
  { lia. }
  { eapply offers_keep; try done. lia. }
  exists s2, l2. split; [|split_and!; [congruence|congruence|done|by rewrite <- Nat.add_succ_comm|]].
  - cbn [transfer_loop]. unfold meta_get at 1. assert (Z.of_nat i <? 0 = false) as -> by lia.
    rewrite Nat2Z.id, Hm. est. rewrite bind_massert by (destruct Hpok; unfold EOS_PKT_MAX_SZ; lia).
    rewrite (bind_Ok _ _ _ _ _ E1). replace (Z.of_nat i + 1) with (Z.of_nat (S i)) by lia. by rewrite E2.
  - intros a Hna. rewrite B2 by done. apply B1. specialize (Hna i (a - buf rh F i) ltac:(lia)). lia.
Qed.

(** The whole batch. *)
Lemma mca_transfer_Ok s sn rn rh F b :
  ptrs rn rh F -> n_idx rn = 0 -> batch_ok b -> n_cnt sn = Z.of_nat (length (b_pkts b)) ->
  n_deadline sn = b_deadline b -> n_arrive sn = b_arrive b -> offers s rh sn (b_pkts b) ->
  exists s' rn', mca_transfer sn rn s = Ok rn' s' /\ rings s' = rings s /\ nodes s' = nodes s /\
    n_state rn' = PKT_RECV_READY /\ ptrs rn' rh F /\ carries s' rn' b /\
    (forall a, (forall j x, (j < 8)%nat -> 0 <= x < 256 -> a <> buf rh F j + x) -> bytes s' a = bytes s a).
Proof.
  intros Hp Hidx [Hl Hok] Hc Hd Ha Ho. unfold mca_transfer. rewrite Hc.
  set (k := (length (b_pkts b) - 1)%nat).
  replace (Z.of_nat (length (b_pkts b)) - 1) with (Z.of_nat k) by lia. rewrite Nat2Z.id.
  set (rn0 := n_with_times _ _ rn).
  destruct (transfer_loop_Ok k 0 s sn rn0 rh F (b_pkts b)) as (s1 & l & E1 & R1 & N1 & O1 & A1 & B1);
    try done; try lia.
  { split; [apply Hp|]. split; [apply Hp|]. lia. }
  cbn [Z.of_nat] in E1. rewrite (bind_Ok _ _ _ _ _ E1).
  destruct (lookup_lt_is_Some_2 (b_pkts b) k) as [p Hpk]; [lia|].
  destruct (O1 k p Hpk) as (m & Hm & Hdm & Hout). pose proof (Forall_lookup_1 _ _ _ _ Hok Hpk) as Hpok.
  destruct (transfer_pkt_Ok s1 sn (n_with_pkts l rn0) rh F k p m) as (s2 & E2 & R2 & N2 & B2 & H2); try done.
  { split; apply A1. }
  { lia. }
  rewrite (bind_Ok _ _ _ _ _ E2). eexists s2, _. split; [reflexivity|].
  destruct Hdm as (D1 & D2 & _).
  assert (arrived s2 rh F (b_pkts b) (<[k := mkMeta (buf rh F k) (m_len m) (m_port m)]> l) (S k)) as A2
    by (eapply arrived_step; [exact A1|..]; try done; lia).
  split_and!; [congruence|congruence|done|split; apply A2| |].
  - unfold carries. subst rn0. esimp. split_and!; try done.
    intros j q Hq. apply A2; [|done]. apply lookup_lt_Some in Hq. lia.
  - intros a Hna. rewrite B2; [by apply B1|]. specialize (Hna k (a - buf rh F k) ltac:(lia)). lia.
Qed.

(** ** Moving a batch between segments *)

(** Segments that do not overlap. *)
Definition apart (a b : Z) : Prop := a + FWP_MEMSEG_SIZE <= b \/ b + FWP_MEMSEG_SIZE <= a.

Lemma apart_facts a b (i j : nat) (n m : nat) (x y : Z) :
  apart a b -> (n < 8)%nat -> (m < 8)%nat -> 0 <= x < 256 -> 0 <= y < 256 ->
  a <> b /\ outr a <> b /\ a <> outr b /\ outr a <> outr b /\
  innode a i <> innode b j /\ innode a i <> outnode b j /\ outnode a i <> innode b j /\ outnode a i <> outnode b j /\
  buf a i n + x <> buf b j m + y.
Proof.
  unfold apart. rewrite memseg_size. intros. consts. split_and!; Z.div_mod_to_equations; lia.
Qed.

Lemma apart_outside a b i j : apart a b -> (j < 8)%nat -> outside b (buf a i j).
Proof. unfold apart, outside. rewrite memseg_size. intros. consts. Z.div_mod_to_equations. lia. Qed.

Lemma mca_move_raw s c sn rn rh g b src :
  c_src_ring c = src -> c_dst_ring c = rh -> src <> rh -> region s rh g -> (g_F g < g_H g + 128)%nat ->
  rn = innode rh (g_F g) -> sn <> rn -> batch_ok b -> carries s (nodes s sn) b ->
  offers s rh (nodes s sn) (b_pkts b) ->
  exists s' n', mca_move c sn rn (nodes s sn) (nodes s rn) s = Ok tt s' /\
    ring_like (r_with_mca_head (i32 (r_mca_head (rings s src) + 1)) (rings s src)) (rings s' src) /\
    ring_like (r_with_free_head (i32 (Z.of_nat (S (g_F g)))) (rings s rh)) (rings s' rh) /\
    (forall a, a <> src -> a <> rh -> rings s' a = rings s a) /\
    nodes s' sn = n_with_state PKT_SENT_DONE (nodes s sn) /\ nodes s' rn = n' /\
    (forall a, a <> sn -> a <> rn -> nodes s' a = nodes s a) /\
    n_state n' = PKT_RECV_READY /\ ptrs n' rh (g_F g) /\ carries s' n' b /\
    (forall a, (forall j x, (j < 8)%nat -> 0 <= x < 256 -> a <> buf rh (g_F g) j + x) -> bytes s' a = bytes s a).
Proof.
  intros <- <- Hne Hrg HF -> Hsn Hb Hc Ho. pose proof (rg_order _ _ _ Hrg) as (o1 & o2 & o3).
  destruct (rg_in_nodes _ _ _ Hrg (g_F g)) as (_ & Pt & _ & Hi); [lia|]. destruct (Hi ltac:(lia)) as [_ Hi0].
  destruct Hc as (c1 & c2 & c3 & c4 & _).
  destruct (mca_transfer_Ok s _ _ _ _ b Pt Hi0 Hb c1 c3 c4 Ho) as (s1 & n' & E & R1 & N1 & St & Pn & Cn & B1).
  unfold mca_move. rewrite (bind_Ok _ _ _ _ _ E). est. eexists _, n'. split; [reflexivity|].
  assert (c_dst_ring c <> c_src_ring c) as Hne' by done.
  split_and!.
  - eread. rewrite ?R1. eexists. reflexivity.
  - eread. rewrite ?R1, (rg_free_head _ _ _ Hrg), i32_succ.
    replace (Z.of_nat (g_F g) + 1) with (Z.of_nat (S (g_F g))) by lia. eexists. reflexivity.
  - intros a Ha Ha'. eread. by rewrite R1.
  - eread. by rewrite N1.
  - by eread.
  - intros a Ha Ha'. eread. by rewrite N1.
  - done.
  - exact Pn.
  - destruct Cn as (d1 & d2 & d3 & d4 & d5). by split_and!.
  - intros a Ha. eread. by apply B1.
Qed.

(** What a transfer between [rh1] and [rh2] leaves of the rest of memory. *)
Definition elsewhere (rh1 rh2 : Z) (s s' : eosm) : Prop :=
  forall rh g, region s rh g -> apart rh1 rh -> apart rh2 rh -> region s' rh g.

Lemma mca_move_Ok s c rh1 g1 rh2 g2 b :
  c_src_ring c = outr rh1 -> c_dst_ring c = rh2 -> apart rh1 rh2 -> region s rh1 g1 -> region s rh2 g2 ->
  g_outs g1 !! g_M g1 = Some b -> (g_F g2 < g_H g2 + 128)%nat ->
  let sn := outnode rh1 (g_M g1) in let rn := innode rh2 (g_F g2) in
  exists s', mca_move c sn rn (nodes s sn) (nodes s rn) s = Ok tt s' /\
    region s' rh1 (with_M (S (g_M g1)) g1) /\ region s' rh2 (with_ins (g_ins g2 ++ [b]) g2) /\
    elsewhere rh1 rh2 s s' /\ r_coreid (rings s' rh2) = r_coreid (rings s rh2).
Proof.
  intros Hcs Hcd Hap Hr1 Hr2 Hb HF sn rn. pose proof (rg_order _ _ _ Hr1) as (o1 & o2 & o3).
  pose proof (rg_order _ _ _ Hr2) as (p1 & p2 & p3).
  pose proof (lookup_lt_Some _ _ _ Hb) as HM. fold (g_S g1) in HM.
  destruct (rg_out_nodes _ _ _ Hr1 (g_M g1)) as (_ & Pt & Hc); [lia|].
  destruct (Hc ltac:(lia)) as (b' & Hb' & Cr). assert (b' = b) as -> by congruence. specialize (Pt ltac:(lia)).
  pose proof (Forall_lookup_1 _ _ _ _ (rg_outs _ _ _ Hr1) Hb) as Hok.
  assert (forall i j, let '(a, b) := (rh1, rh2) in
    a <> b /\ outr a <> b /\ a <> outr b /\ outr a <> outr b /\ innode a i <> innode b j /\
    innode a i <> outnode b j /\ outnode a i <> innode b j /\ outnode a i <> outnode b j) as Hd.
  { intros i j. destruct (apart_facts rh1 rh2 i j 0 0 0 0 Hap) as (?&?&?&?&?&?&?&?&_); [lia..|]. by split_and!. }
  destruct (mca_move_raw s c sn rn rh2 g2 b (outr rh1)) as
    (s' & n' & E & Rs & Rd & Ro & Ns & Nr & Nn & St & Pn & Cn & By); try done.
  { apply (Hd 0%nat 0%nat). }
  { apply Hd. }
  { intros j p Hj. destruct Cr as (_ & _ & _ & _ & H5). destruct (H5 j p Hj) as (m & Hm & Hdm).
    exists m. split_and!; try done. rewrite (proj2 Pt j m Hm). apply apart_outside; [done|].
    apply lookup_lt_Some in Hm. destruct Pt as [Hl _]. lia. }
  exists s'. split; [done|]. split; [|split; [|split]].
  - eapply (region_take s _ _ _ PKT_SENT_DONE); try done; [by left|..].
    + rewrite Ro; [apply ring_like_refl|apply outr_ne'|apply (Hd 0%nat 0%nat)].
    + rewrite (rg_mca_head _ _ _ Hr1), i32_succ in Rs.
      by replace (Z.of_nat (g_M g1) + 1) with (Z.of_nat (S (g_M g1))) in Rs by lia.
    + intros i. apply Nn; [apply in_out_node|apply Hd].
    + intros i Hi. apply Nn; [done|apply Hd].
    + intros a Ha. apply By. intros j x Hj Hx Heq. destruct (apart_outside rh1 rh2 0 0 Hap) with (x := 0); [lia..|].
      pose proof (buf_in_seg rh2 (g_F g2) j x Hj Hx). unfold apart in Hap. rewrite memseg_size in Hap. consts. lia.
  - eapply (region_put s); try done.
    + rewrite Ro; [apply ring_like_refl| |apply outr_ne]. apply not_eq_sym, (Hd 0%nat 0%nat).
    + intros i Hi. apply Nn; [|done]. apply not_eq_sym, Hd.
    + intros i. apply Nn; [apply not_eq_sym, Hd|apply not_eq_sym, in_out_node].
    + intros a _ Ha. by apply By.
  - intros rh g Hr A1 A2.
    assert (forall i j, rh <> outr rh1 /\ rh <> rh2 /\ outr rh <> outr rh1 /\ outr rh <> rh2 /\
      innode rh i <> outnode rh1 j /\ innode rh i <> innode rh2 j /\ outnode rh i <> outnode rh1 j /\
      outnode rh i <> innode rh2 j) as He.
    { intros i j. destruct (apart_facts rh1 rh j i 0 0 0 0 A1) as (?&?&?&?&?&?&?&?&_); [lia..|].
      destruct (apart_facts rh2 rh j i 0 0 0 0 A2) as (?&?&?&?&?&?&?&?&_); [lia..|].
      split_and!; apply not_eq_sym; done. }
    eapply (region_frame s); [done| | | |].
    + rewrite Ro by apply (He 0%nat 0%nat). apply ring_like_refl.
    + rewrite Ro by apply (He 0%nat 0%nat). apply ring_like_refl.
    + intros i. split; apply Nn; apply He.
    + intros a Ha. apply By. intros j x Hj Hx Heq. pose proof (buf_in_seg rh2 (g_F g2) j x Hj Hx).
      unfold apart in A2. rewrite memseg_size in A2. consts. lia.
  - destruct Rd as [v ->]. done.
Qed.

(** ** Execution on the whole state *)

Section sys.
Context {R L Q : Type} `{!CkRing R sl_xcpu_request, !PsList L, !KernelApi (slst R L), !CkRing Q mca_op}.
Implicit Types s : sysst R L Q.

Lemma sys_mem s : s_with_mem (mem s) s = s.
Proof. by destruct s. Qed.
Lemma y_getr {A} a (k : eos_ring -> M (sysst R L Q) A) s : bind (on_mem (getr a)) k s = k (rings (mem s) a) s.
Proof. by destruct s. Qed.
Lemma y_getn {A} a (k : eos_ring_node -> M (sysst R L Q) A) s : bind (on_mem (getn a)) k s = k (nodes (mem s) a) s.
Proof. by destruct s. Qed.
Lemma y_mem {A B} (m : M eosm A) (k : A -> M (sysst R L Q) B) s a m' :
  m (mem s) = Ok a m' -> bind (on_mem m) k s = k a (s_with_mem m' s).
Proof. unfold bind, on_mem. by intros ->. Qed.
Lemma y_core {A B} c (m : M (slst R L) A) (k : A -> M (sysst R L Q) B) s a l :
  m (with_xrings (xring s) (sl_of s c)) = Ok a l ->
  bind (on_core c m) k s = k a (s_with_sl (fupd c l (sl_of s)) (xrings l) s).
Proof. unfold bind, on_core. by intros ->. Qed.
Lemma y_info {A} i (k : mca_info -> M (sysst R L Q) A) s : bind (info_get i) k s = k (global_info s i) s.
Proof. reflexivity. Qed.
Lemma y_info_upd {A} i f (k : unit -> M (sysst R L Q) A) s :
  bind (info_upd i f) k s = k tt (s_with_info (fupd i (f (global_info s i)) (global_info s)) s).
Proof. reflexivity. Qed.
Lemma y_conn {A} c (k : mca_conn -> M (sysst R L Q) A) s : bind (conn_get c) k s = k (conns s c) s.
Proof. reflexivity. Qed.
Lemma y_tsc {A} (k : Z -> M (sysst R L Q) A) s : bind ps_tsc k s = k (tsc_at s (tsc_n s)) (s_with_tsc (S (tsc_n s)) s).
Proof. reflexivity. Qed.
Lemma y_ret {A B} (v : A) (k : A -> M (sysst R L Q) B) s : bind (ret v) k s = k v s.
Proof. reflexivity. Qed.
Lemma y_massert {A} b (k : unit -> M (sysst R L Q) A) s : b = true -> bind (massert b) k s = k tt s.
Proof. by intros ->. Qed.
Lemma y_if {A B} (b : bool) (m n : M (sysst R L Q) A) (k : A -> M (sysst R L Q) B) s :
  bind (if b then m else n) k s = if b then bind m k s else bind n k s.
Proof. by destruct b. Qed.

End sys.

Ltac yst :=
  repeat first [rewrite y_getr | rewrite y_getn | rewrite y_info | rewrite y_info_upd | rewrite y_conn
               | rewrite y_tsc | rewrite y_ret | rewrite bind_assoc]; cbv beta.
Ltac ysimp :=
  cbn [mem global_info conns fl lh mca_ring sl_of xring tsc_at tsc_n s_with_mem s_with_info s_with_conns s_with_fl
       s_with_lh s_with_mca_ring s_with_sl s_with_tsc i_deadline i_info_idx i_used i_empty_flag i_with_deadline
       i_with_idx i_with_empty c_src_ring c_dst_ring c_next c_src_info c_dst_info c_used] in *.

Section resets.
Context {R L Q : Type} `{!CkRing R sl_xcpu_request, !PsList L, !KernelApi (slst R L), !CkRing Q mca_op}.
Context `{!CkRingLaws R sl_xcpu_request, !CkRingLaws Q mca_op}.
Implicit Types s : sysst R L Q.

(** Only the deadlines and the rings of the resets changed. *)
Definition info_only s s' : Prop := exists f q, s' = s_with_info f (s_with_mca_ring q s).

#[local] Instance info_only_refl : Reflexive info_only.
Proof. intros s. exists (global_info s), (mca_ring s). by destruct s. Qed.
#[local] Instance info_only_trans : Transitive info_only.
Proof. intros s1 s2 s3 (f1 & q1 & ->) (f2 & q2 & ->). by exists f2, q2. Qed.

Lemma info_only_info s f : info_only s (s_with_info f s).
Proof. exists f, (mca_ring s). by destruct s. Qed.
Lemma info_only_ring s q : info_only s (s_with_mca_ring q s).
Proof. exists (global_info s), q. by destruct s. Qed.

(** The operations that functions queue are those of their own threads. *)
Definition reset_ok (op : mca_op) : Prop := op_tid op < MCA_CONN_MAX_NUM.

Lemma mca_op_process_Ok op s :
  reset_ok op -> exists n s', mca_op_process op s = Ok n s' /\ info_only s s' /\ mca_ring s' = mca_ring s.
Proof.
  intros Hop. unfold mca_op_process. rewrite y_massert by (by apply Z.ltb_lt). yst.
  destruct (_ >? 0); yst; eexists _, _; (split; [reflexivity|]); (split; [apply info_only_info|done]).
Qed.

Lemma mca_ops_loop_Ok ops : forall fuel cpu num s,
  ck_view (mca_ring s cpu) = ops -> (length ops < fuel)%nat -> Forall reset_ok ops ->
  exists n s', mca_ops_loop fuel cpu num s = Ok n s' /\ info_only s s' /\ ck_view (mca_ring s' cpu) = [] /\
    (forall c, c <> cpu -> mca_ring s' c = mca_ring s c).
Proof.
  induction ops as [|op ops IH]; intros fuel cpu num s Hv Hf Hok; (destruct fuel as [|fuel]; [simpl in Hf; lia|]);
    cbn [mca_ops_loop]; change (bind (gets mca_ring) ?k s) with (k (mca_ring s) s); cbv beta.
  - rewrite (ck_dequeue_nil _ Hv). by exists num, s.
  - apply Forall_cons_1 in Hok as [Ho Hok]. destruct (ck_dequeue_cons _ _ _ Hv) as (r & -> & Hv' & _).
    change (bind (modify ?f) ?k s) with (k tt (f s)). cbv beta.
    set (s1 := s_with_mca_ring _ s). destruct (mca_op_process_Ok op s1 Ho) as (n & s2 & E2 & I2 & Q2).
    rewrite (bind_Ok _ _ _ _ _ E2). destruct (IH fuel cpu (num + n) s2) as (n3 & s3 & E3 & I3 & V3 & C3); try done.
    { rewrite Q2. subst s1. ysimp. by rewrite fupd_eq. }
    { simpl in Hf. lia. }
    exists n3, s3. split; [done|]. split; [|split; [done|]].
    + etrans; [apply (info_only_ring s)|]. etrans; [exact I2|exact I3].
    + intros c Hc. rewrite C3, Q2 by done. subst s1. ysimp. by rewrite fupd_ne.
Qed.

(** No core has more resets pending than the loop takes. *)
Definition resets_ok (spin : nat) s : Prop :=
  forall c, NF_MIN_CORE <= c < NF_MAX_CORE ->
    (length (ck_view (mca_ring s c)) < spin)%nat /\ Forall reset_ok (ck_view (mca_ring s c)).

Lemma mca_xcpu_process_Ok spin s :
  resets_ok spin s ->
  exists n s', mca_xcpu_process spin s = Ok n s' /\ info_only s s' /\
    forall c, NF_MIN_CORE <= c < NF_MAX_CORE -> ck_view (mca_ring s' c) = [].
Proof.
  intros Hok. unfold mca_xcpu_process.
  assert (forall n cpu num s0, (forall c, cpu <= c < cpu + Z.of_nat n -> mca_ring s0 c = mca_ring s c) ->
    NF_MIN_CORE <= cpu -> cpu + Z.of_nat n <= NF_MAX_CORE -> exists k s', mca_cpus_loop spin n cpu num s0 = Ok k s' /\
    info_only s0 s' /\ (forall c, cpu <= c < cpu + Z.of_nat n -> ck_view (mca_ring s' c) = []) /\
    (forall c, c < cpu -> mca_ring s' c = mca_ring s0 c)) as Hloop.
  { induction n as [|n IH]; intros cpu num s0 Hs H1 H2.
    { exists num, s0. split; [done|]. split; [done|]. split; [intros; lia|done]. }
    cbn [mca_cpus_loop]. destruct (Hok cpu) as [Hl Hf]; [lia|]. rewrite <- (Hs cpu) in Hl, Hf by lia.
    destruct (mca_ops_loop_Ok _ spin cpu num s0 eq_refl Hl Hf) as (k & s1 & E1 & I1 & V1 & C1).
    rewrite (bind_Ok _ _ _ _ _ E1).
    destruct (IH (cpu + 1) k s1) as (k2 & s2 & E2 & I2 & V2 & C2); [|lia|lia|].
    { intros c Hc. rewrite C1 by lia. apply Hs. lia. }
    exists k2, s2. split; [done|]. split; [by etrans|]. split.
    - intros c Hc. destruct (decide (c = cpu)) as [->|]; [by rewrite C2 by lia|apply V2; lia].
    - intros c Hc. rewrite C2, C1 by lia. done. }
  destruct (Hloop (Z.to_nat (NF_MAX_CORE - NF_MIN_CORE)) NF_MIN_CORE 0 s) as (k & s' & E & I & V & _); try done.
  exists k, s'. split; [done|]. split; [done|]. intros c Hc. apply V.
  change (Z.of_nat (Z.to_nat (NF_MAX_CORE - NF_MIN_CORE))) with 12.
  change NF_MAX_CORE with 16 in Hc. change NF_MIN_CORE with 4 in *. lia.
Qed.

End resets.

(** ** Deadlines *)

Section deadlines.
Context {R L Q : Type} `{!CkRing R sl_xcpu_request, !PsList L, !KernelApi (slst R L), !CkRing Q mca_op}.
Implicit Types s : sysst R L Q.

(** Neither memory, nor connections, nor schedulers changed. *)
Definition steady s s' : Prop :=
  mem s' = mem s /\ conns s' = conns s /\ sl_of s' = sl_of s /\ xring s' = xring s /\ tsc_at s' = tsc_at s /\
  fl s' = fl s /\ lh s' = lh s.

Lemma steady_refl s : steady s s.
Proof. by repeat split. Qed.
Lemma steady_trans s1 s2 s3 : steady s1 s2 -> steady s2 s3 -> steady s1 s3.
Proof. intros (?&?&?&?&?&?&?) (?&?&?&?&?&?&?). split_and!; congruence. Qed.
Lemma info_only_steady s s' : info_only s s' -> steady s s'.
Proof. intros (f & q & ->). by repeat split. Qed.

(** The deadline of the receiver, after a pending reset took effect. *)
Definition dst_deadline s (c : mca_conn) : Z :=
  let d := global_info s (c_dst_info c) in
  if negb (i_empty_flag d =? 0) &&
     ((r_pkt_cnt (rings (mem s) (get_output_ring (c_dst_ring c))) =? 0) &&
      (r_pkt_cnt (rings (mem s) (get_input_ring (c_dst_ring c))) =? 0))
  then EOS_MAX_DEADLINE else i_deadline d.

(** The deadline of the sender: of the packets themselves if they come from
    the network or if the sender has none. *)
Definition src_deadline s (c : mca_conn) (dl : Z) : Z :=
  let i := global_info s (c_src_info c) in
  if i_info_idx i <? EOS_MAX_CHAIN_NUM then dl
  else if i_deadline i =? EOS_MAX_DEADLINE then dl else i_deadline i.

(** Whether a batch with these deadlines is moved now. *)
Definition goes s (c : mca_conn) (dl r : Z) : bool :=
  let d1 := src_deadline s c dl in let d2 := dst_deadline s c in
  negb ((i_info_idx (global_info s (c_src_info c)) >=? EOS_MAX_CHAIN_NUM) && (d1 >? d2)) &&
  negb ((u64 (d1 - OFFSET_US * 2100) >? d2) || (r >? 1)).

(** The assertions on the sender's deadline. *)
Definition src_dl_ok s (c : mca_conn) (dl : Z) : Prop :=
  c_src_info c <> c_dst_info c /\ 0 < src_deadline s c dl < EOS_MAX_DEADLINE /\
  (i_info_idx (global_info s (c_src_info c)) < EOS_MAX_CHAIN_NUM -> dl <= u64 (max_ahead + tsc_at s (tsc_n s))).

(** The first part: a reset of the receiver that was waiting. *)
Lemma dst_reset_Ok {A} (k : unit -> M (sysst R L Q) A) s c :
  c_src_info c <> c_dst_info c ->
  exists s', bind (if negb (i_empty_flag (global_info s (c_dst_info c)) =? 0) then
     o <- on_mem (getr (get_output_ring (c_dst_ring c))) ;;
     i <- on_mem (getr (get_input_ring (c_dst_ring c))) ;;
     if (r_pkt_cnt o =? 0) && (r_pkt_cnt i =? 0) then
       info_upd (c_dst_info c) (i_with_deadline EOS_MAX_DEADLINE) ;; info_upd (c_dst_info c) (i_with_empty 0)
     else ret tt
   else ret tt) k s = k tt s' /\ steady s s' /\ tsc_n s' = tsc_n s /\
   global_info s' (c_src_info c) = global_info s (c_src_info c) /\
   i_deadline (global_info s' (c_dst_info c)) = dst_deadline s c /\
   i_info_idx (global_info s' (c_dst_info c)) = i_info_idx (global_info s (c_dst_info c)).
Proof.
  intros Hne. unfold dst_deadline. destruct (negb _) eqn:E1; cbn [andb].
  - yst. destruct (_ && _) eqn:E2.
    + yst. eexists. split; [reflexivity|]. ysimp. rewrite !fupd_eq, !fupd_ne by done. by repeat split.
    + yst. exists s. split; [done|]. split; [apply steady_refl|done].
  - yst. exists s. split; [done|]. split; [apply steady_refl|done].
Qed.

(** The second part: the sender's deadline. *)
Lemma src_deadline_Ok {A} (k : unit -> M (sysst R L Q) A) s c n :
  src_dl_ok s c (n_deadline n) ->
  exists s', (i <- info_get (c_src_info c) ;;
  (if i_info_idx i <? EOS_MAX_CHAIN_NUM then
     info_upd (c_src_info c) (i_with_deadline (n_deadline n)) ;;
     i <- info_get (c_src_info c) ;;
     massert (i_deadline i <? EOS_MAX_DEADLINE) ;;
     curr <- ps_tsc ;;
     massert (i_deadline i <=? u64 (max_ahead + curr))
   else ret tt) ;;
  i <- info_get (c_src_info c) ;;
  massert (negb (i_deadline i =? 0)) ;;
  (if i_deadline i =? EOS_MAX_DEADLINE then info_upd (c_src_info c) (i_with_deadline (n_deadline n)) else ret tt) ;;
  k tt) s = k tt s' /\ steady s s' /\
  global_info s' (c_dst_info c) = global_info s (c_dst_info c) /\
  i_deadline (global_info s' (c_src_info c)) = src_deadline s c (n_deadline n) /\
  i_info_idx (global_info s' (c_src_info c)) = i_info_idx (global_info s (c_src_info c)).
Proof.
  intros (Hne & Hd & Htsc). unfold src_deadline in *. assert (c_dst_info c <> c_src_info c) by done. yst.
  destruct (i_info_idx _ <? EOS_MAX_CHAIN_NUM) eqn:E1.
  - yst. ysimp. rewrite !fupd_eq. ysimp. rewrite y_massert by (apply Z.ltb_lt; lia). yst. ysimp.
    rewrite y_massert by (apply Z.leb_le, Htsc, Z.ltb_lt, E1). yst. ysimp. rewrite fupd_eq. ysimp.
    rewrite y_massert by (apply negb_true_iff, Z.eqb_neq; lia).
    assert (n_deadline n =? EOS_MAX_DEADLINE = false) as -> by (apply Z.eqb_neq; lia). yst.
    eexists. split; [reflexivity|]. ysimp. rewrite !fupd_eq, fupd_ne by done. by repeat split.
  - yst. destruct (i_deadline (global_info s (c_src_info c)) =? EOS_MAX_DEADLINE) eqn:E2.
    + apply Z.eqb_eq in E2. rewrite y_massert by (rewrite E2; done). yst.
      eexists. split; [reflexivity|]. ysimp. rewrite !fupd_eq, fupd_ne by done. by repeat split.
    + rewrite y_massert by (apply negb_true_iff, Z.eqb_neq; lia). yst. exists s.
      split; [done|]. split; [apply steady_refl|done].
Qed.

(** The decision, from the state after the pending resets. *)
Lemma mca_deadlines_Ok spin s s0 k c n r :
  mca_xcpu_process spin s = Ok k s0 -> info_only s s0 -> src_dl_ok s0 c (n_deadline n) ->
  exists s', mca_deadlines spin c n r s = Ok (goes s0 c (n_deadline n) r) s' /\ steady s s' /\
    i_deadline (global_info s' (c_src_info c)) = src_deadline s0 c (n_deadline n) /\
    i_deadline (global_info s' (c_dst_info c)) = dst_deadline s0 c /\
    i_info_idx (global_info s' (c_dst_info c)) = i_info_idx (global_info s0 (c_dst_info c)).
Proof.
  intros Ex Io Hs. unfold mca_deadlines. rewrite (bind_Ok _ _ _ _ _ Ex). yst.
  match goal with |- context [bind (if _ then _ else ret tt) ?K s0] =>
    destruct (dst_reset_Ok K s0 c (proj1 Hs)) as (s1 & -> & St1 & Tn & G1 & D1 & I1)
  end. cbv beta.
  assert (src_deadline s1 c (n_deadline n) = src_deadline s0 c (n_deadline n)) as Hsd
    by (unfold src_deadline; by rewrite G1).
  assert (src_dl_ok s1 c (n_deadline n)) as Hs1.
  { destruct St1 as (_ & _ & _ & _ & Et & _). unfold src_dl_ok. rewrite Hsd, G1, Et, Tn. exact Hs. }
  set (K := fun _ : unit =>
    i <- info_get (c_src_info c) ;;
    massert (i_deadline i <? EOS_MAX_DEADLINE) ;;
    d <- info_get (c_dst_info c) ;;
    if (i_info_idx i >=? EOS_MAX_CHAIN_NUM) && (i_deadline i >? i_deadline d) then ret false else
    if (u64 (i_deadline i - OFFSET_US * 2100) >? i_deadline d) || (r >? 1) then ret false else
    massert (r <=? 1) ;; ret true).
  destruct (src_deadline_Ok K s1 c n Hs1) as (s2 & E2 & St2 & G2 & D2 & I2).
  exists s2. split; [|split; [|split; [|split]]].
  - etrans; [exact E2|]. subst K. cbv beta. yst. rewrite y_massert by (rewrite D2, Hsd; apply Z.ltb_lt; apply Hs). yst.
    rewrite D2, G2, I2, D1, Hsd, G1.
    unfold goes. set (b1 := _ && _). set (b2 := _ || (r >? 1)).
    destruct b1; [done|]. destruct b2 eqn:Eb; [done|]. rewrite y_massert; [done|].
    subst b2. apply orb_false_iff in Eb as [_ Eb]. apply Z.leb_le. lia.
  - eapply steady_trans; [by apply info_only_steady|]. by eapply steady_trans.
  - by rewrite D2.
  - by rewrite G2.
  - by rewrite G2, I1.
Qed.

End deadlines.

(** ** The wake-up *)

Section wakeup.
Context {R L Q : Type} `{!CkRing R sl_xcpu_request, !PsList L, !KernelApi (slst R L), !CkRing Q mca_op}.
Context `{!CkRingLaws R sl_xcpu_request, !CkRingLaws Q mca_op}.
Implicit Types s : sysst R L Q.

(** The message-passing core can send to [core]. *)
Definition can_send s (core : Z) : Prop :=
  cpu (sl_of s MCA_CORE) = MCA_CORE /\ core <> MCA_CORE /\ cpu_bmp (sl_of s MCA_CORE) core = true /\
  Z.of_nat (length (ck_view (xring s core))) < ck_cap (xring s core).

(** The request is queued for the core. *)
Lemma send_wakeup_Ok {A} (k : Z -> M (sysst R L Q) A) s core tid w :
  can_send s core ->
  exists s', bind (on_core MCA_CORE (eos_thd_wakeup_with_dl core tid w)) k s = k 0 s' /\
    mem s' = mem s /\ conns s' = conns s /\ global_info s' = global_info s /\
    (forall c, c <> MCA_CORE -> sl_of s' c = sl_of s c) /\
    ck_view (xring s' core) = ck_view (xring s core) ++ [wake_req (MCA_CORE, tid, w)].
Proof.
  intros (H1 & H2 & H3 & H4).
  destruct (eos_wakeup_room (with_xrings (xring s) (sl_of s MCA_CORE)) core tid w) as (l & E & V & _).
  - change (cpu (sl_of s MCA_CORE) <> core). congruence.
  - exact H3.
  - exact H4.
  - rewrite (y_core _ _ _ _ _ _ E). eexists. split; [reflexivity|]. ysimp. split_and!; try done.
    + intros c Hc. by rewrite fupd_ne.
    + rewrite V. do 2 f_equal. by rewrite <- H1 at 2.
Qed.

(** The receiver is woken with the earlier of the two deadlines. *)
Definition wake_ok s (c : mca_conn) (w : Z) : Prop :=
  let d1 := i_deadline (global_info s (c_src_info c)) in
  let d2 := i_deadline (global_info s (c_dst_info c)) in
  w = Z.min d1 d2 /\ 0 < d1 < EOS_MAX_DEADLINE /\ (d1 < d2 -> d2 = EOS_MAX_DEADLINE) /\
  (forall n, w <= u64 (tsc_at s n + max_ahead)).

Lemma mca_wakeup_Ok s c w :
  wake_ok s c w -> can_send s (r_coreid (rings (mem s) (c_dst_ring c))) ->
  let core := r_coreid (rings (mem s) (c_dst_ring c)) in
  let tid := u16 (i_info_idx (global_info s (c_dst_info c)) - EOS_MAX_CHAIN_NUM) in
  exists s', mca_wakeup c s = Ok tt s' /\ mem s' = mem s /\ conns s' = conns s /\
    i_deadline (global_info s' (c_dst_info c)) = w /\
    (forall x, x <> MCA_CORE -> sl_of s' x = sl_of s x) /\
    ck_view (xring s' core) = ck_view (xring s core) ++ [wake_req (MCA_CORE, tid, w)].
Proof.
  intros (Hw & Hd & Hm & Ht) Hc core tid. unfold mca_wakeup. yst. fold core tid.
  set (d1 := i_deadline (global_info s (c_src_info c))) in *.
  set (d2 := i_deadline (global_info s (c_dst_info c))) in *.
  destruct (d2 >? d1) eqn:E.
  - rewrite y_massert by (apply Z.ltb_lt; lia). rewrite y_massert by (apply Z.eqb_eq, Hm; lia). yst. ysimp.
    rewrite fupd_eq. ysimp. rewrite y_massert by (apply negb_true_iff, Z.eqb_neq; lia). yst. ysimp.
    assert (w = d1) as Ew by lia. rewrite y_massert by (rewrite <- Ew; apply Z.leb_le, Ht).
    match goal with |- context [bind (on_core _ _) ?K ?S] =>
      destruct (send_wakeup_Ok K S core tid d1 Hc) as (s1 & -> & M1 & C1 & G1 & L1 & V1) end.
    exists s1. split; [by rewrite massert_Ok|]. ysimp. rewrite G1, fupd_eq. ysimp. rewrite Ew. by split_and!.
  - assert (d2 <= d1 /\ w = d2) as [Hle Ew] by lia. yst. ysimp.
    rewrite y_massert by (apply negb_true_iff, Z.eqb_neq; lia).
    rewrite y_massert by (apply negb_true_iff, Z.eqb_neq; lia).
    rewrite y_massert by (rewrite <- Ew; apply Z.leb_le, Ht).
    match goal with |- context [bind (on_core _ _) ?K ?S] =>
      destruct (send_wakeup_Ok K S core tid d2 Hc) as (s1 & -> & M1 & C1 & G1 & L1 & V1) end.
    exists s1. split; [by rewrite massert_Ok|]. ysimp. rewrite G1, Ew. by split_and!.
Qed.

End wakeup.

(** ** A round of the core *)

Section round.
Context {R L Q : Type} `{!CkRing R sl_xcpu_request, !PsList L, !KernelApi (slst R L), !CkRing Q mca_op}.
Context `{!CkRingLaws R sl_xcpu_request, !CkRingLaws Q mca_op}.
Implicit Types s : sysst R L Q.

(** A connection from the segment [rh1] to the segment [rh2]. *)
Definition links (c : mca_conn) (rh1 rh2 : Z) : Prop := c_src_ring c = outr rh1 /\ c_dst_ring c = rh2.

(** There is a transfer exactly if a batch was sent and a node is free. *)
Lemma mca_next_Ok s c rh1 rh2 g1 g2 :
  links c rh1 rh2 -> region (mem s) rh1 g1 -> region (mem s) rh2 g2 ->
  mca_next c s = Ok (if decide (g_M g1 < g_S g1)%nat then
                       if decide (g_F g2 < g_H g2 + 128)%nat
                       then Some (outnode rh1 (g_M g1), innode rh2 (g_F g2)) else None
                     else None) s.
Proof.
  intros [Hs Hd] Hr1 Hr2. unfold mca_next. yst. rewrite Hs, Hd.
  rewrite (rg_mca_head _ _ _ Hr1), (out_node_at _ _ _ _ _ Hr1 (rg_out_ring _ _ _ Hr1)).
  pose proof (rg_order _ _ _ Hr1) as (o1 & o2 & o3). pose proof (rg_order _ _ _ Hr2) as (p1 & p2 & p3).
  destruct (decide (g_M g1 < g_S g1)%nat) as [HM|HM].
  - destruct (rg_out_nodes _ _ _ Hr1 (g_M g1)) as (St & _); [lia|]. unfold out_state in St.
    rewrite decide_False, decide_True in St by lia. rewrite St. cbn [st_is bool_decide negb].
    change (st_is PKT_SENT_READY PKT_SENT_READY) with true. cbn [negb]. yst.
    rewrite (rg_free_head _ _ _ Hr2), (in_node_at _ _ _ _ _ Hr2 (rg_in_ring _ _ _ Hr2)).
    destruct (decide (g_F g2 < g_H g2 + 128)%nat) as [HF|HF].
    + destruct (rg_in_nodes _ _ _ Hr2 (g_F g2)) as (-> & _); [lia|]. unfold in_state.
      by rewrite !decide_False by lia.
    + replace (g_F g2) with (g_H g2 + 128)%nat by lia. rewrite innode_wrap.
      destruct (rg_in_nodes _ _ _ Hr2 (g_H g2)) as (-> & _); [lia|]. unfold in_state.
      destruct (decide (g_H g2 < g_T g2)%nat); [done|]. by rewrite decide_True by lia.
  - assert (n_state (nodes (mem s) (outnode rh1 (g_M g1))) <> PKT_SENT_READY) as Hst.
    { destruct (decide (g_M g1 < g_H g1 + 128)%nat).
      - destruct (rg_out_nodes _ _ _ Hr1 (g_M g1)) as (St & _); [lia|]. unfold out_state in St.
        rewrite !decide_False in St by lia. by rewrite St.
      - replace (g_M g1) with (g_H g1 + 128)%nat by lia. rewrite outnode_wrap.
        destruct (rg_out_nodes _ _ _ Hr1 (g_H g1)) as (St & _); [lia|]. unfold out_state in St.
        rewrite decide_True in St by lia. by destruct St as [-> | ->]. }
    unfold st_is. by rewrite bool_decide_eq_false_2.
Qed.

(** What the core needs to move the next batch [b] over [c] and wake the
    thread [tid] of core [core] with the deadline [w]. *)
Record ready (spin : nat) s (c : mca_conn) (rh2 : Z) (b : batch) (core tid w : Z) : Prop := mkReady {
  rd_resets : resets_ok spin s;
  rd_src : forall k s0, mca_xcpu_process spin s = Ok k s0 -> src_dl_ok s0 c (b_deadline b);
  rd_goes : forall k s0, mca_xcpu_process spin s = Ok k s0 -> goes s0 c (b_deadline b) 0 = true;
  rd_wake : forall k s0, mca_xcpu_process spin s = Ok k s0 ->
    w = Z.min (src_deadline s0 c (b_deadline b)) (dst_deadline s0 c) /\
    (src_deadline s0 c (b_deadline b) < dst_deadline s0 c -> dst_deadline s0 c = EOS_MAX_DEADLINE);
  rd_clock : forall n, w <= u64 (tsc_at s n + max_ahead);
  rd_core : r_coreid (rings (mem s) rh2) = core;
  rd_tid : forall k s0, mca_xcpu_process spin s = Ok k s0 ->
    i_info_idx (global_info s0 (c_dst_info c)) = tid + EOS_MAX_CHAIN_NUM;
  rd_tid_range : 0 <= tid < 65536;
  rd_send : can_send s core }.

Lemma mca_round_moves spin s conn burst rh1 rh2 g1 g2 b core tid w :
  let c := conns s conn in
  links c rh1 rh2 -> apart rh1 rh2 -> region (mem s) rh1 g1 -> region (mem s) rh2 g2 ->
  g_outs g1 !! g_M g1 = Some b -> (g_F g2 < g_H g2 + 128)%nat -> ready spin s c rh2 b core tid w ->
  exists s', mca_round spin conn burst 0 s = Ok (if 1 <? burst then None else Some 1) s' /\
    region (mem s') rh1 (with_M (S (g_M g1)) g1) /\ region (mem s') rh2 (with_ins (g_ins g2 ++ [b]) g2) /\
    elsewhere rh1 rh2 (mem s) (mem s') /\ conns s' = conns s /\
    (forall x, x <> MCA_CORE -> sl_of s' x = sl_of s x) /\
    ck_view (xring s' core) = ck_view (xring s core) ++ [wake_req (MCA_CORE, tid, w)].
Proof.
  intros c Hl Hap Hr1 Hr2 Hb HF [d1 d2 d3 d4 d5 d6 d7 d8 d9].
  pose proof (lookup_lt_Some _ _ _ Hb) as HM. fold (g_S g1) in HM.
  pose proof (rg_order _ _ _ Hr1) as (o1 & o2 & o3). pose proof (rg_order _ _ _ Hr2) as (p1 & p2 & p3).
  destruct (rg_out_nodes _ _ _ Hr1 (g_M g1)) as (_ & _ & Hc); [lia|].
  destruct (Hc ltac:(lia)) as (b' & Hb' & Cr). assert (b' = b) as -> by congruence.
  destruct (rg_in_nodes _ _ _ Hr2 (g_F g2)) as (_ & _ & _ & Hz); [lia|]. destruct (Hz ltac:(lia)) as [Hz1 _].
  pose proof (Forall_lookup_1 _ _ _ _ (rg_outs _ _ _ Hr1) Hb) as [Hlb _].
  pose proof Cr as (c1 & _ & c3 & _ & _).
  unfold mca_round. yst. fold c. rewrite (bind_Ok _ _ _ _ _ (mca_next_Ok s c rh1 rh2 g1 g2 Hl Hr1 Hr2)).
  rewrite !decide_True by lia. yst. rewrite y_massert by (rewrite c1; apply negb_true_iff, Z.eqb_neq; lia).
  rewrite y_massert by (by rewrite Hz1).
  destruct (mca_xcpu_process_Ok spin s d1) as (k & s0 & E0 & Io & _).
  specialize (d2 _ _ E0). specialize (d3 _ _ E0). specialize (d4 _ _ E0) as [d4 d4']. specialize (d7 _ _ E0).
  set (n := nodes (mem s) (outnode rh1 (g_M g1))) in *. rewrite <- c3 in *.
  destruct (mca_deadlines_Ok spin s s0 k c n 0 E0 Io d2) as (s1 & E1 & St & Ds & Dd & Di).
  rewrite (bind_Ok _ _ _ _ _ E1), d3. cbn [negb]. destruct St as (Sm & Sc & Ss & Sx & St & _).
  destruct Hl as [Hl1 Hl2].
  destruct (mca_move_Ok (mem s) c rh1 g1 rh2 g2 b Hl1 Hl2 Hap Hr1 Hr2 Hb HF) as (m & E2 & R1 & R2 & El & Co).
  rewrite <- Sm in E2 at 1 2 3. fold n in E2.
  rewrite Sm in E2 at 1 2. rewrite (y_mem _ _ _ _ _ E2). set (s2 := s_with_mem m s1).
  destruct (mca_wakeup_Ok s2 c w) as (s3 & E3 & M3 & C3 & _ & L3 & V3).
  { unfold wake_ok. subst s2. ysimp. rewrite Ds, Dd, St. destruct d2 as (? & [? ?] & ?). by split_and!. }
  { unfold can_send. subst s2. ysimp. rewrite Hl2, Co, d6, Ss, Sx. exact d9. }
  assert (r_coreid (rings (mem s2) (c_dst_ring c)) = core) as Hcore by (subst s2; ysimp; by rewrite Hl2, Co).
  rewrite Hcore in V3. assert (u16 (i_info_idx (global_info s2 (c_dst_info c)) - EOS_MAX_CHAIN_NUM) = tid) as Htid.
  { subst s2. ysimp. rewrite Di, d7. unfold u16. rewrite Z.mod_small; lia. }
  rewrite Htid in V3. rewrite (bind_Ok _ _ _ _ _ E3). yst. eexists. split; [reflexivity|]. ysimp.
  rewrite M3, C3, V3. subst s2. ysimp. rewrite Sx. split_and!; try done.
  intros x Hx. by rewrite L3, Ss.
Qed.

End round.
