(* ===== verification/EosChain.v ===== *)
(** * Chains of network functions deliver packets in order

    Functions, the message-passing core and the rest of the system take steps
    in any order.  Every step of a function and of the core runs the code of
    [Eos] and [Mca]; a step is one call, as a whole.  The packets that a
    function receives are, byte for byte and in order, a prefix of those that
    the function before it has sent, and no call of a function ever fails an
    assertion or leaves its arrays. *)

From S2P Require Import Prelude Config Heap Ring Sl SlSpec SlTime SlXcpu Eos EosSpec Mca McaSpec.

(** ** Segments that an operation does not touch *)

Definition seg_same (rh : Z) (m m' : eosm) : Prop :=
  ring_like (rings m rh) (rings m' rh) /\ ring_like (rings m (outr rh)) (rings m' (outr rh)) /\
  nodes_same rh m m' /\ bytes_same rh m m'.

Lemma seg_same_region rh g m m' : seg_same rh m m' -> region m rh g -> region m' rh g.
Proof. intros (H1 & H2 & H3 & H4) Hr. by apply (region_frame m). Qed.

Lemma local_same a b m m' : local a m m' -> apart a b -> seg_same b m m'.
Proof.
  intros (H1 & H2 & H3) Hap.
  assert (forall i j, a <> b /\ outr a <> b /\ a <> outr b /\ outr a <> outr b /\ innode a i <> innode b j /\
    innode a i <> outnode b j /\ outnode a i <> innode b j /\ outnode a i <> outnode b j) as Hd.
  { intros i j. destruct (apart_facts a b i j 0 0 0 0 Hap) as (?&?&?&?&?&?&?&?&_); [lia..|]. by split_and!. }
  split; [|split; [|split]].
  - rewrite H1; [apply ring_like_refl|apply not_eq_sym, (Hd 0%nat 0%nat)..].
  - rewrite H1; [apply ring_like_refl|apply not_eq_sym, (Hd 0%nat 0%nat)..].
  - intros i. split; apply H2; intros j; apply not_eq_sym, Hd.
  - intros x Hx. apply H3. unfold apart in Hap. rewrite memseg_size in Hap. unfold pkt_base in *. lia.
Qed.

(** ** Packets in memory *)

(** The [len] bytes from [a], with a port. *)
Definition pkt_at (m : eosm) (a len port : Z) : packet :=
  mkPkt (map (fun k => bytes m (a + Z.of_nat k)) (seq 0 (Z.to_nat len))) port.

Lemma holds_pkt_at m a len port : holds m a (p_data (pkt_at m a len port)).
Proof.
  intros k x. cbn [p_data pkt_at]. rewrite list_lookup_fmap. intros H.
  destruct (seq 0 (Z.to_nat len) !! k) as [j|] eqn:E; [|done]. injection H as <-.
  apply lookup_seq in E as [-> _]. done.
Qed.

Lemma pkt_at_length m a len port : length (p_data (pkt_at m a len port)) = Z.to_nat len.
Proof. cbn. by rewrite length_map, length_seq. Qed.

Lemma pkt_at_holds m a p : holds m a (p_data p) -> pkt_at m a (Z.of_nat (length (p_data p))) (p_port p) = p.
Proof.
  intros H. destruct p as [d q]. unfold pkt_at. cbn [p_data p_port] in *. f_equal. rewrite Nat2Z.id.
  apply list_eq. intros k. rewrite list_lookup_fmap. destruct (d !! k) as [x|] eqn:E.
  - pose proof (lookup_lt_Some _ _ _ E). rewrite lookup_seq_lt by done. cbn. f_equal. by apply H.
  - apply lookup_ge_None in E. by rewrite lookup_seq_ge by done.
Qed.

(** ** What a round of the core changes *)

Section core.
Context {R L Q : Type} `{!CkRing R sl_xcpu_request, !PsList L, !KernelApi (slst R L), !CkRing Q mca_op}.
Implicit Types s : sysst R L Q.

(** Memory and connections are the same. *)
Definition same_mem s s' : Prop := mem s' = mem s /\ conns s' = conns s.

#[export] Instance same_mem_pre : PreOrder same_mem.
Proof. split; [done|]. intros s1 s2 s3 [A B] [C D]. split; congruence. Qed.

#[local] Instance same_mem_upd i f : Respects same_mem (info_upd (R:=R) (L:=L) (Q:=Q) i f).
Proof. by intros s a s' [= _ <-]. Qed.
#[local] Instance same_mem_tsc : Respects same_mem (ps_tsc (R:=R) (L:=L) (Q:=Q)).
Proof. by intros s a s' [= _ <-]. Qed.
#[local] Instance same_mem_core {A} c (m : M (slst R L) A) : Respects same_mem (on_core (Q:=Q) c m).
Proof. intros s a s' H. unfold on_core in H. destruct (m _); [|done]. by injection H as _ <-. Qed.
#[local] Instance same_mem_getr a : Respects same_mem (on_mem (R:=R) (L:=L) (Q:=Q) (getr a)).
Proof. intros s b s' [= _ <-]. by destruct s. Qed.
#[local] Instance same_mem_getn a : Respects same_mem (on_mem (R:=R) (L:=L) (Q:=Q) (getn a)).
Proof. intros s b s' [= _ <-]. by destruct s. Qed.
#[local] Instance same_mem_ring f : Respects same_mem (modify (s_with_mca_ring (R:=R) (L:=L) (Q:=Q) f)).
Proof. by intros s b s' [= _ <-]. Qed.

#[local] Instance same_mem_ops fuel cpu num : Respects same_mem (mca_ops_loop (R:=R) (L:=L) (Q:=Q) fuel cpu num).
Proof.
  revert num. induction fuel as [|fuel IH]; intros num; cbn [mca_ops_loop]; [apply _|].
  unfold mca_op_process. apply _.
Qed.
#[local] Instance same_mem_cpus spin n cpu num : Respects same_mem (mca_cpus_loop (R:=R) (L:=L) (Q:=Q) spin n cpu num).
Proof. revert cpu num. induction n as [|n IH]; intros cpu num; cbn [mca_cpus_loop]; apply _. Qed.

#[local] Instance same_mem_deadlines spin c n r : Respects same_mem (mca_deadlines (R:=R) (L:=L) (Q:=Q) spin c n r).
Proof. unfold mca_deadlines, mca_xcpu_process, info_get. cbv zeta. apply _. Qed.
#[local] Instance same_mem_wakeup c : Respects same_mem (mca_wakeup (R:=R) (L:=L) (Q:=Q) c).
Proof. unfold mca_wakeup, info_get. cbv zeta. apply _. Qed.

(** Whether a round moved a batch. *)
Definition moved (x : option Z) : bool := match x with Some v => negb (v =? -1) | None => true end.

(** A round that returns has moved nothing, or exactly one batch. *)
Lemma mca_round_cases spin conn burst r s x s' nx :
  mca_round spin conn burst r s = Ok x s' -> 0 <= r -> mca_next (conns s conn) s = Ok nx s ->
  conns s' = conns s /\
  ((moved x = false /\ mem s' = mem s) \/
   (moved x = true /\ exists sn rn, nx = Some (sn, rn) /\
      mca_move (conns s conn) sn rn (nodes (mem s) sn) (nodes (mem s) rn) (mem s) = Ok tt (mem s'))).
Proof.
  intros E Hr En. unfold mca_round in E. yst. cbv beta in E. rewrite y_conn, (bind_Ok _ _ _ _ _ En) in E.
  destruct nx as [[sn rn]|]; [|injection E as <- <-; split; [done|]; by left].
  rewrite !y_getn in E. apply bind_inv in E as (? & s1 & A1 & E). apply massert_inv in A1 as [_ ->].
  apply bind_inv in E as (? & s1 & A1 & E). apply massert_inv in A1 as [_ ->].
  apply bind_inv in E as (go & s1 & E1 & E). apply (respects (R := same_mem)) in E1 as [M1 C1].
  destruct go; cbn [negb] in E; [|injection E as <- <-; split; [done|]; by left].
  apply bind_inv in E as (u & s2 & E2 & E). unfold on_mem in E2. rewrite M1 in E2.
  destruct (mca_move _ _ _ _ _ (mem s)) as [v m|] eqn:Em; [|done]. injection E2 as -> <-.
  apply bind_inv in E as (w & s3 & E3 & E). apply (respects (R := same_mem)) in E3 as [M3 C3].
  apply bind_inv in E as (t & s4 & E4 & E). apply (respects (R := same_mem)) in E4 as [M4 C4].
  injection E as <- <-. cbn in M3, C3. split; [congruence|]. right. split.
  - destruct (_ <? _); [done|]. cbn. apply negb_true_iff, Z.eqb_neq. lia.
  - exists sn, rn. split; [done|]. destruct u. rewrite M4, M3. done.
Qed.

End core.

(** ** Packets received and sent, from the history of a segment *)

Definition all_pkts (l : list batch) : list packet := concat (map b_pkts l).
Definition sent_pkts (g : ghost) : list packet := all_pkts (g_outs g) ++ g_part g.
Definition got_pkts (g : ghost) : list packet :=
  all_pkts (take (g_S g) (g_ins g)) ++ take (g_k g) (default [] (b_pkts <$> g_ins g !! g_S g)).

Lemma all_pkts_app l k : all_pkts (l ++ k) = all_pkts l ++ all_pkts k.
Proof. unfold all_pkts. by rewrite map_app, concat_app. Qed.
Lemma all_pkts_one b : all_pkts [b] = b_pkts b.
Proof. cbn. apply app_nil_r. Qed.

Lemma got_prefix g : got_pkts g `prefix_of` all_pkts (g_ins g).
Proof.
  unfold got_pkts. rewrite <- (take_drop (g_S g) (g_ins g)) at 3. rewrite all_pkts_app. apply prefix_app.
  destruct (g_ins g !! g_S g) as [b|] eqn:E; cbn [fmap option_fmap option_map default from_option id]; [|rewrite take_nil; apply prefix_nil].
  rewrite (drop_S _ _ _ E). change (b :: ?l) with ([b] ++ l). rewrite all_pkts_app, all_pkts_one.
  apply prefix_app_r. exists (drop (g_k g) (b_pkts b)). by rewrite take_drop.
Qed.

(** A batch that arrives changes nothing of what was received. *)
Lemma got_ins m rh g b : region m rh g -> got_pkts (with_ins (g_ins g ++ [b]) g) = got_pkts g.
Proof.
  intros Hr. pose proof (rg_order _ _ _ Hr) as (o1 & o2 & o3). unfold g_F in o3.
  unfold got_pkts. change (g_S (with_ins _ g)) with (g_S g). esimp. rewrite take_app_le by lia. f_equal.
  destruct (rg_work _ _ _ Hr) as [[HT (_ & _ & _ & Hk & _)]|[HT (b' & Hb & _)]]; [by rewrite Hk|].
  by rewrite (lookup_app_l_Some _ _ _ _ Hb), Hb.
Qed.

(** The packet, if any, that function [rh] has received and not yet sent. *)
Definition holding (rh : Z) (g : ghost) (o : option received) : Prop :=
  match o with
  | None => g_k g = length (g_part g)
  | Some d => g_k g = S (length (g_part g)) /\ g_T g = S (g_S g) /\ rx_pkt d = buf rh (g_S g) (length (g_part g))
  end.

(** The ends that the core uses are the same. *)
Definition same_ends (g g' : ghost) : Prop := g_ins g' = g_ins g /\ g_outs g' = g_outs g /\ g_M g' = g_M g.

Lemma recv_step fuel m rh g :
  region m rh g -> holding rh g None -> (1 <= fuel)%nat ->
  (exists d p m' g', eos_pkt_recv_test fuel rh (outr rh) m = Ok (inl d) m' /\ region m' rh g' /\ local rh m m' /\
     holding rh g' (Some d) /\ got_pkts g' = got_pkts g ++ [p] /\ sent_pkts g' = sent_pkts g /\ same_ends g g' /\
     pkt_at m' (rx_pkt d) (rx_len d) (rx_port d) = p) \/
  (exists e, eos_pkt_recv_test fuel rh (outr rh) m = Ok (inr e) m /\ got_pkts g = all_pkts (g_ins g)).
Proof.
  intros Hrg Hh Hf. cbn in Hh. pose proof (rg_order _ _ _ Hrg) as (o1 & o2 & o3).
  destruct (rg_work _ _ _ Hrg) as [[HT Hid]|[HT (b & Hb & Hw)]].
  - destruct (decide (g_T g = g_F g)) as [HF|HF]; [right; eexists; split; [by apply recv_none|]|left].
    { destruct Hid as (_ & _ & _ & Hk & _). unfold got_pkts. rewrite Hk, take_0, app_nil_r, take_ge by (unfold g_F in *; lia). done. }
    destruct (lookup_lt_is_Some_2 (g_ins g) (g_T g)) as [b Hb]; [unfold g_F in *; lia|].
    pose proof (Forall_lookup_1 _ _ _ _ (rg_ins _ _ _ Hrg) Hb) as [Hlb _].
    destruct (lookup_lt_is_Some_2 (b_pkts b) 0) as [p Hp]; [lia|].
    destruct (recv_next fuel m rh g b p Hrg HT Hf Hb Hp) as (m' & E & Hr & Hho & Hl & _).
    destruct Hid as (_ & _ & _ & Hk & Hpart).
    eexists _, p, m', _. split; [exact E|]. split; [exact Hr|]. split; [done|].
    rewrite HT in Hb, Hho |- *. split; [done|]. split; [|split; [|split; [done|]]].
    + unfold got_pkts. change (g_S (with_work _ _ _ g)) with (g_S g). esimp. rewrite Hb, Hk.
      cbn [fmap option_fmap option_map default from_option id]. rewrite take_0, app_nil_r. f_equal.
      by rewrite (take_S_r _ _ _ Hp), take_0.
    + unfold sent_pkts. esimp. by rewrite Hpart.
    + cbn [rx_pkt rx_len rx_port]. by apply pkt_at_holds.
  - left. pose proof (bz_part _ _ _ _ Hw) as Hlt.
    destruct (lookup_lt_is_Some_2 (b_pkts b) (g_k g)) as [p Hp]; [lia|].
    destruct (recv_busy fuel m rh g b p Hrg HT Hb Hp) as (m' & E & Hr & Hho & Hl & _).
    eexists _, p, m', _. split; [exact E|]. split; [exact Hr|]. split; [done|]. split; [|split; [|split; [|split]]]; try done.
    + cbn [holding rx_pkt]. esimp. change (g_S (with_work _ _ _ g)) with (g_S g). by rewrite Hh.
    + unfold got_pkts. change (g_S (with_work _ _ _ g)) with (g_S g). esimp. rewrite Hb.
      cbn [fmap option_fmap option_map default from_option id]. by rewrite (take_S_r _ _ _ Hp), app_assoc.
    + cbn [rx_pkt rx_len rx_port]. by apply pkt_at_holds.
Qed.

(** A packet that is held can be sent; [len] and [port] are the function's
    choice. *)
Lemma send_step m rh g d len port dl ar :
  region m rh g -> holding rh g (Some d) -> 1 <= len <= 256 ->
  exists m' g', eos_pkt_send_test (outr rh) (rx_pkt d) len port dl ar m = Ok 0 m' /\ region m' rh g' /\ local rh m m' /\
    holding rh g' None /\ got_pkts g' = got_pkts g /\
    sent_pkts g' = sent_pkts g ++ [pkt_at m (rx_pkt d) len port] /\
    g_ins g' = g_ins g /\ g_M g' = g_M g /\ g_outs g `prefix_of` g_outs g'.
Proof.
  intros Hrg (Hk & HT & Hd) Hlen. set (p := pkt_at m (rx_pkt d) len port).
  destruct (rg_work _ _ _ Hrg) as [[? _]|[_ (b & Hb & Hw)]]; [lia|].
  assert (length (p_data p) = Z.to_nat len) as Hl by apply pkt_at_length.
  destruct (send_test_Ok m rh g b p dl ar Hrg HT Hb) as (m' & E & Hr & Hlo & _).
  { unfold pkt_ok. lia. }
  { lia. }
  { rewrite <- Hd. apply holds_pkt_at. }
  rewrite <- Hd, Hl, Z2Nat.id in E by lia. exists m', (sent g b p dl ar). split; [exact E|]. split; [exact Hr|].
  split; [done|]. pose proof (bz_part _ _ _ _ Hw) as Hlt. pose proof (bz_k _ _ _ _ Hw) as Hkb.
  unfold sent. destruct (decide (S (length (g_part g)) = length (b_pkts b))) as [Hlast|Hmore].
  - split; [done|]. split; [|split; [|split; [done|split; [done|by eexists]]]].
    + unfold got_pkts, g_S. cbn [g_outs g_ins g_k]. rewrite length_app. cbn [length]. rewrite Nat.add_1_r, take_0, app_nil_r.
      unfold g_S in Hb. rewrite (take_S_r _ _ _ Hb), Hb, all_pkts_app, all_pkts_one.
      cbn [fmap option_fmap option_map default from_option id]. f_equal. symmetry. apply take_ge. lia.
    + unfold sent_pkts. cbn [g_outs g_part]. rewrite all_pkts_app, all_pkts_one, app_nil_r. cbn [b_pkts].
      by rewrite app_assoc.
  - split; [|split; [done|split; [|by split; [|split]]]].
    + cbn. rewrite length_app. cbn. lia.
    + unfold sent_pkts. esimp. by rewrite app_assoc.
Qed.

(** ** Batches from outside *)

(** The ring [src] and the node [sn] are not part of the segment. *)
Definition extern (rh src sn : Z) : Prop :=
  src <> rh /\ src <> outr rh /\ forall i, sn <> innode rh i /\ sn <> outnode rh i.

Lemma free_room m rh g :
  region m rh g -> n_state (nodes m (innode rh (g_F g))) = PKT_FREE -> (g_F g < g_H g + 128)%nat.
Proof.
  intros Hr Hs. pose proof (rg_order _ _ _ Hr) as (p1 & p2 & p3).
  destruct (decide (g_F g < g_H g + 128)%nat) as [HF|HF]; [done|exfalso]. revert Hs.
  replace (g_F g) with (g_H g + 128)%nat by lia. rewrite innode_wrap.
  destruct (rg_in_nodes _ _ _ Hr (g_H g)) as (-> & _); [lia|]. unfold in_state.
  destruct (decide (g_H g < g_T g)%nat); [done|]. by rewrite decide_True by lia.
Qed.

Lemma feed_move m c sn rh g b m' :
  c_dst_ring c = rh -> region m rh g -> (g_F g < g_H g + 128)%nat -> extern rh (c_src_ring c) sn ->
  batch_ok b -> carries m (nodes m sn) b -> offers m rh (nodes m sn) (b_pkts b) ->
  mca_move c sn (innode rh (g_F g)) (nodes m sn) (nodes m (innode rh (g_F g))) m = Ok tt m' ->
  region m' rh (with_ins (g_ins g ++ [b]) g) /\
  forall a, extern a (c_src_ring c) sn -> apart rh a -> seg_same a m m'.
Proof.
  intros Hc Hr HF (X1 & X2 & X3) Hb Hca Ho E.
  destruct (mca_move_raw m c sn (innode rh (g_F g)) rh g b (c_src_ring c)) as
    (m1 & n' & E1 & Rs & Rd & Ro & Ns & Nr & Nn & St & Pn & Cn & By); try done.
  { apply X3. }
  rewrite E in E1. injection E1 as <-. split.
  - eapply (region_put m); try done.
    + rewrite Ro; [apply ring_like_refl|by apply not_eq_sym|apply outr_ne].
    + intros i Hi. apply Nn; [|done]. apply not_eq_sym, X3.
    + intros i. apply Nn; [apply not_eq_sym, X3|apply not_eq_sym, in_out_node].
    + intros a _ Ha. by apply By.
  - intros a (Y1 & Y2 & Y3) Hap.
    assert (forall i j, a <> rh /\ outr a <> rh /\ innode a i <> innode rh j /\ outnode a i <> innode rh j) as He.
    { intros i j. destruct (apart_facts rh a j i 0 0 0 0 Hap) as (?&?&?&?&?&?&?&?&_); [lia..|].
      split_and!; apply not_eq_sym; done. }
    split; [|split; [|split]].
    + rewrite Ro; [apply ring_like_refl|by apply not_eq_sym|apply (He 0%nat 0%nat)].
    + rewrite Ro; [apply ring_like_refl|by apply not_eq_sym|apply (He 0%nat 0%nat)].
    + intros i. split; apply Nn; try apply He; apply not_eq_sym, Y3.
    + intros x Hx. apply By. intros j y Hj Hy Heq. pose proof (buf_in_seg rh (g_F g) j y Hj Hy).
      unfold apart in Hap. rewrite memseg_size in Hap. unfold pkt_base in *. lia.
Qed.

(** ** The system *)

(** A connection [w_conn] from function [w_from] to function [w_to]. *)
Record wire : Type := mkWire { w_conn : Z; w_from : Z; w_to : Z }.

#[export] Instance wire_eq_dec : EqDecision wire.
Proof. solve_decision. Defined.

Inductive event : Type :=
| Ev_recv (rh : Z) (p : packet)
| Ev_send (rh : Z) (p : packet)
| Ev_feed (rh : Z) (b : batch).

Definition recvs (rh : Z) (tr : list event) : list packet :=
  omap (fun e => match e with Ev_recv a p => if a =? rh then Some p else None | _ => None end) tr.
Definition sends (rh : Z) (tr : list event) : list packet :=
  omap (fun e => match e with Ev_send a p => if a =? rh then Some p else None | _ => None end) tr.
Definition fed (rh : Z) (tr : list event) : list batch :=
  omap (fun e => match e with Ev_feed a b => if a =? rh then Some b else None | _ => None end) tr.

Section system.
Context {R L Q : Type} `{!CkRing R sl_xcpu_request, !PsList L, !KernelApi (slst R L), !CkRing Q mca_op}.
Variable spin fuel : nat.
(** The segments of the functions, the connections between them, and the
    connections from outside, by their number and the receiving segment. *)
Variable segs : list Z.
Variable wires : list wire.
Variable feeds : list (Z * Z).
Implicit Types s : sysst R L Q.
Implicit Types h : Z -> option received.

(** The batch [b] waits in the ring of the connection [c] from outside. *)
Definition feedable s (c rh : Z) (b : batch) : Prop :=
  let k := conns s c in let src := rings (mem s) (c_src_ring k) in
  let sn := node_at src (r_mca_head src) in
  batch_ok b /\ carries (mem s) (nodes (mem s) sn) b /\ offers (mem s) rh (nodes (mem s) sn) (b_pkts b) /\
  forall a, a ∈ segs -> extern a (c_src_ring k) sn.

(** The connections in question are the same. *)
Definition conns_same s s' : Prop :=
  (forall w, w ∈ wires -> conns s' (w_conn w) = conns s (w_conn w)) /\
  (forall c rh, (c, rh) ∈ feeds -> conns s' c = conns s c).

(** A step of the system, and what can be observed of it.  [h] are the packets
    that functions have received and not yet sent. *)
Inductive eos_step : sysst R L Q * (Z -> option received) -> list event -> sysst R L Q * (Z -> option received) -> Prop :=
| step_collect s h rh n s' :
    rh ∈ segs -> on_mem (eos_pkt_collect rh (outr rh)) s = Ok n s' -> eos_step (s, h) [] (s', h)
| step_recv s h rh d s' :
    rh ∈ segs -> h rh = None -> on_mem (eos_pkt_recv_test fuel rh (outr rh)) s = Ok (inl d) s' ->
    eos_step (s, h) [Ev_recv rh (pkt_at (mem s') (rx_pkt d) (rx_len d) (rx_port d))] (s', fupd rh (Some d) h)
| step_recv_none s h rh e s' :
    rh ∈ segs -> h rh = None -> on_mem (eos_pkt_recv_test fuel rh (outr rh)) s = Ok (inr e) s' -> eos_step (s, h) [] (s', h)
| step_write s h rh d f :
    rh ∈ segs -> h rh = Some d ->
    (forall a, ~ (rx_pkt d <= a < rx_pkt d + EOS_PKT_MAX_SZ) -> f a = bytes (mem s) a) ->
    eos_step (s, h) [] (s_with_mem (put_bytes f (mem s)) s, h)
| step_send s h rh d len port dl ar r s' :
    rh ∈ segs -> h rh = Some d -> 1 <= len <= EOS_PKT_MAX_SZ ->
    on_mem (eos_pkt_send_test (outr rh) (rx_pkt d) len port dl ar) s = Ok r s' ->
    eos_step (s, h) [Ev_send rh (pkt_at (mem s) (rx_pkt d) len port)] (s', fupd rh None h)
| step_move s h w burst r x s' :
    w ∈ wires -> 0 <= r -> mca_round spin (w_conn w) burst r s = Ok x s' -> eos_step (s, h) [] (s', h)
| step_feed s h c rh b burst r x s' :
    (c, rh) ∈ feeds -> 0 <= r -> feedable s c rh b -> mca_round spin c burst r s = Ok x s' ->
    eos_step (s, h) (if moved x then [Ev_feed rh b] else []) (s', h)
| step_world s h s' :
    conns_same s s' -> (forall rh, rh ∈ segs -> seg_same rh (mem s) (mem s')) -> eos_step (s, h) [] (s', h).

Inductive eos_run : sysst R L Q * (Z -> option received) -> list event -> sysst R L Q * (Z -> option received) -> Prop :=
| run_nil c : eos_run c [] c
| run_snoc c tr c' ev c'' : eos_run c tr c' -> eos_step c' ev c'' -> eos_run c (tr ++ ev) c''.

(** How the functions are connected. *)
Record wiring : Prop := mkWiring {
  wi_apart : forall a b, a ∈ segs -> b ∈ segs -> a <> b -> apart a b;
  wi_wires : forall w, w ∈ wires -> w_from w ∈ segs /\ w_to w ∈ segs /\ w_from w <> w_to w;
  wi_in : forall w w', w ∈ wires -> w' ∈ wires -> w_to w = w_to w' -> w = w';
  wi_out : forall w w', w ∈ wires -> w' ∈ wires -> w_from w = w_from w' -> w = w';
  wi_feeds : forall c rh, (c, rh) ∈ feeds -> rh ∈ segs /\ forall w, w ∈ wires -> w_to w <> rh }.

Record connected s : Prop := mkConnected {
  co_wires : forall w, w ∈ wires -> links (conns s (w_conn w)) (w_from w) (w_to w);
  co_feeds : forall c rh, (c, rh) ∈ feeds -> c_dst_ring (conns s c) = rh }.

(** The history [G] of each segment explains the state and the trace. *)
Record explained (G : Z -> ghost) s h (tr : list event) : Prop := mkExplained {
  ex_conn : connected s;
  ex_region : forall rh, rh ∈ segs -> region (mem s) rh (G rh);
  ex_held : forall rh, rh ∈ segs -> holding rh (G rh) (h rh);
  ex_sends : forall rh, rh ∈ segs -> sends rh tr = sent_pkts (G rh);
  ex_recvs : forall rh, rh ∈ segs -> recvs rh tr = got_pkts (G rh);
  ex_wires : forall w, w ∈ wires -> g_ins (G (w_to w)) = take (g_M (G (w_from w))) (g_outs (G (w_from w)));
  ex_feeds : forall c rh, (c, rh) ∈ feeds -> g_ins (G rh) = fed rh tr }.

(** ** Each step keeps the explanation *)

Lemma recvs_app a tr ev : recvs a (tr ++ ev) = recvs a tr ++ recvs a ev.
Proof. unfold recvs. apply omap_app. Qed.
Lemma sends_app a tr ev : sends a (tr ++ ev) = sends a tr ++ sends a ev.
Proof. unfold sends. apply omap_app. Qed.
Lemma fed_app a tr ev : fed a (tr ++ ev) = fed a tr ++ fed a ev.
Proof. unfold fed. apply omap_app. Qed.

(** A step of the function [rh]: its history becomes [g']. *)
Lemma explained_local G s h tr rh g' s' h' ev :
  wiring -> explained G s h tr -> rh ∈ segs -> conns s' = conns s ->
  region (mem s') rh g' -> local rh (mem s) (mem s') -> holding rh g' (h' rh) -> (forall a, a <> rh -> h' a = h a) ->
  (forall a, a <> rh -> sends a ev = [] /\ recvs a ev = []) -> (forall a, fed a ev = []) ->
  sent_pkts g' = sent_pkts (G rh) ++ sends rh ev -> got_pkts g' = got_pkts (G rh) ++ recvs rh ev ->
  g_ins g' = g_ins (G rh) -> g_M g' = g_M (G rh) -> g_outs (G rh) `prefix_of` g_outs g' ->
  exists G', explained G' s' h' (tr ++ ev).
Proof.
  intros Hw [X1 X2 X3 X4 X5 X6 X7] Hrh Hc Hr Hl Hh Hho Hev Hfd Hs Hg Hi HM Ho. exists (fupd rh g' G).
  assert (forall a, a ∈ segs -> a <> rh -> seg_same a (mem s) (mem s')) as Hsame.
  { intros a Ha Hne. eapply local_same; [exact Hl|]. by apply (wi_apart Hw). }
  constructor.
  - destruct X1 as [Y1 Y2]. constructor; rewrite Hc; done.
  - intros a Ha. unfold fupd. destruct (decide (a = rh)) as [->|Hne]; [done|].
    eapply seg_same_region; [by apply Hsame|by apply X2].
  - intros a Ha. unfold fupd. destruct (decide (a = rh)) as [->|Hne]; [done|]. rewrite Hho by done. by apply X3.
  - intros a Ha. rewrite sends_app, X4 by done. unfold fupd. destruct (decide (a = rh)) as [->|Hne]; [done|].
    by rewrite (proj1 (Hev a Hne)), app_nil_r.
  - intros a Ha. rewrite recvs_app, X5 by done. unfold fupd. destruct (decide (a = rh)) as [->|Hne]; [done|].
    by rewrite (proj2 (Hev a Hne)), app_nil_r.
  - intros w Hww. pose proof (X6 w Hww) as E. destruct (wi_wires Hw w Hww) as (W1 & W2 & W3).
    transitivity (g_ins (G (w_to w))); [unfold fupd; by destruct (decide (w_to w = rh)) as [->|]|]. rewrite E.
    unfold fupd. destruct (decide (w_from w = rh)) as [->|]; [|done]. rewrite HM. destruct Ho as [k ->].
    rewrite take_app_le; [done|]. destruct (rg_order _ _ _ (X2 rh Hrh)) as (o1 & _). unfold g_S in o1. lia.
  - intros c a Ha. rewrite fed_app, Hfd, app_nil_r, <- (X7 c a Ha). unfold fupd.
    by destruct (decide (a = rh)) as [->|].
Qed.

(** A step that touches no segment. *)
Lemma explained_world G s h tr s' :
  explained G s h tr -> conns_same s s' -> (forall rh, rh ∈ segs -> seg_same rh (mem s) (mem s')) ->
  explained G s' h tr.
Proof.
  intros [X1 X2 X3 X4 X5 X6 X7] [C1 C2] Hs. constructor; try done.
  - destruct X1 as [Y1 Y2]. constructor; intros; [rewrite C1|erewrite C2]; eauto.
  - intros rh Hrh. eapply seg_same_region; [by apply Hs|by apply X2].
Qed.

Lemma explained_same G s h tr s' :
  explained G s h tr -> conns s' = conns s -> mem s' = mem s -> explained G s' h tr.
Proof.
  intros Hx Hc Hm. apply (explained_world G s); [done|by split; intros; rewrite Hc|]. intros rh _. rewrite Hm.
  split; [apply ring_like_refl|]. split; [apply ring_like_refl|]. by split.
Qed.

(** A batch that the core moved between two functions. *)
Lemma explained_moved G s h tr w s' b :
  wiring -> explained G s h tr -> w ∈ wires -> conns s' = conns s ->
  let g1 := G (w_from w) in let g2 := G (w_to w) in
  g_outs g1 !! g_M g1 = Some b ->
  region (mem s') (w_from w) (with_M (S (g_M g1)) g1) -> region (mem s') (w_to w) (with_ins (g_ins g2 ++ [b]) g2) ->
  elsewhere (w_from w) (w_to w) (mem s) (mem s') ->
  exists G', explained G' s' h tr.
Proof.
  intros Hw [X1 X2 X3 X4 X5 X6 X7] Hww Hc g1 g2 Hb Hr1 Hr2 El. destruct (wi_wires Hw w Hww) as (W1 & W2 & W3).
  exists (fupd (w_to w) (with_ins (g_ins g2 ++ [b]) g2) (fupd (w_from w) (with_M (S (g_M g1)) g1) G)).
  set (G' := fupd _ _ _). assert (G' (w_to w) = with_ins (g_ins g2 ++ [b]) g2) as E2 by apply fupd_eq.
  assert (G' (w_from w) = with_M (S (g_M g1)) g1) as E1.
  { unfold G'. by rewrite fupd_ne, fupd_eq by done. }
  assert (forall a, a <> w_from w -> a <> w_to w -> G' a = G a) as E0.
  { intros a A1 A2. unfold G'. by rewrite !fupd_ne by done. }
  assert (forall P : Z -> ghost -> Prop, (forall a, a ∈ segs -> P a (G a)) ->
    P (w_to w) (with_ins (g_ins g2 ++ [b]) g2) -> P (w_from w) (with_M (S (g_M g1)) g1) ->
    forall a, a ∈ segs -> P a (G' a)) as Hall.
  { intros P HP P2 P1 a Ha. destruct (decide (a = w_to w)) as [->|]; [by rewrite E2|].
    destruct (decide (a = w_from w)) as [->|]; [by rewrite E1|]. rewrite E0 by done. by apply HP. }
  constructor.
  - destruct X1 as [Y1 Y2]. constructor; rewrite Hc; done.
  - intros a Ha. destruct (decide (a = w_to w)) as [->|]; [by rewrite E2|].
    destruct (decide (a = w_from w)) as [->|]; [by rewrite E1|]. rewrite E0 by done.
    apply El; [by apply X2|apply (wi_apart Hw); done..].
  - apply (Hall (fun a g => holding a g (h a))); [done|exact (X3 _ W2)|exact (X3 _ W1)].
  - apply (Hall (fun a g => sends a tr = sent_pkts g)); [done|exact (X4 _ W2)|exact (X4 _ W1)].
  - apply (Hall (fun a g => recvs a tr = got_pkts g)); [done| |exact (X5 _ W1)].
    rewrite (X5 _ W2). symmetry. by apply (got_ins (mem s) (w_to w)), X2.
  - intros v Hv. destruct (decide (v = w)) as [->|Hne].
    + rewrite E1, E2. esimp. rewrite (take_S_r _ _ _ Hb). f_equal. exact (X6 w Hww).
    + assert (w_to v <> w_to w) as N2 by (intros E; by apply Hne, (wi_in Hw)).
      assert (w_from v <> w_from w) as N1 by (intros E; by apply Hne, (wi_out Hw)).
      assert (g_ins (G' (w_to v)) = g_ins (G (w_to v))) as ->.
      { unfold G'. rewrite fupd_ne by done. unfold fupd. by destruct (decide _) as [->|]. }
      rewrite (X6 v Hv). unfold G', fupd. destruct (decide (w_from v = w_to w)) as [->|]; [done|].
      by rewrite decide_False.
  - intros c a Ha. destruct (wi_feeds Hw c a Ha) as [_ Hn]. rewrite <- (X7 c a Ha).
    unfold G'. rewrite fupd_ne by (apply not_eq_sym, Hn; done). unfold fupd. by destruct (decide _) as [->|].
Qed.

(** A batch that came from outside. *)
Lemma explained_fed G s h tr c rh b s' :
  wiring -> explained G s h tr -> (c, rh) ∈ feeds -> conns s' = conns s ->
  region (mem s') rh (with_ins (g_ins (G rh) ++ [b]) (G rh)) ->
  (forall a, a ∈ segs -> a <> rh -> seg_same a (mem s) (mem s')) ->
  exists G', explained G' s' h (tr ++ [Ev_feed rh b]).
Proof.
  intros Hw [X1 X2 X3 X4 X5 X6 X7] Hc Hco Hr Ha. destruct (wi_feeds Hw c rh Hc) as [Hrh Hn].
  exists (fupd rh (with_ins (g_ins (G rh) ++ [b]) (G rh)) G). constructor.
  - destruct X1 as [Y1 Y2]. constructor; rewrite Hco; done.
  - intros a Hs. unfold fupd. destruct (decide (a = rh)) as [->|Hne]; [done|].
    eapply seg_same_region; [by apply Ha|by apply X2].
  - intros a Hs. unfold fupd. destruct (decide (a = rh)) as [->|Hne]; [|by apply X3]. exact (X3 rh Hs).
  - intros a Hs. rewrite sends_app, X4, app_nil_r by done. unfold fupd. by destruct (decide (a = rh)) as [->|].
  - intros a Hs. rewrite recvs_app, X5, app_nil_r by done. unfold fupd. destruct (decide (a = rh)) as [->|]; [|done].
    symmetry. by apply (got_ins (mem s) rh), X2.
  - intros w Hww. pose proof (X6 w Hww) as E. rewrite fupd_ne by (apply Hn; done). rewrite E.
    unfold fupd. by destruct (decide (w_from w = rh)) as [->|].
  - intros c' a Hs. rewrite fed_app, <- (X7 c' a Hs). unfold fupd, fed. cbn [omap list_omap].
    destruct (decide (a = rh)) as [->|Hne]; [by rewrite Z.eqb_refl|].
    assert ((rh =? a) = false) as -> by (apply Z.eqb_neq; congruence). by rewrite app_nil_r.
Qed.

(** The transfer that the core finds on a connection from outside. *)
Lemma feed_next s c rh g :
  c_dst_ring (conns s c) = rh -> region (mem s) rh g ->
  exists nx, mca_next (conns s c) s = Ok nx s /\
    forall sn rn, nx = Some (sn, rn) ->
      sn = node_at (rings (mem s) (c_src_ring (conns s c))) (r_mca_head (rings (mem s) (c_src_ring (conns s c)))) /\
      rn = innode rh (g_F g) /\ (g_F g < g_H g + 128)%nat.
Proof.
  intros Hd Hr. unfold mca_next. yst. destruct (negb _); [by eexists|]. yst. rewrite Hd.
  rewrite (rg_free_head _ _ _ Hr), (in_node_at _ _ _ _ _ Hr (rg_in_ring _ _ _ Hr)).
  destruct (st_is _ PKT_FREE) eqn:E; cbn [negb]; eexists; (split; [reflexivity|]); intros sn rn [= <- <-].
  split; [done|]. split; [done|]. apply (free_room (mem s) rh); [done|]. unfold st_is in E. by apply bool_decide_eq_true in E.
Qed.

Lemma on_mem_inv {A} (m : M eosm A) s a s' :
  on_mem m s = Ok a s' -> exists m', m (mem s) = Ok a m' /\ s' = s_with_mem m' s.
Proof. unfold on_mem. destruct (m (mem s)) as [b m'|]; intros H; [|done]. injection H as <- <-. by exists m'. Qed.

Lemma collect_explained G s h tr rh n s' :
  wiring -> explained G s h tr -> rh ∈ segs -> on_mem (eos_pkt_collect rh (outr rh)) s = Ok n s' ->
  exists G', explained G' s' h (tr ++ []).
Proof.
  intros Hw Hx Hrh E. apply on_mem_inv in E as (m' & E & ->).
  destruct (collect_Ok _ _ _ (ex_region _ _ _ _ Hx rh Hrh)) as (k & m1 & E1 & _ & _ & Hr & Hl & _).
  rewrite E in E1. injection E1 as -> ->.
  apply (explained_local G s h tr rh (with_H (g_H (G rh) + k) (G rh))); try done.
  - exact (ex_held _ _ _ _ Hx rh Hrh).
  - by rewrite app_nil_r.
  - by rewrite app_nil_r.
Qed.

Lemma recv_explained G s h tr rh d s' :
  wiring -> (1 <= fuel)%nat -> explained G s h tr -> rh ∈ segs -> h rh = None ->
  on_mem (eos_pkt_recv_test fuel rh (outr rh)) s = Ok (inl d) s' ->
  exists G', explained G' s' (fupd rh (Some d) h)
    (tr ++ [Ev_recv rh (pkt_at (mem s') (rx_pkt d) (rx_len d) (rx_port d))]).
Proof.
  intros Hw Hf Hx Hrh Hn E. apply on_mem_inv in E as (m' & E & ->).
  pose proof (ex_held _ _ _ _ Hx rh Hrh) as Hh. rewrite Hn in Hh.
  destruct (recv_step fuel _ _ _ (ex_region _ _ _ _ Hx rh Hrh) Hh Hf) as
    [(d1 & p & m1 & g' & E1 & Hr & Hl & Ho & Hg & Hs & (H1 & H2 & H3) & Hp)|(e & E1 & _)]; rewrite E in E1; [|done].
  injection E1 as -> ->. cbn [mem s_with_mem]. rewrite Hp.
  apply (explained_local G s h tr rh g'); try done.
  - by rewrite fupd_eq.
  - intros a Hne. by rewrite fupd_ne.
  - intros a Hne. split; [done|]. unfold recvs. cbn [omap list_omap].
    by assert ((rh =? a) = false) as -> by (apply Z.eqb_neq; congruence).
  - by rewrite app_nil_r.
  - unfold recvs. cbn [omap list_omap]. by rewrite Z.eqb_refl.
  - by rewrite H2.
Qed.

Lemma send_explained G s h tr rh d len port dl ar r s' :
  wiring -> explained G s h tr -> rh ∈ segs -> h rh = Some d -> 1 <= len <= EOS_PKT_MAX_SZ ->
  on_mem (eos_pkt_send_test (outr rh) (rx_pkt d) len port dl ar) s = Ok r s' ->
  exists G', explained G' s' (fupd rh None h) (tr ++ [Ev_send rh (pkt_at (mem s) (rx_pkt d) len port)]).
Proof.
  intros Hw Hx Hrh Hn Hlen E. apply on_mem_inv in E as (m' & E & ->).
  pose proof (ex_held _ _ _ _ Hx rh Hrh) as Hh. rewrite Hn in Hh.
  destruct (send_step _ _ _ d len port dl ar (ex_region _ _ _ _ Hx rh Hrh) Hh Hlen) as
    (m1 & g' & E1 & Hr & Hl & Ho & Hg & Hs & H1 & H2 & H3). rewrite E in E1. injection E1 as -> ->.
  apply (explained_local G s h tr rh g'); try done.
  - by rewrite fupd_eq.
  - intros a Hne. by rewrite fupd_ne.
  - intros a Hne. split; [|done]. unfold sends. cbn [omap list_omap].
    by assert ((rh =? a) = false) as -> by (apply Z.eqb_neq; congruence).
  - unfold sends. cbn [omap list_omap]. by rewrite Z.eqb_refl.
  - by rewrite app_nil_r.
Qed.

Lemma write_explained G s h tr rh d f :
  wiring -> explained G s h tr -> rh ∈ segs -> h rh = Some d ->
  (forall a, ~ (rx_pkt d <= a < rx_pkt d + EOS_PKT_MAX_SZ) -> f a = bytes (mem s) a) ->
  exists G', explained G' (s_with_mem (put_bytes f (mem s)) s) h (tr ++ []).
Proof.
  intros Hw Hx Hrh Hn Hf. pose proof (ex_held _ _ _ _ Hx rh Hrh) as Hh. pose proof Hh as Hh'. rewrite Hn in Hh.
  destruct Hh as (Hk & HT & Hd). pose proof (ex_region _ _ _ _ Hx rh Hrh) as Hr.
  assert (length (g_part (G rh)) < 8)%nat as H8.
  { destruct (rg_work _ _ _ Hr) as [[? _]|[_ (b & Hb & Hz)]]; [lia|]. pose proof (bz_k _ _ _ _ Hz).
    destruct (Forall_lookup_1 _ _ _ _ (rg_ins _ _ _ Hr) Hb) as [? _]. lia. }
  apply (explained_local G s h tr rh (G rh)); try done.
  - apply region_write; [done|]. intros a Ha. apply Hf. rewrite Hd. intros Hin.
    change EOS_PKT_MAX_SZ with 256 in Hin.
    apply (Ha (length (g_part (G rh))) (a - buf rh (g_S (G rh)) (length (g_part (G rh))))); lia.
  - split; [done|]. split; [done|]. intros a Ha. apply Hf. intros Hin. rewrite Hd in Hin.
    change EOS_PKT_MAX_SZ with 256 in Hin.
    pose proof (buf_in_seg rh (g_S (G rh)) _ (a - buf rh (g_S (G rh)) (length (g_part (G rh)))) H8 ltac:(lia)). lia.
  - by rewrite app_nil_r.
  - by rewrite app_nil_r.
Qed.

Lemma move_explained G s h tr w burst r x s' :
  wiring -> explained G s h tr -> w ∈ wires -> 0 <= r -> mca_round spin (w_conn w) burst r s = Ok x s' ->
  exists G', explained G' s' h (tr ++ []).
Proof.
  intros Hw Hx Hww Hr0 E. rewrite app_nil_r. destruct (wi_wires Hw w Hww) as (W1 & W2 & W3).
  pose proof (co_wires _ (ex_conn _ _ _ _ Hx) w Hww) as Hl.
  pose proof (ex_region _ _ _ _ Hx _ W1) as R1. pose proof (ex_region _ _ _ _ Hx _ W2) as R2.
  destruct (mca_round_cases _ _ _ _ _ _ _ _ E Hr0 (mca_next_Ok s _ _ _ _ _ Hl R1 R2)) as
    [Hc [[_ Hm]|[_ (sn & rn & Hnx & Em)]]]; [exists G; by apply (explained_same G s)|].
  destruct (decide (g_M (G (w_from w)) < g_S (G (w_from w)))%nat) as [HM|]; [|done].
  destruct (decide (g_F (G (w_to w)) < g_H (G (w_to w)) + 128)%nat) as [HF|]; [|done].
  injection Hnx as <- <-. destruct (lookup_lt_is_Some_2 (g_outs (G (w_from w))) _ HM) as [b Hb].
  destruct Hl as [L1 L2].
  destruct (mca_move_Ok (mem s) _ _ _ _ _ b L1 L2 (wi_apart Hw _ _ W1 W2 W3) R1 R2 Hb HF) as
    (m1 & E1 & Q1 & Q2 & El & _). rewrite Em in E1. injection E1 as E1. rewrite <- E1 in Q1, Q2, El.
  by apply (explained_moved G s h tr w s' b).
Qed.

Lemma feed_explained G s h tr c rh b burst r x s' :
  wiring -> explained G s h tr -> (c, rh) ∈ feeds -> 0 <= r -> feedable s c rh b -> mca_round spin c burst r s = Ok x s' ->
  exists G', explained G' s' h (tr ++ if moved x then [Ev_feed rh b] else []).
Proof.
  intros Hw Hx Hc Hr0 (F1 & F2 & F3 & F4) E. destruct (wi_feeds Hw c rh Hc) as [Hrh _].
  pose proof (co_feeds _ (ex_conn _ _ _ _ Hx) c rh Hc) as Hd. pose proof (ex_region _ _ _ _ Hx _ Hrh) as Hr.
  destruct (feed_next s c rh _ Hd Hr) as (nx & En & Hnx).
  destruct (mca_round_cases _ _ _ _ _ _ _ _ E Hr0 En) as [Hco [[-> Hm]|[-> (sn & rn & Hn & Em)]]].
  { rewrite app_nil_r. exists G. by apply (explained_same G s). }
  destruct (Hnx _ _ Hn) as (-> & -> & HF).
  destruct (feed_move (mem s) (conns s c) _ rh (G rh) b _ Hd Hr HF (F4 _ Hrh) F1 F2 F3 Em) as [Hr' Hs].
  apply (explained_fed G s h tr c); try done. intros a Ha Hne. apply Hs; [by apply F4|].
  apply (wi_apart Hw); done.
Qed.

Lemma step_explained c ev c' tr G :
  wiring -> (1 <= fuel)%nat -> eos_step c ev c' -> explained G c.1 c.2 tr -> exists G', explained G' c'.1 c'.2 (tr ++ ev).
Proof.
  intros Hw Hf Hs Hx. destruct Hs; cbn [fst snd] in *.
  - by eapply collect_explained.
  - by eapply recv_explained.
  - rewrite app_nil_r. match goal with E : on_mem _ s = _ |- _ => apply on_mem_inv in E as (m' & E & ->) end.
    pose proof (ex_held _ _ _ _ Hx rh ltac:(done)) as Hh. rewrite H0 in Hh. exists G.
    destruct (recv_step fuel _ _ _ (ex_region _ _ _ _ Hx rh ltac:(done)) Hh Hf) as
      [(d & p & m1 & g' & E1 & _)|(e1 & E1 & _)]; rewrite H1 in E1; [done|].
    injection E1 as _ ->. by apply (explained_same G s).
  - by eapply write_explained.
  - by eapply send_explained.
  - by eapply move_explained.
  - by eapply feed_explained.
  - rewrite app_nil_r. exists G. by apply (explained_world G s).
Qed.

Lemma run_explained c tr c' G :
  wiring -> (1 <= fuel)%nat -> eos_run c tr c' -> explained G c.1 c.2 [] -> exists G', explained G' c'.1 c'.2 tr.
Proof.
  intros Hw Hf Hr Hx. induction Hr as [c|c tr c' ev c'' _ IH Hs]; [by exists G|].
  destruct (IH Hx) as [G1 H1]. by eapply step_explained.
Qed.

(** ** The start: the manager sets up the rings of every segment *)

Fixpoint init_segs (pgtbl : Z -> Z) (l : list Z) : M (sysst R L Q) unit :=
  match l with
  | [] => ret tt
  | rh :: l => on_mem (eos_rings_init pgtbl rh) ;; init_segs pgtbl l
  end.

Lemma init_segs_Ok pgtbl l : forall s done,
  (forall a b, a ∈ done ++ l -> b ∈ done ++ l -> a <> b -> apart a b) -> Forall seg_ok l ->
  (forall a, a ∈ done -> region (mem s) a fresh) ->
  exists s', init_segs pgtbl l s = Ok tt s' /\ conns s' = conns s /\
    forall a, a ∈ done ++ l -> region (mem s') a fresh.
Proof.
  induction l as [|rh l IH]; intros s done Ha Hs Hd; cbn [init_segs].
  { exists s. split; [done|]. split; [done|]. by rewrite app_nil_r. }
  inversion_clear Hs as [|? ? Hs1 Hs2]. destruct (eos_rings_init_Ok pgtbl (mem s) rh Hs1) as (m' & E & Hr & Hl).
  destruct (IH (s_with_mem m' s) (done ++ [rh])) as (s' & E' & Hc & Hall).
  - by rewrite <- app_assoc.
  - done.
  - intros a [Hin|Hin]%elem_of_app; cbn [mem s_with_mem].
    + destruct (decide (a = rh)) as [->|Hne]; [done|]. eapply seg_same_region; [|by apply Hd].
      eapply local_same; [exact Hl|]. apply Ha; set_solver.
    + apply list_elem_of_singleton in Hin as ->. done.
  - exists s'. rewrite (y_mem _ _ _ _ _ E). split; [exact E'|]. split; [done|]. by rewrite <- app_assoc in Hall.
Qed.

Lemma init_explained pgtbl s0 :
  wiring -> connected s0 -> Forall seg_ok segs ->
  exists s1, init_segs pgtbl segs s0 = Ok tt s1 /\ explained (fun _ => fresh) s1 (fun _ => None) [].
Proof.
  intros Hw [C1 C2] Hs. destruct (init_segs_Ok pgtbl segs s0 []) as (s1 & E & Hc & Hr); try done.
  { apply Hw. }
  { intros a Ha. by apply not_elem_of_nil in Ha. }
  exists s1. split; [done|]. constructor; try done. constructor; rewrite Hc; done.
Qed.

(** No batch of function [rh] waits for the core. *)
Definition none_waits s (rh : Z) : Prop :=
  let r := rings (mem s) (outr rh) in n_state (nodes (mem s) (node_at r (r_mca_head r))) <> PKT_SENT_READY.

Lemma none_waits_all s rh g : region (mem s) rh g -> none_waits s rh -> g_M g = g_S g.
Proof.
  intros Hr Hn. unfold none_waits in Hn. cbv zeta in Hn.
  rewrite (rg_mca_head _ _ _ Hr), (out_node_at _ _ _ _ _ Hr (rg_out_ring _ _ _ Hr)) in Hn.
  pose proof (rg_order _ _ _ Hr) as (o1 & o2 & o3).
  destruct (decide (g_M g < g_S g)%nat); [|lia]. exfalso. apply Hn.
  destruct (rg_out_nodes _ _ _ Hr (g_M g)) as (St & _); [lia|]. unfold out_state in St.
  by rewrite decide_False, decide_True in St by lia.
Qed.

Lemma part_short m rh g : region m rh g -> (length (g_part g) < 8)%nat.
Proof.
  intros Hr. destruct (rg_work _ _ _ Hr) as [[_ (_ & _ & _ & _ & ->)]|[_ (b & Hb & Hz)]]; [cbn; lia|].
  pose proof (bz_part _ _ _ _ Hz). destruct (Forall_lookup_1 _ _ _ _ (rg_ins _ _ _ Hr) Hb) as [? _]. lia.
Qed.

(** Every call that function [rh] may make now returns; [o] is the packet that
    it holds. *)
Definition calls_return s (rh : Z) (o : option received) : Prop :=
  (exists n s', on_mem (eos_pkt_collect rh (outr rh)) s = Ok n s') /\
  match o with
  | None => exists v s', on_mem (eos_pkt_recv_test fuel rh (outr rh)) s = Ok v s'
  | Some d => forall len port dl ar, 1 <= len <= EOS_PKT_MAX_SZ ->
      exists s', on_mem (eos_pkt_send_test (outr rh) (rx_pkt d) len port dl ar) s = Ok 0 s'
  end.

Lemma on_mem_Ok {A} (m : M eosm A) s a m' : m (mem s) = Ok a m' -> on_mem m s = Ok a (s_with_mem m' s).
Proof. intros E. unfold on_mem. by rewrite E. Qed.

Lemma explained_returns G s h tr rh :
  (1 <= fuel)%nat -> explained G s h tr -> rh ∈ segs -> calls_return s rh (h rh).
Proof.
  intros Hf Hx Hrh. pose proof (ex_region _ _ _ _ Hx rh Hrh) as Hr. pose proof (ex_held _ _ _ _ Hx rh Hrh) as Hh.
  split.
  - destruct (collect_Ok _ _ _ Hr) as (n & m' & E & _). eexists _, _. by apply on_mem_Ok.
  - destruct (h rh) as [d|].
    + intros len port dl ar Hlen. destruct (send_step _ _ _ d len port dl ar Hr Hh Hlen) as (m' & g' & E & _).
      eexists. by apply on_mem_Ok.
    + destruct (recv_step fuel _ _ _ Hr Hh Hf) as [(d & p & m' & g' & E & _)|(e & E & _)];
        eexists _, _; by apply on_mem_Ok.
Qed.

Lemma explained_order G s h tr w :
  wiring -> explained G s h tr -> w ∈ wires -> recvs (w_to w) tr `prefix_of` sends (w_from w) tr.
Proof.
  intros Hw Hx Hww. destruct (wi_wires Hw w Hww) as (W1 & W2 & _).
  rewrite (ex_recvs _ _ _ _ Hx _ W2), (ex_sends _ _ _ _ Hx _ W1). etransitivity; [apply got_prefix|].
  rewrite (ex_wires _ _ _ _ Hx w Hww). unfold sent_pkts. apply prefix_app_r.
  rewrite <- (take_drop (g_M (G (w_from w))) (g_outs (G (w_from w)))) at 2. rewrite all_pkts_app. by eexists.
Qed.

(** A receiver that finds nothing, when no batch waits for the core, has
    received every packet but those of the batch in the making. *)
Lemma explained_complete G s h tr w e s' :
  wiring -> (1 <= fuel)%nat -> explained G s h tr -> w ∈ wires -> h (w_to w) = None ->
  on_mem (eos_pkt_recv_test fuel (w_to w) (outr (w_to w))) s = Ok (inr e) s' -> none_waits s (w_from w) ->
  exists rest, (length rest < 8)%nat /\ sends (w_from w) tr = recvs (w_to w) tr ++ rest.
Proof.
  intros Hw Hf Hx Hww Hn E Hno. destruct (wi_wires Hw w Hww) as (W1 & W2 & _).
  pose proof (ex_region _ _ _ _ Hx _ W1) as R1. pose proof (ex_held _ _ _ _ Hx _ W2) as Hh. rewrite Hn in Hh.
  apply on_mem_inv in E as (m' & E & _). exists (g_part (G (w_from w))). split; [by apply (part_short (mem s) (w_from w))|].
  rewrite (ex_recvs _ _ _ _ Hx _ W2), (ex_sends _ _ _ _ Hx _ W1).
  destruct (recv_step fuel _ _ _ (ex_region _ _ _ _ Hx _ W2) Hh Hf) as
    [(d & p & m1 & g' & E1 & _)|(e1 & _ & ->)]; [by rewrite E in E1|].
  rewrite (ex_wires _ _ _ _ Hx w Hww), (none_waits_all s _ _ R1 Hno). unfold g_S. by rewrite take_ge.
Qed.

Lemma explained_fed_order G s h tr c rh :
  wiring -> explained G s h tr -> (c, rh) ∈ feeds -> recvs rh tr `prefix_of` all_pkts (fed rh tr).
Proof.
  intros Hw Hx Hc. destruct (wi_feeds Hw c rh Hc) as [Hrh _].
  rewrite (ex_recvs _ _ _ _ Hx _ Hrh), <- (ex_feeds _ _ _ _ Hx c rh Hc). apply got_prefix.
Qed.
End system.

(** C2. From the set-up of the rings on, in every interleaving of the calls of the
    functions, the rounds of the message-passing core and other activity: each
    function receives, byte for byte and in order, a prefix of the packets sent
    by the function before it, and the first one a prefix of the batches that
    were fed to it; when nothing is left to move and to receive, only a batch
    in the making is missing; and every call a function may make returns. *)
Theorem chain_delivers {R L Q : Type}
  `{!CkRing R sl_xcpu_request, !PsList L, !KernelApi (slst R L), !CkRing Q mca_op}
  (spin fuel : nat) (segs : list Z) (wires : list wire) (feeds : list (Z * Z)) (pgtbl : Z -> Z) (s0 : sysst R L Q) :
  wiring segs wires feeds -> (1 <= fuel)%nat -> connected wires feeds s0 -> Forall seg_ok segs ->
  exists s1, init_segs pgtbl segs s0 = Ok tt s1 /\
  forall tr s h, eos_run spin fuel segs wires feeds (s1, fun _ => None) tr (s, h) ->
    (forall w, w ∈ wires -> recvs (w_to w) tr `prefix_of` sends (w_from w) tr) /\
    (forall c rh, (c, rh) ∈ feeds -> recvs rh tr `prefix_of` all_pkts (fed rh tr)) /\
    (forall w e s', w ∈ wires -> h (w_to w) = None ->
       on_mem (eos_pkt_recv_test fuel (w_to w) (outr (w_to w))) s = Ok (inr e) s' -> none_waits s (w_from w) ->
       exists rest, (length rest < 8)%nat /\ sends (w_from w) tr = recvs (w_to w) tr ++ rest) /\
    (forall rh, rh ∈ segs -> calls_return fuel s rh (h rh)).
Proof.
  intros Hw Hf Hc Hs. destruct (init_explained segs wires feeds pgtbl s0 Hw Hc Hs) as (s1 & E & Hx).
  exists s1. split; [done|]. intros tr s h Hr.
  destruct (run_explained spin fuel segs wires feeds _ _ _ _ Hw Hf Hr Hx) as [G HG]. cbn [fst snd] in HG.
  split; [|split; [|split]]; intros.
  - by eapply explained_order.
  - by eapply explained_fed_order.
  - by eapply explained_complete.
  - by eapply explained_returns.
Qed.

(** ** A chain of two functions *)

(** The network interface has put one packet of three bytes, for port 7 and
    with deadline 500, into its ring at 16; connection 1 feeds it to the
    function at [seg_a], connection 2 leads from there to [seg_b].  The thread
    of [seg_a] is 5 and that of [seg_b] is 8, both on core 2. *)
Definition seg_a : Z := 1048576.
Definition seg_b : Z := 2097152.

Definition sample_mem : eosm :=
  mkMem (fun a => if a =? 16 then mkRing 1000 0 0 0 0 0 0 0 0 zero_node else zero_ring)
        (fun a => if a =? 1000 then mkNode 1 0 0 500 0 (replicate 8 (mkMeta 5000 3 7)) PKT_SENT_READY else zero_node)
        (fun a => if a =? 5000 then 65 else if a =? 5001 then 66 else if a =? 5002 then 67 else 0).

Definition core_at (c : Z) (s : core) : core :=
  mkSl (thds s) (aeps s) (aep_off s) (edf s) (tmo s) (glob s) (events s) (xrings s) (cpu_bmp s) c (cur s)
       (sl_tsc s) (sl_tick s) (xret s).

Definition sample_sys : sysst (list sl_xcpu_request) ulist (list mca_op) :=
  mkSys sample_mem
    (fun i => if i =? 3 then mkInfo 500 3 1 0 else mkInfo EOS_MAX_DEADLINE (EOS_MAX_CHAIN_NUM + i) 1 0)
    (fun c => if c =? 1 then mkConn 16 seg_a 0 3 5 1 else mkConn (outr seg_a) seg_b 0 5 8 1)
    0 0 (fun _ => []) (fun c => core_at c core1) (fun _ => []) (fun _ => 100) 0.

Lemma chain_delivers_witness :
  exists s1, init_segs (fun a => a) [seg_a; seg_b] sample_sys = Ok tt s1 /\
  forall tr s h, eos_run 4 1 [seg_a; seg_b] [mkWire 2 seg_a seg_b] [(1, seg_a)] (s1, fun _ => None) tr (s, h) ->
    recvs seg_b tr `prefix_of` sends seg_a tr /\ recvs seg_a tr `prefix_of` all_pkts (fed seg_a tr).
Proof.
  destruct (chain_delivers 4 1 [seg_a; seg_b] [mkWire 2 seg_a seg_b] [(1, seg_a)] (fun a => a) sample_sys)
    as (s1 & E & Hall).
  - split.
    + intros a b Ha Hb Hne. rewrite !elem_of_cons, elem_of_nil in Ha, Hb. unfold apart. rewrite memseg_size.
      unfold seg_a, seg_b in *. lia.
    + intros w ->%list_elem_of_singleton. cbn. split; [|split; [|done]]; set_solver.
    + by intros w w' ->%list_elem_of_singleton ->%list_elem_of_singleton.
    + by intros w w' ->%list_elem_of_singleton ->%list_elem_of_singleton.
    + intros c rh [= -> ->]%list_elem_of_singleton. split; [set_solver|]. by intros w ->%list_elem_of_singleton.
  - lia.
  - split.
    + by intros w ->%list_elem_of_singleton.
    + by intros c rh [= -> ->]%list_elem_of_singleton.
  - repeat constructor; rewrite ?memseg_size; unfold seg_a, seg_b; lia || reflexivity.
  - exists s1. split; [exact E|]. intros tr s h Hr. destruct (Hall tr s h Hr) as (H1 & H2 & _). split.
    + apply (H1 (mkWire 2 seg_a seg_b)). by left.
    + apply (H2 1). by left.
Defined.

(** The packet that [rh] receives next, with its description. *)
Definition take_pkt (rh : Z) : M (sysst (list sl_xcpu_request) ulist (list mca_op)) (option (received * packet)) :=
  v <- on_mem (eos_pkt_recv_test 1 rh (outr rh)) ;;
  m <- gets mem ;;
  match v with
  | inl d => ret (Some (d, pkt_at m (rx_pkt d) (rx_len d) (rx_port d)))
  | inr _ => ret None
  end.

(** The packet goes from the interface through both functions: the core moves
    it and wakes thread 5, core 2 takes the wake-up, [seg_a] receives the packet
    and sends it to port 9, and the same again up to [seg_b]. *)
Definition travel : M (sysst (list sl_xcpu_request) ulist (list mca_op)) (option packet) :=
  init_segs (fun a => a) [seg_a; seg_b] ;;
  on_mem (updr seg_a (r_with_owner 2 5)) ;; on_mem (updr seg_b (r_with_owner 2 8)) ;;
  mca_process 4 1 1 ;;
  on_core 2 (sl_xcpu_process_no_cs 4) ;;
  a <- take_pkt seg_a ;;
  match a with
  | None => ret None
  | Some (d, p) =>
      on_mem (eos_pkt_send_test (outr seg_a) (rx_pkt d) (rx_len d) 9 (rx_deadline d) 0) ;;
      mca_process 4 2 1 ;;
      on_core 2 (sl_xcpu_process_no_cs 4) ;;
      b <- take_pkt seg_b ;; ret (snd <$> b)
  end.

Example packet_travels : result (travel sample_sys) = inl (Some (mkPkt [65; 66; 67] 9)).
Proof. vm_compute. reflexivity. Qed.
