(* ===== verification/Fwp.v ===== *)
(** * The manager of network functions

    [fwp_manager.c], [fwp_chain_cache.c] and [fwp_sinv.c]: templates and chains
    of network functions, the creation of a component for each function of a
    chain, the cache of ready chains per core, and the calls that functions
    make into the manager.

    A function is known by its identifier, the index of its [struct
    click_info]; a chain by the index of its [struct nf_chain] plus one; a
    segment of a template likewise.  0 is the NULL pointer.  What the kernel
    interface library does ([cos_captbl_alloc] and the like) is the parameter
    [FwpKernel]. *)

From S2P Require Import Prelude Config Heap Ring Sl Eos Mca.

(** ** Data *)

(** [struct mem_seg] *)
Record mem_seg : Type := mkSeg { ms_addr : Z; ms_size : Z }.

(** [struct click_info]; of [def_cinfo] the capabilities and the heap pointer. *)
Record click_info : Type := mkClick {
  nf_conf : Z; nf_id : Z; nf_booter_vaddr : Z; nf_next : Z; nf_shmem : Z; nf_data_seg : Z;
  nf_tmpl : Z; nf_thd : Z; nf_ring : Z; nf_sinv : Z; nf_core : Z; nf_idx : Z;
  nf_captbl : Z; nf_pgtbl : Z; nf_comp : Z; nf_frontier : Z }.

(** [struct nf_chain] *)
Record nf_chain : Type := mkChain {
  ch_id : Z; ch_tot : Z; ch_active : Z; ch_first : Z; ch_last : Z; ch_next : Z }.

(** [struct nf_template_info] *)
Record nf_template : Type := mkTempl {
  tp_text : mem_seg; tp_data : mem_seg; tp_start : Z; tp_info_off : Z }.

Definition zero_nf : click_info := mkClick 0 0 0 0 0 0 0 0 0 0 0 0 0 0 0 0.
Definition zero_chain : nf_chain := mkChain 0 0 0 0 0 0.

(** Assignments to fields. *)
Definition k_with_conf (v : Z) (n : click_info) : click_info :=
  mkClick v (nf_id n) (nf_booter_vaddr n) (nf_next n) (nf_shmem n) (nf_data_seg n) (nf_tmpl n) (nf_thd n)
    (nf_ring n) (nf_sinv n) (nf_core n) (nf_idx n) (nf_captbl n) (nf_pgtbl n) (nf_comp n) (nf_frontier n).
Definition k_with_id (v : Z) (n : click_info) : click_info :=
  mkClick (nf_conf n) v (nf_booter_vaddr n) (nf_next n) (nf_shmem n) (nf_data_seg n) (nf_tmpl n) (nf_thd n)
    (nf_ring n) (nf_sinv n) (nf_core n) (nf_idx n) (nf_captbl n) (nf_pgtbl n) (nf_comp n) (nf_frontier n).
Definition k_with_booter (v : Z) (n : click_info) : click_info :=
  mkClick (nf_conf n) (nf_id n) v (nf_next n) (nf_shmem n) (nf_data_seg n) (nf_tmpl n) (nf_thd n)
    (nf_ring n) (nf_sinv n) (nf_core n) (nf_idx n) (nf_captbl n) (nf_pgtbl n) (nf_comp n) (nf_frontier n).
Definition k_with_next (v : Z) (n : click_info) : click_info :=
  mkClick (nf_conf n) (nf_id n) (nf_booter_vaddr n) v (nf_shmem n) (nf_data_seg n) (nf_tmpl n) (nf_thd n)
    (nf_ring n) (nf_sinv n) (nf_core n) (nf_idx n) (nf_captbl n) (nf_pgtbl n) (nf_comp n) (nf_frontier n).
Definition k_with_shmem (v : Z) (n : click_info) : click_info :=
  mkClick (nf_conf n) (nf_id n) (nf_booter_vaddr n) (nf_next n) v (nf_data_seg n) (nf_tmpl n) (nf_thd n)
    (nf_ring n) (nf_sinv n) (nf_core n) (nf_idx n) (nf_captbl n) (nf_pgtbl n) (nf_comp n) (nf_frontier n).
Definition k_with_data_seg (v : Z) (n : click_info) : click_info :=
  mkClick (nf_conf n) (nf_id n) (nf_booter_vaddr n) (nf_next n) (nf_shmem n) v (nf_tmpl n) (nf_thd n)
    (nf_ring n) (nf_sinv n) (nf_core n) (nf_idx n) (nf_captbl n) (nf_pgtbl n) (nf_comp n) (nf_frontier n).
Definition k_with_tmpl (v : Z) (n : click_info) : click_info :=
  mkClick (nf_conf n) (nf_id n) (nf_booter_vaddr n) (nf_next n) (nf_shmem n) (nf_data_seg n) v (nf_thd n)
    (nf_ring n) (nf_sinv n) (nf_core n) (nf_idx n) (nf_captbl n) (nf_pgtbl n) (nf_comp n) (nf_frontier n).
Definition k_with_needs (v0 v1 v2 : Z) (n : click_info) : click_info :=
  mkClick (nf_conf n) (nf_id n) (nf_booter_vaddr n) (nf_next n) (nf_shmem n) (nf_data_seg n) (nf_tmpl n) v0
    v1 v2 (nf_core n) (nf_idx n) (nf_captbl n) (nf_pgtbl n) (nf_comp n) (nf_frontier n).
Definition k_with_core (v : Z) (n : click_info) : click_info :=
  mkClick (nf_conf n) (nf_id n) (nf_booter_vaddr n) (nf_next n) (nf_shmem n) (nf_data_seg n) (nf_tmpl n) (nf_thd n)
    (nf_ring n) (nf_sinv n) v (nf_idx n) (nf_captbl n) (nf_pgtbl n) (nf_comp n) (nf_frontier n).
Definition k_with_idx (v : Z) (n : click_info) : click_info :=
  mkClick (nf_conf n) (nf_id n) (nf_booter_vaddr n) (nf_next n) (nf_shmem n) (nf_data_seg n) (nf_tmpl n) (nf_thd n)
    (nf_ring n) (nf_sinv n) (nf_core n) v (nf_captbl n) (nf_pgtbl n) (nf_comp n) (nf_frontier n).
Definition k_with_cinfo (v0 v1 v2 v3 : Z) (n : click_info) : click_info :=
  mkClick (nf_conf n) (nf_id n) (nf_booter_vaddr n) (nf_next n) (nf_shmem n) (nf_data_seg n) (nf_tmpl n) (nf_thd n)
    (nf_ring n) (nf_sinv n) (nf_core n) (nf_idx n) v0 v1 v2 v3.
Definition k_with_comp (v : Z) (n : click_info) : click_info :=
  mkClick (nf_conf n) (nf_id n) (nf_booter_vaddr n) (nf_next n) (nf_shmem n) (nf_data_seg n) (nf_tmpl n) (nf_thd n)
    (nf_ring n) (nf_sinv n) (nf_core n) (nf_idx n) (nf_captbl n) (nf_pgtbl n) v (nf_frontier n).
Definition k_with_frontier (v : Z) (n : click_info) : click_info :=
  mkClick (nf_conf n) (nf_id n) (nf_booter_vaddr n) (nf_next n) (nf_shmem n) (nf_data_seg n) (nf_tmpl n) (nf_thd n)
    (nf_ring n) (nf_sinv n) (nf_core n) (nf_idx n) (nf_captbl n) (nf_pgtbl n) (nf_comp n) v.

Definition FWP_CHAIN_CLEANED : Z := 0.
Definition FWP_CHAIN_UNCLEANED : Z := 1.
Definition SL_FPRR_NPRIOS : Z := 32.
Definition LOWEST_PRIORITY : Z := SL_FPRR_NPRIOS - 1.

Record fwpst (R L Q : Type) : Type := mkFwp {
  sys : sysst R L Q;
  next_nfid : Z; next_chain_id : Z; next_shmem_id : Z; next_template_id : Z;
  shmem_addr : Z; heap_ptr : Z; shmem_inv_addr : Z;
  nfs : Z -> click_info;                  (** [chld_infos] *)
  chains : Z -> nf_chain;
  template_nfs : Z -> nf_template;
  templates : Z -> mem_seg;               (** the check-pointed data segments *)
  chain_cache : Z -> Z -> Z               (** [fwp_chain_cache] *)
}.
Arguments mkFwp {R L Q}. Arguments sys {R L Q}. Arguments next_nfid {R L Q}. Arguments next_chain_id {R L Q}.
Arguments next_shmem_id {R L Q}. Arguments next_template_id {R L Q}. Arguments shmem_addr {R L Q}.
Arguments heap_ptr {R L Q}. Arguments shmem_inv_addr {R L Q}. Arguments nfs {R L Q}. Arguments chains {R L Q}.
Arguments template_nfs {R L Q}. Arguments templates {R L Q}. Arguments chain_cache {R L Q}.

Section access.
Context {R L Q : Type}.
Implicit Types s : fwpst R L Q.

Definition f_with_sys (v : sysst R L Q) s : fwpst R L Q :=
  mkFwp v (next_nfid s) (next_chain_id s) (next_shmem_id s) (next_template_id s) (shmem_addr s) (heap_ptr s)
        (shmem_inv_addr s) (nfs s) (chains s) (template_nfs s) (templates s) (chain_cache s).
Definition f_with_ids (a b c d : Z) s : fwpst R L Q :=
  mkFwp (sys s) a b c d (shmem_addr s) (heap_ptr s)
        (shmem_inv_addr s) (nfs s) (chains s) (template_nfs s) (templates s) (chain_cache s).
Definition f_with_addrs (sh hp : Z) s : fwpst R L Q :=
  mkFwp (sys s) (next_nfid s) (next_chain_id s) (next_shmem_id s) (next_template_id s) sh hp
        (shmem_inv_addr s) (nfs s) (chains s) (template_nfs s) (templates s) (chain_cache s).
Definition f_with_inv_addr (v : Z) s : fwpst R L Q :=
  mkFwp (sys s) (next_nfid s) (next_chain_id s) (next_shmem_id s) (next_template_id s) (shmem_addr s) (heap_ptr s)
        v (nfs s) (chains s) (template_nfs s) (templates s) (chain_cache s).
Definition f_with_nfs (f : Z -> click_info) s : fwpst R L Q :=
  mkFwp (sys s) (next_nfid s) (next_chain_id s) (next_shmem_id s) (next_template_id s) (shmem_addr s) (heap_ptr s)
        (shmem_inv_addr s) f (chains s) (template_nfs s) (templates s) (chain_cache s).
Definition f_with_chains (f : Z -> nf_chain) s : fwpst R L Q :=
  mkFwp (sys s) (next_nfid s) (next_chain_id s) (next_shmem_id s) (next_template_id s) (shmem_addr s) (heap_ptr s)
        (shmem_inv_addr s) (nfs s) f (template_nfs s) (templates s) (chain_cache s).
Definition f_with_templates (f : Z -> mem_seg) s : fwpst R L Q :=
  mkFwp (sys s) (next_nfid s) (next_chain_id s) (next_shmem_id s) (next_template_id s) (shmem_addr s) (heap_ptr s)
        (shmem_inv_addr s) (nfs s) (chains s) (template_nfs s) f (chain_cache s).
Definition f_with_cache (f : Z -> Z -> Z) s : fwpst R L Q :=
  mkFwp (sys s) (next_nfid s) (next_chain_id s) (next_shmem_id s) (next_template_id s) (shmem_addr s) (heap_ptr s)
        (shmem_inv_addr s) (nfs s) (chains s) (template_nfs s) (templates s) f.

Definition on_sys {A} (m : M (sysst R L Q) A) : M (fwpst R L Q) A :=
  fun s => match m (sys s) with Ok a v => Ok a (f_with_sys v s) | Panic h => Panic h end.

Definition get_nf (i : Z) : M (fwpst R L Q) click_info := gets (fun s => nfs s i).
(** [&chld_infos[nfid]] and [&chains[ncid]]: outside of the array is undefined. *)
Definition chld_info (nfid : Z) : M (fwpst R L Q) Z :=
  if (0 <=? nfid) && (nfid <? EOS_MAX_NF_NUM) then ret nfid else panic OutOfBounds.
Definition chain_at (ncid : Z) : M (fwpst R L Q) Z :=
  if (0 <=? ncid) && (ncid <? EOS_MAX_CHAIN_NUM) then ret (ncid + 1) else panic OutOfBounds.
(** [nf->data_seg]: one of [templates]. *)
Definition get_data_seg (d : Z) : M (fwpst R L Q) mem_seg :=
  if (1 <=? d) && (d <=? EOS_MAX_NF_TYPE_NUM) then gets (fun s => templates s d) else panic OutOfBounds.
Definition put_data_seg (d : Z) (m : mem_seg) : M (fwpst R L Q) unit :=
  if (1 <=? d) && (d <=? EOS_MAX_NF_TYPE_NUM) then modify (fun s => f_with_templates (fupd d m (templates s)) s)
  else panic OutOfBounds.
Definition upd_nf (i : Z) (f : click_info -> click_info) : M (fwpst R L Q) unit :=
  modify (fun s => f_with_nfs (fupd i (f (nfs s i)) (nfs s)) s).
Definition get_chain (c : Z) : M (fwpst R L Q) nf_chain := gets (fun s => chains s c).
Definition upd_chain (c : Z) (f : nf_chain -> nf_chain) : M (fwpst R L Q) unit :=
  modify (fun s => f_with_chains (fupd c (f (chains s c)) (chains s)) s).

(** [next_nfid++] and the like *)
Definition new_nfid : M (fwpst R L Q) Z :=
  n <- gets next_nfid ;;
  modify (fun s => f_with_ids (n + 1) (next_chain_id s) (next_shmem_id s) (next_template_id s) s) ;; ret n.
Definition new_chain_id : M (fwpst R L Q) Z :=
  n <- gets next_chain_id ;;
  modify (fun s => f_with_ids (next_nfid s) (n + 1) (next_shmem_id s) (next_template_id s) s) ;; ret n.
Definition new_shmem_id : M (fwpst R L Q) Z :=
  n <- gets next_shmem_id ;;
  modify (fun s => f_with_ids (next_nfid s) (next_chain_id s) (n + 1) (next_template_id s) s) ;; ret n.
Definition new_template_id : M (fwpst R L Q) Z :=
  n <- gets next_template_id ;;
  modify (fun s => f_with_ids (next_nfid s) (next_chain_id s) (next_shmem_id s) (n + 1) s) ;; ret n.

(** [nf->initaep]: the word that the scheduler of the function's core fills. *)
Definition get_initaep (i : Z) : M (fwpst R L Q) Z := gets (fun s => xret (sl_of (sys s) (nf_core (nfs s i))) i).

End access.

(** ** The kernel's interface library *)

Inductive fkcall : Type :=
| FK_captbl_alloc | FK_pgtbl_alloc
| FK_compinfo_init (nf ckpt ckct heap : Z)
| FK_pgtbl_intern_alloc (ckpt addr size : Z)
| FK_mem_alias_at (nf dst src : Z)
| FK_mem_alias (nf src : Z)          (** 0 for the manager itself *)
| FK_page_bump_alloc
| FK_page_bump_allocn (size : Z)
| FK_memcpy (dst src size : Z)
| FK_set_spdid (ci id : Z)
| FK_comp_alloc (ckct ckpt ci : Z)  (** with the entry point that [ci] holds *)
| FK_sinv_alloc_at (comp entry token cap : Z)
| FK_cap_cpy_at (nf cap src : Z)
| FK_cap_move_at (nf cap src : Z)
| FK_thd_switch (cap : Z)
| FK_cap_drop (cap : Z)
| FK_thd_mod (cap addr : Z)
| FK_get_heap_ptr | FK_vas_frontier
| FK_ninf_init                     (** starts the network cards *)
| FK_printc.                       (** other cores run in the meantime *)

Class FwpKernel (S : Type) : Type := { fk : fkcall -> M S Z }.

Definition BOOT_CAPTBL_SELF_CT : Z := 4.
Definition BOOT_CAPTBL_SELF_PT : Z := 6.
Definition BOOT_CAPTBL_SELF_COMP : Z := 8.
Definition BOOT_CAPTBL_HYP_SINV_CAP : Z := 24.
Definition BOOT_CAPTBL_NEXT_SINV_CAP : Z := 28.
Definition BOOT_CAPTBL_SELF_INITHW_BASE : Z := 32.
Definition BOOT_CAPTBL_SELF_INITTCAP_BASE : Z := BOOT_CAPTBL_SELF_INITTHD_BASE + 1.
Definition BOOT_CAPTBL_LAST_CAP : Z := BOOT_CAPTBL_SELF_INITRCV_BASE + NUM_CPU * 4.
Definition BOOT_CAPTBL_FIX_SINV : Z := round_up_to_pow2 BOOT_CAPTBL_LAST_CAP 4.
Definition PGD_SIZE : Z := 4194304.

Section ops.
Context {R L Q : Type} `{!CkRing R sl_xcpu_request, !PsList L, !KernelApi (slst R L), !CkRing Q mca_op}.
Context `{!FwpKernel (fwpst R L Q)}.
Variable spin : nat.
Variable pgtbl_introspect : Z -> Z.
(** The manager's own component capability and the entry [nf_entry_rets_inv]. *)
Variable self_comp nf_entry_addr : Z.

Abbreviation FWP := (M (fwpst R L Q)).

(** [for (i = off; i < lim; i += PAGE_SIZE) body]; returns the final [i]. *)
Fixpoint pages_loop (n : nat) (i : Z) (body : Z -> FWP unit) : FWP Z :=
  match n with
  | O => ret i
  | S n => body i ;; pages_loop n (i + PAGE_SIZE) body
  end.
Definition for_pages (off lim : Z) (body : Z -> FWP unit) : FWP Z :=
  pages_loop (Z.to_nat ((lim - off + PAGE_SIZE - 1) / PAGE_SIZE)) off body.

Definition call (c : fkcall) : FWP unit := _ <- fk c ;; ret tt.
(** A call whose result must not be 0, or must be 0. *)
Definition call_nz (c : fkcall) : FWP Z := r <- fk c ;; massert (negb (r =? 0)) ;; ret r.
Definition call_z (c : fkcall) : FWP unit := r <- fk c ;; massert (r =? 0).

(** [sl_thd_thdid(nf->initaep)], [sl_thd_thdcap(nf->initaep)] *)
Definition initaep_tid (nf : Z) : FWP Z :=
  t <- get_initaep nf ;; n <- get_nf nf ;;
  if t =? 0 then panic NullDeref else on_sys (on_core (nf_core n) (sl_thd_thdid t)).
Definition initaep_cap (nf : Z) : FWP Z :=
  t <- get_initaep nf ;; n <- get_nf nf ;;
  if t =? 0 then panic NullDeref else on_sys (on_core (nf_core n) (sl_thd_thdcap t)).

(** [nf->initaep = NULL] *)
Definition clear_initaep (nf : Z) : FWP unit :=
  n <- get_nf nf ;;
  on_sys (on_core (nf_core n) (modify (fun s => with_xret (fupd nf 0 (xret s)) s))).

(** ** Forking a component *)

Definition _alloc_tls (nf tc tls_size : Z) : FWP unit :=
  tls_seg <- call_nz (FK_page_bump_allocn tls_size) ;;
  dst_seg <- call_nz (FK_mem_alias nf tls_seg) ;;
  for_pages PAGE_SIZE tls_size (fun addr => _ <- call_nz (FK_mem_alias nf (tls_seg + addr)) ;; ret tt) ;;
  call (FK_thd_mod tc dst_seg).

Definition _fwp_fork (nf : Z) (text_seg data_seg ring_seg : mem_seg) (conf start_addr : Z) : FWP unit :=
  ckct <- call_nz FK_captbl_alloc ;;
  ckpt <- call_nz FK_pgtbl_alloc ;;
  hp <- gets heap_ptr ;;
  call (FK_compinfo_init nf ckpt ckct hp) ;;
  upd_nf nf (k_with_cinfo ckct ckpt 0 hp) ;;
  _ <- call_nz (FK_pgtbl_intern_alloc ckpt start_addr (u32 (ms_size text_seg + ms_size data_seg))) ;;
  let addr := round_to_pow2 (ms_addr ring_seg) PGD_SIZE in
  let size := u32 (ms_size ring_seg + (ms_addr ring_seg - addr)) in
  _ <- call_nz (FK_pgtbl_intern_alloc ckpt addr size) ;;
  for_pages 0 (ms_size ring_seg) (fun dest =>
    call (FK_mem_alias_at nf (ms_addr ring_seg + dest) (ms_addr ring_seg + dest))) ;;
  n <- get_nf nf ;;
  (if nf_ring n =? 0 then ret tt else on_sys (on_mem (eos_rings_init pgtbl_introspect (ms_addr ring_seg)))) ;;
  upd_nf nf (k_with_conf conf).

Definition _alias_click (nf : Z) (text_seg data_seg : mem_seg) (start_addr template_id : Z) : FWP Z :=
  text_offset <- for_pages 0 (ms_size text_seg) (fun offset =>
    call (FK_mem_alias_at nf (start_addr + offset) (ms_addr text_seg + offset))) ;;
  seg <- call_nz (FK_page_bump_allocn (ms_size data_seg)) ;;
  call (FK_memcpy seg (ms_addr data_seg) (ms_size data_seg)) ;;
  data_sz <- gets (fun s => ms_size (tp_data (template_nfs s template_id))) ;;
  let heap_sz := i32 (ms_size data_seg - data_sz) in
  offset <- for_pages 0 data_sz (fun offset =>
    call (FK_mem_alias_at nf (start_addr + text_offset + offset) (seg + offset))) ;;
  (if heap_sz >? 0 then
     n <- get_nf nf ;;
     hp <- gets heap_ptr ;;
     _ <- call_nz (FK_pgtbl_intern_alloc (nf_pgtbl n) hp heap_sz) ;;
     offset <- for_pages offset (ms_size data_seg) (fun offset =>
       call (FK_mem_alias_at nf (hp + offset - data_sz) (seg + offset))) ;;
     upd_nf nf (k_with_frontier (hp + offset - data_sz))
   else ret tt) ;;
  ret seg.

Definition copy_caps (nf ckct ckpt ckcc sinv initthd_cap : Z) : FWP unit :=
  call_z (FK_cap_cpy_at nf BOOT_CAPTBL_SELF_CT ckct) ;;
  call_z (FK_cap_cpy_at nf BOOT_CAPTBL_SELF_PT ckpt) ;;
  call_z (FK_cap_cpy_at nf BOOT_CAPTBL_SELF_COMP ckcc) ;;
  call_z (FK_cap_cpy_at nf BOOT_CAPTBL_HYP_SINV_CAP sinv) ;;
  call_z (FK_cap_cpy_at nf BOOT_CAPTBL_SELF_INITHW_BASE BOOT_CAPTBL_SELF_INITHW_BASE) ;;
  call_z (FK_cap_cpy_at nf BOOT_CAPTBL_SELF_INITTCAP_BASE BOOT_CAPTBL_SELF_INITTCAP_BASE) ;;
  (if initthd_cap =? 0 then ret tt else call_z (FK_cap_cpy_at nf BOOT_CAPTBL_SELF_INITTHD_BASE initthd_cap)).

(** The thread of the function, on core [coreid]; it is allocated by that
    core's scheduler, and used at once.  For another core than the manager's,
    [eos_thd_param_set] is the request with the thread's identifier. *)
Definition fork_thread (nf coreid : Z) : FWP unit :=
  r <- on_sys (on_core FWP_MGR_CORE (eos_initaep_alloc spin coreid nf 0 0 0 nf)) ;;
  call FK_printc ;;
  _ <- initaep_tid nf ;;
  massert (r =? 0) ;;
  if coreid =? 0 then
    on_sys (on_core FWP_MGR_CORE (eos_thd_param_set spin coreid nf (sched_param_pack SCHEDP_PRIO LOWEST_PRIORITY))) ;;
    c <- initaep_cap nf ;; _alloc_tls nf c PAGE_SIZE
  else
    tid <- initaep_tid nf ;;
    on_sys (on_core FWP_MGR_CORE
      (sl_xcpu_thd_param_set spin coreid tid (sched_param_pack SCHEDP_PRIO_BLOCK LOWEST_PRIORITY))) ;;
    hp <- gets heap_ptr ;;
    r <- on_sys (on_core FWP_MGR_CORE (eos_thd_set_tls spin coreid 0 nf hp)) ;;
    massert (r =? 0).

Definition _fwp_fork_cont (nf seg comp_info_offset coreid : Z) : FWP unit :=
  n <- get_nf nf ;;
  upd_nf nf (k_with_booter seg) ;;
  let ci := seg + comp_info_offset in
  call (FK_set_spdid ci (nf_id n)) ;;
  ckcc <- call_nz (FK_comp_alloc (nf_captbl n) (nf_pgtbl n) ci) ;;
  upd_nf nf (k_with_comp ckcc) ;;
  let has_thd := negb (nf_thd n =? 0) || negb (nf_conf n =? -1) in
  (if has_thd then fork_thread nf coreid else clear_initaep nf) ;;
  sinv <- fk (FK_sinv_alloc_at self_comp nf_entry_addr nf BOOT_CAPTBL_FIX_SINV) ;;
  massert (sinv =? BOOT_CAPTBL_FIX_SINV) ;;
  t <- get_initaep nf ;;
  (if t =? 0 then copy_caps nf (nf_captbl n) (nf_pgtbl n) ckcc sinv 0
   else c <- initaep_cap nf ;; copy_caps nf (nf_captbl n) (nf_pgtbl n) ckcc sinv c) ;;
  if nf_conf n =? -1 then ret tt else c <- initaep_cap nf ;; call (FK_thd_switch c).

Definition fwp_fork (nf : Z) (text_seg data_seg ring_seg : mem_seg) (conf cinfo_offset start_addr coreid : Z) : FWP unit :=
  _fwp_fork nf text_seg data_seg ring_seg conf start_addr ;;
  n <- get_nf nf ;;
  seg <- _alias_click nf text_seg data_seg start_addr (nf_tmpl n) ;;
  _fwp_fork_cont nf seg cinfo_offset coreid ;;
  call (FK_cap_drop BOOT_CAPTBL_FIX_SINV).

(** ** Shared memory *)

Definition fwp_get_shmem (shmem_idx : Z) : FWP Z :=
  massert (shmem_idx <? EOS_MAX_MEMSEGS_NUM) ;;
  a <- gets shmem_addr ;; ret (a + shmem_idx * FWP_MEMSEG_SIZE).

(** The padding loop starts from the uninitialised [addr], here [addr0]. *)
Fixpoint shmem_pad (fuel : nat) (addr at_ page : Z) : FWP unit :=
  if negb (addr <? at_) then ret tt else
  match fuel with
  | O => panic NoFuel
  | S fuel => a <- fk (FK_mem_alias 0 page) ;; shmem_pad fuel a at_ page
  end.

Definition fwp_allocate_shmem (start_addr addr0 : Z) : FWP unit :=
  let next_pgd := round_up_to_pow2 (start_addr + 1) PGD_SIZE in
  hp <- fk FK_get_heap_ptr ;;
  let at_ := if hp >? next_pgd then hp else next_pgd in
  page <- fk FK_page_bump_alloc ;;
  shmem_pad spin addr0 at_ page ;;
  a <- fk (FK_page_bump_allocn (EOS_MAX_MEMSEGS_NUM * FWP_MEMSEG_SIZE)) ;;
  modify (f_with_addrs a (round_up_to_pow2 (a + EOS_MAX_MEMSEGS_NUM * FWP_MEMSEG_SIZE) PGD_SIZE)).

Definition fwp_init (start_addr addr0 : Z) : FWP unit :=
  fwp_allocate_shmem start_addr addr0 ;; modify (f_with_nfs (fun _ => zero_nf)).

Definition fwp_allocate_shmem_sinv (nf dest_comp : Z) : FWP unit :=
  e <- gets shmem_inv_addr ;;
  c <- fk (FK_sinv_alloc_at dest_comp e 0 BOOT_CAPTBL_FIX_SINV) ;;
  massert (c =? BOOT_CAPTBL_FIX_SINV) ;;
  call_z (FK_cap_move_at nf BOOT_CAPTBL_NEXT_SINV_CAP c).

(** ** The cache of chains

    Stacks with compare-and-swap, as the round that succeeds. *)

Definition cache_set (state core v : Z) : FWP unit :=
  modify (fun s => f_with_cache (fupd state (fupd core v (chain_cache s state)) (chain_cache s)) s).

Definition fwp_chain_put (chain state core : Z) : FWP unit :=
  t <- gets (fun s => chain_cache s state core) ;;
  upd_chain chain (fun c => mkChain (ch_id c) (ch_tot c) (ch_active c) (ch_first c) (ch_last c) t) ;;
  cache_set state core chain.

Definition fwp_chain_get (state core : Z) : FWP Z :=
  r <- gets (fun s => chain_cache s state core) ;;
  massert (negb (r =? 0)) ;;
  c <- get_chain r ;;
  cache_set state core (ch_next c) ;;
  ret r.

(** ** Descriptions of chains *)

(** [ret_chain = &chains[next_chain_id++]] with [len] functions to come *)
Definition new_chain (len : Z) : FWP Z :=
  ncid <- new_chain_id ;;
  c <- chain_at ncid ;;
  upd_chain c (fun h => mkChain ncid len 0 (ch_first h) (ch_last h) 0) ;;
  ret c.

(** [nf = &chld_infos[next_nfid++]], its fields and its template; [next] is
    not written here. *)
Definition new_nf (conf thd ring sinv : Z) : FWP Z :=
  nfid <- new_nfid ;;
  nf <- chld_info nfid ;;
  upd_nf nf (fun n => k_with_needs thd ring sinv (k_with_id nfid (k_with_conf conf n))) ;;
  d <- new_template_id ;;
  upd_nf nf (k_with_data_seg (d + 1)) ;;
  ret nf.

Definition __copy_nf (config : Z) : FWP Z :=
  nf <- new_nf config 1 1 0 ;; upd_nf nf (k_with_next 0) ;; ret nf.

Definition __share_nf (config : Z) : FWP Z :=
  n <- gets next_nfid ;;
  massert (n <? EOS_MAX_NF_NUM) ;;
  nf <- new_nf config 0 0 1 ;; upd_nf nf (k_with_next 0) ;; ret nf.

Definition set_ends (c first last : Z) : FWP unit :=
  upd_chain c (fun h => mkChain (ch_id h) (ch_tot h) (ch_active h) first last (ch_next h)).
Definition set_first (c first : Z) : FWP unit :=
  upd_chain c (fun h => mkChain (ch_id h) (ch_tot h) (ch_active h) first (ch_last h) (ch_next h)).
Definition set_last (c last : Z) : FWP unit :=
  upd_chain c (fun h => mkChain (ch_id h) (ch_tot h) (ch_active h) (ch_first h) last (ch_next h)).

Definition fwp_create_chain_bridge : FWP Z :=
  c <- new_chain 1 ;;
  nf1 <- new_nf 2 1 1 0 ;;
  upd_nf nf1 (k_with_next 0) ;;
  set_ends c nf1 nf1 ;;
  ret c.

Definition fwp_create_chain_firewall : FWP Z :=
  c <- new_chain 2 ;;
  nf1 <- new_nf 0 1 1 0 ;;
  nf2 <- new_nf 2 1 1 0 ;;
  upd_nf nf2 (k_with_next 0) ;;
  upd_nf nf1 (k_with_next nf2) ;;
  set_ends c nf1 nf2 ;;
  ret c.

Definition fwp_create_chain2 (conf_file1 conf_file2 : Z) : FWP Z :=
  c <- new_chain 2 ;;
  nf1 <- new_nf conf_file1 1 1 1 ;;
  nf2 <- new_nf conf_file2 0 0 0 ;;
  upd_nf nf2 (k_with_next 0) ;;
  upd_nf nf1 (k_with_next nf2) ;;
  set_ends c nf1 nf2 ;;
  ret c.

Fixpoint tency_loop (n : nat) (i nf1 : Z) : FWP Z :=
  match n with
  | O => ret nf1
  | S n =>
      nf2 <- __copy_nf 3 ;;
      upd_nf nf1 (k_with_next nf2) ;;
      upd_nf nf2 (k_with_idx i) ;;
      tency_loop n (i + 1) nf2
  end.

Definition fwp_create_chain_multi_tency (len : Z) : FWP Z :=
  c <- new_chain len ;;
  nf1 <- __copy_nf 3 ;;
  set_first c nf1 ;;
  upd_nf nf1 (k_with_idx 0) ;;
  nf2 <- tency_loop (Z.to_nat (len - 1)) 1 nf1 ;;
  upd_nf nf2 (k_with_next 0) ;;
  set_last c nf2 ;;
  ret c.

Fixpoint share_loop (n : nat) (nf1 : Z) : FWP Z :=
  match n with
  | O => ret nf1
  | S n => nf2 <- __share_nf 1 ;; upd_nf nf1 (k_with_next nf2) ;; share_loop n nf2
  end.

Definition fwp_create_chain_multi_tency_share (len : Z) : FWP Z :=
  c <- new_chain len ;;
  nf1 <- new_nf 0 1 1 1 ;;
  set_first c nf1 ;;
  nf1 <- share_loop (Z.to_nat (len - 2)) nf1 ;;
  nf2 <- new_nf 2 0 0 0 ;;
  upd_nf nf1 (k_with_next nf2) ;;
  upd_nf nf2 (k_with_next 0) ;;
  set_last c nf2 ;;
  ret c.

Definition fwp_create_click_mqtt_chain (conf_file1 : Z) : FWP Z :=
  c <- new_chain 3 ;;
  nf1 <- __copy_nf conf_file1 ;;
  nf2 <- __copy_nf conf_file1 ;;
  nf3 <- __copy_nf conf_file1 ;;
  upd_nf nf1 (k_with_next nf2) ;;
  upd_nf nf2 (k_with_next nf3) ;;
  upd_nf nf1 (k_with_idx 0) ;;
  upd_nf nf2 (k_with_idx 1) ;;
  upd_nf nf3 (k_with_idx 2) ;;
  upd_nf nf1 (k_with_tmpl 0) ;;
  upd_nf nf2 (k_with_tmpl 1) ;;
  upd_nf nf3 (k_with_tmpl 0) ;;
  set_ends c nf1 nf3 ;;
  ret c.

(** ** Allocating a chain *)

(** [list_for_each_nf]: a chain has at most [EOS_MAX_NF_NUM] functions; [x]
    is threaded through the bodies, and [next] is read after the body. *)
Fixpoint nf_loop {A} (fuel : nat) (nf : Z) (x : A) (body : Z -> A -> FWP A) : FWP A :=
  if nf =? 0 then ret x else
  match fuel with
  | O => panic NoFuel
  | S fuel => x <- body nf x ;; n <- get_nf nf ;; nf_loop fuel (nf_next n) x body
  end.
Definition for_each_nf {A} (chain : Z) (x : A) (body : Z -> A -> FWP A) : FWP A :=
  c <- get_chain chain ;; nf_loop (Z.to_nat EOS_MAX_NF_NUM) (ch_first c) x body.

(** The copy of function [this] at the end of chain [rc]; [last] is the last
    copy, 0 if there is none. *)
Definition copy_nf (rc coreid this last : Z) : FWP Z :=
  nfid <- new_nfid ;;
  massert (nfid <? EOS_MAX_NF_NUM) ;;
  new <- chld_info nfid ;;
  (if last =? 0 then set_first rc new else upd_nf last (k_with_next new)) ;;
  t <- get_nf this ;;
  upd_nf new (fun n => k_with_next 0 (k_with_core coreid (k_with_data_seg (nf_data_seg t)
    (k_with_needs (nf_thd t) (nf_ring t) (nf_sinv t) (k_with_tmpl (nf_tmpl t)
    (k_with_id nfid (k_with_conf (-1) n))))))) ;;
  set_last rc new ;;
  ret new.

Definition copy_chain (chain coreid : Z) : FWP Z :=
  ncid <- new_chain_id ;;
  massert (ncid <? EOS_MAX_CHAIN_NUM) ;;
  rc <- chain_at ncid ;;
  h <- get_chain chain ;;
  upd_chain rc (fun _ => mkChain ncid (ch_tot h) (ch_active h) (ch_first h) (ch_last h) (ch_next h)) ;;
  for_each_nf chain 0 (copy_nf rc coreid) ;;
  ret rc.

(** One function: its segment and its component; threads [last_shmem_id] and
    [idx].  [last_shmem_id] is not initialised, [sh0] here. *)
Definition allocate_nf (is_template : bool) (coreid this : Z) (x : Z * Z) : FWP (Z * Z) :=
  let '(last_shmem_id, idx) := x in
  n <- get_nf this ;;
  shmemid <- (if nf_ring n =? 0 then ret last_shmem_id else new_shmem_id) ;;
  upd_nf this (k_with_idx idx) ;;
  massert (shmemid <? EOS_MAX_NF_NUM) ;;
  a <- fwp_get_shmem shmemid ;;
  upd_nf this (k_with_shmem a) ;;
  tp <- gets (fun s => template_nfs s (nf_tmpl n)) ;;
  d <- (if is_template then ret (tp_data tp) else get_data_seg (nf_data_seg n)) ;;
  fwp_fork this (tp_text tp) d (mkSeg a FWP_MEMSEG_SIZE) (nf_conf n) (tp_info_off tp) (tp_start tp) coreid ;;
  ret (shmemid, idx + 1).

Definition connect_nf (this : Z) (_ : unit) : FWP unit :=
  n <- get_nf this ;;
  if nf_sinv n =? 0 then ret tt else
  if nf_next n =? 0 then panic NullDeref else
  m <- get_nf (nf_next n) ;;
  fwp_allocate_shmem_sinv this (nf_comp m).

Definition fwp_allocate_chain (chain : Z) (is_template : bool) (coreid sh0 : Z) : FWP Z :=
  chain <- (if is_template then ret chain else copy_chain chain coreid) ;;
  for_each_nf chain (sh0, 0) (allocate_nf is_template coreid) ;;
  (if is_template then ret tt
   else for_each_nf chain tt connect_nf ;; fwp_chain_put chain FWP_CHAIN_CLEANED coreid) ;;
  ret chain.

(** ** Activating a chain *)

Definition activate_conn (this : Z) (_ : unit) : FWP unit :=
  n <- get_nf this ;;
  if nf_next n =? 0 then ret tt else
  m <- get_nf (nf_next n) ;;
  if nf_ring m =? 0 then ret tt else
  this_tid <- initaep_tid this ;;
  new_tid <- initaep_tid (nf_next n) ;;
  _ <- on_sys (mca_conn_create (get_output_ring (nf_shmem n)) (get_input_ring (nf_shmem m))
                 (this_tid + EOS_MAX_CHAIN_NUM) (new_tid + EOS_MAX_CHAIN_NUM)) ;;
  ret tt.

Definition activate_thd (this : Z) (_ : unit) : FWP unit :=
  n <- get_nf this ;;
  if nf_thd n =? 0 then ret tt else
  t <- get_initaep this ;;
  massert (negb (t =? 0)) ;;
  massert (negb (nf_ring n =? 0)) ;;
  tid <- initaep_tid this ;;
  on_sys (on_mem (updr (get_input_ring (nf_shmem n)) (r_with_owner (nf_core n) tid))).

Definition fwp_chain_activate (chain : Z) : FWP unit :=
  for_each_nf chain tt activate_conn ;; for_each_nf chain tt activate_thd.

(** ** The start of the manager

    [fwp_test] between the wait for the other cores and [fwp_mgr_loop]. *)

Fixpoint cores_loop (n : nat) (chain i sh0 : Z) : FWP unit :=
  match n with
  | O => ret tt
  | S n =>
      for_n (Z.to_nat EOS_MAX_CHAIN_NUM_PER_CORE) 0 (fun _ => fwp_allocate_chain chain false i sh0 ;; ret tt) ;;
      cores_loop n chain (i + 1) sh0
  end.

Definition fwp_test_chains (sh0 : Z) : FWP unit :=
  chain <- fwp_create_click_mqtt_chain 0 ;;
  fwp_allocate_chain chain true 0 sh0 ;;
  cores_loop (Z.to_nat (NF_MAX_CORE - NF_MIN_CORE)) chain NF_MIN_CORE sh0.

Definition fwp_test (sinv_next_call start_addr addr0 sh0 : Z) (q : Q) : FWP unit :=
  modify (fun s => f_with_inv_addr sinv_next_call s) ;;
  fwp_init start_addr addr0 ;;
  on_sys (mca_init q) ;;
  call FK_ninf_init ;;
  fwp_test_chains sh0.

(** ** Calls of the functions, [fwp_sinv.c] *)

Definition NF_MALLOC : Z := 0.
Definition NF_CONFIDX_GET : Z := 1.
Definition NF_IDX_GET : Z := 2.
Definition NF_SHMEM_GET : Z := 3.
Definition NF_CHECKPOINT : Z := 4.
Definition NF_CLEAN : Z := 5.
Definition NF_BLOCK : Z := 6.

Definition fwp_malloc (ci size : Z) : FWP Z :=
  src_seg <- call_nz (FK_page_bump_allocn size) ;;
  vaddr <- call_nz (FK_mem_alias ci src_seg) ;;
  for_pages PAGE_SIZE size (fun i => _ <- call_nz (FK_mem_alias ci (src_seg + i)) ;; ret tt) ;;
  ret vaddr.

Definition fwp_confidx_get (token : Z) : FWP Z := n <- get_nf token ;; ret (nf_conf n).
Definition fwp_idx_get (token : Z) : FWP Z := n <- get_nf token ;; ret (nf_idx n).
Definition fwp_shmem_get (token : Z) : FWP Z := n <- get_nf token ;; ret (nf_shmem n).

Definition fwp_checkpoint (token : Z) : FWP unit :=
  n <- get_nf token ;;
  f <- fk FK_vas_frontier ;;
  let vm_range := u32 (f - nf_booter_vaddr n) in
  addr <- call_nz (FK_page_bump_allocn vm_range) ;;
  call (FK_memcpy addr (nf_booter_vaddr n) vm_range) ;;
  put_data_seg (nf_data_seg n) (mkSeg addr vm_range) ;;
  call (FK_thd_switch BOOT_CAPTBL_SELF_INITTHD_BASE).

Definition fwp_clean_chain (chain : Z) : FWP unit :=
  for_each_nf chain tt (fun this _ =>
    n <- get_nf this ;; d <- get_data_seg (nf_data_seg n) ;;
    call (FK_memcpy (nf_booter_vaddr n) (ms_addr d) (ms_size d)) ;; call FK_printc).

(** [nf_entry] for function [token], whose thread is running on its core;
    returns [ret1] and [ret2], 0 where it is not written. *)
Definition nf_entry (token op arg3 : Z) : FWP (Z * Z) :=
  if op =? NF_MALLOC then v <- fwp_malloc token arg3 ;; ret (0, v)
  else if op =? NF_CONFIDX_GET then v <- fwp_confidx_get token ;; ret (0, u32 v)
  else if op =? NF_IDX_GET then v <- fwp_idx_get token ;; ret (0, u32 v)
  else if op =? NF_SHMEM_GET then v <- fwp_shmem_get token ;; ret (0, v)
  else if op =? NF_CHECKPOINT then fwp_checkpoint token ;; ret (0, 0)
  else if op =? NF_CLEAN then ret (0, 0)
  else if op =? NF_BLOCK then
    a <- fwp_shmem_get token ;;
    tid <- initaep_tid token ;;
    n <- get_nf token ;;
    r <- on_sys (mca_xcpu_thd_dl_reset spin (nf_core n) tid (nf_core n) a) ;;
    massert (r =? 0) ;;
    on_sys (on_core (nf_core n) (sl_thd_block spin 0)) ;;
    ret (r, 0)
  else panic AssertFail.

End ops.
