(* ===== verification/FwpSpec.v ===== *)
(** * What the manager of network functions guarantees

    The copy of a template's chain, the cache of chains as a stack, and the
    capacity of the manager's tables against the chains that its start
    allocates. *)

From S2P Require Import Prelude Config Heap Ring Sl SlSpec Eos Mca Fwp.

(** ** Lists of functions *)

(** The functions from [h] along [next]. *)
Fixpoint nf_list (f : Z -> click_info) (h : Z) (l : list Z) : Prop :=
  match l with
  | [] => h = 0
  | i :: l => h = i /\ i <> 0 /\ nf_list f (nf_next (f i)) l
  end.

(** The identifiers that the next [n] functions get. *)
Definition ids (a : Z) (n : nat) : list Z := map (fun j => a + Z.of_nat j) (seq 0 n).

Lemma ids_S a n : ids a (S n) = a :: ids (a + 1) n.
Proof.
  unfold ids. cbn [seq map]. f_equal; [lia|]. rewrite <- seq_shift, map_map.
  apply map_ext. lia.
Qed.

Lemma ids_snoc a n : ids a (S n) = ids a n ++ [a + Z.of_nat n].
Proof. unfold ids. by rewrite seq_S, map_app. Qed.

Lemma ids_elem a n i : i ∈ ids a n <-> a <= i < a + Z.of_nat n.
Proof.
  unfold ids. rewrite list_elem_of_In, in_map_iff. split.
  - intros (j & <- & Hj%in_seq). lia.
  - intros H. exists (Z.to_nat (i - a)). split; [lia|]. apply in_seq. lia.
Qed.

Lemma nf_list_ext f g h l :
  (forall i, i ∈ l -> nf_next (g i) = nf_next (f i)) -> nf_list f h l -> nf_list g h l.
Proof.
  revert h. induction l as [|i l IH]; intros h E; [done|]. intros (-> & H0 & H). cbn [nf_list].
  split; [done|]. split; [done|]. rewrite E by set_solver. apply IH; [set_solver|done].
Qed.

(** Appending a function whose [next] is NULL, by writing it to the last one. *)
Lemma nf_list_snoc f h l z v :
  nf_list f h (l ++ [z]) -> z ∉ l -> v <> 0 -> v ∉ l ++ [z] -> nf_next (f v) = 0 ->
  nf_list (fupd z (k_with_next v (f z)) f) h (l ++ [z; v]).
Proof.
  revert h. induction l as [|i l IH]; intros h; cbn [app nf_list].
  - intros (-> & H0 & H) _ Hv Hn Hz. rewrite fupd_eq.
    split; [done|]. split; [done|]. split; [done|]. split; [done|]. by rewrite fupd_ne by set_solver.
  - intros (-> & H0 & H) Hz Hv Hn Hz'. split; [done|]. split; [done|].
    rewrite fupd_ne by set_solver. apply IH; set_solver.
Qed.

(** The same for consecutive identifiers: the last of them gets a successor. *)
Lemma nf_list_grow f g h a j :
  nf_list f h (ids a (S j)) -> 0 < a -> nf_next (g (a + Z.of_nat (S j))) = 0 ->
  (forall i, i <> a + Z.of_nat (S j) ->
     g i = fupd (a + Z.of_nat j) (k_with_next (a + Z.of_nat (S j)) (f (a + Z.of_nat j))) f i) ->
  nf_list g h (ids a (S (S j))).
Proof.
  intros H Ha Hz Hg. set (z := a + Z.of_nat j) in *. set (v := a + Z.of_nat (S j)) in *.
  rewrite !(ids_snoc a), <- app_assoc in *. fold z v. cbn [app]. fold z in H.
  set (k := fupd v (g v) f).
  assert (z <> v) as Hzv by lia.
  apply (nf_list_ext (fupd z (k_with_next v (k z)) k)).
  - intros i Hi. destruct (decide (i = v)) as [->|Hiv].
    + rewrite fupd_ne by done. unfold k. by rewrite fupd_eq.
    + rewrite Hg by done. unfold fupd at 1 2, k. rewrite !fupd_ne by done. by destruct (decide _).
  - apply nf_list_snoc; [|rewrite ids_elem; lia|lia| |by unfold k; rewrite fupd_eq].
    + apply (nf_list_ext f); [|done]. intros i Hi. unfold k. rewrite fupd_ne; [done|].
      intros ->. apply elem_of_app in Hi as [Hi%ids_elem|Hi]; [lia|set_solver].
    + intros [Hi%ids_elem|Hi]%elem_of_app; [lia|set_solver].
Qed.

(** ** Copying a chain *)

(** [n] is the copy of [t] with identifier [i] for core [core]. *)
Definition copy_of (core : Z) (t : click_info) (i : Z) (n : click_info) : Prop :=
  nf_conf n = -1 /\ nf_id n = i /\ nf_tmpl n = nf_tmpl t /\
  (nf_thd n, nf_ring n, nf_sinv n) = (nf_thd t, nf_ring t, nf_sinv t) /\
  nf_data_seg n = nf_data_seg t /\ nf_core n = core.

Section copy.
Context {R L Q : Type} `{!CkRing R sl_xcpu_request, !PsList L, !KernelApi (slst R L), !CkRing Q mca_op}.
Context `{!FwpKernel (fwpst R L Q)}.
Implicit Types s : fwpst R L Q.

(** What copying leaves alone apart from the tables of functions and chains. *)
Record rest_same s s' : Prop := {
  rs_sys : sys s' = sys s;
  rs_shmem_id : next_shmem_id s' = next_shmem_id s;
  rs_template_id : next_template_id s' = next_template_id s;
  rs_addrs : (shmem_addr s', heap_ptr s', shmem_inv_addr s') = (shmem_addr s, heap_ptr s, shmem_inv_addr s);
  rs_template_nfs : template_nfs s' = template_nfs s;
  rs_templates : templates s' = templates s;
  rs_cache : chain_cache s' = chain_cache s }.

#[global] Instance rest_same_pre : PreOrder rest_same.
Proof.
  split; [by constructor|]. intros s1 s2 s3 [] []. constructor; congruence.
Qed.

Lemma chld_info_Ok i s : 0 <= i < EOS_MAX_NF_NUM -> chld_info i s = Ok i s.
Proof.
  intros H. unfold chld_info. by destruct (Z.leb_spec 0 i), (Z.ltb_spec i EOS_MAX_NF_NUM); try lia.
Qed.

(** One function: [l] is the last copy, whose [next] becomes the new one. *)
Lemma copy_nf_Ok rc core this last s :
  let new := next_nfid s in
  0 <= new < EOS_MAX_NF_NUM -> this <> new -> last <> new -> this <> last ->
  exists s', copy_nf rc core this last s = Ok new s' /\
    rest_same s s' /\ next_nfid s' = new + 1 /\ next_chain_id s' = next_chain_id s /\
    copy_of core (nfs s this) new (nfs s' new) /\ nf_next (nfs s' new) = 0 /\
    (forall i, i <> new -> nfs s' i = if last =? 0 then nfs s i else fupd last (k_with_next new (nfs s last)) (nfs s) i) /\
    (forall x, chains s' x = fupd rc (let c := chains s rc in
      mkChain (ch_id c) (ch_tot c) (ch_active c) (if last =? 0 then new else ch_first c) new (ch_next c)) (chains s) x).
Proof.
  cbv zeta. intros Hn Ht Hl Htl.
  unfold copy_nf, new_nfid. destruct (Z.eqb_spec last 0) as [->|Hl0].
  all: eexists; split; [mgo; rewrite (bind_Ok (chld_info _) _ _ _ _ (chld_info_Ok _ _ Hn)); reflexivity|].
  all: split; [constructor; reflexivity|]; split; [reflexivity|]; split; [reflexivity|].
  all: cbn -[fupd k_with_next k_with_conf k_with_id k_with_core k_with_data_seg k_with_needs k_with_tmpl].
  all: rewrite !fupd_eq, ?(fupd_ne last this) by congruence.
  all: split; [done|]; split; [done|].
  all: split; [intros i Hi; by rewrite (fupd_ne _ i) by done|].
  all: intros x; unfold fupd; by destruct (decide (x = rc)).
Qed.

(** The state after [j] functions of [l] were copied, from state [s0]. *)
Record copying (core rc : Z) (l : list Z) (s0 : fwpst R L Q) (j : nat) s : Prop := {
  cp_rest : rest_same s0 s;
  cp_nfid : next_nfid s = next_nfid s0 + Z.of_nat j;
  cp_cid : next_chain_id s = next_chain_id s0;
  cp_old : forall i, i ∉ ids (next_nfid s0) j -> nfs s i = nfs s0 i;
  cp_new : forall k t, (k < j)%nat -> l !! k = Some t ->
    copy_of core (nfs s0 t) (next_nfid s0 + Z.of_nat k) (nfs s (next_nfid s0 + Z.of_nat k));
  cp_list : (0 < j)%nat -> nf_list (nfs s) (ch_first (chains s rc)) (ids (next_nfid s0) j) /\
    ch_last (chains s rc) = next_nfid s0 + Z.of_nat j - 1;
  cp_other : forall x, x <> rc -> chains s x = chains s0 x;
  cp_chain : let c := chains s rc in let d := chains s0 rc in
    (ch_id c, ch_tot c, ch_active c, ch_next c) = (ch_id d, ch_tot d, ch_active d, ch_next d) }.

(** The last copy after [j] functions. *)
Definition last_copy (s0 : fwpst R L Q) (j : nat) : Z :=
  match j with O => 0 | S k => next_nfid s0 + Z.of_nat k end.

Lemma copying_step core rc l s0 j s t :
  copying core rc l s0 j s -> 2 <= next_nfid s0 -> l !! j = Some t -> t < next_nfid s0 ->
  next_nfid s0 + Z.of_nat j < EOS_MAX_NF_NUM -> t <> 0 ->
  exists s', copy_nf rc core t (last_copy s0 j) s = Ok (last_copy s0 (S j)) s' /\ copying core rc l s0 (S j) s'.
Proof.
  intros [H1 H2 H3 H4 H5 H6 H7 H8] Ha Ht Hta Hlim Ht0.
  assert (last_copy s0 j < next_nfid s) as Hlc by (destruct j; cbn [last_copy]; lia).
  assert (t <> last_copy s0 j) as Htl by (destruct j; cbn [last_copy]; lia).
  destruct (copy_nf_Ok rc core t (last_copy s0 j) s) as (s' & E & R1 & R2 & R3 & R4 & R5 & R6 & R7); try lia.
  exists s'. rewrite E, H2. split; [done|]. rewrite H2 in *.
  assert (forall i, i ∉ ids (next_nfid s0) (S j) -> nfs s' i = nfs s i) as Hfr.
  { intros i Hi. rewrite ids_elem in Hi. rewrite R6 by lia.
    destruct j; cbn [last_copy]; [done|]. destruct (Z.eqb_spec (next_nfid s0 + Z.of_nat j) 0); [done|].
    by rewrite fupd_ne by lia. }
  constructor.
  - by etrans.
  - lia.
  - congruence.
  - intros i Hi. rewrite Hfr by done. apply H4. rewrite ids_elem in *. lia.
  - intros k t' Hk Hl. destruct (decide (k = j)) as [->|Hne].
    + rewrite Ht in Hl. injection Hl as <-. rewrite H4 in R4; [done|]. rewrite ids_elem. lia.
    + assert (copy_of core (nfs s0 t') (next_nfid s0 + Z.of_nat k) (nfs s (next_nfid s0 + Z.of_nat k))) as Hc
        by (apply H5; [lia|done]).
      rewrite R6 by lia. destruct (last_copy s0 j =? 0); [done|].
      unfold fupd. by destruct (decide _) as [<-|].
  - intros _. rewrite R7, fupd_eq. cbn [ch_first ch_last]. split; [|lia].
    destruct j as [|j].
    + cbn [last_copy Z.eqb]. rewrite ids_S. cbn [ids seq map nf_list]. split; [lia|]. split; [lia|].
      by replace (next_nfid s0) with (next_nfid s0 + Z.of_nat 0) by lia.
    + destruct H6 as [H6 _]; [lia|]. cbn [last_copy] in *.
      destruct (Z.eqb_spec (next_nfid s0 + Z.of_nat j) 0); [lia|].
      eapply nf_list_grow; [exact H6|lia|exact R5|]. intros i Hi.
      by rewrite R6 by lia.
  - intros x Hx. rewrite R7, fupd_ne by done. by apply H7.
  - rewrite R7, fupd_eq. exact H8.
Qed.

(** The rest [l2] of the list [l1 ++ l2], from the function [h]. *)
Lemma copy_loop_Ok core rc s0 l2 : forall l1 fuel h s,
  copying core rc (l1 ++ l2) s0 (length l1) s -> nf_list (nfs s0) h l2 -> (length l2 <= fuel)%nat ->
  2 <= next_nfid s0 -> Forall (fun i => i < next_nfid s0) l2 ->
  next_nfid s0 + Z.of_nat (length (l1 ++ l2)) <= EOS_MAX_NF_NUM ->
  exists v s', nf_loop fuel h (last_copy s0 (length l1)) (copy_nf rc core) s = Ok v s' /\
    copying core rc (l1 ++ l2) s0 (length (l1 ++ l2)) s'.
Proof.
  induction l2 as [|t l2 IH]; intros l1 fuel h s Hc Hl Hf Ha Hall Hlim.
  - cbn in Hl. subst h. exists (last_copy s0 (length l1)), s. rewrite app_nil_r in *.
    by destruct fuel.
  - destruct Hl as (-> & Ht0 & Hl). apply Forall_cons in Hall as [Hta Hall].
    destruct fuel as [|fuel]; [cbn in Hf; lia|]. rewrite length_app in Hlim. cbn [length] in *.
    destruct (copying_step core rc (l1 ++ t :: l2) s0 (length l1) s t) as (s1 & E & Hc1); [done|done| |lia|lia|done|].
    { by rewrite list_lookup_middle. }
    replace (S (length l1)) with (length (l1 ++ [t])) in * by (rewrite length_app; cbn; lia).
    replace (l1 ++ t :: l2) with ((l1 ++ [t]) ++ l2) in * by (by rewrite <- app_assoc).
    destruct (IH (l1 ++ [t]) fuel (nf_next (nfs s0 t)) s1) as (v & s' & E' & Hc'); [done|done|lia|done|done| |].
    { rewrite !length_app. cbn. lia. }
    exists v, s'. split; [|done]. cbn [nf_loop]. destruct (Z.eqb_spec t 0); [done|].
    rewrite (bind_Ok _ _ _ _ _ E). unfold get_nf. mgo.
    rewrite (cp_old _ _ _ _ _ _ Hc1), E'; [done|]. rewrite ids_elem. lia.
Qed.

(** Not enough room: the loop stops at the assertion on [nfid]. *)
Lemma copy_loop_full core rc s0 l2 : forall l1 fuel h s,
  copying core rc (l1 ++ l2) s0 (length l1) s -> nf_list (nfs s0) h l2 -> (length l2 <= fuel)%nat ->
  2 <= next_nfid s0 -> Forall (fun i => i < next_nfid s0) l2 ->
  next_nfid s0 + Z.of_nat (length l1) <= EOS_MAX_NF_NUM < next_nfid s0 + Z.of_nat (length (l1 ++ l2)) ->
  nf_loop fuel h (last_copy s0 (length l1)) (copy_nf rc core) s = Panic AssertFail.
Proof.
  induction l2 as [|t l2 IH]; intros l1 fuel h s Hc Hl Hf Ha Hall Hlim; rewrite length_app in Hlim.
  - cbn in Hlim. lia.
  - destruct Hl as (-> & Ht0 & Hl). apply Forall_cons in Hall as [Hta Hall].
    destruct fuel as [|fuel]; [cbn in Hf; lia|]. cbn [length] in *.
    cbn [nf_loop]. destruct (Z.eqb_spec t 0); [done|].
    destruct (decide (next_nfid s0 + Z.of_nat (length l1) = EOS_MAX_NF_NUM)) as [Heq|Hne].
    { apply bind_Panic. unfold copy_nf, new_nfid. mgo. rewrite (cp_nfid _ _ _ _ _ _ Hc), Heq. done. }
    destruct (copying_step core rc (l1 ++ t :: l2) s0 (length l1) s t) as (s1 & E & Hc1); [done|done| |lia|lia|done|].
    { by rewrite list_lookup_middle. }
    replace (S (length l1)) with (length (l1 ++ [t])) in * by (rewrite length_app; cbn; lia).
    replace (l1 ++ t :: l2) with ((l1 ++ [t]) ++ l2) in * by (by rewrite <- app_assoc).
    rewrite (bind_Ok _ _ _ _ _ E). unfold get_nf. mgo.
    rewrite (cp_old _ _ _ _ _ _ Hc1) by (rewrite ids_elem; lia).
    apply IH; [done|done|lia|done|done|]. rewrite !length_app in *. cbn in *. lia.
Qed.

(** Chain [c] is there, with the functions [l]. *)
Record chain_ok s (c : Z) (l : list Z) : Prop := {
  ck_id : 1 <= c <= next_chain_id s;
  ck_list : nf_list (nfs s) (ch_first (chains s c)) l;
  ck_old : Forall (fun i => i < next_nfid s) l;
  ck_len : (0 < length l <= Z.to_nat EOS_MAX_NF_NUM)%nat;
  ck_nfid : 2 <= next_nfid s <= EOS_MAX_NF_NUM }.

(** The new chain [rc] has a copy of each function of [l], and nothing else
    has changed. *)
Record chain_copied (core c rc : Z) (l : list Z) s s' : Prop := {
  cc_list : nf_list (nfs s') (ch_first (chains s' rc)) (ids (next_nfid s) (length l));
  cc_last : ch_last (chains s' rc) = next_nfid s + Z.of_nat (length l) - 1;
  cc_head : let d := chains s' rc in
    (ch_id d, ch_tot d, ch_active d) = (rc - 1, ch_tot (chains s c), ch_active (chains s c));
  cc_copy : forall k t, l !! k = Some t ->
    copy_of core (nfs s t) (next_nfid s + Z.of_nat k) (nfs s' (next_nfid s + Z.of_nat k));
  cc_nfs : forall i, i ∉ ids (next_nfid s) (length l) -> nfs s' i = nfs s i;
  cc_chains : forall x, x <> rc -> chains s' x = chains s x;
  cc_nfid : next_nfid s' = next_nfid s + Z.of_nat (length l);
  cc_cid : next_chain_id s' = rc;
  cc_rest : rest_same s s' }.

(** What [copy_chain] does before its loop. *)
Definition copy_start (c : Z) s : fwpst R L Q :=
  let n := next_chain_id s in let h := chains s c in
  f_with_chains (fupd (n + 1) (mkChain n (ch_tot h) (ch_active h) (ch_first h) (ch_last h) (ch_next h)) (chains s))
    (f_with_ids (next_nfid s) (n + 1) (next_shmem_id s) (next_template_id s) s).

Lemma copy_chain_start c core l s :
  chain_ok s c l -> next_chain_id s < EOS_MAX_CHAIN_NUM ->
  copy_chain c core s =
    (nf_loop (Z.to_nat EOS_MAX_NF_NUM) (ch_first (chains s c)) 0 (copy_nf (next_chain_id s + 1) core) ;;
     ret (next_chain_id s + 1)) (copy_start c s).
Proof.
  intros [H1 _ _ _ _] Hc. unfold copy_chain, new_chain_id. mgo. unfold chain_at.
  destruct (Z.leb_spec 0 (next_chain_id s)), (Z.ltb_spec (next_chain_id s) EOS_MAX_CHAIN_NUM); try lia.
  cbn [andb]. unfold for_each_nf, get_chain, upd_chain. mgo.
  change (chains (f_with_ids _ _ _ _ s)) with (chains s). unfold copy_start.
  cbn [chains f_with_chains]. by rewrite fupd_ne by lia.
Qed.

Lemma copy_chain_Ok c core l s :
  chain_ok s c l -> next_chain_id s < EOS_MAX_CHAIN_NUM ->
  next_nfid s + Z.of_nat (length l) <= EOS_MAX_NF_NUM ->
  exists s', copy_chain c core s = Ok (next_chain_id s + 1) s' /\
    chain_copied core c (next_chain_id s + 1) l s s'.
Proof.
  intros Hk Hc Hn. rewrite (copy_chain_start c core l s Hk Hc).
  destruct Hk as [H1 H2 H3 H4 H5]. set (rc := next_chain_id s + 1) in *. set (s0 := copy_start c s).
  destruct (copy_loop_Ok core rc s0 l [] (Z.to_nat EOS_MAX_NF_NUM) (ch_first (chains s c)) s0)
    as (v & s' & E & [C1 C2 C3 C4 C5 C6 C7 C8]); [|done|lia|apply H5|done|done|].
  { constructor; try done; cbn [length ids seq map]; intros; try lia. }
  exists s'. rewrite (bind_Ok _ _ _ _ _ E). split; [done|]. cbn [app] in *.
  change (next_nfid s0) with (next_nfid s) in *. change (nfs s0) with (nfs s) in *.
  assert (chains s0 rc = mkChain (rc - 1) (ch_tot (chains s c)) (ch_active (chains s c)) (ch_first (chains s c))
            (ch_last (chains s c)) (ch_next (chains s c))) as E0.
  { unfold s0, copy_start, rc. cbn [chains f_with_chains]. rewrite fupd_eq. f_equal. lia. }
  constructor.
  - apply C6; lia.
  - apply C6; lia.
  - cbv zeta in *. rewrite E0 in C8. cbn [ch_id ch_tot ch_active ch_next] in C8. congruence.
  - intros k t Hl. apply C5; [|done]. by eapply lookup_lt_Some.
  - exact C4.
  - intros x Hx. rewrite C7 by done. unfold s0, copy_start. cbn [chains f_with_chains]. by rewrite fupd_ne.
  - exact C2.
  - exact C3.
  - destruct C1. by constructor.
Qed.

(** Both chains are then there. *)
Lemma chain_copied_ok core c l s s' :
  chain_ok s c l -> next_nfid s + Z.of_nat (length l) <= EOS_MAX_NF_NUM ->
  chain_copied core c (next_chain_id s + 1) l s s' ->
  chain_ok s' c l /\ chain_ok s' (next_chain_id s + 1) (ids (next_nfid s) (length l)).
Proof.
  intros [H1 H2 H3 H4 H5] Hn [C1 C2 C3 C4 C5 C6 C7 C8 C9].
  assert (length (ids (next_nfid s) (length l)) = length l) as El by (unfold ids; by rewrite length_map, length_seq).
  split; constructor; try lia.
  - rewrite C6 by lia. eapply nf_list_ext; [|exact H2]. intros i Hi. rewrite C5; [done|].
    rewrite Forall_forall in H3. specialize (H3 i Hi). rewrite ids_elem. lia.
  - eapply Forall_impl; [exact H3|]. cbn. lia.
  - exact C1.
  - apply Forall_forall. intros i Hi%ids_elem. lia.
Qed.

Lemma copy_chain_full c core l s :
  chain_ok s c l ->
  EOS_MAX_CHAIN_NUM <= next_chain_id s \/ EOS_MAX_NF_NUM < next_nfid s + Z.of_nat (length l) ->
  copy_chain c core s = Panic AssertFail.
Proof.
  intros Hk Hfull. destruct (Z.lt_ge_cases (next_chain_id s) EOS_MAX_CHAIN_NUM) as [Hc|Hc].
  - rewrite (copy_chain_start c core l s Hk Hc). destruct Hk as [H1 H2 H3 H4 H5]. apply bind_Panic.
    apply (copy_loop_full core (next_chain_id s + 1) (copy_start c s) l []); try done.
    + constructor; try done; cbn [length ids seq map]; intros; lia.
    + lia.
    + apply H5.
    + change (next_nfid (copy_start c s)) with (next_nfid s). cbn [app length]. lia.
  - unfold copy_chain, new_chain_id. mgo. destruct (Z.ltb_spec (next_chain_id s) EOS_MAX_CHAIN_NUM); [lia|done].
Qed.

(** C28. Copying a chain of functions for a core succeeds exactly when the
    tables of chains and of functions have room.  Then the new chain is a list
    of new, consecutive functions, the k-th a copy of the k-th function of the
    template with the same template, data segment and needs on that core; the
    template's chain, all older functions and chains, and the rest of the
    manager's state are unchanged.  Otherwise the manager stops at an
    assertion. *)
Theorem copy_chain_correct c core l s :
  chain_ok s c l ->
  (next_chain_id s < EOS_MAX_CHAIN_NUM /\ next_nfid s + Z.of_nat (length l) <= EOS_MAX_NF_NUM /\
   exists s', copy_chain c core s = Ok (next_chain_id s + 1) s' /\
     chain_copied core c (next_chain_id s + 1) l s s' /\ chain_ok s' c l /\
     chain_ok s' (next_chain_id s + 1) (ids (next_nfid s) (length l))) \/
  ((EOS_MAX_CHAIN_NUM <= next_chain_id s \/ EOS_MAX_NF_NUM < next_nfid s + Z.of_nat (length l)) /\
   copy_chain c core s = Panic AssertFail).
Proof.
  intros Hk. destruct (Z.lt_ge_cases (next_chain_id s) EOS_MAX_CHAIN_NUM) as [Hc|Hc];
    [|right; split; [by left|]; eapply copy_chain_full; [done|by left]].
  destruct (Z.le_gt_cases (next_nfid s + Z.of_nat (length l)) EOS_MAX_NF_NUM) as [Hn|Hn];
    [|right; split; [by right|]; eapply copy_chain_full; [done|by right]].
  left. split; [done|]. split; [done|]. destruct (copy_chain_Ok c core l s Hk Hc Hn) as (s' & E & Hcc).
  exists s'. split; [done|]. split; [done|]. exact (chain_copied_ok core c l s s' Hk Hn Hcc).
Qed.
End copy.

(** ** The capacity of the tables *)

(** The chains and the numbers of functions and chains are the same. *)
Record keeps {R L Q} (s s' : fwpst R L Q) : Prop := {
  kp_nfid : next_nfid s' = next_nfid s;
  kp_cid : next_chain_id s' = next_chain_id s;
  kp_template_id : next_template_id s' = next_template_id s;
  kp_first : forall x, ch_first (chains s' x) = ch_first (chains s x);
  kp_next : forall i, nf_next (nfs s' i) = nf_next (nfs s i) }.

#[export] Instance keeps_pre {R L Q} : PreOrder (@keeps R L Q).
Proof.
  split; [by constructor|]. intros s1 s2 s3 [A1 A2 A3 A4 A5] [B1 B2 B3 B4 B5].
  constructor; [congruence..| |]; intros; by rewrite ?B4, ?B5.
Qed.

(** The kernel's library does not touch the manager's tables. *)
Class FwpKernelLaws {R L Q} (K : FwpKernel (fwpst R L Q)) : Prop := { fk_keeps c :: Respects keeps (fk c) }.

Section capacity.
Context {R L Q : Type} `{!CkRing R sl_xcpu_request, !PsList L, !KernelApi (slst R L), !CkRing Q mca_op}.
Context `{K : !FwpKernel (fwpst R L Q), !FwpKernelLaws K}.
Variable spin : nat.
Variable pgtbl_introspect : Z -> Z.
Variable self_comp nf_entry_addr : Z.
Implicit Types s : fwpst R L Q.

#[local] Instance keeps_sys {A} (m : M (sysst R L Q) A) : Respects keeps (on_sys m).
Proof.
  intros s a s' H. unfold on_sys in H. destruct (m (sys s)); [|done]. injection H as _ <-. by constructor.
Qed.

(** An assignment to a function that is not one to [next]. *)
Class KeepsNext (f : click_info -> click_info) : Prop := keeps_next n : nf_next (f n) = nf_next n.

#[local] Instance keeps_upd_nf i f `{!KeepsNext f} : Respects keeps (upd_nf (R:=R) (L:=L) (Q:=Q) i f).
Proof.
  intros s a s' [= _ <-]. constructor; try done. intros j. cbn. unfold fupd. by destruct (decide _) as [->|].
Qed.

#[local] Hint Extern 1 (KeepsNext _) => (intros ?; reflexivity) : typeclass_instances.

#[local] Instance keeps_new_shmem : Respects keeps (new_shmem_id (R:=R) (L:=L) (Q:=Q)).
Proof. intros s a s' [= _ <-]. by constructor. Qed.

#[local] Instance keeps_put (c state core : Z) : Respects keeps (fwp_chain_put (R:=R) (L:=L) (Q:=Q) c state core).
Proof.
  intros s a s' [= _ <-]. constructor; try done. intros j. cbn. unfold fupd. by destruct (decide _) as [->|].
Qed.

#[local] Instance keeps_pages n i (body : Z -> M (fwpst R L Q) unit) :
  (forall j, Respects keeps (body j)) -> Respects keeps (pages_loop n i body).
Proof. intros H. revert i. induction n; intros i; cbn; apply _. Qed.

#[local] Instance keeps_nf_loop {A} n i (x : A) (body : Z -> A -> M (fwpst R L Q) A) :
  (forall j y, Respects keeps (body j y)) -> Respects keeps (nf_loop n i x body).
Proof. intros H. revert i x. induction n; intros i x; cbn; unfold get_nf; apply _. Qed.

#[local] Instance keeps_fork nf (t d r : mem_seg) conf off start coreid :
  Respects keeps (fwp_fork spin pgtbl_introspect self_comp nf_entry_addr nf t d r conf off start coreid).
Proof.
  unfold fwp_fork, _fwp_fork, _alias_click, _fwp_fork_cont, fork_thread, copy_caps, _alloc_tls, clear_initaep,
    call_nz, call_z, call, initaep_cap, initaep_tid, get_initaep, get_nf, for_pages. apply _.
Qed.

Abbreviation allocate_chain := (fwp_allocate_chain spin pgtbl_introspect self_comp nf_entry_addr).

#[local] Instance keeps_allocate_nf t coreid this x :
  Respects keeps (allocate_nf spin pgtbl_introspect self_comp nf_entry_addr t coreid this x).
Proof.
  unfold allocate_nf, fwp_get_shmem, get_data_seg, get_nf. destruct x. apply _.
Qed.

#[local] Instance keeps_connect this u : Respects keeps (connect_nf (R:=R) (L:=L) (Q:=Q) this u).
Proof. unfold connect_nf, fwp_allocate_shmem_sinv, call_z, get_nf. apply _. Qed.

Lemma keeps_chain_ok c l s s' : keeps s s' -> chain_ok s c l -> chain_ok s' c l.
Proof.
  intros [K1 K2 _ K4 K5] [H1 H2 H3 H4 H5]. constructor; rewrite ?K1, ?K2, ?K4; try done.
  eapply nf_list_ext; [|exact H2]. intros i _. by rewrite K5.
Qed.

(** A chain takes as many places as it has functions. *)
Lemma allocate_chain_room c l core sh0 s r s' :
  chain_ok s c l -> allocate_chain c false core sh0 s = Ok r s' ->
  chain_ok s' c l /\ next_nfid s' = next_nfid s + Z.of_nat (length l).
Proof.
  intros Hk E. unfold fwp_allocate_chain in E. apply bind_inv in E as (c' & s1 & E1 & E2).
  destruct (Z.lt_ge_cases (next_chain_id s) EOS_MAX_CHAIN_NUM) as [Hc|Hc];
    [|by rewrite (copy_chain_full c core l s) in E1 by auto].
  destruct (Z.le_gt_cases (next_nfid s + Z.of_nat (length l)) EOS_MAX_NF_NUM) as [Hn|Hn];
    [|by rewrite (copy_chain_full c core l s) in E1 by auto].
  destruct (copy_chain_Ok c core l s Hk Hc Hn) as (s1' & E1' & Hcc). rewrite E1 in E1'. injection E1' as -> ->.
  assert (keeps s1' s') as Hkp.
  { exact (respects s1' r s' E2). }
  destruct (chain_copied_ok core c l s s1' Hk Hn Hcc) as [Hk' _].
  split; [by eapply keeps_chain_ok|]. rewrite (kp_nfid _ _ Hkp). apply (cc_nfid _ _ _ _ _ _ Hcc).
Qed.

Lemma cores_loop_room c l sh0 n : forall core s u s',
  chain_ok s c l ->
  cores_loop spin pgtbl_introspect self_comp nf_entry_addr n c core sh0 s = Ok u s' ->
  next_nfid s + Z.of_nat n * Z.of_nat (length l) <= EOS_MAX_NF_NUM.
Proof.
  induction n as [|n IH]; intros core s u s' Hk E.
  - pose proof (ck_nfid _ _ _ Hk). lia.
  - cbn [cores_loop] in E. change (Z.to_nat EOS_MAX_CHAIN_NUM_PER_CORE) with 1%nat in E. cbn [for_n] in E.
    apply bind_inv in E as (u1 & s1 & E1 & E2). apply bind_inv in E1 as (u2 & s2 & E1 & E3).
    apply bind_inv in E1 as (r & s3 & E1 & E4). injection E4 as _ <-. injection E3 as _ <-.
    destruct (allocate_chain_room c l core sh0 s r s3 Hk E1) as [Hk' Hn].
    pose proof (IH _ _ _ _ Hk' E2). lia.
Qed.

(** The template's chain that the start creates. *)
Lemma create_mqtt_chain s c s' :
  next_nfid s = 2 -> next_chain_id s = 0 -> next_template_id s = 0 ->
  fwp_create_click_mqtt_chain 0 s = Ok c s' -> chain_ok s' 1 [2; 3; 4] /\ c = 1 /\ next_nfid s' = 5.
Proof.
  intros H1 H2 H3 E.
  assert (match fwp_create_click_mqtt_chain 0 s with
          | Ok c s' => (c, next_chain_id s', next_nfid s', ch_first (chains s' 1),
                        nf_next (nfs s' 2), nf_next (nfs s' 3), nf_next (nfs s' 4)) = (1, 1, 5, 2, 3, 4, 0)
          | Panic _ => True end) as F.
  { destruct s. cbn in H1, H2, H3. subst. vm_compute. reflexivity. }
  rewrite E in F. injection F as -> F1 F2 F3 F4 F5 F6.
  split; [|done]. constructor; rewrite ?F1, ?F2, ?F3; cbn [nf_list length]; rewrite ?F4, ?F5, ?F6;
    try (vm_compute; done); try lia.
  - repeat constructor.
  - vm_compute. split; lia.
Qed.

(** The numbers of functions, chains and templates are the same. *)
Definition ids_kept s s' : Prop :=
  next_nfid s' = next_nfid s /\ next_chain_id s' = next_chain_id s /\ next_template_id s' = next_template_id s.

#[local] Instance ids_kept_pre : PreOrder ids_kept.
Proof. split; [done|]. intros s1 s2 s3 (A & B & C) (D & E & F). split; [congruence|]. split; congruence. Qed.

#[local] Instance ids_kept_fk c : Respects ids_kept (fk c).
Proof. intros s a s' H. destruct (fk_keeps c s a s' H). done. Qed.

#[local] Instance ids_kept_pad fuel a at_ page : Respects ids_kept (shmem_pad (R:=R) (L:=L) (Q:=Q) fuel a at_ page).
Proof. revert a. induction fuel; intros a; cbn; apply _. Qed.

#[local] Instance ids_kept_init start addr0 : Respects ids_kept (fwp_init (R:=R) (L:=L) (Q:=Q) spin start addr0).
Proof.
  unfold fwp_init, fwp_allocate_shmem. cbv zeta.
  assert (forall f, (forall s, ids_kept s (f s)) -> Respects ids_kept (modify f)) as Hm
    by (intros f Hf s u s' [= _ <-]; apply Hf).
  apply respects_bind; [apply _| |intros _; by apply Hm].
  repeat (apply respects_bind; [apply _|apply _|intros ?]). by apply Hm.
Qed.

(** C40. The start of the manager, with the chains and the limits that the
    repository configures, never gets to its main loop: the template and the
    chains of the twelve cores take three functions each, and the table of
    functions has room for four chains besides the template.  This holds for
    every behaviour of the kernel that leaves the manager's tables alone. *)
Theorem fwp_test_halts s inv start addr0 sh0 q :
  next_nfid s = 2 -> next_chain_id s = 0 -> next_template_id s = 0 ->
  exists h, fwp_test spin pgtbl_introspect self_comp nf_entry_addr inv start addr0 sh0 q s = Panic h.
Proof.
  intros H1 H2 H3.
  destruct (fwp_test spin pgtbl_introspect self_comp nf_entry_addr inv start addr0 sh0 q s) as [u s'|h] eqn:E;
    [exfalso|by exists h].
  unfold fwp_test, fwp_test_chains in E.
  apply bind_inv in E as (u1 & s1 & E1 & E). injection E1 as _ <-.
  apply bind_inv in E as (u2 & s2 & E2 & E). apply (respects (R := ids_kept)) in E2 as (A1 & A2 & A3).
  apply bind_inv in E as (u3 & s3 & E3 & E). apply keeps_sys in E3 as [B1 B2 B3 _ _].
  apply bind_inv in E as (u4 & s4 & E4 & E). apply bind_inv in E4 as (v4 & t4 & E4 & F4). injection F4 as _ <-.
  apply fk_keeps in E4 as [C1 C2 C3 _ _].
  apply bind_inv in E as (c & s5 & E5 & E).
  destruct (create_mqtt_chain t4 c s5) as (Hk & -> & Hn); [cbn in *; congruence..|done|].
  apply bind_inv in E as (c' & s6 & E6 & E).
  assert (keeps s5 s6) as Hkp by exact (respects s5 c' s6 E6).
  pose proof (cores_loop_room 1 [2; 3; 4] sh0 _ _ _ _ _ (keeps_chain_ok _ _ _ _ Hkp Hk) E) as F.
  rewrite (kp_nfid _ _ Hkp), Hn in F. vm_compute in F. by apply F.
Qed.
End capacity.

(** ** A concrete system *)

Abbreviation sample_core := (slst (list sl_xcpu_request) ulist).
Abbreviation sample_fwp := (fwpst (list sl_xcpu_request) ulist (list mca_op)).

(** A kernel that grants what it is asked for, with fresh threads. *)
Definition granting_api : KernelApi sample_core := {|
  kapi _ := ret 0; sched_aep_get comp := ret (fun _ => 10 + comp);
  cos_sched_rcv _ _ _ := ret (mkEvent 0 0 0 0 0);
  child_ring_dequeue _ := ret None; child_ring_size _ := ret 0 |}.

(** While the manager prints, the other cores allocate the threads. *)
Definition others_run (s : sample_fwp) : sample_fwp :=
  f_with_sys (s_with_sl (fun c => if c =? 0 then sl_of (sys s) 0 else with_xret (fun _ => 3) (sl_of (sys s) c)) (fun _ => []) (sys s)) s.

Definition granting_fk (c : fkcall) : M sample_fwp Z :=
  match c with
  | FK_cap_cpy_at _ _ _ | FK_cap_move_at _ _ _ | FK_get_heap_ptr => ret 0
  | FK_sinv_alloc_at _ _ _ cap => ret cap
  | FK_printc => modify others_run ;; ret 0
  | _ => ret 4096
  end.
Definition granting_kernel : FwpKernel sample_fwp := {| fk := granting_fk |}.

Lemma granting_laws : FwpKernelLaws granting_kernel.
Proof. constructor. intros [] s a s' H; cbn in H; injection H as _ <-; by constructor. Qed.

Definition boot_core (c : Z) : sample_core :=
  mkSl (fun t f => match f with F_aepinfo => t | _ => 0 end) (fun a f => a) 0
       (mkHeap 1 (SL_EDF_MAX_THDS + 1) ∅) (mkHeap 1 (SL_MAX_NUM_THDS + 1) ∅)
       (fun _ => 0) ul_nil (fun _ => []) (fun _ => true) c 4 (fun n => 0) 0 (fun _ => 0).

Definition boot_state : sample_fwp :=
  mkFwp (mkSys (mkMem (fun _ => zero_ring) (fun _ => zero_node) (fun _ => 0)) (fun _ => zero_info)
               (fun _ => zero_conn) 0 0 (fun _ => []) boot_core (fun _ => []) (fun _ => 0) 0)
        2 0 0 0 0 0 0 (fun _ => zero_nf) (fun _ => zero_chain)
        (fun _ => mkTempl (mkSeg 8192 4096) (mkSeg 16384 4096) 4194304 0) (fun _ => mkSeg 16384 4096) (fun _ _ => 0).

Section witnesses.
#[local] Existing Instance granting_api.
#[local] Existing Instance granting_kernel.
#[local] Existing Instance granting_laws.

(** The start up to the chains of the first [n] cores. *)
Definition boot (K : FwpKernel sample_fwp) (n : nat) : M sample_fwp unit :=
  fwp_init 4 0 4294967295 ;;
  on_sys (mca_init []) ;;
  c <- fwp_create_click_mqtt_chain 0 ;;
  fwp_allocate_chain 4 (fun a => a) 1 2 c true 0 0 ;;
  cores_loop 4 (fun a => a) 1 2 n c NF_MIN_CORE 0.

(** Four chains are allocated, the fifth is not. *)
Example four_chains_fit : result (boot granting_kernel 4 boot_state) = inl tt.
Proof. vm_compute. reflexivity. Qed.
Example fifth_chain_halts : result (boot granting_kernel 5 boot_state) = inr AssertFail.
Proof. vm_compute. reflexivity. Qed.

Lemma fwp_test_halts_witness :
  result (boot granting_kernel 4 boot_state) = inl tt /\
  exists h, fwp_test 4 (fun a => a) 1 2 0 0 4294967295 0 [] boot_state = Panic h.
Proof.
  split; [vm_compute; reflexivity|]. apply (fwp_test_halts 4 (fun a => a) 1 2 boot_state 0 0 4294967295 0 []);
    reflexivity.
Defined.

(** The chain of the template, when the second function of the table is the
    next one to be copied. *)
Definition template_state : sample_fwp :=
  match fwp_create_click_mqtt_chain 0 boot_state with Ok _ s => s | Panic _ => boot_state end.

Lemma copy_chain_correct_witness :
  exists s', copy_chain 1 5 template_state = Ok 2 s' /\ chain_copied 5 1 2 [2; 3; 4] template_state s' /\
    chain_ok s' 2 [5; 6; 7].
Proof.
  destruct (copy_chain_correct 1 5 [2; 3; 4] template_state) as [(_ & _ & s' & E & Hc & _ & Hk)|[[H|H] _]].
  - constructor; vm_compute; repeat (constructor || discriminate).
  - exists s'. split; [exact E|]. split; [exact Hc|exact Hk].
  - exfalso. vm_compute in H. by apply H.
  - exfalso. vm_compute in H. discriminate H.
Defined.
(** The thread of a function on another core is used right after the request
    to allocate it was sent: when that core does not run in between, the
    pointer is still NULL. *)
Definition idle_others (c : fkcall) : M sample_fwp Z :=
  match c with FK_printc => ret 0 | _ => granting_fk c end.

Example fork_races_with_thread :
  result (boot {| fk := idle_others |} 1 boot_state) = inr NullDeref.
Proof. vm_compute. reflexivity. Qed.
End witnesses.
