(* ===== verification/Ninf.v ===== *)
(** * The cores of the network interface

    [ninf_rx.c], [ninf_tx.c], [ninf.c] and the keys of [ninf_util.h].  The
    receiving core polls the ports and puts each packet into the ring of its
    flow, from which the message-passing core moves it to the first function
    of the flow's chain; it takes a chain from the manager for a new flow.  The
    sending core takes the batches of the last functions and hands their
    packets to the ports; a driver calls [cos_tx_cb] when a packet has left.

    DPDK, which the repository does not hold, is the parameter [Dpdk]; so are
    the layout of protocol headers and two functions that [ninf_rx.c] calls but
    the repository does not define. *)

From S2P Require Import Prelude Config Heap Ring Sl Eos Mca Fwp.

Definition NUM_NIC_PORTS : Z := 4.
Definition NUM_MBUFS : Z := 2 * 8192.
Definition BURST_SIZE : Z := 32.
Definition IP_PROTOCOL_TCP : Z := 6.
Definition IP_PROTOCOL_UDP : Z := 17.
Definition DPDK_PKT_OFF : Z := 256.
Definition NF_PER_CORE_BATCH : Z := 1.
Definition FLOW_START_PORT : Z := 11211.
Definition EOS_MAX_FLOW_NUM : Z := 2048.

(** [struct rte_mbuf], the fields that the sending core writes *)
Record rte_mbuf : Type := mkMbuf {
  buf_addr : Z; buf_physaddr : Z; userdata : Z; mb_data_len : Z; mb_pkt_len : Z; data_off : Z }.

(** [struct tx_ring]; a pointer to one is its index in [tx_rings] plus one. *)
Record tx_ring : Type := mkTxRing { t_r : Z; t_state : Z; t_next : Z; t_cid : Z }.

(** [struct tx_pkt_batch]; [meta] always points into the local [scache] of
    [ninf_tx_process], and is the index there. *)
Record tx_pkt_batch : Type := mkTxPkt { tb_rn : Z; tb_meta : Z; tb_phy : Z }.

(** The data of the sending core; [scache] is the local variable of
    [ninf_tx_process] whose address escapes into [send_batch]. *)
Record txst : Type := mkTxs {
  tx : Z; tx_fl : Z; tx_rings : Z -> tx_ring;
  burst_cnt : Z -> Z; send_batch : Z -> Z -> tx_pkt_batch;
  scache : eos_ring_node; missed : Z; latency : Z }.

(** The data of the receiving core. *)
Record rxst : Type := mkRxs {
  fix_rx_outs : Z -> Z; major_core_id : Z; minor_core_id : Z; dl_tbl : Z -> Z;
  prev_collect : Z; tot_free_mbuf : Z; rx_drop_cnt : Z }.

(** [struct pkt_ipv4_5tuple] *)
Record pkt_ipv4_5tuple : Type := mkKey {
  src_addr : Z; dst_addr : Z; src_port : Z; dst_port : Z; proto : Z }.

Record nist (R L Q N : Type) : Type := mkNi {
  fwp : fwpst R L Q;
  nic : N;                              (** DPDK and the hardware *)
  mbufs : Z -> rte_mbuf;
  txs : txst; rxs : rxst }.
Arguments mkNi {R L Q N}. Arguments fwp {R L Q N}. Arguments nic {R L Q N}. Arguments mbufs {R L Q N}.
Arguments txs {R L Q N}. Arguments rxs {R L Q N}.

Section access.
Context {R L Q N : Type}.
Implicit Types s : nist R L Q N.

Definition i_with_fwp (v : fwpst R L Q) s : nist R L Q N := mkNi v (nic s) (mbufs s) (txs s) (rxs s).
Definition i_with_nic (v : N) s : nist R L Q N := mkNi (fwp s) v (mbufs s) (txs s) (rxs s).
Definition i_with_mbufs (v : Z -> rte_mbuf) s : nist R L Q N := mkNi (fwp s) (nic s) v (txs s) (rxs s).
Definition i_with_txs (v : txst) s : nist R L Q N := mkNi (fwp s) (nic s) (mbufs s) v (rxs s).
Definition i_with_rxs (v : rxst) s : nist R L Q N := mkNi (fwp s) (nic s) (mbufs s) (txs s) v.

Definition on_fwp {A} (m : M (fwpst R L Q) A) : M (nist R L Q N) A :=
  fun s => match m (fwp s) with Ok a v => Ok a (i_with_fwp v s) | Panic h => Panic h end.
(** The shared memory. *)
Definition on_shm {A} (m : M eosm A) : M (nist R L Q N) A := on_fwp (on_sys (on_mem m)).

Definition get_tx : M (nist R L Q N) txst := gets txs.
Definition upd_tx (f : txst -> txst) : M (nist R L Q N) unit := modify (fun s => i_with_txs (f (txs s)) s).
Definition get_rx : M (nist R L Q N) rxst := gets rxs.
Definition upd_rx (f : rxst -> rxst) : M (nist R L Q N) unit := modify (fun s => i_with_rxs (f (rxs s)) s).
End access.

Definition t_with_tx (v : Z) (t : txst) : txst :=
  mkTxs v (tx_fl t) (tx_rings t) (burst_cnt t) (send_batch t) (scache t) (missed t) (latency t).
Definition t_with_fl (v : Z) (t : txst) : txst :=
  mkTxs (tx t) v (tx_rings t) (burst_cnt t) (send_batch t) (scache t) (missed t) (latency t).
Definition t_with_rings (f : Z -> tx_ring) (t : txst) : txst :=
  mkTxs (tx t) (tx_fl t) f (burst_cnt t) (send_batch t) (scache t) (missed t) (latency t).
Definition t_with_burst (f : Z -> Z) (t : txst) : txst :=
  mkTxs (tx t) (tx_fl t) (tx_rings t) f (send_batch t) (scache t) (missed t) (latency t).
Definition t_with_batch (f : Z -> Z -> tx_pkt_batch) (t : txst) : txst :=
  mkTxs (tx t) (tx_fl t) (tx_rings t) (burst_cnt t) f (scache t) (missed t) (latency t).
Definition t_with_scache (n : eos_ring_node) (t : txst) : txst :=
  mkTxs (tx t) (tx_fl t) (tx_rings t) (burst_cnt t) (send_batch t) n (missed t) (latency t).
Definition t_with_stats (m l : Z) (t : txst) : txst :=
  mkTxs (tx t) (tx_fl t) (tx_rings t) (burst_cnt t) (send_batch t) (scache t) m l.

Definition x_with_out (f : Z -> Z) (x : rxst) : rxst :=
  mkRxs f (major_core_id x) (minor_core_id x) (dl_tbl x) (prev_collect x) (tot_free_mbuf x) (rx_drop_cnt x).
Definition x_with_core (a b : Z) (x : rxst) : rxst :=
  mkRxs (fix_rx_outs x) a b (dl_tbl x) (prev_collect x) (tot_free_mbuf x) (rx_drop_cnt x).
Definition x_with_dl (f : Z -> Z) (x : rxst) : rxst :=
  mkRxs (fix_rx_outs x) (major_core_id x) (minor_core_id x) f (prev_collect x) (tot_free_mbuf x) (rx_drop_cnt x).
Definition x_with_collect (v : Z) (x : rxst) : rxst :=
  mkRxs (fix_rx_outs x) (major_core_id x) (minor_core_id x) (dl_tbl x) v (tot_free_mbuf x) (rx_drop_cnt x).
Definition x_with_free (v : Z) (x : rxst) : rxst :=
  mkRxs (fix_rx_outs x) (major_core_id x) (minor_core_id x) (dl_tbl x) (prev_collect x) v (rx_drop_cnt x).
Definition x_with_drop (v : Z) (x : rxst) : rxst :=
  mkRxs (fix_rx_outs x) (major_core_id x) (minor_core_id x) (dl_tbl x) (prev_collect x) (tot_free_mbuf x) v.

(** ** DPDK *)

(** Fields of the headers of a packet, in network byte order. *)
Inductive hdr_field : Type :=
| Ip_version_ihl | Ip_next_proto_id | Ip_src_addr | Ip_dst_addr
| Tcp_src_port | Tcp_dst_port | Udp_src_port | Udp_dst_port.

Class Dpdk (S : Type) : Type := {
  rte_pktmbuf_alloc_bulk : Z -> M S (option (list Z));    (** from the pool for sending *)
  rte_eth_tx_burst : Z -> Z -> list Z -> M S Z;
  rte_eth_rx_burst : Z -> Z -> Z -> M S (list Z);
  rte_pktmbuf_free : Z -> M S unit;
  rte_pktmbuf_mtod : Z -> M S Z;
  rte_pktmbuf_data_len : Z -> M S Z;
  hdr : hdr_field -> Z -> M S Z;                          (** of the packet with the data at an address *)
  mca_dl_enqueue : Z -> Z -> Z -> M S Z;
  mca_debug_print : Z -> M S unit }.

Section ops.
Context {R L Q N : Type} `{!CkRing R sl_xcpu_request, !PsList L, !KernelApi (slst R L), !CkRing Q mca_op}.
Context `{!FwpKernel (fwpst R L Q), !Dpdk (nist R L Q N)}.
(** Rounds of loops that wait for the hardware. *)
Variable spin : nat.
Variable pgtbl_introspect : Z -> Z.

Abbreviation NI := (M (nist R L Q N)).

Definition rdtscll : NI Z := on_fwp (on_sys ps_tsc).

(** [cos_tx_cb]: the driver calls it for a packet that it has sent. *)
Definition cos_tx_cb (userdata : Z) : M eosm unit :=
  if userdata =? 0 then ret tt else
  updn userdata (fun n => n_with_cnt (i16 (n_cnt n - 1)) n) ;;
  n <- getn userdata ;;
  if n_cnt n =? 0 then updn userdata (n_with_state PKT_SENT_DONE) else ret tt.

(** ** The sending core *)

Definition get_txr (c : Z) : NI tx_ring := t <- get_tx ;; ret (tx_rings t c).
Definition upd_txr (c : Z) (f : tx_ring -> tx_ring) : NI unit :=
  upd_tx (fun t => t_with_rings (fupd c (f (tx_rings t c)) (tx_rings t)) t).
Definition tr_with_next (v : Z) (r : tx_ring) : tx_ring := mkTxRing (t_r r) (t_state r) v (t_cid r).

(** The stacks with compare-and-swap, as the round that succeeds. *)
Definition __ring_push_tx (n : Z) : NI unit :=
  t <- get_tx ;; upd_txr n (tr_with_next (tx t)) ;; upd_tx (t_with_tx n).
Definition __ring_push_fl (n : Z) : NI unit :=
  t <- get_tx ;; upd_txr n (tr_with_next (tx_fl t)) ;; upd_tx (t_with_fl n).
Definition __ring_pop : NI Z :=
  t <- get_tx ;;
  massert (negb (tx_fl t =? 0)) ;;
  r <- get_txr (tx_fl t) ;;
  upd_tx (t_with_fl (t_next r)) ;;
  ret (tx_fl t).

Definition ninf_tx_init : NI unit :=
  upd_tx (t_with_stats 0 0) ;;
  upd_tx (t_with_fl 1) ;;
  upd_tx (fun t => t_with_rings (fun c =>
    if (1 <=? c) && (c <? EOS_MAX_CHAIN_NUM) then tr_with_next (c + 1) (tx_rings t c)
    else if c =? EOS_MAX_CHAIN_NUM then tr_with_next 0 (tx_rings t c) else tx_rings t c) t) ;;
  upd_tx (t_with_tx 0) ;;
  for_n (Z.to_nat NUM_NIC_PORTS) 0 (fun i => upd_tx (fun t => t_with_burst (fupd i 0 (burst_cnt t)) t)).

Definition ninf_tx_add_ring (r cid : Z) : NI Z :=
  txr <- __ring_pop ;;
  massert (negb (txr =? 0)) ;;
  upd_txr txr (fun t => mkTxRing r 1 (t_next t) cid) ;;
  __ring_push_tx txr ;;
  ret txr.

Definition ninf_tx_del_ring (c : Z) : NI unit :=
  upd_txr c (fun t => mkTxRing (t_r t) 0 (t_next t) (t_cid t)).

(** The descriptors of the packets of a burst.  [batch[i].meta] is read here. *)
Fixpoint fill_mbufs (n : nat) (port i : Z) (ms : list Z) : NI unit :=
  match n with
  | O => ret tt
  | S n =>
      match ms with
      | [] => panic OutOfBounds
      | mb :: ms =>
          t <- get_tx ;;
          let b := send_batch t port i in
          meta <- on_shm (meta_get (scache t) (tb_meta b)) ;;
          modify (fun s => i_with_mbufs (fupd mb
            (mkMbuf (m_pkt meta) (tb_phy b) (tb_rn b) (u16 (m_len meta)) (u16 (m_len meta)) 0) (mbufs s)) s) ;;
          massert (m_len meta <=? EOS_PKT_MAX_SZ) ;;
          fill_mbufs n port (i + 1) ms
      end
  end.

(** [while (left > 0)]: until the port has taken all. *)
Fixpoint tx_burst_loop (fuel : nat) (port : Z) (ms : list Z) : NI unit :=
  match ms with
  | [] => ret tt
  | _ =>
      match fuel with
      | O => panic NoFuel
      | S fuel =>
          nb_tx <- rte_eth_tx_burst port 1 ms ;;
          tx_burst_loop fuel port (drop (Z.to_nat nb_tx) ms)
      end
  end.

Definition ninf_tx_nf_send_burst (port : Z) : NI unit :=
  t <- get_tx ;;
  let cnt := burst_cnt t port in
  if cnt =? 0 then ret tt else
  l <- rte_pktmbuf_alloc_bulk cnt ;;
  match l with
  | None => panic AssertFail
  | Some ms =>
      fill_mbufs (Z.to_nat cnt) port 0 ms ;;
      tx_burst_loop spin port ms ;;
      upd_tx (fun t => t_with_burst (fupd port 0 (burst_cnt t)) t)
  end.

Definition get_phy_addr_ring_node (nf_ring : Z) (node : pkt_meta) : NI Z :=
  r <- on_shm (getr nf_ring) ;; ret (r_phy r + (m_pkt node - nf_ring)).

(** The packet [scache.pkts[i]]. *)
Definition ninf_tx_add_pkt (nf_ring node i : Z) : NI unit :=
  t <- get_tx ;;
  meta <- on_shm (meta_get (scache t) i) ;;
  let port := m_port meta in
  (if (0 <=? port) && (port <? NUM_NIC_PORTS) then ret tt else panic OutOfBounds) ;;
  cnt <- (if burst_cnt t port =? BURST_SIZE then ninf_tx_nf_send_burst port ;; ret 0
          else ret (burst_cnt t port)) ;;
  phy <- get_phy_addr_ring_node nf_ring meta ;;
  upd_tx (fun t => t_with_batch (fupd port (fupd cnt (mkTxPkt node i phy) (send_batch t port)) (send_batch t)) t) ;;
  upd_tx (fun t => t_with_burst (fupd port (cnt + 1) (burst_cnt t)) t).

Definition ninf_tx_flush : NI unit := for_n (Z.to_nat NUM_NIC_PORTS) 0 ninf_tx_nf_send_burst.

Definition ninf_tx_deadline_check : NI unit :=
  now <- rdtscll ;;
  t <- get_tx ;;
  upd_tx (t_with_stats (missed t) (u64 (latency t + (now - n_arrive (scache t))))) ;;
  massert (negb (n_deadline (scache t) =? 0)) ;;
  if now >? n_deadline (scache t) then upd_tx (fun t => t_with_stats (i32 (missed t + 1)) (latency t) t) else ret tt.

(** The packets of one node. *)
Fixpoint tx_node_loop (n : nat) (nf_ring sent i : Z) : NI unit :=
  match n with
  | O => ret tt
  | S n => ninf_tx_add_pkt nf_ring sent i ;; ninf_tx_deadline_check ;; tx_node_loop n nf_ring sent (i + 1)
  end.

(** The nodes that are ready: at most those of the ring. *)
Fixpoint tx_process_loop (fuel : nat) (nf_ring r : Z) : NI Z :=
  match fuel with
  | O => panic NoFuel
  | S fuel =>
      R <- on_shm (getr nf_ring) ;;
      let sent := node_at R (r_mca_head R) in
      n <- on_shm (getn sent) ;;
      if negb (st_is (n_state n) PKT_SENT_READY) then ret r else
      upd_tx (t_with_scache n) ;;
      tx_node_loop (Z.to_nat (n_cnt n)) nf_ring sent 0 ;;
      on_shm (updn sent (n_with_state (if negb (n_cnt n =? 0) then PKT_TXING else PKT_SENT_DONE))) ;;
      on_shm (updr nf_ring (fun r => r_with_mca_head (i32 (r_mca_head r + 1)) r)) ;;
      tx_process_loop fuel nf_ring (r + 1)
  end.

Definition ninf_tx_process (nf_ring : Z) : NI Z :=
  r <- tx_process_loop (S (Z.to_nat EOS_RING_SIZE)) nf_ring 0 ;;
  (if r =? 0 then ret tt else on_shm (faa_pkt_cnt nf_ring (- r)) ;; ret tt) ;;
  ninf_tx_flush ;;
  ret r.

(** [ninf_tx_scan]: [p] is the ring before, 0 for the head of the list. *)
Fixpoint tx_scan_loop (fuel : nat) (p r : Z) : NI Z :=
  match fuel with
  | O => panic NoFuel
  | S fuel =>
      t <- get_tx ;;
      let c := if p =? 0 then tx t else t_next (tx_rings t p) in
      if c =? 0 then ret r else
      x <- get_txr c ;;
      if negb (t_state x =? 0) then
        n <- ninf_tx_process (t_r x) ;; tx_scan_loop fuel c (r + n)
      else
        (if p =? 0 then upd_tx (t_with_tx (t_next x)) else upd_txr p (tr_with_next (t_next x))) ;;
        __ring_push_fl c ;;
        tx_scan_loop fuel p r
  end.
Definition ninf_tx_scan : NI Z := tx_scan_loop (S (Z.to_nat EOS_MAX_CHAIN_NUM)) 0 0.

(** ** The receiving core *)

(** [rte_pktmbuf_free(DPDK_PKT2MBUF(n->pkts[i].pkt))] *)
Definition free_pkt (n : eos_ring_node) (i : Z) : NI unit :=
  m <- on_shm (meta_get n i) ;; rte_pktmbuf_free (m_pkt m - DPDK_PKT_OFF).

Fixpoint free_pairs (k : nat) (n : eos_ring_node) (i : Z) : NI unit :=
  match k with
  | O => ret tt
  | S k => free_pkt n i ;; free_pkt n (i + 1) ;; free_pairs k n (i + 2)
  end.

Definition ninf_pkt_collect (r : Z) : NI Z :=
  R <- on_shm (getr r) ;;
  let a := node_at R (r_head R) in
  n <- on_shm (getn a) ;;
  if st_is (n_state n) PKT_SENT_DONE then
    let cnt := n_cnt n in
    free_pairs (Z.to_nat (cnt / 2)) n 0 ;;
    (if Z.land cnt 1 =? 0 then ret tt else free_pkt n (cnt - 1)) ;;
    on_shm (updn a (n_with_state PKT_EMPTY)) ;;
    on_shm (updr r (fun r => r_with_head (i32 (r_head r + 1)) r)) ;;
    upd_rx (fun x => x_with_free (tot_free_mbuf x + cnt) x) ;;
    ret (1 * EOS_PKT_COLLECT_MULTIP)
  else ret (0 * EOS_PKT_COLLECT_MULTIP).

(** Round robin over the cores of functions. *)
Definition ninf_flow2_core : NI Z :=
  x <- get_rx ;;
  let r := major_core_id x in
  upd_rx (x_with_core (major_core_id x) (minor_core_id x + 1)) ;;
  x <- get_rx ;;
  (if minor_core_id x =? NF_PER_CORE_BATCH then upd_rx (x_with_core (major_core_id x + 1) 0) else ret tt) ;;
  x <- get_rx ;;
  (if major_core_id x =? NF_MAX_CORE then upd_rx (x_with_core NF_MIN_CORE (minor_core_id x)) else ret tt) ;;
  ret r.

(** [chain->first_nf], [chain->last_nf] *)
Definition deref_nf (nf : Z) : NI click_info := if nf =? 0 then panic NullDeref else on_fwp (get_nf nf).

Definition ninf_setup_new_chain (chain cid : Z) : NI Z :=
  c <- on_fwp (get_chain chain) ;;
  f <- deref_nf (ch_first c) ;;
  let nf_in_ring := get_input_ring (nf_shmem f) in
  rx_out <- on_fwp (fk (FK_page_bump_allocn (round_up_to_page FWP_RINGS_SIZE))) ;;
  massert (negb (rx_out =? 0)) ;;
  on_shm (eos_rings_init pgtbl_introspect rx_out) ;;
  l <- deref_nf (ch_last c) ;;
  let nf_out := get_output_ring (nf_shmem l) in
  last_tid <- on_fwp (initaep_tid (ch_last c)) ;;
  _ <- ninf_tx_add_ring nf_out (last_tid + EOS_MAX_CHAIN_NUM) ;;
  let rx_out := get_output_ring rx_out in
  on_fwp (fwp_chain_activate chain) ;;
  tid <- on_fwp (initaep_tid (ch_first c)) ;;
  _ <- on_fwp (on_sys (mca_conn_create rx_out nf_in_ring cid (tid + EOS_MAX_CHAIN_NUM))) ;;
  ret rx_out.

(** *** The key of a packet *)

Definition ntohs (x : Z) : Z := (x mod 256) * 256 + (x / 256) mod 256.

(** The address of the header's packet, or 0. *)
Definition ninf_pkt_ipv4_hdr (pkt : Z) : NI Z :=
  a <- rte_pktmbuf_mtod pkt ;;
  v <- hdr Ip_version_ihl a ;;
  if Z.land (Z.shiftr v 4) 15 =? 4 then ret a else ret 0.

Definition ninf_pkt_is_ipv4 (pkt : Z) : NI bool := h <- ninf_pkt_ipv4_hdr pkt ;; ret (negb (h =? 0)).

Definition ninf_pkt_tcp_hdr (pkt : Z) : NI Z :=
  h <- ninf_pkt_ipv4_hdr pkt ;;
  if h =? 0 then ret 0 else
  p <- hdr Ip_next_proto_id h ;; if negb (p =? IP_PROTOCOL_TCP) then ret 0 else rte_pktmbuf_mtod pkt.
Definition ninf_pkt_udp_hdr (pkt : Z) : NI Z :=
  h <- ninf_pkt_ipv4_hdr pkt ;;
  if h =? 0 then ret 0 else
  p <- hdr Ip_next_proto_id h ;; if negb (p =? IP_PROTOCOL_UDP) then ret 0 else rte_pktmbuf_mtod pkt.

Definition hdr_deref (f : hdr_field) (h : Z) : NI Z := if h =? 0 then panic NullDeref else hdr f h.

Definition ninf_fill_key (pkt : Z) : NI pkt_ipv4_5tuple :=
  h <- ninf_pkt_ipv4_hdr pkt ;;
  p <- hdr_deref Ip_next_proto_id h ;;
  sa <- hdr_deref Ip_src_addr h ;; da <- hdr_deref Ip_dst_addr h ;;
  if p =? IP_PROTOCOL_TCP then
    t <- ninf_pkt_tcp_hdr pkt ;;
    sp <- hdr_deref Tcp_src_port t ;; dp <- hdr_deref Tcp_dst_port t ;; ret (mkKey sa da sp dp p)
  else if p =? IP_PROTOCOL_UDP then
    u <- ninf_pkt_udp_hdr pkt ;;
    sp <- hdr_deref Udp_src_port u ;; dp <- hdr_deref Udp_dst_port u ;; ret (mkKey sa da sp dp p)
  else ret (mkKey sa da 0 0 p).

(** The part of [ninf_fill_key_symmetric] after the call: addresses and ports
    are each put into order. *)
Definition key_sort (k : pkt_ipv4_5tuple) : pkt_ipv4_5tuple :=
  let k := if dst_addr k >? src_addr k
           then mkKey (dst_addr k) (src_addr k) (src_port k) (dst_port k) (proto k) else k in
  if ntohs (dst_port k) >? ntohs (src_port k)
  then mkKey (src_addr k) (dst_addr k) (dst_port k) (src_port k) (proto k) else k.

Definition ninf_fill_key_symmetric (pkt : Z) : NI pkt_ipv4_5tuple := k <- ninf_fill_key pkt ;; ret (key_sort k).

(** *** Packets of a flow *)

(** The ring of the packet's flow, and the flow. *)
Definition ninf_get_nf_ring (mbuf : Z) : NI (Z * Z) :=
  k <- ninf_fill_key_symmetric mbuf ;;
  let cid := ntohs (src_port k) - FLOW_START_PORT in
  massert (cid >=? 0) ;;
  massert (cid <? EOS_MAX_FLOW_NUM) ;;
  x <- get_rx ;;
  ring <- (if fix_rx_outs x cid =? 0 then
             coreid <- ninf_flow2_core ;;
             fix_chain <- on_fwp (fwp_chain_get FWP_CHAIN_CLEANED coreid) ;;
             massert (negb (fix_chain =? 0)) ;;
             ring <- ninf_setup_new_chain fix_chain cid ;;
             upd_rx (fun x => x_with_out (fupd cid ring (fix_rx_outs x)) x) ;;
             ret ring
           else ret (fix_rx_outs x cid)) ;;
  ret (ring, cid).

(** [do ... while (r == -ECOLLET)] *)
Fixpoint rx_send_loop (fuel : nat) (mbuf in_port ring cid : Z) : NI Z :=
  match fuel with
  | O => panic NoFuel
  | S fuel =>
      c <- ninf_pkt_collect ring ;;
      upd_rx (x_with_collect c) ;;
      on_shm (updr ring (fun r => r_with_cached (n_with_cnt 1 (r_cached r)) r)) ;;
      len <- rte_pktmbuf_data_len mbuf ;;
      massert (len <=? EOS_PKT_MAX_SZ) ;;
      arrive <- rdtscll ;;
      x <- get_rx ;;
      let deadline := u64 (arrive + dl_tbl x cid) in
      data <- rte_pktmbuf_mtod mbuf ;;
      r <- on_shm (eos_pkt_send_test ring data len in_port deadline arrive) ;;
      (if r =? 0 then
         R <- on_shm (getr ring) ;; _ <- mca_dl_enqueue cid (dl_tbl x cid) (r_tail R) ;; ret tt
       else ret tt) ;;
      if r =? - ECOLLET then rx_send_loop fuel mbuf in_port ring cid else ret r
  end.

Definition ninf_rx_proc_mbuf (in_port mbuf : Z) : NI unit :=
  massert (negb (mbuf =? 0)) ;;
  ip <- ninf_pkt_is_ipv4 mbuf ;;
  if negb ip then _ <- rte_eth_tx_burst in_port 0 [mbuf] ;; ret tt else
  let! (ring, cid) := ninf_get_nf_ring mbuf in
  massert (negb (ring =? 0)) ;;
  r <- rx_send_loop spin mbuf in_port ring cid ;;
  if negb (r =? 0) then
    rte_pktmbuf_free mbuf ;;
    upd_rx (fun x => x_with_free (tot_free_mbuf x + 1) x) ;;
    upd_rx (fun x => x_with_drop (rx_drop_cnt x + 1) x) ;;
    mca_debug_print cid ;;
    panic AssertFail
  else upd_rx (fun x => x_with_collect (prev_collect x - 1) x).

(** [mbufs[i]] *)
Definition proc_at (mbufs : list Z) (in_port i : Z) : NI unit :=
  match mbufs !! Z.to_nat i with Some m => ninf_rx_proc_mbuf in_port m | None => panic OutOfBounds end.

Fixpoint proc_quads (k : nat) (mbufs : list Z) (in_port i : Z) : NI unit :=
  match k with
  | O => ret tt
  | S k =>
      proc_at mbufs in_port i ;; proc_at mbufs in_port (i + 1) ;;
      proc_at mbufs in_port (i + 2) ;; proc_at mbufs in_port (i + 3) ;;
      proc_quads k mbufs in_port (i + 4)
  end.

(** The loop over groups of four, then the cases 3, 2 and 1 that fall through. *)
Definition ninf_rx_proc_batch (mbufs : list Z) (nbuf in_port : Z) : NI unit :=
  upd_rx (fun x => x_with_free (tot_free_mbuf x - nbuf) x) ;;
  let i := Z.land nbuf (4294967295 - 3) in
  proc_quads (Z.to_nat (i / 4)) mbufs in_port 0 ;;
  let c := Z.land nbuf 3 in
  (if c =? 3 then proc_at mbufs in_port i else ret tt) ;;
  let i := if c =? 3 then i + 1 else i in
  (if (c =? 3) || (c =? 2) then proc_at mbufs in_port i else ret tt) ;;
  let i := if (c =? 3) || (c =? 2) then i + 1 else i in
  (if (c =? 3) || (c =? 2) || (c =? 1) then proc_at mbufs in_port i else ret tt).

(** The inner loop of [rx_collect_all_nf], from flow [i]. *)
Fixpoint collect_flows (n : nat) (i tr : Z) : NI Z :=
  match n with
  | O => ret tr
  | S n =>
      x <- get_rx ;;
      c <- (if fix_rx_outs x i =? 0 then ret 0 else ninf_pkt_collect (fix_rx_outs x i)) ;;
      collect_flows n (i + 1) (tr + c)
  end.

Fixpoint rx_collect_loop (fuel : nat) (burst : Z) : NI Z :=
  match fuel with
  | O => panic NoFuel
  | S fuel =>
      tr <- collect_flows (Z.to_nat EOS_MAX_FLOW_NUM) 0 0 ;;
      let burst := burst - tr in
      if (burst >? 0) && (tr >? 0) then rx_collect_loop fuel burst else ret burst
  end.
(** Every round but the last collects something, so [burst] rounds are enough. *)
Definition rx_collect_all_nf (burst : Z) : NI Z := rx_collect_loop (S (Z.to_nat burst)) burst.

(** One round of [ninf_rx_loop]; the counter [tot_rx], which nothing reads, is
    left out. *)
Definition ninf_rx_round : NI unit :=
  x <- get_rx ;;
  (if tot_free_mbuf x <? 6000 then _ <- rx_collect_all_nf 500 ;; ret tt else ret tt) ;;
  for_n (Z.to_nat NUM_NIC_PORTS) 0 (fun port =>
    ms <- rte_eth_rx_burst port 0 BURST_SIZE ;;
    let nb_rx := Z.of_nat (length ms) in
    if nb_rx >? 0 then ninf_rx_proc_batch ms nb_rx port else ret tt).

(** The deadlines of the flows, relative to arrival. *)
Fixpoint dl_entry (i : nat) : Z :=
  match i with
  | O => 1000 * 2 * 2700
  | S j => u64 (dl_entry j + 1000 * 2700 * (Z.of_nat i / 24))
  end.

Definition ninf_rx_init : NI unit :=
  upd_rx (x_with_core NF_MIN_CORE 0) ;;
  upd_rx (x_with_drop 0) ;;
  upd_rx (fun x => x_with_dl (fun i =>
    if (0 <=? i) && (i <? EOS_MAX_FLOW_NUM) then dl_entry (Z.to_nat i) else dl_tbl x i) x).
End ops.
