(* ===== verification/NinfSpec.v ===== *)
(** * What the cores of the network interface guarantee

    The sending core takes every batch that waits in the ring of a last
    function, and a node goes back to the function only after the driver has
    reported all of its packets.  The receiving core processes each packet of
    a burst once and in order, puts it behind the packets of its flow, and what
    it put there is what the message-passing core moves. *)

From S2P Require Import Prelude Config Heap Ring Sl SlSpec Eos EosSpec Mca McaSpec EosChain Fwp Ninf.

(** ** Taken nodes

    The invariant of a segment says of a node that was taken only that its
    state is such and that its buffers are the same. *)

Lemma region_taken m m' rh g (M' : nat) :
  region m rh g -> (g_M g <= M' <= g_S g)%nat ->
  ring_like (rings m rh) (rings m' rh) ->
  ring_like (r_with_mca_head (i32 (Z.of_nat M')) (rings m (outr rh))) (rings m' (outr rh)) ->
  (forall i, nodes m' (innode rh i) = nodes m (innode rh i)) ->
  (forall i, (g_H g <= i < M')%nat -> taken (n_state (nodes m' (outnode rh i))) /\
     n_pkts (nodes m' (outnode rh i)) = n_pkts (nodes m (outnode rh i))) ->
  (forall i, (M' <= i < g_H g + 128)%nat -> nodes m' (outnode rh i) = nodes m (outnode rh i)) ->
  bytes_same rh m m' -> region m' rh (with_M M' g).
Proof.
  intros [f1 f2 f3 (o1 & o2 & o3) f5 f6 f7 f8 f9 f10 f11 f12 f13 f14 f15 f16] HM [v1 E1] [v2 E2] Ni Nt No Bs.
  split; rewrite ?E1, ?E2; esimp; try done.
  - gsimp. lia.
  - intros i Hi. eapply in_node_keep; [by apply f13|apply Ni| |done|done]. intros Hi'.
    split_and!; try done; [|apply Hi']. intros. by apply Bs, buf_in_seg.
  - intros i Hi. destruct (decide (i < M')%nat) as [Hlt|Hge].
    + destruct (f14 i) as (_ & Pt & _); [lia|]. destruct (Nt i) as [Ht Hp]; [lia|]. unfold out_node_ok.
      split_and!; [|intros _|gsimp; lia].
      * unfold out_state. gsimp. by rewrite decide_True by lia.
      * unfold ptrs in *. rewrite Hp. apply Pt. lia.
    + eapply out_node_keep; [by apply f14|apply No; lia| | |done].
      * gsimp. intros Hi'. split_and!; try done; [|lia]. intros. by apply Bs, buf_in_seg.
      * intros st. unfold out_state. gsimp. repeat case_decide; done || lia.
  - destruct f16 as [[HT Hid]|[HT (b & Hb & Hbz)]]; [left|right]; (split; [done|]).
    + eapply (idle_ext m); rewrite ?E1, ?E2; done.
    + exists b. split; [done|]. destruct (busy_like m m' rh g b); rewrite ?E1, ?E2; try done.
      * intros. by apply Bs, buf_in_seg.
      * exact (Forall_lookup_1 _ _ _ _ f11 Hb).
Qed.

(** ** Reports of the driver *)

(** How often [a] occurs. *)
Definition occ (a : Z) (l : list Z) : nat := length (filter (fun x => x = a) l).

Lemma occ_app a l k : occ a (l ++ k) = (occ a l + occ a k)%nat.
Proof. unfold occ. by rewrite filter_app, length_app. Qed.
Lemma occ_perm a l k : l ≡ₚ k -> occ a l = occ a k.
Proof. intros H. unfold occ. by rewrite H. Qed.
Lemma occ_cons a b l : occ a (b :: l) = ((if decide (b = a) then 1 else 0) + occ a l)%nat.
Proof. unfold occ. rewrite filter_cons. by destruct (decide (b = a)). Qed.
Lemma occ_pos a l : a ∈ l -> (0 < occ a l)%nat.
Proof.
  intros H. unfold occ. destruct (filter (fun x => x = a) l) eqn:E; [|cbn; lia].
  assert (a ∈ filter (fun x => x = a) l) as Hin by (apply list_elem_of_filter; done). rewrite E in Hin. set_solver.
Qed.

Lemma occ_in a l : (0 < occ a l)%nat -> a ∈ l.
Proof.
  unfold occ. destruct (filter (fun x => x = a) l) as [|y k] eqn:E; [cbn; lia|]. intros _.
  assert (y ∈ filter (fun x => x = a) l) as Hin by (rewrite E; by left). by apply list_elem_of_filter in Hin as [-> ?].
Qed.

(** The memory after [cos_tx_cb]. *)
Definition cb_mem (a : Z) (m : eosm) : eosm :=
  if a =? 0 then m else
  let m1 := put_node a (n_with_cnt (i16 (n_cnt (nodes m a) - 1)) (nodes m a)) m in
  if n_cnt (nodes m1 a) =? 0 then put_node a (n_with_state PKT_SENT_DONE (nodes m1 a)) m1 else m1.

Fixpoint callbacks (l : list Z) : M eosm unit :=
  match l with [] => ret tt | a :: l => cos_tx_cb a ;; callbacks l end.

Lemma cos_tx_cb_Ok a m : cos_tx_cb a m = Ok tt (cb_mem a m).
Proof.
  unfold cos_tx_cb, cb_mem. destruct (a =? 0); [done|]. rewrite bind_updn, bind_getn. by destruct (n_cnt _ =? 0).
Qed.

Lemma cb_mem_other a m : rings (cb_mem a m) = rings m /\ bytes (cb_mem a m) = bytes m /\
  (forall b, b <> a -> nodes (cb_mem a m) b = nodes m b) /\ n_pkts (nodes (cb_mem a m) a) = n_pkts (nodes m a).
Proof.
  unfold cb_mem. destruct (a =? 0); [done|]. cbv zeta. destruct (_ =? 0); (split_and!; [done..| |]).
  - intros b Hb. by rewrite !node_ne.
  - by rewrite !node_eq.
  - intros b Hb. by rewrite !node_ne.
  - by rewrite !node_eq.
Qed.

Lemma cb_mem_node a m : a <> 0 -> 0 < n_cnt (nodes m a) <= 8 ->
  n_cnt (nodes (cb_mem a m) a) = n_cnt (nodes m a) - 1 /\
  n_state (nodes (cb_mem a m) a) =
    if n_cnt (nodes m a) =? 1 then PKT_SENT_DONE else n_state (nodes m a).
Proof.
  intros Ha Hc. unfold cb_mem. assert (a =? 0 = false) as -> by (by apply Z.eqb_neq). cbv zeta. rewrite !node_eq.
  esimp. rewrite i16_small by lia. destruct (n_cnt (nodes m a) =? 1) eqn:E.
  - assert (n_cnt (nodes m a) - 1 =? 0 = true) as -> by lia. by rewrite node_eq.
  - assert (n_cnt (nodes m a) - 1 =? 0 = false) as -> by lia. by rewrite node_eq.
Qed.

(** ** Taking batches

    [outs] are the segments of the last functions, [G] their histories when
    the sending core starts to take the batches of [rh], in the memory [m0]. *)

(** A node of which [o] packets are with the driver or queued for it. *)
Definition tx_node (n : eos_ring_node) (o : nat) : Prop :=
  match o with
  | O => n_state n = PKT_SENT_DONE
  | _ => n_state n = PKT_TXING /\ n_cnt n = Z.of_nat o /\ (o <= 8)%nat
  end.

Section taking.
Variable outs : list Z.
Variable G : Z -> ghost.
Variable rh : Z.
Variable m0 : eosm.
Hypothesis outs_apart : forall a b, a ∈ outs -> b ∈ outs -> a <> b -> apart a b.
Hypothesis outs_region : forall r, r ∈ outs -> region m0 r (G r).
Hypothesis rh_outs : rh ∈ outs.

(** The nodes taken so far, [Mc] of them from [rh]. *)
Definition upto (Mc : nat) (r : Z) : nat := if decide (r = rh) then Mc else g_M (G r).
Definition known (Mc : nat) (b : Z) : Prop :=
  exists r i, r ∈ outs /\ (g_H (G r) <= i < upto Mc r)%nat /\ b = outnode r i.

Lemma outnode_pos r i : seg_ok r -> 0 < outnode r i.
Proof. intros (H & _). consts. Z.div_mod_to_equations. lia. Qed.

Lemma known_nz Mc b : known Mc b -> b <> 0.
Proof. intros (r & i & Hr & _ & ->). pose proof (outnode_pos r i (rg_seg _ _ _ (outs_region r Hr))). lia. Qed.

Lemma outnode_apart r r' i j : r ∈ outs -> r' ∈ outs -> r <> r' -> outnode r i <> outnode r' j.
Proof. intros H1 H2 Hne. by destruct (apart_facts r r' i j 0 0 0 0 (outs_apart r r' H1 H2 Hne)) as (_&_&_&_&_&_&_&?&_); [lia..|]. Qed.

Lemma known_next Mc : (g_H (G rh) <= Mc < g_H (G rh) + 128)%nat -> ~ known Mc (outnode rh Mc).
Proof.
  intros HM (r & i & Hr & Hi & E). unfold upto in Hi. destruct (decide (r = rh)) as [->|Hne].
  - apply (outnode_inj rh (g_H (G rh))) in E; lia.
  - revert E. apply outnode_apart; done.
Qed.

Lemma known_S Mc b : (g_H (G rh) <= Mc)%nat -> known (S Mc) b <-> known Mc b \/ b = outnode rh Mc.
Proof.
  intros HM. split.
  - intros (r & i & Hr & Hi & ->). unfold upto in Hi. destruct (decide (r = rh)) as [->|Hne].
    + destruct (decide (i = Mc)) as [->|]; [by right|]. left. exists rh, i. unfold upto. rewrite decide_True by done.
      split_and!; done || lia.
    + left. exists r, i. unfold upto. by rewrite decide_False.
  - intros [(r & i & Hr & Hi & ->)| ->].
    + exists r, i. unfold upto in *. split_and!; try done; try apply Hi. destruct (decide (r = rh)); lia.
    + exists rh, Mc. unfold upto. rewrite decide_True by done. split_and!; done || lia.
Qed.

Lemma known_window Mc r i :
  r ∈ outs -> (upto Mc r <= g_H (G r) + 128)%nat -> (g_H (G r) <= i < g_H (G r) + 128)%nat ->
  known Mc (outnode r i) -> (i < upto Mc r)%nat.
Proof.
  intros Hr Hu Hi (r' & j & Hr' & Hj & E). destruct (decide (r' = r)) as [->|Hne].
  - apply (outnode_inj r (g_H (G r))) in E; lia.
  - exfalso. symmetry in E. revert E. by apply outnode_apart.
Qed.
Lemma known_in Mc r i : r ∈ outs -> ~ known Mc (innode r i).
Proof.
  intros Hr (r' & j & Hr' & _ & E). destruct (decide (r = r')) as [->|Hne].
  - by apply in_out_node in E.
  - by destruct (apart_facts r r' i j 0 0 0 0 (outs_apart r r' Hr Hr' Hne)) as (_&_&_&_&_&?&_&_&_); [lia..|].
Qed.

(** The memory while nodes are taken; of node [Mc], if [due] is given, so many
    packets are not queued yet.  [P] are the nodes of the packets that are
    queued or with the driver. *)
Record JM (Mc : nat) (due : option nat) (P : list Z) (m : eosm) : Prop := mkJM {
  j_bytes : bytes m = bytes m0;
  j_rings : forall b, b <> outr rh -> rings m b = rings m0 b;
  j_ring : ring_like (r_with_mca_head (i32 (Z.of_nat Mc)) (rings m0 (outr rh))) (rings m (outr rh));
  j_nodes : forall b, ~ known Mc b -> (due = None \/ b <> outnode rh Mc) -> nodes m b = nodes m0 b;
  j_pkts : forall b, n_pkts (nodes m b) = n_pkts (nodes m0 b);
  j_tx : forall b, known Mc b -> tx_node (nodes m b) (occ b P);
  j_cur : forall k, due = Some k -> n_cnt (nodes m (outnode rh Mc)) = Z.of_nat (k + occ (outnode rh Mc) P) /\
            (k + occ (outnode rh Mc) P <= 8)%nat;
  j_pend : forall b, b ∈ P -> b = 0 \/ known Mc b \/ (due <> None /\ b = outnode rh Mc) }.

Lemma JM_perm Mc due P P' m : P ≡ₚ P' -> JM Mc due P m -> JM Mc due P' m.
Proof.
  intros HP [j1 j2 j3 j4 j5 j6 j7 j8]. split; try done.
  - intros b Hb. rewrite <- (occ_perm b _ _ HP). by apply j6.
  - intros k Hk. rewrite <- (occ_perm _ _ _ HP). by apply j7.
  - intros b Hb. rewrite <- HP in Hb. by apply j8.
Qed.

#[export] Instance JM_proper Mc due : Proper (Permutation ==> eq ==> iff) (JM Mc due).
Proof. intros P P' HP m ? <-. split; by apply JM_perm. Qed.

(** A packet of the current node is queued. *)
Lemma JM_queue Mc k P m :
  (g_H (G rh) <= Mc < g_H (G rh) + 128)%nat -> JM Mc (Some (S k)) P m -> JM Mc (Some k) (outnode rh Mc :: P) m.
Proof.
  intros HM [j1 j2 j3 j4 j5 j6 j7 j8]. split; try done.
  - intros b Hb [?|Hne]; [done|]. apply j4; [done|by right].
  - intros b Hb. rewrite occ_cons, decide_False; [by apply j6|]. intros <-. by apply (known_next Mc HM).
  - intros k' [= <-]. rewrite occ_cons, decide_True by done. destruct (j7 (S k) eq_refl). lia.
  - intros b [-> |Hb]%elem_of_cons; [right; by right|]. destruct (j8 b Hb) as [?|[?|[_ ?]]]; [by left|right; by left|].
    right. by right.
Qed.

Lemma JM_faa Mc due P m v :
  JM Mc due P m -> JM Mc due P (put_ring (outr rh) (r_with_pkt_cnt v (rings m (outr rh))) m).
Proof.
  intros [j1 j2 j3 j4 j5 j6 j7 j8]. split; try done.
  - intros b Hb. rewrite ring_ne by done. by apply j2.
  - rewrite ring_eq. destruct j3 as [w ->]. by exists v.
Qed.

(** Every segment is in order when nothing is being taken. *)
Lemma JM_region Mc P m r :
  JM Mc None P m -> r ∈ outs -> (g_M (G rh) <= Mc <= g_S (G rh))%nat -> region m r (with_M (upto Mc r) (G r)).
Proof.
  intros [j1 j2 j3 j4 j5 j6 j7 j8] Hr HM. pose proof (outs_region r Hr) as Hreg.
  pose proof (rg_order _ _ _ Hreg) as (o1 & o2 & o3).
  assert (g_M (G r) <= upto Mc r <= g_S (G r))%nat as Hu by (unfold upto; destruct (decide (r = rh)) as [->|]; lia).
  assert (forall a, a ∈ outs -> a <> outr rh) as Ha.
  { intros a Hin. destruct (decide (a = rh)) as [->|Hne]; [apply outr_ne'|].
    by destruct (apart_facts a rh 0 0 0 0 0 0 (outs_apart a rh Hin rh_outs Hne)) as (_&_&?&_); [lia..|]. }
  apply (region_taken m0); try done.
  - rewrite j2 by (by apply Ha). apply ring_like_refl.
  - unfold upto. destruct (decide (r = rh)) as [->|Hne]; [done|].
    destruct (apart_facts r rh 0 0 0 0 0 0 (outs_apart r rh Hr rh_outs Hne)) as (_&_&_&Ho&_); [lia..|].
    rewrite j2 by done. exists (r_pkt_cnt (rings m0 (outr r))). rewrite <- (rg_mca_head _ _ _ Hreg). by destruct (rings m0 (outr r)).
  - intros i. apply j4; [by apply known_in|by left].
  - intros i Hi. split; [|apply j5]. assert (known Mc (outnode r i)) as Hk by (by exists r, i).
    specialize (j6 _ Hk). unfold taken. destruct (occ _ P); [by left|right; apply j6].
  - intros i Hi. apply j4; [|by left]. intros Hk. apply known_window in Hk; try done; lia.
  - intros a _. by rewrite j1.
Qed.

(** The next node is taken: first none of its packets is queued, at last all
    are, and some are not reported yet. *)
Lemma JM_start Mc n P m :
  (g_H (G rh) <= Mc < g_H (G rh) + 128)%nat -> n_cnt (nodes m0 (outnode rh Mc)) = Z.of_nat n -> (n <= 8)%nat ->
  JM Mc None P m -> JM Mc (Some n) P m.
Proof.
  intros HM Hn H8 [j1 j2 j3 j4 j5 j6 j7 j8]. split; try done.
  - intros b Hb _. apply j4; [done|by left].
  - intros k [= <-].
    assert (occ (outnode rh Mc) P = 0)%nat as ->.
    { destruct (occ (outnode rh Mc) P) eqn:E; [done|exfalso].
      assert (outnode rh Mc ∈ P) as Hin by (apply occ_in; lia).
      destruct (j8 _ Hin) as [H0|[Hk|[? _]]]; [|by apply (known_next Mc HM)|done].
      pose proof (outnode_pos rh Mc (rg_seg _ _ _ (outs_region rh rh_outs))). lia. }
    rewrite j4; [|by apply known_next|by left]. rewrite Hn. lia.
  - intros b Hb. destruct (j8 b Hb) as [?|[?|[? _]]]; [by left|right; by left|done].
Qed.

Lemma JM_finish Mc P m :
  (g_H (G rh) <= Mc < g_H (G rh) + 128)%nat -> outnode rh Mc ∈ P -> JM Mc (Some 0%nat) P m ->
  JM (S Mc) None P (put_ring (outr rh) (r_with_mca_head (i32 (r_mca_head (rings m (outr rh)) + 1)) (rings m (outr rh)))
    (put_node (outnode rh Mc) (n_with_state PKT_TXING (nodes m (outnode rh Mc))) m)).
Proof.
  intros HM Hin [j1 j2 j3 j4 j5 j6 j7 j8].
  pose proof (known_next Mc HM) as Hnk. split.
  - done.
  - intros b Hb. rewrite ring_ne by done. rewrite rings_node. by apply j2.
  - rewrite ring_eq. destruct j3 as [v ->]. exists v. esimp. by rewrite i32_succ, Nat2Z.inj_succ.
  - intros b Hb _. rewrite known_S in Hb by lia. rewrite nodes_ring, node_ne by tauto. apply j4; [tauto|]. right. tauto.
  - intros b. rewrite nodes_ring. destruct (decide (b = outnode rh Mc)) as [->|Hne]; [rewrite node_eq; apply j5|rewrite node_ne by done; apply j5].
  - intros b Hb. rewrite known_S in Hb by lia. rewrite nodes_ring. destruct (decide (b = outnode rh Mc)) as [->|Hne].
    + rewrite node_eq. destruct (j7 0%nat eq_refl) as [E1 E2]. pose proof (occ_pos _ _ Hin). cbn [Nat.add] in *.
      destruct (occ (outnode rh Mc) P) eqn:Eo; [lia|]. done.
    + rewrite node_ne by done. apply j6. tauto.
  - done.
  - intros b Hb. rewrite known_S by lia. destruct (j8 b Hb) as [?|[?|[_ ?]]]; tauto.
Qed.

(** The driver reports a packet: one that is not of a function, or another. *)
Lemma JM_cb_0 Mc due P m : JM Mc due (0 :: P) m -> JM Mc due P m.
Proof.
  intros [j1 j2 j3 j4 j5 j6 j7 j8]. split; try done.
  - intros b Hb. specialize (j6 b Hb). rewrite occ_cons, decide_False in j6; [done|]. apply not_eq_sym. by eapply known_nz.
  - intros k Hk. destruct (j7 k Hk) as [E1 E2].
    pose proof (outnode_pos rh Mc (rg_seg _ _ _ (outs_region rh rh_outs))) as Hpos.
    assert (occ (outnode rh Mc) (0 :: P) = occ (outnode rh Mc) P) as Eo by (rewrite occ_cons, decide_False by lia; done).
    rewrite Eo in E1, E2. done.
  - intros b Hb. apply j8. by right.
Qed.

Lemma JM_cb_node Mc due b P m :
  (due = None \/ g_H (G rh) <= Mc < g_H (G rh) + 128)%nat -> b <> 0 ->
  due <> Some 0%nat -> JM Mc due (b :: P) m -> JM Mc due P (cb_mem b m).
Proof.
  intros HM Hb0 Hd [j1 j2 j3 j4 j5 j6 j7 j8]. destruct (cb_mem_other b m) as (C1 & C2 & C3 & C4).
  assert (occ b (b :: P) = S (occ b P)) as Ho by (by rewrite occ_cons, decide_True).
  assert (forall c, c <> b -> occ c (b :: P) = occ c P) as Hne.
  { intros c Hc. rewrite occ_cons, decide_False; [done|congruence]. }
  assert (0 < n_cnt (nodes m b) <= 8) as Hc.
  { destruct (j8 b) as [?|[Hk|[Hdue ->]]]; [by left|done| |].
    - specialize (j6 b Hk). rewrite Ho in j6. destruct j6 as (_ & -> & ?). lia.
    - destruct due as [k|]; [|done]. destruct (j7 k eq_refl) as [E1 E2]. rewrite Ho in E1, E2. lia. }
  destruct (cb_mem_node b m Hb0 Hc) as [N1 N2].
  split.
  - by rewrite C2.
  - intros c Hc'. rewrite C1. by apply j2.
  - by rewrite C1.
  - intros c Hk Hc'. destruct (decide (c = b)) as [->|Hcb]; [|rewrite C3 by done; by apply j4].
    destruct (j8 b) as [?|[?|[? ->]]]; [by left|done..|]. by destruct Hc'.
  - intros c. destruct (decide (c = b)) as [->|Hcb]; [by rewrite C4|by rewrite C3].
  - intros c Hk. destruct (decide (c = b)) as [->|Hcb]; [|rewrite C3, <- Hne by done; by apply j6].
    specialize (j6 b Hk). rewrite Ho in j6. destruct j6 as (T1 & T2 & T3). destruct (occ b P) as [|o] eqn:Eo; cbn [tx_node].
    + rewrite N2, T2. done.
    + rewrite N1, N2, T2, T1. rewrite (proj2 (Z.eqb_neq (Z.of_nat (S (S o))) 1)) by lia. split_and!; lia || done.
  - intros k ->. destruct (j7 k eq_refl) as [E1 E2]. destruct (decide (outnode rh Mc = b)) as [E|Hcb].
    + rewrite <- E in *. rewrite Ho in E1, E2. rewrite N1, E1. lia.
    + rewrite C3, <- Hne by done. done.
  - intros c Hin. apply j8. by right.
Qed.

Lemma JM_cbs Mc due l : forall P m,
  (due = None \/ g_H (G rh) <= Mc < g_H (G rh) + 128)%nat -> due <> Some 0%nat -> JM Mc due (l ++ P) m ->
  exists m', callbacks l m = Ok tt m' /\ JM Mc due P m'.
Proof.
  induction l as [|b l IH]; intros P m HM Hd HJ; cbn [callbacks app] in *; [by exists m|].
  rewrite (bind_Ok _ _ _ _ _ (cos_tx_cb_Ok b m)). apply IH; try done.
  destruct (decide (b = 0)) as [->|Hb]; [|by apply JM_cb_node]. by apply JM_cb_0.
Qed.
End taking.

(** ** Running the operations *)

Section state.
Context {R L Q N : Type}.
Implicit Types s : nist R L Q N.

Definition shm s : eosm := mem (sys (fwp s)).
Definition with_shm (m : eosm) s : nist R L Q N := i_with_fwp (f_with_sys (s_with_mem m (sys (fwp s))) (fwp s)) s.

Lemma with_shm_same s : with_shm (shm s) s = s.
Proof. by destruct s as [[[]]]. Qed.

Lemma n_shm {A B} (o : M eosm A) (k : A -> M (nist R L Q N) B) s a m :
  o (shm s) = Ok a m -> bind (on_shm o) k s = k a (with_shm m s).
Proof. intros E. unfold bind, on_shm, on_fwp, on_sys, on_mem. fold (shm s). by rewrite E. Qed.
Lemma n_read {A B} (f : eosm -> A) (k : A -> M (nist R L Q N) B) s : bind (on_shm (gets f)) k s = k (f (shm s)) s.
Proof. rewrite (n_shm _ _ _ (f (shm s)) (shm s)) by done. by rewrite with_shm_same. Qed.
Lemma n_getr {A} a (k : eos_ring -> M (nist R L Q N) A) s : bind (on_shm (getr a)) k s = k (rings (shm s) a) s.
Proof. apply n_read. Qed.
Lemma n_getn {A} a (k : eos_ring_node -> M (nist R L Q N) A) s : bind (on_shm (getn a)) k s = k (nodes (shm s) a) s.
Proof. apply n_read. Qed.
Lemma n_updn {A} a f (k : unit -> M (nist R L Q N) A) s :
  bind (on_shm (updn a f)) k s = k tt (with_shm (put_node a (f (nodes (shm s) a)) (shm s)) s).
Proof. by apply n_shm. Qed.
Lemma n_updr {A} a f (k : unit -> M (nist R L Q N) A) s :
  bind (on_shm (updr a f)) k s = k tt (with_shm (put_ring a (f (rings (shm s) a)) (shm s)) s).
Proof. by apply n_shm. Qed.
Lemma n_tx {A} (k : txst -> M (nist R L Q N) A) s : bind get_tx k s = k (txs s) s.
Proof. done. Qed.
Lemma n_upd_tx {A} f (k : unit -> M (nist R L Q N) A) s : bind (upd_tx f) k s = k tt (i_with_txs (f (txs s)) s).
Proof. done. Qed.
Lemma n_rx {A} (k : rxst -> M (nist R L Q N) A) s : bind get_rx k s = k (rxs s) s.
Proof. done. Qed.
Lemma n_upd_rx {A} f (k : unit -> M (nist R L Q N) A) s : bind (upd_rx f) k s = k tt (i_with_rxs (f (rxs s)) s).
Proof. done. Qed.
Lemma n_ret {A B} (v : A) (k : A -> M (nist R L Q N) B) s : bind (ret v) k s = k v s.
Proof. done. Qed.
Lemma n_meta {A} n i x (k : pkt_meta -> M (nist R L Q N) A) s :
  0 <= i -> n_pkts n !! Z.to_nat i = Some x -> bind (on_shm (meta_get n i)) k s = k x s.
Proof.
  intros Hi E. rewrite (n_shm _ _ _ x (shm s)); [by rewrite with_shm_same|]. unfold meta_get.
  by rewrite (proj2 (Z.ltb_ge i 0)), E.
Qed.
End state.

(** What the documentation of DPDK promises of the calls of the sending core.
    [inflight] are the nodes, given as user data, of the packets that the ports
    hold.  The pool is large enough; a port with room takes a packet; the
    driver reports each packet once, from within a later call. *)
Class DpdkTxLaws {R L Q N : Type} `{!Dpdk (nist R L Q N)} (inflight : N -> list Z) : Prop := {
  alloc_law : forall cnt (s : nist R L Q N), 0 < cnt <= BURST_SIZE ->
    exists ms v, rte_pktmbuf_alloc_bulk cnt s = Ok (Some ms) (i_with_nic v s) /\
      length ms = Z.to_nat cnt /\ NoDup ms /\ inflight v = inflight (nic s);
  tx_law : forall port ms (s : nist R L Q N), ms <> [] ->
    exists k done m v, rte_eth_tx_burst port 1 ms s = Ok (Z.of_nat k) (i_with_nic v (with_shm m s)) /\
      (1 <= k <= length ms)%nat /\ callbacks done (shm s) = Ok tt m /\
      inflight (nic s) ++ map (fun x => userdata (mbufs s x)) (take k ms) ≡ₚ done ++ inflight v }.

(** *** The queues of the ports *)

Definition queue (t : txst) (p : Z) : list tx_pkt_batch :=
  map (fun i => send_batch t p (Z.of_nat i)) (seq 0 (Z.to_nat (burst_cnt t p))).
Definition queued (t : txst) : list Z :=
  map tb_rn (queue t 0) ++ map tb_rn (queue t 1) ++ map tb_rn (queue t 2) ++ map tb_rn (queue t 3).

(** The queues fit, and what they describe is in the copy of a node. *)
Definition queues_ok (t : txst) : Prop :=
  forall p, 0 <= p < NUM_NIC_PORTS -> 0 <= burst_cnt t p <= BURST_SIZE /\ Forall (fun b => 0 <= tb_meta b < 8) (queue t p).
Definition copy_ok (t : txst) : Prop :=
  length (n_pkts (scache t)) = 8%nat /\ Forall (fun m => m_len m <= EOS_PKT_MAX_SZ) (n_pkts (scache t)).

Definition t_add (p : Z) (b : tx_pkt_batch) (t : txst) : txst :=
  t_with_burst (fupd p (burst_cnt t p + 1) (burst_cnt t))
    (t_with_batch (fupd p (fupd (burst_cnt t p) b (send_batch t p)) (send_batch t)) t).

Lemma queue_add_eq p b t : 0 <= burst_cnt t p -> queue (t_add p b t) p = queue t p ++ [b].
Proof.
  intros Hc. unfold queue, t_add. cbn [burst_cnt send_batch t_with_burst t_with_batch]. rewrite !fupd_eq.
  rewrite Z2Nat.inj_add by lia. change (Z.to_nat 1) with 1%nat. rewrite seq_app, map_app. f_equal.
  - apply map_ext_in. intros i Hi%in_seq. apply fupd_ne. lia.
  - cbn. f_equal. rewrite Z2Nat.id by lia. apply fupd_eq.
Qed.
Lemma queue_add_ne p b t q : q <> p -> queue (t_add p b t) q = queue t q.
Proof. intros H. unfold queue, t_add. cbn [burst_cnt send_batch t_with_burst t_with_batch]. by rewrite !fupd_ne. Qed.

Definition t_clear (p : Z) (t : txst) : txst := t_with_burst (fupd p 0 (burst_cnt t)) t.
Lemma queue_clear_eq p t : queue (t_clear p t) p = [].
Proof. unfold queue, t_clear. cbn [burst_cnt t_with_burst]. by rewrite fupd_eq. Qed.
Lemma queue_clear_ne p t q : q <> p -> queue (t_clear p t) q = queue t q.
Proof. intros H. unfold queue, t_clear. cbn [burst_cnt send_batch t_with_burst]. by rewrite fupd_ne. Qed.

Ltac port_cases p :=
  let E := fresh in
  assert (p = 0 \/ p = 1 \/ p = 2 \/ p = 3) as E by (unfold NUM_NIC_PORTS in *; lia);
  destruct E as [-> |[-> |[-> | ->]]].

Lemma queued_add p b t : 0 <= p < NUM_NIC_PORTS -> 0 <= burst_cnt t p -> queued (t_add p b t) ≡ₚ tb_rn b :: queued t.
Proof.
  intros Hp Hc. unfold queued.
  port_cases p; rewrite queue_add_eq, !queue_add_ne, map_app by done; cbn [map]; solve_Permutation.
Qed.
Lemma queued_clear p t : 0 <= p < NUM_NIC_PORTS -> queued t ≡ₚ map tb_rn (queue t p) ++ queued (t_clear p t).
Proof.
  intros Hp. unfold queued. port_cases p; rewrite queue_clear_eq, !queue_clear_ne by done; cbn [map app]; solve_Permutation.
Qed.

Section sending.
Context {R L Q N : Type} `{!CkRing R sl_xcpu_request, !PsList L, !KernelApi (slst R L), !CkRing Q mca_op}.
Context `{!FwpKernel (fwpst R L Q), !Dpdk (nist R L Q N)}.
Context (inflight : N -> list Z) `{!DpdkTxLaws inflight}.
Variable spin : nat.
Hypothesis spin_burst : (32 <= spin)%nat.
Variable outs : list Z.
Variable G : Z -> ghost.
Variable rh : Z.
Variable m0 : eosm.
Hypothesis outs_apart : forall a b, a ∈ outs -> b ∈ outs -> a <> b -> apart a b.
Hypothesis outs_region : forall r, r ∈ outs -> region m0 r (G r).
Hypothesis rh_outs : rh ∈ outs.
Implicit Types s : nist R L Q N.

Abbreviation J := (JM outs G rh m0).
(** Packets of the current node remain, or there is none. *)
Definition safe_due (Mc : nat) (due : option nat) : Prop :=
  (due = None \/ g_H (G rh) <= Mc < g_H (G rh) + 128)%nat /\ due <> Some 0%nat.

Lemma fill_mbufs_Ok n : forall (i : nat) port ms s,
  length ms = n -> NoDup ms -> copy_ok (txs s) ->
  (forall j, (i <= j < i + n)%nat -> 0 <= tb_meta (send_batch (txs s) port (Z.of_nat j)) < 8) ->
  exists f, fill_mbufs n port (Z.of_nat i) ms s = Ok tt (i_with_mbufs f s) /\
    map (fun x => userdata (f x)) ms = map (fun j => tb_rn (send_batch (txs s) port (Z.of_nat j))) (seq i n) /\
    (forall x, x ∉ ms -> f x = mbufs s x).
Proof.
  induction n as [|n IH]; intros i port ms s Hl Hnd [Hc1 Hc2] Hm.
  { destruct ms; [|done]. exists (mbufs s). split; [by destruct s|done]. }
  destruct ms as [|mb ms]; [done|]. cbn [length] in Hl. apply NoDup_cons in Hnd as [Hn Hnd]. cbn [fill_mbufs]. rewrite n_tx.
  pose proof (Hm i ltac:(lia)) as Hi.
  destruct (lookup_lt_is_Some_2 (n_pkts (scache (txs s))) (Z.to_nat (tb_meta (send_batch (txs s) port (Z.of_nat i))))) as [x Ex];
    [lia|]. rewrite (n_meta _ _ _ _ _ (proj1 Hi) Ex).
  pose proof (Forall_lookup_1 _ _ _ _ Hc2 Ex) as Hlen. cbv beta in Hlen.
  unfold modify at 1, bind at 1. unfold massert. rewrite (proj2 (Z.leb_le _ _) Hlen). rewrite n_ret.
  replace (Z.of_nat i + 1) with (Z.of_nat (S i)) by lia.
  match goal with |- context [fill_mbufs n port _ ms ?s1] => destruct (IH (S i) port ms s1) as (f & E & Hu & Hf) end;
    [lia|done|done|intros j Hj; apply Hm; lia|]. exists f. split; [exact E|]. split.
  - cbn [map seq]. f_equal; [|exact Hu]. rewrite Hf by done. cbn [mbufs i_with_mbufs]. by rewrite fupd_eq.
  - intros y Hy. apply not_elem_of_cons in Hy as [Hy1 Hy2]. rewrite Hf by done. cbn [mbufs i_with_mbufs]. by rewrite fupd_ne.
Qed.

Lemma burst_loop_Ok Mc due rest port fuel : forall ms s,
  (length ms <= fuel)%nat -> safe_due Mc due ->
  J Mc due (inflight (nic s) ++ map (fun x => userdata (mbufs s x)) ms ++ rest) (shm s) ->
  exists v m, tx_burst_loop fuel port ms s = Ok tt (i_with_nic v (with_shm m s)) /\ J Mc due (inflight v ++ rest) m.
Proof.
  induction fuel as [|fuel IH]; intros ms s Hl Hd HJ.
  { destruct ms; [|cbn in Hl; lia]. exists (nic s), (shm s). split; [|done]. rewrite with_shm_same. by destruct s. }
  destruct ms as [|mb ms]; [exists (nic s), (shm s); split; [|done]; rewrite with_shm_same; by destruct s|].
  cbn [tx_burst_loop]. destruct (tx_law port (mb :: ms) s) as (k & dn & m & v & E & Hk & Hcb & HP); [done|].
  rewrite (bind_Ok _ _ _ _ _ E), Nat2Z.id.
  destruct (JM_cbs outs G rh m0 outs_region rh_outs Mc due dn
    (inflight v ++ map (fun x => userdata (mbufs s x)) (drop k (mb :: ms)) ++ rest) (shm s)) as (m' & E' & HJ');
    [apply Hd..| |].
  { eapply JM_perm; [|exact HJ]. rewrite <- (take_drop k (mb :: ms)) at 1. rewrite map_app, <- !app_assoc.
    rewrite (app_assoc (inflight (nic s))), HP. by rewrite <- app_assoc. }
  rewrite Hcb in E'. injection E' as <-.
  destruct (IH (drop k (mb :: ms)) (i_with_nic v (with_shm m s))) as (v' & m' & E2 & HJ2); [|done|exact HJ'|].
  { rewrite length_drop. cbn [length] in *. lia. }
  exists v', m'. split; [exact E2|exact HJ2].
Qed.

(** A burst empties the queue of its port. *)
Lemma send_burst_Ok Mc due port s :
  safe_due Mc due -> 0 <= port < NUM_NIC_PORTS -> queues_ok (txs s) -> burst_cnt (txs s) port = 0 \/ copy_ok (txs s) ->
  J Mc due (inflight (nic s) ++ queued (txs s)) (shm s) ->
  exists s', ninf_tx_nf_send_burst spin port s = Ok tt s' /\
    J Mc due (inflight (nic s') ++ queued (txs s')) (shm s') /\ rxs s' = rxs s /\
    scache (txs s') = scache (txs s) /\ queue (txs s') port = [] /\ burst_cnt (txs s') port = 0 /\
    forall q, q <> port -> queue (txs s') q = queue (txs s) q /\ burst_cnt (txs s') q = burst_cnt (txs s) q.
Proof.
  intros Hd Hp Hq Hc HJ. destruct (Hq port Hp) as [Hb Hm]. unfold ninf_tx_nf_send_burst. rewrite n_tx.
  destruct (burst_cnt (txs s) port =? 0) eqn:E0.
  { apply Z.eqb_eq in E0. exists s. split; [done|]. split_and!; try done. unfold queue. by rewrite E0. }
  apply Z.eqb_neq in E0. destruct Hc as [?|Hc]; [done|]. destruct (alloc_law (burst_cnt (txs s) port) s) as (ms & v & E & Hl & Hnd & Hi); [lia|].
  rewrite (bind_Ok _ _ _ _ _ E).
  destruct (fill_mbufs_Ok (Z.to_nat (burst_cnt (txs s) port)) 0 port ms (i_with_nic v s)) as (f & E1 & Hu & _); [done..| |].
  { intros j Hj. apply (proj1 (Forall_forall _ _) Hm). unfold queue. apply list_elem_of_In, in_map_iff.
    exists j. split; [done|]. apply in_seq. lia. }
  rewrite (bind_Ok _ _ _ _ _ E1).
  destruct (burst_loop_Ok Mc due (queued (t_clear port (txs s))) port spin ms (i_with_mbufs f (i_with_nic v s)))
    as (v' & m & E2 & HJ2); [rewrite Hl; unfold BURST_SIZE in Hb; lia|done| |].
  { eapply JM_perm; [|exact HJ]. cbn [nic mbufs i_with_mbufs i_with_nic]. rewrite Hi, Hu.
    rewrite (queued_clear port (txs s) Hp) at 1. unfold queue. by rewrite map_map. }
  rewrite (bind_Ok _ _ _ _ _ E2). eexists. split; [reflexivity|]. cbn [nic txs rxs i_with_txs i_with_mbufs i_with_nic with_shm i_with_fwp].
  fold (t_clear port (txs s)). split_and!; try done.
  - apply queue_clear_eq.
  - cbn. by rewrite fupd_eq.
  - intros q Hne. split; [by apply queue_clear_ne|]. cbn. by rewrite fupd_ne.
Qed.

Lemma queues_after port t t' :
  0 <= port < NUM_NIC_PORTS -> queues_ok t -> queue t' port = [] -> burst_cnt t' port = 0 ->
  (forall q, q <> port -> queue t' q = queue t q /\ burst_cnt t' q = burst_cnt t q) -> queues_ok t'.
Proof.
  intros Hp Hq Q1 Q2 Q3 q Hr. destruct (decide (q = port)) as [->|Hne].
  - rewrite Q1, Q2. split; [unfold BURST_SIZE; lia|done].
  - destruct (Q3 q Hne) as [-> ->]. by apply Hq.
Qed.

Lemma queues_add p b t :
  0 <= p < NUM_NIC_PORTS -> queues_ok t -> burst_cnt t p < BURST_SIZE -> 0 <= tb_meta b < 8 -> queues_ok (t_add p b t).
Proof.
  intros Hp Hq Hc Hb q Hr. destruct (Hq p Hp) as [C1 C2]. destruct (decide (q = p)) as [->|Hne].
  - rewrite queue_add_eq by lia. split; [unfold t_add; cbn; rewrite fupd_eq; lia|]. apply Forall_app. by split; [|constructor].
  - rewrite queue_add_ne by done. destruct (Hq q Hr) as [D1 D2]. split; [|done]. unfold t_add. cbn. by rewrite fupd_ne.
Qed.

(** A packet is queued, after a burst if the queue of its port is full. *)
Lemma add_pkt_Ok Mc k (i : nat) x s :
  (g_H (G rh) <= Mc < g_H (G rh) + 128)%nat -> (i < 8)%nat -> queues_ok (txs s) -> copy_ok (txs s) ->
  n_pkts (scache (txs s)) !! i = Some x -> 0 <= m_port x < NUM_NIC_PORTS ->
  J Mc (Some (S k)) (inflight (nic s) ++ queued (txs s)) (shm s) ->
  exists s', ninf_tx_add_pkt spin (outr rh) (outnode rh Mc) (Z.of_nat i) s = Ok tt s' /\
    J Mc (Some k) (inflight (nic s') ++ queued (txs s')) (shm s') /\ rxs s' = rxs s /\
    scache (txs s') = scache (txs s) /\ queues_ok (txs s') /\ outnode rh Mc ∈ queued (txs s').
Proof.
  intros HM Hi Hq Hc Hx Hp HJ. unfold ninf_tx_add_pkt. rewrite n_tx.
  rewrite (n_meta _ (Z.of_nat i) x); [|lia|by rewrite Nat2Z.id]. cbv zeta.
  assert ((0 <=? m_port x) && (m_port x <? NUM_NIC_PORTS) = true) as -> by lia. rewrite n_ret.
  set (p := m_port x) in *.
  assert (exists s1, (if burst_cnt (txs s) p =? BURST_SIZE then ninf_tx_nf_send_burst spin p ;; ret 0
      else ret (burst_cnt (txs s) p)) s = Ok (burst_cnt (txs s1) p) s1 /\
    J Mc (Some (S k)) (inflight (nic s1) ++ queued (txs s1)) (shm s1) /\ rxs s1 = rxs s /\
    scache (txs s1) = scache (txs s) /\ queues_ok (txs s1) /\ burst_cnt (txs s1) p < BURST_SIZE) as (s1 & E1 & J1 & X1 & C1 & Q1 & B1).
  { destruct (Hq p Hp) as [Hb _]. destruct (burst_cnt (txs s) p =? BURST_SIZE) eqn:Ef.
    - destruct (send_burst_Ok Mc (Some (S k)) p s) as (s1 & E & J1 & X1 & C1 & Q1 & B1 & O1); try done; [by split; [right|]|by right|].
      rewrite (bind_Ok _ _ _ _ _ E). exists s1. rewrite B1. split; [done|]. split_and!; try done.
      by apply (queues_after p (txs s)).
    - apply Z.eqb_neq in Ef. exists s. split; [done|]. split_and!; try done. lia. }
  rewrite (bind_Ok _ _ _ _ _ E1). unfold get_phy_addr_ring_node. rewrite bind_assoc, n_getr, n_ret.
  rewrite n_upd_tx. set (e := mkTxPkt _ _ _). eexists. split; [reflexivity|].
  destruct (Q1 p Hp) as [Hb1 _].
  cbn [nic txs rxs i_with_txs]. change (t_with_burst _ _) with (t_add p e (txs s1)).
  split; [|split; [done|split; [done|split; [apply queues_add; try done; cbn; lia|]]]];
    [|rewrite queued_add by lia; by left].
  change (shm _) with (shm s1). eapply JM_perm; [|exact (JM_queue _ _ _ _ outs_apart rh_outs _ _ _ _ HM J1)].
  rewrite queued_add by lia. unfold e. cbn [tb_rn]. solve_Permutation.
Qed.

(** ninf_tx_deadline_check changes counters and reads the clock. *)
Lemma deadline_check_Ok s :
  n_deadline (scache (txs s)) <> 0 ->
  exists s', ninf_tx_deadline_check s = Ok tt s' /\ shm s' = shm s /\ nic s' = nic s /\ rxs s' = rxs s /\
    scache (txs s') = scache (txs s) /\ burst_cnt (txs s') = burst_cnt (txs s) /\ send_batch (txs s') = send_batch (txs s).
Proof.
  intros Hd. unfold ninf_tx_deadline_check, rdtscll.
  destruct (on_fwp (on_sys ps_tsc) s) as [now s1|h] eqn:E; [|done]. rewrite (bind_Ok _ _ _ _ _ E).
  unfold on_fwp, on_sys in E. cbn in E. injection E as <- <-.
  rewrite n_tx, n_upd_tx. unfold massert. cbn [txs i_with_fwp].
  rewrite (proj2 (Z.eqb_neq _ _) Hd). cbn [negb]. rewrite n_ret.
  destruct (_ >? _); eexists; (split; [reflexivity|]); done.
Qed.

(** The packets of a node are queued. *)
Lemma node_loop_Ok Mc n : forall (i : nat) s,
  (g_H (G rh) <= Mc < g_H (G rh) + 128)%nat -> (i + n <= 8)%nat -> queues_ok (txs s) -> copy_ok (txs s) ->
  n_deadline (scache (txs s)) <> 0 ->
  (forall j x, (j < i + n)%nat -> n_pkts (scache (txs s)) !! j = Some x -> 0 <= m_port x < NUM_NIC_PORTS) ->
  J Mc (Some n) (inflight (nic s) ++ queued (txs s)) (shm s) ->
  exists s', tx_node_loop spin n (outr rh) (outnode rh Mc) (Z.of_nat i) s = Ok tt s' /\
    J Mc (Some 0%nat) (inflight (nic s') ++ queued (txs s')) (shm s') /\ rxs s' = rxs s /\
    scache (txs s') = scache (txs s) /\ queues_ok (txs s') /\ ((0 < n)%nat -> outnode rh Mc ∈ queued (txs s')).
Proof.
  induction n as [|n IH]; intros i s HM Hi Hq Hc Hd Hp HJ; cbn [tx_node_loop].
  { exists s. split_and!; done || lia. }
  destruct (lookup_lt_is_Some_2 (n_pkts (scache (txs s))) i) as [x Hx]; [destruct Hc as [-> _]; lia|].
  destruct (add_pkt_Ok Mc n i x s) as (s1 & E1 & J1 & X1 & C1 & Q1 & I1); try done; [lia|by apply (Hp i); [lia|]|].
  rewrite (bind_Ok _ _ _ _ _ E1).
  destruct (deadline_check_Ok s1) as (s2 & E2 & S2 & N2 & X2 & C2 & B2 & D2); [by rewrite C1|].
  rewrite (bind_Ok _ _ _ _ _ E2). replace (Z.of_nat i + 1) with (Z.of_nat (S i)) by lia.
  assert (forall p, queue (txs s2) p = queue (txs s1) p) as Hqq by (intros p; unfold queue; by rewrite B2, D2).
  assert (queued (txs s2) = queued (txs s1)) as Hqd by (unfold queued; by rewrite !Hqq).
  destruct (IH (S i) s2) as (s3 & E3 & J3 & X3 & C3 & Q3 & I3).
  - done.
  - lia.
  - intros p Hr. rewrite Hqq, B2. by apply Q1.
  - unfold copy_ok. by rewrite C2, C1.
  - by rewrite C2, C1.
  - rewrite C2, C1. intros j y Hj. apply Hp. lia.
  - by rewrite N2, Hqd, S2.
  - exists s3. split; [exact E3|]. rewrite X3, X2, X1, C3, C2, C1. split_and!; try done. intros _.
    destruct n; [|apply I3; lia]. injection E3 as <-. by rewrite Hqd.
Qed.

Hypothesis waiting_ok : forall i b, (g_M (G rh) <= i)%nat -> g_outs (G rh) !! i = Some b ->
  b_deadline b <> 0 /\ Forall (fun p => 0 <= p_port p < NUM_NIC_PORTS) (b_pkts b) /\
  Forall (fun m => m_len m <= EOS_PKT_MAX_SZ) (n_pkts (nodes m0 (outnode rh i))).

(** Nothing is queued, or the copy of a node is there to describe it. *)
Definition copied (t : txst) : Prop :=
  (forall p, 0 <= p < NUM_NIC_PORTS -> burst_cnt t p = 0) \/ copy_ok t.

(** The next node of the ring. *)
Lemma next_node Mc due P m : J Mc due P m ->
  node_at (rings m (outr rh)) (r_mca_head (rings m (outr rh))) = outnode rh Mc.
Proof.
  intros HJ. destruct (j_ring _ _ _ _ _ _ _ _ HJ) as [v ->]. esimp.
  apply (out_node_at m0 rh (G rh)); [by apply outs_region|]. esimp. exact (rg_out_ring _ _ _ (outs_region rh rh_outs)).
Qed.

(** No node is ready behind the last batch. *)
Lemma last_node P m : J (g_S (G rh)) None P m -> n_state (nodes m (outnode rh (g_S (G rh)))) <> PKT_SENT_READY.
Proof.
  intros HJ. pose proof (outs_region rh rh_outs) as Hr. pose proof (rg_order _ _ _ Hr) as (o1 & o2 & o3).
  destruct (decide (g_S (G rh) < g_H (G rh) + 128)%nat) as [Hlt|Hge].
  - rewrite (j_nodes _ _ _ _ _ _ _ _ HJ); [|by apply known_next; try done; lia|by left].
    destruct (rg_out_nodes _ _ _ Hr (g_S (G rh))) as (St & _); [lia|]. unfold out_state in St.
    rewrite !decide_False in St by lia. by rewrite St.
  - replace (g_S (G rh)) with (g_H (G rh) + 128)%nat by lia. rewrite outnode_wrap.
    assert (known outs G rh (g_S (G rh)) (outnode rh (g_H (G rh)))) as Hk.
    { exists rh, (g_H (G rh)). unfold upto. rewrite decide_True by done. split_and!; done || lia. }
    pose proof (j_tx _ _ _ _ _ _ _ _ HJ _ Hk) as Ht. destruct (occ _ P); [by rewrite Ht|]. destruct Ht as [-> _]. done.
Qed.

(** One batch is taken. *)
Lemma take_one Mc s :
  (g_M (G rh) <= Mc < g_S (G rh))%nat -> queues_ok (txs s) ->
  J Mc None (inflight (nic s) ++ queued (txs s)) (shm s) ->
  let n := nodes (shm s) (outnode rh Mc) in
  n_state n = PKT_SENT_READY /\ negb (n_cnt n =? 0) = true /\
  exists s', tx_node_loop spin (Z.to_nat (n_cnt n)) (outr rh) (outnode rh Mc) 0 (i_with_txs (t_with_scache n (txs s)) s) = Ok tt s' /\
    J Mc (Some 0%nat) (inflight (nic s') ++ queued (txs s')) (shm s') /\ rxs s' = rxs s /\
    queues_ok (txs s') /\ copy_ok (txs s') /\ outnode rh Mc ∈ queued (txs s').
Proof.
  intros HM Hq HJ n. pose proof (outs_region rh rh_outs) as Hr. pose proof (rg_order _ _ _ Hr) as (o1 & o2 & o3).
  assert (g_H (G rh) <= Mc < g_H (G rh) + 128)%nat as HMc by lia.
  assert (n = nodes m0 (outnode rh Mc)) as En.
  { apply (j_nodes _ _ _ _ _ _ _ _ HJ); [by apply known_next|by left]. }
  destruct (rg_out_nodes _ _ _ Hr Mc) as (St & Pt & Hb); [lia|]. destruct (Hb ltac:(lia)) as (b & Eb & c1 & c2 & c3 & c4 & c5).
  rewrite <- En in *. unfold out_state in St. rewrite decide_False, decide_True in St by lia.
  destruct (Forall_lookup_1 _ _ _ _ (rg_outs _ _ _ Hr) Eb) as [Hl _].
  destruct (waiting_ok Mc b ltac:(lia) Eb) as (W1 & W2 & W3). rewrite <- En in W3.
  split; [done|]. split; [rewrite c1; apply negb_true_iff, Z.eqb_neq; lia|].
  assert (copy_ok (t_with_scache n (txs s))) as Hc by (split; [apply (Pt ltac:(lia))|exact W3]).
  rewrite c1, Nat2Z.id.
  destruct (node_loop_Ok Mc (length (b_pkts b)) 0 (i_with_txs (t_with_scache n (txs s)) s)) as (s' & E & J' & X & C & Q' & I); try done.
  - lia.
  - cbn. congruence.
  - cbn [txs i_with_txs scache t_with_scache]. intros j x Hj Hx. destruct (lookup_lt_is_Some_2 (b_pkts b) j) as [p Hp]; [lia|].
    destruct (c5 j p Hp) as (x' & Hx' & _ & Hd & _). assert (x' = x) as -> by congruence.
    rewrite Hd. exact (Forall_lookup_1 _ _ _ _ W2 Hp).
  - apply (JM_start outs G rh m0 outs_apart outs_region rh_outs); try done; [by rewrite <- En|lia].
  - exists s'. split; [exact E|]. split_and!; try done; [|apply I; lia]. unfold copy_ok. by rewrite C.
Qed.

(** All batches are taken. *)
Lemma process_loop_Ok fuel : forall (Mc : nat) r s,
  (g_S (G rh) - Mc < fuel)%nat -> (g_M (G rh) <= Mc <= g_S (G rh))%nat -> queues_ok (txs s) -> copied (txs s) ->
  J Mc None (inflight (nic s) ++ queued (txs s)) (shm s) ->
  exists s', tx_process_loop spin fuel (outr rh) r s = Ok (r + Z.of_nat (g_S (G rh) - Mc)) s' /\
    J (g_S (G rh)) None (inflight (nic s') ++ queued (txs s')) (shm s') /\ rxs s' = rxs s /\
    queues_ok (txs s') /\ copied (txs s').
Proof.
  induction fuel as [|fuel IH]; intros Mc r s Hf HM Hq Hc HJ; [lia|]. cbn [tx_process_loop].
  rewrite n_getr, (next_node _ _ _ _ HJ), n_getn. pose proof (rg_order _ _ _ (outs_region rh rh_outs)) as (o1 & o2 & o3).
  destruct (decide (Mc = g_S (G rh))) as [->|Hne].
  { unfold st_is. rewrite bool_decide_eq_false_2 by (by apply (last_node _ _ HJ)). cbn [negb].
    exists s. rewrite Nat.sub_diag, Z.add_0_r. done. }
  destruct (take_one Mc s) as (St & Hz & s1 & E1 & J1 & X1 & Q1 & C1 & I1); [lia|done..|].
  rewrite St. change (negb (st_is PKT_SENT_READY PKT_SENT_READY)) with false. cbv iota. rewrite n_upd_tx.
  rewrite (bind_Ok _ _ _ _ _ E1), Hz, n_updn, n_updr.
  match goal with |- context [tx_process_loop spin fuel _ _ ?s2] => destruct (IH (S Mc) (r + 1) s2) as (s' & E & J' & X' & Q' & C') end.
  - lia.
  - lia.
  - done.
  - by right.
  - refine (JM_finish outs G rh m0 outs_apart rh_outs _ _ _ _ _ J1); [lia|]. apply elem_of_app. by right.
  - exists s'. rewrite E, X'. split; [f_equal; lia|]. done.
Qed.

Lemma flush_Ok' n : forall p s,
  0 <= p -> p + Z.of_nat n = NUM_NIC_PORTS -> queues_ok (txs s) -> copied (txs s) ->
  J (g_S (G rh)) None (inflight (nic s) ++ queued (txs s)) (shm s) ->
  (forall q, 0 <= q < p -> burst_cnt (txs s) q = 0) ->
  exists s', for_n n p (ninf_tx_nf_send_burst spin) s = Ok tt s' /\
    J (g_S (G rh)) None (inflight (nic s') ++ queued (txs s')) (shm s') /\ rxs s' = rxs s /\
    (forall q, 0 <= q < NUM_NIC_PORTS -> burst_cnt (txs s') q = 0).
Proof.
  induction n as [|n IH]; intros p s H0 Hn Hq Hc HJ Hb; cbn [for_n].
  { exists s. split_and!; try done. intros q Hr. apply Hb. lia. }
  destruct (send_burst_Ok (g_S (G rh)) None p s) as (s1 & E1 & J1 & X1 & C1 & Q1 & B1 & O1); try done; [by split; [left|]|lia| |].
  { destruct Hc as [Hc|Hc]; [left; apply Hc; lia|by right]. }
  rewrite (bind_Ok _ _ _ _ _ E1). destruct (IH (p + 1) s1) as (s' & E & J' & X' & B'); try done; try lia.
  - apply (queues_after p (txs s)); try done. lia.
  - destruct Hc as [Hc|Hc]; [left|right; unfold copy_ok; by rewrite C1].
    intros q Hr. destruct (decide (q = p)) as [->|Hne]; [done|]. rewrite (proj2 (O1 q Hne)). by apply Hc.
  - intros q Hr. destruct (decide (q = p)) as [->|Hne]; [done|]. rewrite (proj2 (O1 q Hne)). apply Hb. lia.
  - exists s'. split; [exact E|]. rewrite X', X1. done.
Qed.
End sending.

(** ** The invariant of the sending core

    A node that was taken is being sent as long as the driver has packets of
    it, counts them, and is done when it has none; the driver has packets of no
    other node. *)
Section sent.
Context {R L Q N : Type} `{!CkRing R sl_xcpu_request, !PsList L, !KernelApi (slst R L), !CkRing Q mca_op}.
Context `{!FwpKernel (fwpst R L Q), !Dpdk (nist R L Q N)}.
Context (inflight : N -> list Z) `{!DpdkTxLaws inflight}.
Variable outs : list Z.
Hypothesis outs_apart : forall a b, a ∈ outs -> b ∈ outs -> a <> b -> apart a b.
Implicit Types s : nist R L Q N.

Record tx_inv (G : Z -> ghost) s : Prop := mkTxInv {
  ti_region : forall r, r ∈ outs -> region (shm s) r (G r);
  ti_node : forall r i, r ∈ outs -> (g_H (G r) <= i < g_M (G r))%nat ->
    tx_node (nodes (shm s) (outnode r i)) (occ (outnode r i) (inflight (nic s)));
  ti_known : forall a, a ∈ inflight (nic s) ->
    a = 0 \/ exists r i, r ∈ outs /\ (g_H (G r) <= i < g_M (G r))%nat /\ a = outnode r i;
  ti_queues : forall p, 0 <= p < NUM_NIC_PORTS -> burst_cnt (txs s) p = 0 }.

Lemma queues_empty t : (forall p, 0 <= p < NUM_NIC_PORTS -> burst_cnt t p = 0) -> queued t = [] /\ queues_ok t.
Proof.
  intros H. split.
  - unfold queued, queue. by rewrite !H by (unfold NUM_NIC_PORTS; lia).
  - intros p Hp. unfold queue. rewrite H by done. split; [unfold BURST_SIZE; lia|done].
Qed.

(** From the invariant to the state in which nodes are taken, and back. *)
Lemma tx_inv_start G s rh : tx_inv G s -> rh ∈ outs ->
  JM outs G rh (shm s) (g_M (G rh)) None (inflight (nic s) ++ queued (txs s)) (shm s).
Proof.
  intros [t1 t2 t3 t4] Hrh. destruct (queues_empty _ t4) as [-> _]. rewrite app_nil_r.
  assert (forall r, upto G rh (g_M (G rh)) r = g_M (G r)) as Hu.
  { intros r. unfold upto. by destruct (decide (r = rh)) as [->|]. }
  split; try done.
  - exists (r_pkt_cnt (rings (shm s) (outr rh))). rewrite <- (rg_mca_head _ _ _ (t1 rh Hrh)). by destruct (rings _ _).
  - intros b (r & i & Hr & Hi & ->). rewrite Hu in Hi. by apply t2.
  - intros b Hb. destruct (t3 b Hb) as [?|(r & i & Hr & Hi & ->)]; [by left|right; left]. exists r, i. by rewrite Hu.
Qed.

Lemma tx_inv_end G s0 s rh :
  tx_inv G s0 -> rh ∈ outs -> (forall p, 0 <= p < NUM_NIC_PORTS -> burst_cnt (txs s) p = 0) ->
  JM outs G rh (shm s0) (g_S (G rh)) None (inflight (nic s) ++ queued (txs s)) (shm s) ->
  tx_inv (fupd rh (with_M (g_S (G rh)) (G rh)) G) s.
Proof.
  intros [t1 t2 t3 t4] Hrh Hb HJ. destruct (queues_empty _ Hb) as [Hq _]. rewrite Hq, app_nil_r in HJ.
  assert (forall r, g_M (fupd rh (with_M (g_S (G rh)) (G rh)) G r) = upto G rh (g_S (G rh)) r /\
    g_H (fupd rh (with_M (g_S (G rh)) (G rh)) G r) = g_H (G r)) as Hu.
  { intros r. unfold upto, fupd. by destruct (decide (r = rh)) as [->|]. }
  assert (forall r, fupd rh (with_M (g_S (G rh)) (G rh)) G r = with_M (upto G rh (g_S (G rh)) r) (G r)) as Hg.
  { intros r. unfold upto, fupd. destruct (decide (r = rh)) as [->|]; [done|]. by destruct (G r). }
  pose proof (rg_order _ _ _ (t1 rh Hrh)) as (o1 & o2 & o3). split.
  - intros r Hr. rewrite Hg. eapply JM_region; try done. lia.
  - intros r i Hr. destruct (Hu r) as [-> ->]. intros Hi. apply (j_tx _ _ _ _ _ _ _ _ HJ). by exists r, i.
  - intros a Ha. destruct (j_pend _ _ _ _ _ _ _ _ HJ a Ha) as [?|[(r & i & Hr & Hi & ->)|[? _]]]; [by left| |done].
    right. exists r, i. destruct (Hu r) as [-> ->]. done.
  - done.
Qed.

(** The sending core takes all waiting batches of a segment. *)
Lemma tx_process_inv spin G s rh :
  (32 <= spin)%nat -> tx_inv G s -> rh ∈ outs ->
  (forall i b, (g_M (G rh) <= i)%nat -> g_outs (G rh) !! i = Some b ->
     b_deadline b <> 0 /\ Forall (fun p => 0 <= p_port p < NUM_NIC_PORTS) (b_pkts b) /\
     Forall (fun m => m_len m <= EOS_PKT_MAX_SZ) (n_pkts (nodes (shm s) (outnode rh i)))) ->
  exists s', ninf_tx_process spin (outr rh) s = Ok (Z.of_nat (g_S (G rh) - g_M (G rh))) s' /\
    tx_inv (fupd rh (with_M (g_S (G rh)) (G rh)) G) s' /\ rxs s' = rxs s.
Proof.
  intros Hs Ht Hrh Hw. pose proof Ht as [t1 t2 t3 t4]. pose proof (tx_inv_start G s rh Ht Hrh) as J0.
  destruct (queues_empty _ t4) as [_ Hq]. pose proof (rg_order _ _ _ (t1 rh Hrh)) as (o1 & o2 & o3).
  unfold ninf_tx_process.
  destruct (process_loop_Ok inflight spin Hs outs G rh (shm s) outs_apart t1 Hrh Hw (S (Z.to_nat EOS_RING_SIZE)) (g_M (G rh)) 0 s)
    as (s1 & E1 & J1 & X1 & Q1 & C1); try done; [change (Z.to_nat EOS_RING_SIZE) with 128%nat; lia|lia|by left|].
  rewrite (bind_Ok _ _ _ _ _ E1), Z.add_0_l. set (r := Z.of_nat (g_S (G rh) - g_M (G rh))).
  assert (exists s2, (if r =? 0 then ret tt else on_shm (faa_pkt_cnt (outr rh) (- r)) ;; ret tt) s1 = Ok tt s2 /\
    JM outs G rh (shm s) (g_S (G rh)) None (inflight (nic s2) ++ queued (txs s2)) (shm s2) /\ rxs s2 = rxs s1 /\
    txs s2 = txs s1) as (s2 & E2 & J2 & X2 & T2).
  { destruct (r =? 0); [by exists s1|]. erewrite (n_shm (faa_pkt_cnt (outr rh) (- r))) by reflexivity. eexists. split; [reflexivity|].
    split; [|done]. by apply JM_faa. }
  rewrite (bind_Ok _ _ _ _ _ E2). unfold ninf_tx_flush.
  destruct (flush_Ok' inflight spin Hs outs G rh (shm s) t1 Hrh (Z.to_nat NUM_NIC_PORTS) 0 s2) as (s3 & E3 & J3 & X3 & B3); try done.
  - by rewrite T2.
  - by rewrite T2.
  - lia.
  - rewrite (bind_Ok _ _ _ _ _ E3). exists s3. split; [done|]. split; [|by rewrite X3, X2, X1]. by eapply tx_inv_end.
Qed.

(** A function collects the nodes that are done; none of them is with the
    driver. *)
Lemma collect_tx_inv G s rh :
  tx_inv G s -> rh ∈ outs ->
  exists n s', on_shm (eos_pkt_collect rh (outr rh)) s = Ok (Z.of_nat n) s' /\
    tx_inv (fupd rh (with_H (g_H (G rh) + n) (G rh)) G) s' /\
    forall i, (g_H (G rh) <= i < g_H (G rh) + n)%nat -> outnode rh i ∉ inflight (nic s).
Proof.
  intros [t1 t2 t3 t4] Hrh. destruct (collect_Ok _ _ _ (t1 rh Hrh)) as (n & m & E & Hn & _ & Hr & Hl & _ & Hd & Hk).
  pose proof (rg_order _ _ _ (t1 rh Hrh)) as (o1 & o2 & o3).
  assert (forall i, (g_H (G rh) <= i < g_H (G rh) + n)%nat -> outnode rh i ∉ inflight (nic s)) as Hno.
  { intros i Hi Hin. apply occ_pos in Hin. pose proof (t2 rh i Hrh ltac:(lia)) as Ht. pose proof (Hd i Hi) as St.
    destruct (occ _ _); [lia|]. destruct Ht as [Ht _]. by rewrite St in Ht. }
  exists n, (with_shm m s). split; [|split; [|exact Hno]].
  { unfold on_shm, on_fwp, on_sys, on_mem. fold (shm s). by rewrite E. }
  set (G' := fupd rh _ G). assert (forall r, g_M (G' r) = g_M (G r)) as HM.
  { intros r. unfold G', fupd. by destruct (decide (r = rh)) as [->|]. }
  assert (G' rh = with_H (g_H (G rh) + n) (G rh)) as Grh by apply fupd_eq.
  assert (forall r, r <> rh -> G' r = G r) as Gr by (intros; by apply fupd_ne).
  split.
  - intros r Hin. destruct (decide (r = rh)) as [->|Hne]; [by rewrite Grh|]. rewrite Gr by done.
    eapply seg_same_region; [|by apply t1]. eapply local_same; [exact Hl|]. by apply outs_apart.
  - intros r i Hin. rewrite HM. destruct (decide (r = rh)) as [->|Hne].
    + rewrite Grh. cbn [g_H with_H]. intros Hi. change (shm (with_shm m s)) with m. rewrite Hk by lia. apply t2; [done|lia].
    + rewrite Gr by done. intros Hi. change (shm (with_shm m s)) with m.
      destruct (local_same rh r _ _ Hl (outs_apart _ _ Hrh Hin (not_eq_sym Hne))) as (_ & _ & Hns & _).
      rewrite (proj2 (Hns i)). by apply t2.
  - intros a Ha. destruct (t3 a Ha) as [?|(r & i & Hin & Hi & ->)]; [by left|right]. exists r, i.
    rewrite HM. split; [done|]. split; [|done]. destruct (decide (r = rh)) as [->|Hne]; [|by rewrite Gr].
    rewrite Grh. cbn [g_H with_H]. split; [|lia]. destruct (decide (g_H (G rh) + n <= i)%nat); [done|].
    exfalso. apply (Hno i); [lia|done].
  - done.
Qed.
End sent.

