(* ===== verification/NinfRx.v ===== *)
(** * What the receiving core puts into the rings of the flows

    The ring of a flow and its history, what the core does with a packet when
    there is room and when there is none, and that the message-passing core
    finds there the batches that the theorem on chains asks for. *)

From S2P Require Import Prelude Config Heap Ring Sl SlSpec SlXcpu Eos EosSpec Mca McaSpec EosChain Fwp FwpSpec Ninf NinfSpec.

(** ** The ring of a flow *)

(** The batches ever put into the ring, how many were collected and moved, and
    the packet that the cache holds back. *)
Record rxhist : Type := mkRxh { x_outs : list batch; x_H : nat; x_M : nat; x_part : list packet }.
Definition x_S (h : rxhist) : nat := length (x_outs h).
Definition x_pkts (h : rxhist) : list packet := all_pkts (x_outs h) ++ x_part h.

(** A batch of the receiving core has one packet. *)
Definition single (b : batch) : Prop := exists p, b_pkts b = [p] /\ pkt_ok p.

Record rx_node (m : eosm) (n : eos_ring_node) (h : rxhist) (i : nat) : Prop := mkRxNode {
  xn_done : (i < x_M h)%nat -> n_state n = PKT_SENT_DONE /\ n_cnt n = 1;
  xn_ready : (x_M h <= i < x_S h)%nat -> n_state n = PKT_SENT_READY /\ exists b, x_outs h !! i = Some b /\ carries m n b;
  xn_empty : (x_S h <= i)%nat -> n_state n = PKT_EMPTY;
  xn_len : (i < x_S h)%nat -> length (n_pkts n) = 8%nat }.

(** The ring is the output ring of the pages at [rb]. *)
Record rx_ring (m : eosm) (rb : Z) (h : rxhist) : Prop := mkRxRing {
  xr_ring : r_ring (rings m (outr rb)) = outr rb + sizeof_ring;
  xr_order : (x_H h <= x_M h <= x_S h)%nat /\ (x_S h <= x_H h + 128)%nat;
  xr_head : r_head (rings m (outr rb)) = i32 (Z.of_nat (x_H h));
  xr_tail : r_tail (rings m (outr rb)) = i32 (Z.of_nat (x_S h));
  xr_mca : r_mca_head (rings m (outr rb)) = i32 (Z.of_nat (x_M h));
  xr_single : Forall single (x_outs h);
  xr_nodes : forall i, (x_H h <= i < x_H h + 128)%nat -> rx_node m (nodes m (outnode rb i)) h i;
  xr_state : n_state (r_cached (rings m (outr rb))) = PKT_SENT_READY;
  xr_len : length (n_pkts (r_cached (rings m (outr rb)))) = 8%nat;
  xr_part : (x_part h = [] /\ n_idx (r_cached (rings m (outr rb))) = 0) \/
    exists q, x_part h = [q] /\ pkt_ok q /\ n_idx (r_cached (rings m (outr rb))) = 1 /\
      exists d, n_pkts (r_cached (rings m (outr rb))) !! 0%nat = Some d /\ describes m d q }.

(** What an operation on the ring leaves alone. *)
Definition rx_local (rb : Z) (m m' : eosm) : Prop :=
  (forall a, a <> outr rb -> rings m' a = rings m a) /\
  (forall a, (forall i, a <> outnode rb i) -> nodes m' a = nodes m a) /\ bytes m' = bytes m.

Lemma rx_local_refl rb m : rx_local rb m m.
Proof. done. Qed.
Lemma rx_local_trans rb m1 m2 m3 : rx_local rb m1 m2 -> rx_local rb m2 m3 -> rx_local rb m1 m3.
Proof.
  intros (a1 & a2 & a3) (b1 & b2 & b3). split_and!; intros; [by rewrite b1, a1|by rewrite b2, a2|congruence].
Qed.
Lemma rx_local_ring rb m r : rx_local rb m (put_ring (outr rb) r m).
Proof. split_and!; [intros a Ha; by rewrite ring_ne|done..]. Qed.

(** The part that depends on the cache. *)
Lemma rx_cached m rb h c :
  rx_ring m rb h -> n_state c = n_state (r_cached (rings m (outr rb))) ->
  n_pkts c = n_pkts (r_cached (rings m (outr rb))) -> n_idx c = n_idx (r_cached (rings m (outr rb))) ->
  rx_ring (put_ring (outr rb) (r_with_cached c (rings m (outr rb))) m) rb h.
Proof.
  intros [f1 f2 f3 f4 f5 f6 f7 f8 f9 f10] H1 H2 H3. split; rewrite ?ring_eq; esimp; rewrite ?H1, ?H2, ?H3; try done.
  intros i Hi. destruct (f7 i Hi) as [a b c' d]. by split.
Qed.

(** A packet goes into the empty cache. *)
Lemma rx_append m rb h a p :
  rx_ring m rb h -> x_part h = [] -> pkt_ok p -> holds m a (p_data p) ->
  exists m', cache_append (outr rb) a (Z.of_nat (length (p_data p))) (p_port p) m = Ok tt m' /\
    rx_ring m' rb (mkRxh (x_outs h) (x_H h) (x_M h) [p]) /\ rx_local rb m m' /\
    n_cnt (r_cached (rings m' (outr rb))) = n_cnt (r_cached (rings m (outr rb))) /\
    n_idx (r_cached (rings m' (outr rb))) = 1 /\
    n_deadline (r_cached (rings m' (outr rb))) = n_deadline (r_cached (rings m (outr rb))) /\
    n_arrive (r_cached (rings m' (outr rb))) = n_arrive (r_cached (rings m (outr rb))).
Proof.
  intros [f1 f2 f3 f4 f5 f6 f7 f8 f9 f10] Hp Hok Hh.
  assert (n_idx (r_cached (rings m (outr rb))) = Z.of_nat 0) as Hi.
  { destruct f10 as [[_ ?]|(q & Hq & _)]; [done|]. by rewrite Hp in Hq. }
  rewrite (cache_append_Ok m (outr rb) 0); [|done|lia|done]. eexists. split; [reflexivity|].
  split; [|split; [apply rx_local_ring|]].
  - split; rewrite ?ring_eq; esimp; try done.
    + intros i Hii. destruct (f7 i Hii) as [a1 a2 a3 a4]. by split.
    + unfold appended. esimp. by rewrite length_insert.
    + right. exists p. split_and!; try done. exists (mkMeta a (Z.of_nat (length (p_data p))) (p_port p)). unfold appended. esimp.
      split; [apply list_lookup_insert_eq; lia|done].
  - rewrite ring_eq. done.
Qed.

(** The cached packet becomes a batch, with the times that the cache has. *)
Lemma rx_flush m rb h q :
  rx_ring m rb h -> x_part h = [q] -> n_cnt (r_cached (rings m (outr rb))) = 1 -> (x_S h < x_H h + 128)%nat ->
  let c := r_cached (rings m (outr rb)) in
  exists m', eos_pkt_send_flush (outr rb) m = Ok 0 m' /\
    rx_ring m' rb (mkRxh (x_outs h ++ [mkBatch [q] (n_deadline c) (n_arrive c)]) (x_H h) (x_M h) []) /\ rx_local rb m m' /\
    n_cnt (r_cached (rings m' (outr rb))) = 0 /\ n_idx (r_cached (rings m' (outr rb))) = 0.
Proof.
  intros [f1 [o1 o2] f3 f4 f5 f6 f7 f8 f9 f10] Hq Hc Hroom c.
  destruct f10 as [[Hq' _]|(q' & Hq' & Hok & Hi & d & Hd & Hdes)]; [by rewrite Hq in Hq'|].
  assert (q' = q) as -> by (rewrite Hq in Hq'; congruence).
  destruct (flush_Ok m rb (x_S h) c) as (m' & E & [v Rr] & Nn & No & Ro & By); try done; [unfold c; lia|unfold c; lia| |].
  { apply (f7 (x_S h)); lia. }
  set (h' := mkRxh _ _ _ _). assert (x_S h' = S (x_S h)) as HS by (unfold h', x_S; cbn; rewrite length_app; cbn; lia).
  exists m'. split; [exact E|]. split; [|split; [|by rewrite Rr]].
  2: { split_and!; [done| |done]. intros a Ha. apply No, Ha. }
  split; rewrite ?Rr, ?HS; esimp; try done.
  - change (x_H h') with (x_H h). change (x_M h') with (x_M h). clear - o1 o2 Hroom. lia.
  - apply Forall_app. split; [done|]. constructor; [|done]. by exists q.
  - intros i Hir. cbn [x_H h'] in Hir. destruct (decide (i = x_S h)) as [->|Hne].
    + rewrite Nn. split; rewrite ?HS; cbn [x_M h']; [lia| |lia|done]. intros _. split; [done|]. eexists. split.
      * unfold h', x_S. cbn [x_outs]. by rewrite lookup_app_r, Nat.sub_diag by lia.
      * split_and!; esimp; try done. intros j p Hj. destruct j; [|done]. injection Hj as <-. exists d.
        split; [done|]. by apply (describes_same m).
    + rewrite No by (intros Heq; by apply Hne, (outnode_inj rb (x_H h)); [lia|lia|]).
      destruct (f7 i Hir) as [a1 a2 a3 a4]. split; rewrite ?HS; cbn [x_M h']; [done| |intros; apply a3; lia|intros; apply a4; lia].
      intros Hr. destruct a2 as [a2 (b & Hb & Hcar)]; [lia|]. split; [done|]. exists b. split.
      * unfold h'. cbn [x_outs]. apply lookup_app_l_Some. done.
      * destruct Hcar as (e1 & e2 & e3 & e4 & e5). split_and!; try done. intros j p Hj.
        destruct (e5 j p Hj) as (x & Hx & Hdx). exists x. split; [done|]. by apply (describes_same m).
  - by left.
Qed.

(** No node is free: the cached packet stays. *)
Lemma rx_flush_full m rb h q :
  rx_ring m rb h -> x_part h = [q] -> n_cnt (r_cached (rings m (outr rb))) = 1 ->
  (x_S h = x_H h + 128)%nat -> x_H h = x_M h ->
  eos_pkt_send_flush (outr rb) m = Ok (- EBLOCK) m.
Proof.
  intros [f1 [o1 o2] f3 f4 f5 f6 f7 f8 f9 f10] Hq Hc Hfull HM.
  destruct f10 as [[Hq' _]|(q' & Hq' & Hok & Hi & _)]; [by rewrite Hq in Hq'|].
  unfold eos_pkt_send_flush. est. rewrite bind_massert by (by rewrite Hc). rewrite Hc. change (1 =? 0) with false. cbv iota.
  unfold flush_node. est. rewrite Hi, Hc. change (1 <? 1) with false. cbv iota zeta.
  assert (node_at (rings m (outr rb)) (r_tail (rings m (outr rb))) = outnode rb (x_H h)) as ->.
  { unfold node_at, GET_RING_NODE. rewrite f4, land_mask, f1, Hfull. change (outr rb + sizeof_ring + Z.of_nat (x_H h + 128) mod 128 * sizeof_node)
      with (outnode rb (x_H h + 128)). apply outnode_wrap. }
  est. destruct (xn_ready _ _ _ _ (f7 (x_H h) ltac:(lia))) as [-> _]; [lia|]. done.
Qed.

(** ** Sending on the ring *)

(** The history after the packet [p], when a node is free. *)
Definition rx_next (h : rxhist) (p : packet) (d a : Z) : rxhist :=
  match x_part h with
  | [] => mkRxh (x_outs h ++ [mkBatch [p] d a]) (x_H h) (x_M h) []
  | q :: _ => mkRxh (x_outs h ++ [mkBatch [q] d a]) (x_H h) (x_M h) [p]
  end.

Lemma rx_next_pkts h p d a : (length (x_part h) <= 1)%nat -> x_pkts (rx_next h p d a) = x_pkts h ++ [p].
Proof.
  intros Hl. unfold rx_next, x_pkts. destruct (x_part h) as [|q [|]]; cbn [x_outs x_part]; [| |cbn in Hl; lia];
    rewrite all_pkts_app, all_pkts_one; cbn [b_pkts]; by rewrite ?app_nil_r, <- ?app_assoc.
Qed.

Lemma rx_send_room m rb h a p d ar :
  rx_ring m rb h -> n_cnt (r_cached (rings m (outr rb))) = 1 -> (x_S h < x_H h + 128)%nat -> pkt_ok p -> holds m a (p_data p) ->
  exists m', eos_pkt_send_test (outr rb) a (Z.of_nat (length (p_data p))) (p_port p) d ar m = Ok 0 m' /\
    rx_ring m' rb (rx_next h p d ar) /\ rx_local rb m m'.
Proof.
  intros Hr Hc Hroom Hok Hh. unfold eos_pkt_send_test. est.
  set (m1 := put_ring (outr rb) _ m).
  assert (rx_ring m1 rb h) as Hr1 by (by apply rx_cached).
  assert (r_cached (rings m1 (outr rb)) = n_with_times d ar (r_cached (rings m (outr rb)))) as Ec by (unfold m1; by rewrite ring_eq).
  assert (holds m1 a (p_data p)) as Hh1 by exact Hh. assert (rx_local rb m m1) as L1 by apply rx_local_ring.
  clearbody m1. rewrite Ec. esimp. rewrite Hc.
  destruct (xr_part _ _ _ Hr1) as [[Hp Hi]|(q & Hp & Hq & Hi & _)]; rewrite Ec in Hi; esimp; rewrite Hi; cbn [Z.eqb Pos.eqb].
  - rewrite bind_ret. cbn [Z.eqb negb].
    destruct (rx_append m1 rb h a p Hr1 Hp Hok Hh1) as (m2 & E2 & R2 & L2 & C2 & I2 & D2 & A2).
    rewrite (bind_Ok _ _ _ _ _ E2). est. rewrite C2, I2, Ec. esimp. rewrite Hc. cbn [Z.eqb Pos.eqb].
    destruct (rx_flush m2 rb _ p R2) as (m3 & E3 & R3 & L3 & _); [done|by rewrite C2, Ec|exact Hroom|].
    rewrite bind_assoc, (bind_Ok _ _ _ _ _ E3). est. exists m3. split; [done|]. rewrite D2, A2, Ec in R3.
    split; [|by eapply rx_local_trans, rx_local_trans]. unfold rx_next. by rewrite Hp.
  - destruct (rx_flush m1 rb h q Hr1 Hp) as (m2 & E2 & R2 & L2 & C2 & I2); [by rewrite Ec|done|].
    rewrite (bind_Ok _ _ _ _ _ E2). cbn [Z.eqb negb]. rewrite Ec in R2.
    assert (holds m2 a (p_data p)) as Hh2 by (destruct L2 as (_ & _ & L2); unfold holds; by rewrite L2).
    destruct (rx_append m2 rb _ a p R2) as (m3 & E3 & R3 & L3 & C3 & I3 & _); try done.
    rewrite (bind_Ok _ _ _ _ _ E3). est. rewrite C3, I3, C2. cbn [Z.eqb]. est. exists m3. split; [done|].
    split; [|by eapply rx_local_trans, rx_local_trans]. unfold rx_next. by rewrite Hp.
Qed.

(** Without a free node the first packet waits in the cache, the second is
    refused. *)
Lemma rx_send_full m rb h a p d ar :
  rx_ring m rb h -> n_cnt (r_cached (rings m (outr rb))) = 1 -> (x_S h = x_H h + 128)%nat -> x_H h = x_M h ->
  pkt_ok p -> holds m a (p_data p) ->
  exists m', eos_pkt_send_test (outr rb) a (Z.of_nat (length (p_data p))) (p_port p) d ar m =
      Ok (match x_part h with [] => 0 | _ => - EBLOCK end) m' /\
    rx_ring m' rb (mkRxh (x_outs h) (x_H h) (x_M h) (match x_part h with [] => [p] | l => l end)).
Proof.
  intros Hr Hc Hfull HM Hok Hh. unfold eos_pkt_send_test. est.
  set (m1 := put_ring (outr rb) _ m).
  assert (rx_ring m1 rb h) as Hr1 by (by apply rx_cached).
  assert (r_cached (rings m1 (outr rb)) = n_with_times d ar (r_cached (rings m (outr rb)))) as Ec by (unfold m1; by rewrite ring_eq).
  assert (holds m1 a (p_data p)) as Hh1 by exact Hh.
  clearbody m1. rewrite Ec. esimp. rewrite Hc.
  destruct (xr_part _ _ _ Hr1) as [[Hp Hi]|(q & Hp & Hq & Hi & _)]; rewrite Ec in Hi; esimp; rewrite Hi, Hp; cbn [Z.eqb Pos.eqb].
  - rewrite bind_ret. cbn [Z.eqb negb].
    destruct (rx_append m1 rb h a p Hr1 Hp Hok Hh1) as (m2 & E2 & R2 & L2 & C2 & I2 & _).
    rewrite (bind_Ok _ _ _ _ _ E2). est. rewrite C2, I2, Ec. esimp. rewrite Hc. cbn [Z.eqb Pos.eqb].
    rewrite bind_assoc, (bind_Ok _ _ _ _ _ (rx_flush_full m2 rb _ p R2 eq_refl ltac:(by rewrite C2, Ec) Hfull HM)). est.
    by exists m2.
  - rewrite (bind_Ok _ _ _ _ _ (rx_flush_full m1 rb h q Hr1 Hp ltac:(by rewrite Ec) Hfull HM)).
    exists m1. split; [done|]. destruct h. cbn in Hp |- *. by subst.
Qed.

(** ** A packet of a flow *)

(** What the documentation of DPDK promises of the calls of the receiving
    core: where the data of a packet is, its length and the fields of its
    headers are read; releasing a packet changes none of them. *)
Class DpdkRxLaws {R L Q N : Type} `{!Dpdk (nist R L Q N)} (data len : N -> Z -> Z) (field : N -> hdr_field -> Z -> Z) : Prop := {
  mtod_law : forall x (s : nist R L Q N), rte_pktmbuf_mtod x s = Ok (data (nic s) x) s;
  len_law : forall x (s : nist R L Q N), rte_pktmbuf_data_len x s = Ok (len (nic s) x) s;
  hdr_law : forall f a (s : nist R L Q N), hdr f a s = Ok (field (nic s) f a) s;
  free_law : forall x (s : nist R L Q N), exists v, rte_pktmbuf_free x s = Ok tt (i_with_nic v s) /\
    (forall y, data v y = data (nic s) y /\ len v y = len (nic s) y);
  enqueue_law : forall c d t (s : nist R L Q N), exists r v, mca_dl_enqueue c d t s = Ok r (i_with_nic v s);
  print_law : forall c (s : nist R L Q N), exists v, mca_debug_print c s = Ok tt (i_with_nic v s) }.

Section receiving.
Context {R L Q N : Type} `{!CkRing R sl_xcpu_request, !PsList L, !KernelApi (slst R L), !CkRing Q mca_op}.
Context `{!FwpKernel (fwpst R L Q), !Dpdk (nist R L Q N)}.
Context (data len : N -> Z -> Z) (field : N -> hdr_field -> Z -> Z) `{!DpdkRxLaws data len field}.
Implicit Types s : nist R L Q N.

(** Where packets are stays the same; so do the flows and their deadlines. *)
Definition rx_same s s' : Prop :=
  (forall x, data (nic s') x = data (nic s) x /\ len (nic s') x = len (nic s) x) /\
  fix_rx_outs (rxs s') = fix_rx_outs (rxs s) /\ dl_tbl (rxs s') = dl_tbl (rxs s) /\ txs s' = txs s.

(** The node that comes free when one is collected. *)
Definition rx_collect (h : rxhist) : rxhist :=
  if decide (x_H h < x_M h)%nat then mkRxh (x_outs h) (S (x_H h)) (x_M h) (x_part h) else h.

Lemma rx_head_node m rb h : rx_ring m rb h ->
  node_at (rings m (outr rb)) (r_head (rings m (outr rb))) = outnode rb (x_H h).
Proof. intros Hr. unfold node_at, GET_RING_NODE. by rewrite (xr_head _ _ _ Hr), land_mask, (xr_ring _ _ _ Hr). Qed.

(** Collecting the oldest node, in memory. *)
Lemma rx_collect_mem m rb h :
  rx_ring m rb h -> (x_H h < x_M h)%nat ->
  let m1 := put_node (outnode rb (x_H h)) (n_with_state PKT_EMPTY (nodes m (outnode rb (x_H h)))) m in
  rx_ring (put_ring (outr rb) (r_with_head (i32 (r_head (rings m1 (outr rb)) + 1)) (rings m1 (outr rb))) m1) rb
    (mkRxh (x_outs h) (S (x_H h)) (x_M h) (x_part h)).
Proof.
  intros [f1 [o1 o2] f3 f4 f5 f6 f7 f8 f9 f10] HM m1. unfold m1. rewrite rings_node.
  split; rewrite ?ring_eq; esimp; try done.
  - unfold x_S in *. cbn. lia.
  - rewrite f3, i32_succ. cbn [x_H]. f_equal. lia.
  - intros i Hi. cbn [x_H] in Hi. destruct (decide (i = x_H h + 128)%nat) as [->|Hne].
    + rewrite outnode_wrap, node_eq. split; unfold x_S in *; cbn [x_M x_outs]; try lia. done.
    + rewrite node_ne.
      * destruct (f7 i) as [a1 a2 a3 a4]; [lia|]. by split.
      * intros Heq. apply Hne, (outnode_inj rb (S (x_H h))); [lia|lia|]. by rewrite outnode_wrap.
Qed.

Lemma rx_local_node rb i n r m : rx_local rb m (put_ring (outr rb) r (put_node (outnode rb i) n m)).
Proof.
  split_and!; [intros a Ha; by rewrite ring_ne| |done]. intros a Ha. rewrite nodes_ring. by rewrite node_ne.
Qed.

Lemma collect_one s rb h :
  rx_ring (shm s) rb h ->
  exists v s', ninf_pkt_collect (outr rb) s = Ok v s' /\ rx_ring (shm s') rb (rx_collect h) /\
    rx_local rb (shm s) (shm s') /\ rx_same s s'.
Proof.
  intros Hr. pose proof Hr as [f1 [o1 o2] f3 f4 f5 f6 f7 f8 f9 f10].
  unfold ninf_pkt_collect. rewrite n_getr. cbv zeta. rewrite (rx_head_node _ _ _ Hr), n_getn. unfold rx_collect.
  destruct (f7 (x_H h)) as [a1 a2 a3 a4]; [lia|]. destruct (decide (x_H h < x_M h)%nat) as [Hlt|Hge].
  - destruct a1 as [St Hc]; [done|]. rewrite St, Hc. change (st_is PKT_SENT_DONE PKT_SENT_DONE) with true. cbv iota.
    change (Z.to_nat (1 / 2)) with 0%nat. cbn [free_pairs]. rewrite n_ret. change (Z.land 1 1 =? 0) with false. cbv iota.
    unfold free_pkt. rewrite bind_assoc. change (1 - 1) with 0.
    destruct (lookup_lt_is_Some_2 (n_pkts (nodes (shm s) (outnode rb (x_H h)))) 0) as [x Hx]; [rewrite a4; lia|].
    rewrite (n_meta _ 0 x) by (done || lia). destruct (free_law (m_pkt x - DPDK_PKT_OFF) s) as (v & E & Hv).
    rewrite (bind_Ok _ _ _ _ _ E), n_updn, n_updr, n_upd_rx. eexists _, _. split; [reflexivity|].
    split; [exact (rx_collect_mem _ _ _ Hr Hlt)|]. split; [|by split_and!].
    apply rx_local_node.
  - assert (st_is (n_state (nodes (shm s) (outnode rb (x_H h)))) PKT_SENT_DONE = false) as ->.
    { destruct (decide (x_H h < x_S h)%nat); [destruct a2 as [-> _]; [lia|done]|]. rewrite a3 by lia. done. }
    eexists _, s. split; [reflexivity|]. split; [done|]. split; [apply rx_local_refl|by split_and!].
Qed.

(** The packet [p] is at mbuf [x]. *)
Definition packet_at s (x : Z) (p : packet) : Prop :=
  holds (shm s) (data (nic s) x) (p_data p) /\ len (nic s) x = Z.of_nat (length (p_data p)) /\ pkt_ok p.

(** One round of the loop up to the call that sends. *)
Lemma rx_round s rb h x p cid fuel :
  rx_ring (shm s) rb h -> packet_at s x p ->
  exists s1 d a, rx_ring (shm s1) rb (rx_collect h) /\ n_cnt (r_cached (rings (shm s1) (outr rb))) = 1 /\
    rx_local rb (shm s) (shm s1) /\ rx_same s s1 /\ holds (shm s1) (data (nic s1) x) (p_data p) /\
    forall r m, eos_pkt_send_test (outr rb) (data (nic s1) x) (Z.of_nat (length (p_data p))) (p_port p) d a (shm s1) = Ok r m ->
      r <> - ECOLLET ->
      exists s2, rx_send_loop (S fuel) x (p_port p) (outr rb) cid s = Ok r s2 /\ shm s2 = m /\ rxs s2 = rxs s1 /\ txs s2 = txs s1.
Proof.
  intros Hr (Hh & Hl & Hok). destruct (collect_one s rb h Hr) as (v & s1 & E1 & R1 & L1 & S1).
  set (s2 := i_with_rxs (x_with_collect v (rxs s1)) s1).
  set (s3 := with_shm (put_ring (outr rb) (r_with_cached (n_with_cnt 1 (r_cached (rings (shm s2) (outr rb)))) (rings (shm s2) (outr rb))) (shm s2)) s2).
  destruct (rdtscll s3) as [ar s4|] eqn:Et; [|done].
  assert (shm s4 = shm s3 /\ nic s4 = nic s3 /\ rxs s4 = rxs s3 /\ txs s4 = txs s3) as (T1 & T2 & T3 & T4).
  { unfold rdtscll, on_fwp, on_sys in Et. cbn in Et. by injection Et as _ <-. }
  assert (rx_ring (shm s3) rb (rx_collect h)) as R3 by (by apply rx_cached).
  assert (rx_local rb (shm s) (shm s3)) as L3 by (eapply rx_local_trans; [exact L1|apply rx_local_ring]).
  assert (rx_same s s4) as S4.
  { destruct S1 as (A1 & A2 & A3 & A4). unfold rx_same. rewrite T2, T3, T4. by split_and!. }
  exists s4, (u64 (ar + dl_tbl (rxs s4) cid)), ar. rewrite T1. split; [done|]. split; [unfold s3; cbn; by rewrite ring_eq|].
  split; [done|]. split; [done|].
  assert (holds (shm s3) (data (nic s4) x) (p_data p)) as Hh4.
  { destruct S4 as (A1 & _). rewrite (proj1 (A1 x)). destruct L3 as (_ & _ & L3). unfold holds. by rewrite L3. }
  split; [exact Hh4|]. intros r m Em Hne. cbn [rx_send_loop]. rewrite (bind_Ok _ _ _ _ _ E1), n_upd_rx. fold s2. rewrite n_updr. fold s3.
  rewrite (bind_Ok _ _ _ _ _ (len_law x s3)). assert (len (nic s3) x = Z.of_nat (length (p_data p))) as ->.
  { destruct S4 as (A1 & _). rewrite <- T2, (proj2 (A1 x)). done. }
  unfold massert. rewrite (proj2 (Z.leb_le _ _)) by (change EOS_PKT_MAX_SZ with 256; unfold pkt_ok in Hok; lia). rewrite n_ret.
  rewrite (bind_Ok _ _ _ _ _ Et), n_rx. cbv zeta. rewrite (bind_Ok _ _ _ _ _ (mtod_law x s4)).
  rewrite <- T1 in Em. rewrite (n_shm _ _ _ _ _ Em). set (s5 := with_shm m s4).
  assert (exists s6, (if r =? 0 then R0 <- on_shm (getr (outr rb)) ;; _ <- mca_dl_enqueue cid (dl_tbl (rxs s4) cid) (r_tail R0) ;; ret tt
    else ret tt) s5 = Ok tt s6 /\ shm s6 = m /\ rxs s6 = rxs s4 /\ txs s6 = txs s4) as (s6 & E6 & M6 & X6 & T6).
  { destruct (r =? 0); [|by exists s5]. rewrite n_getr.
    destruct (enqueue_law cid (dl_tbl (rxs s4) cid) (r_tail (rings (shm s5) (outr rb))) s5) as (e & w & Ee).
    rewrite (bind_Ok _ _ _ _ _ Ee). by eexists. }
  rewrite (bind_Ok _ _ _ _ _ E6). rewrite (proj2 (Z.eqb_neq _ _) Hne). by exists s6.
Qed.

(** *** The flow of a packet *)

Definition pkt_key (n : N) (a : Z) : pkt_ipv4_5tuple :=
  let p := field n Ip_next_proto_id a in
  if p =? IP_PROTOCOL_TCP then
    mkKey (field n Ip_src_addr a) (field n Ip_dst_addr a) (field n Tcp_src_port a) (field n Tcp_dst_port a) p
  else if p =? IP_PROTOCOL_UDP then
    mkKey (field n Ip_src_addr a) (field n Ip_dst_addr a) (field n Udp_src_port a) (field n Udp_dst_port a) p
  else mkKey (field n Ip_src_addr a) (field n Ip_dst_addr a) 0 0 p.

Definition is_ipv4 (n : N) (a : Z) : Prop := a <> 0 /\ Z.land (Z.shiftr (field n Ip_version_ihl a) 4) 15 = 4.

Definition pkt_flow (n : N) (a : Z) : Z := ntohs (src_port (key_sort (pkt_key n a))) - FLOW_START_PORT.

Lemma ipv4_hdr_Ok {A} (k : Z -> M (nist R L Q N) A) x s :
  is_ipv4 (nic s) (data (nic s) x) -> bind (ninf_pkt_ipv4_hdr x) k s = k (data (nic s) x) s.
Proof.
  intros [_ Hv]. apply bind_Ok. unfold ninf_pkt_ipv4_hdr. rewrite (bind_Ok _ _ _ _ _ (mtod_law x s)).
  rewrite (bind_Ok _ _ _ _ _ (hdr_law _ _ s)), Hv. done.
Qed.

Lemma hdr_deref_Ok {A} f (k : Z -> M (nist R L Q N) A) a s :
  a <> 0 -> bind (hdr_deref f a) k s = k (field (nic s) f a) s.
Proof. intros Ha. apply bind_Ok. unfold hdr_deref. rewrite (proj2 (Z.eqb_neq a 0) Ha). apply hdr_law. Qed.

Lemma fill_key_Ok x s :
  is_ipv4 (nic s) (data (nic s) x) -> ninf_fill_key x s = Ok (pkt_key (nic s) (data (nic s) x)) s.
Proof.
  intros Hip. pose proof Hip as [Ha _]. unfold ninf_fill_key, pkt_key. set (a := data (nic s) x) in *.
  rewrite (ipv4_hdr_Ok _ x s Hip). fold a. rewrite !hdr_deref_Ok by done.
  destruct (field (nic s) Ip_next_proto_id a =? IP_PROTOCOL_TCP) eqn:Et.
  - unfold ninf_pkt_tcp_hdr. rewrite bind_assoc, (ipv4_hdr_Ok _ x s Hip). fold a. rewrite (proj2 (Z.eqb_neq a 0) Ha).
    rewrite bind_assoc, (bind_Ok _ _ _ _ _ (hdr_law _ _ s)), Et. cbn [negb].
    rewrite (bind_Ok _ _ _ _ _ (mtod_law x s)). fold a. by rewrite !hdr_deref_Ok.
  - destruct (field (nic s) Ip_next_proto_id a =? IP_PROTOCOL_UDP) eqn:Eu; [|done].
    unfold ninf_pkt_udp_hdr. rewrite bind_assoc, (ipv4_hdr_Ok _ x s Hip). fold a. rewrite (proj2 (Z.eqb_neq a 0) Ha).
    rewrite bind_assoc, (bind_Ok _ _ _ _ _ (hdr_law _ _ s)), Eu. cbn [negb].
    rewrite (bind_Ok _ _ _ _ _ (mtod_law x s)). fold a. by rewrite !hdr_deref_Ok.
Qed.

(** A packet of a flow that has a ring is sent on it. *)
Lemma proc_mbuf_known spin pgtbl x port ring s :
  let cid := pkt_flow (nic s) (data (nic s) x) in
  x <> 0 -> is_ipv4 (nic s) (data (nic s) x) -> 0 <= cid < EOS_MAX_FLOW_NUM -> fix_rx_outs (rxs s) cid = ring -> ring <> 0 ->
  ninf_rx_proc_mbuf spin pgtbl port x s =
    bind (rx_send_loop spin x port ring cid) (fun r =>
      if negb (r =? 0) then
        rte_pktmbuf_free x ;;
        upd_rx (fun x => x_with_free (tot_free_mbuf x + 1) x) ;;
        upd_rx (fun x => x_with_drop (rx_drop_cnt x + 1) x) ;;
        mca_debug_print cid ;;
        panic AssertFail
      else upd_rx (fun x => x_with_collect (prev_collect x - 1) x)) s.
Proof.
  intros cid Hx Hip Hc Hr Hnz. unfold ninf_rx_proc_mbuf. unfold massert at 1.
  rewrite (proj2 (Z.eqb_neq x 0) Hx). cbn [negb]. rewrite n_ret. unfold ninf_pkt_is_ipv4.
  rewrite bind_assoc, (ipv4_hdr_Ok _ x s Hip), n_ret. rewrite (proj2 (Z.eqb_neq _ 0) (proj1 Hip)). cbn [negb].
  unfold ninf_get_nf_ring, ninf_fill_key_symmetric. rewrite !bind_assoc, (bind_Ok _ _ _ _ _ (fill_key_Ok x s Hip)), n_ret.
  cbv zeta. fold (pkt_flow (nic s) (data (nic s) x)). fold cid. unfold massert.
  assert ((cid >=? 0) = true) as -> by lia. rewrite bind_assoc, n_ret. rewrite (proj2 (Z.ltb_lt _ _) (proj2 Hc)).
  rewrite bind_assoc, n_ret, bind_assoc, n_rx, Hr. rewrite (proj2 (Z.eqb_neq ring 0) Hnz). rewrite bind_assoc, !n_ret.
  rewrite (proj2 (Z.eqb_neq ring 0) Hnz). cbn [negb]. by rewrite n_ret.
Qed.

Lemma part_le m rb h : rx_ring m rb h -> (length (x_part h) <= 1)%nat.
Proof. intros Hr. destruct (xr_part _ _ _ Hr) as [[-> _]|(q & -> & _)]; cbn; lia. Qed.
Lemma rx_collect_pkts h : x_pkts (rx_collect h) = x_pkts h /\ x_part (rx_collect h) = x_part h /\ x_S (rx_collect h) = x_S h.
Proof. unfold rx_collect. by destruct (decide _). Qed.

Lemma proc_mbuf_room spin pgtbl x rb h p s :
  (1 <= spin)%nat -> rx_ring (shm s) rb h -> packet_at s x p -> x <> 0 -> is_ipv4 (nic s) (data (nic s) x) ->
  0 <= pkt_flow (nic s) (data (nic s) x) < EOS_MAX_FLOW_NUM ->
  fix_rx_outs (rxs s) (pkt_flow (nic s) (data (nic s) x)) = outr rb -> outr rb <> 0 ->
  (x_H h < x_M h \/ x_S h < x_H h + 128)%nat ->
  exists s' d a, ninf_rx_proc_mbuf spin pgtbl (p_port p) x s = Ok tt s' /\
    rx_ring (shm s') rb (rx_next (rx_collect h) p d a) /\ rx_local rb (shm s) (shm s') /\
    fix_rx_outs (rxs s') = fix_rx_outs (rxs s) /\ txs s' = txs s.
Proof.
  intros Hsp Hr Hp Hx Hip Hc Hf Hnz Hroom. destruct spin as [|fuel]; [lia|]. rewrite (proc_mbuf_known (S fuel) pgtbl x _ (outr rb)) by done.
  pose proof Hp as (_ & _ & Hok).
  destruct (rx_round s rb h x p (pkt_flow (nic s) (data (nic s) x)) fuel Hr Hp) as (s1 & d & a & R1 & C1 & L1 & S1 & Hh1 & Hsend).
  destruct (rx_send_room (shm s1) rb (rx_collect h) (data (nic s1) x) p d a R1 C1) as (m & Em & Rm & Lm); try done.
  { rewrite (proj2 (proj2 (rx_collect_pkts h))). pose proof (xr_order _ _ _ Hr). unfold rx_collect. destruct (decide _); cbn [x_H]; lia. }
  destruct (Hsend 0 m Em) as (s2 & E2 & M2 & X2 & T2); [done|]. rewrite (bind_Ok _ _ _ _ _ E2). cbn [Z.eqb negb].
  eexists _, d, a. split; [reflexivity|]. destruct S1 as (_ & F1 & _ & T1).
  change (shm (i_with_rxs _ s2)) with (shm s2). rewrite M2. split; [done|]. split; [by eapply rx_local_trans|].
  cbn [rxs txs i_with_rxs x_with_collect fix_rx_outs]. by rewrite X2, T2, F1, T1.
Qed.

Lemma proc_mbuf_full spin pgtbl x rb h p s :
  (1 <= spin)%nat -> rx_ring (shm s) rb h -> packet_at s x p -> x <> 0 -> is_ipv4 (nic s) (data (nic s) x) ->
  0 <= pkt_flow (nic s) (data (nic s) x) < EOS_MAX_FLOW_NUM ->
  fix_rx_outs (rxs s) (pkt_flow (nic s) (data (nic s) x)) = outr rb -> outr rb <> 0 ->
  x_H h = x_M h -> (x_S h = x_H h + 128)%nat ->
  if decide (x_part h = []) then
    exists s', ninf_rx_proc_mbuf spin pgtbl (p_port p) x s = Ok tt s' /\
      rx_ring (shm s') rb (mkRxh (x_outs h) (x_H h) (x_M h) [p])
  else ninf_rx_proc_mbuf spin pgtbl (p_port p) x s = Panic AssertFail.
Proof.
  intros Hsp Hr Hp Hx Hip Hc Hf Hnz HM Hfull. destruct spin as [|fuel]; [lia|].
  rewrite (proc_mbuf_known (S fuel) pgtbl x _ (outr rb)) by done. pose proof Hp as (_ & _ & Hok).
  destruct (rx_round s rb h x p (pkt_flow (nic s) (data (nic s) x)) fuel Hr Hp) as (s1 & d & a & R1 & C1 & L1 & S1 & Hh1 & Hsend).
  assert (rx_collect h = h) as Hh by (unfold rx_collect; by rewrite decide_False by lia). rewrite Hh in R1.
  destruct (rx_send_full (shm s1) rb h (data (nic s1) x) p d a R1 C1 Hfull HM Hok Hh1) as (m & Em & Rm).
  destruct (x_part h) as [|q l] eqn:Ep; [rewrite decide_True by done|rewrite decide_False by done].
  - destruct (Hsend _ m Em) as (s2 & E2 & M2 & _); [done|]. rewrite (bind_Ok _ _ _ _ _ E2). cbn [Z.eqb negb].
    eexists. split; [reflexivity|]. change (shm (i_with_rxs _ s2)) with (shm s2). by rewrite M2.
  - destruct (Hsend _ m Em) as (s2 & E2 & M2 & _); [done|]. rewrite (bind_Ok _ _ _ _ _ E2). change (negb (- EBLOCK =? 0)) with true. cbv iota.
    destruct (free_law x s2) as (v & Ef & _). rewrite (bind_Ok _ _ _ _ _ Ef), !n_upd_rx.
    match goal with |- bind (mca_debug_print ?c) _ ?s3 = _ => destruct (print_law c s3) as (w & Ew) end.
    by rewrite (bind_Ok _ _ _ _ _ Ew).
Qed.
End receiving.


(** ** The ring feeds a chain *)

(** The pages of the ring are outside of the segment. *)
Definition rx_apart (a rb : Z) : Prop := a + FWP_MEMSEG_SIZE <= rb \/ rb + 36864 <= a.

Lemma rx_extern a rb i : rx_apart a rb -> extern a (outr rb) (outnode rb i).
Proof.
  unfold rx_apart. rewrite memseg_size. intros H. split; [|split; [|intros j; split]]; consts; Z.div_mod_to_equations; lia.
Qed.

(** The buffers that the ring describes are outside of the segments. *)
Definition rx_outside (segs : list Z) (m : eosm) (rb : Z) (h : rxhist) : Prop :=
  forall a, a ∈ segs ->
    (forall i d, (x_M h <= i < x_S h)%nat -> n_pkts (nodes m (outnode rb i)) !! 0%nat = Some d -> outside a (m_pkt d)) /\
    (forall d, n_pkts (r_cached (rings m (outr rb))) !! 0%nat = Some d -> outside a (m_pkt d)).

Lemma describes_outside m m' rh F d p :
  (forall a, (forall j x, (j < 8)%nat -> 0 <= x < 256 -> a <> buf rh F j + x) -> bytes m' a = bytes m a) ->
  outside rh (m_pkt d) -> pkt_ok p -> describes m d p -> describes m' d p.
Proof.
  intros Hb Ho Hp. apply describes_bytes; [|done]. intros x Hx. apply Hb. intros j y Hj Hy Heq.
  pose proof (buf_in_seg rh F j y Hj Hy). specialize (Ho x Hx). lia.
Qed.

Section feeding.
Context {R L Q : Type} `{!CkRing R sl_xcpu_request, !PsList L, !KernelApi (slst R L), !CkRing Q mca_op}.
Implicit Types s : sysst R L Q.

Lemma rx_mca_node m rb h : rx_ring m rb h ->
  node_at (rings m (outr rb)) (r_mca_head (rings m (outr rb))) = outnode rb (x_M h).
Proof. intros Hr. unfold node_at, GET_RING_NODE. by rewrite (xr_mca _ _ _ Hr), land_mask, (xr_ring _ _ _ Hr). Qed.

Lemma rx_single_ok h b i : Forall single (x_outs h) -> x_outs h !! i = Some b -> batch_ok b /\ exists p, b_pkts b = [p] /\ pkt_ok p.
Proof.
  intros Hs Hb. destruct (Forall_lookup_1 _ _ _ _ Hs Hb) as (p & Hp & Hok). split; [|by exists p].
  unfold batch_ok. rewrite Hp. cbn. split; [lia|by constructor].
Qed.

Lemma rx_feedable segs s c rh rb h b :
  rx_ring (mem s) rb h -> c_src_ring (conns s c) = outr rb -> x_outs h !! x_M h = Some b ->
  rh ∈ segs -> (forall a, a ∈ segs -> rx_apart a rb) -> rx_outside segs (mem s) rb h -> feedable segs s c rh b.
Proof.
  intros Hr Hc Hb Hrh Ha Ho. unfold feedable. cbv zeta. rewrite Hc, (rx_mca_node _ _ _ Hr).
  pose proof (lookup_lt_Some _ _ _ Hb) as HM. fold (x_S h) in HM. pose proof (xr_order _ _ _ Hr) as [o1 o2].
  destruct (xn_ready _ _ _ _ (xr_nodes _ _ _ Hr (x_M h) ltac:(lia))) as (_ & b' & Hb' & Hcar); [lia|].
  assert (b' = b) as -> by congruence. destruct (rx_single_ok h b (x_M h) (xr_single _ _ _ Hr) Hb) as (Hbok & p & Hp & _).
  split; [done|]. split; [done|]. split; [|intros a Hin; by apply rx_extern, Ha].
  destruct Hcar as (_ & _ & _ & _ & Hd). intros j q Hj. destruct (Hd j q Hj) as (d & Hd1 & Hd2). exists d. split; [done|].
  split; [done|]. rewrite Hp in Hj. destruct j; [|done]. exact (proj1 (Ho rh Hrh) (x_M h) d ltac:(lia) Hd1).
Qed.

(** The ring after the core has moved its oldest batch. *)
Lemma rx_moved m m' rb h rh F b :
  rx_ring m rb h -> x_outs h !! x_M h = Some b ->
  ring_like (r_with_mca_head (i32 (r_mca_head (rings m (outr rb)) + 1)) (rings m (outr rb))) (rings m' (outr rb)) ->
  nodes m' (outnode rb (x_M h)) = n_with_state PKT_SENT_DONE (nodes m (outnode rb (x_M h))) ->
  (forall i, outnode rb i <> outnode rb (x_M h) -> nodes m' (outnode rb i) = nodes m (outnode rb i)) ->
  (forall a, (forall j x, (j < 8)%nat -> 0 <= x < 256 -> a <> buf rh F j + x) -> bytes m' a = bytes m a) ->
  rx_outside [rh] m rb h -> rx_ring m' rb (mkRxh (x_outs h) (x_H h) (S (x_M h)) (x_part h)).
Proof.
  intros [f1 [o1 o2] f3 f4 f5 f6 f7 f8 f9 f10] Hb [v E] Nm Nn By Ho.
  pose proof (lookup_lt_Some _ _ _ Hb) as HM. fold (x_S h) in HM. destruct (Ho rh ltac:(by left)) as [Ho1 Ho2].
  split; rewrite ?E; esimp; try done.
  - unfold x_S in *. cbn. lia.
  - rewrite f5, i32_succ. cbn [x_M]. f_equal. lia.
  - intros i Hi. cbn [x_H] in Hi. destruct (f7 i Hi) as [a1 a2 a3 a4]. destruct (decide (i = x_M h)) as [->|Hne].
    + rewrite Nm. destruct a2 as (_ & b' & Hb' & c1 & _); [lia|]. assert (b' = b) as -> by congruence.
      destruct (rx_single_ok h b _ f6 Hb) as (_ & p & Hp & _). split; unfold x_S in *; cbn [x_M x_outs]; try lia; [|done].
      intros _. split; [done|]. esimp. by rewrite c1, Hp.
    + rewrite Nn by (intros Heq; by apply Hne, (outnode_inj rb (x_H h)); [lia|lia|]).
      split; unfold x_S in *; cbn [x_M x_outs]; [intros; apply a1; lia| |done|done].
      intros Hr. destruct a2 as (St & b' & Hb' & c1 & c2 & c3 & c4 & c5); [lia|]. split; [done|]. exists b'. split; [done|].
      split_and!; try done. intros j q Hj. destruct (c5 j q Hj) as (d & Hd1 & Hd2). exists d. split; [done|].
      destruct (rx_single_ok h b' _ f6 Hb') as (_ & p & Hp & Hok). rewrite Hp in Hj. destruct j; [|done]. injection Hj as ->.
      eapply describes_outside; try done. apply (Ho1 i); [lia|done].
  - destruct f10 as [?|(q & Hq & Hok & Hi & d & Hd1 & Hd2)]; [by left|right]. exists q. split_and!; try done. exists d.
    split; [done|]. eapply describes_outside; try done. by apply Ho2.
Qed.
End feeding.

(** C4. What the receiving core puts into the ring of a flow is what the chain of
    the flow is fed with: the oldest batch in the ring can be fed to the first
    function, and a round of the message-passing core that moves something
    moves exactly this batch, behind those the function was given before. *)
Theorem rx_ring_feeds_chain {R L Q : Type} `{!CkRing R sl_xcpu_request, !PsList L, !KernelApi (slst R L), !CkRing Q mca_op}
  (segs : list Z) (spin : nat) (c rh rb burst r : Z) (g : ghost) (h : rxhist) (b : batch) (x : option Z) (s s' : sysst R L Q) :
  rx_ring (mem s) rb h -> x_outs h !! x_M h = Some b -> rx_outside segs (mem s) rb h ->
  (forall a, a ∈ segs -> rx_apart a rb) -> rh ∈ segs -> region (mem s) rh g ->
  c_src_ring (conns s c) = outr rb -> c_dst_ring (conns s c) = rh -> 0 <= r ->
  mca_round spin c burst r s = Ok x s' ->
  feedable segs s c rh b /\
  (if moved x then region (mem s') rh (with_ins (g_ins g ++ [b]) g) /\
     rx_ring (mem s') rb (mkRxh (x_outs h) (x_H h) (S (x_M h)) (x_part h))
   else mem s' = mem s).
Proof.
  intros Hr Hb Ho Ha Hrh Hg Hsrc Hdst Hr0 E.
  pose proof (rx_feedable segs s c rh rb h b Hr Hsrc Hb Hrh Ha Ho) as Hf. split; [done|]. destruct Hf as (F1 & F2 & F3 & F4).
  destruct (feed_next s c rh g Hdst Hg) as (nx & En & Hnx).
  destruct (mca_round_cases _ _ _ _ _ _ _ _ E Hr0 En) as [Hco [[-> Hm]|[-> (sn & rn & Hn & Em)]]]; [done|].
  destruct (Hnx _ _ Hn) as (-> & -> & HF).
  split; [by apply (feed_move (mem s) (conns s c) _ rh g b _ Hdst Hg HF (F4 _ Hrh) F1 F2 F3 Em)|].
  rewrite Hsrc in *. rewrite (rx_mca_node _ _ _ Hr) in *. destruct (F4 rh Hrh) as (X1 & X2 & X3).
  destruct (mca_move_raw (mem s) (conns s c) (outnode rb (x_M h)) (innode rh (g_F g)) rh g b (outr rb))
    as (m1 & n' & E1 & Rs & Rd & Ro & Ns & Nr & Nn & St & Pn & Cn & By); try done; [apply X3|].
  rewrite Em in E1. injection E1 as E1. rewrite <- E1 in *.
  eapply (rx_moved (mem s) (mem s') rb h rh (g_F g) b); try done.
  - intros i Hi. apply Nn; [done|]. apply (rx_extern rh rb i (Ha rh Hrh)).
  - intros a ->%list_elem_of_singleton. by apply Ho.
Qed.

(** ** A concrete interface *)

Abbreviation sample_ni := (nist (list sl_xcpu_request) ulist (list mca_op) (list Z)).

(** Ports that take every packet and report at the next call; packets of three
    bytes, each at the address of its mbuf, all of one UDP flow. *)
Definition sample_field (f : hdr_field) : Z :=
  match f with Ip_version_ihl => 69 | Ip_next_proto_id => IP_PROTOCOL_UDP | Udp_src_port => 53291 | _ => 0 end.
Definition sample_dpdk : Dpdk sample_ni := {|
  rte_pktmbuf_alloc_bulk cnt := ret (Some (map Z.of_nat (seq 1 (Z.to_nat cnt))));
  rte_eth_tx_burst _ _ ms := fun s =>
    match callbacks (nic s) (shm s) with
    | Ok _ m => Ok (Z.of_nat (length ms)) (i_with_nic (map (fun x => userdata (mbufs s x)) ms) (with_shm m s))
    | Panic h => Panic h
    end;
  rte_eth_rx_burst _ _ _ := ret [];
  rte_pktmbuf_free _ := ret tt;
  rte_pktmbuf_mtod x := ret x;
  rte_pktmbuf_data_len _ := ret 3;
  hdr f _ := ret (sample_field f);
  mca_dl_enqueue _ _ _ := ret 0;
  mca_debug_print _ := ret tt |}.

Lemma callbacks_total l : forall m, exists m', callbacks l m = Ok tt m'.
Proof.
  induction l as [|a l IH]; intros m; cbn [callbacks]; [by exists m|]. rewrite (bind_Ok _ _ _ _ _ (cos_tx_cb_Ok a m)). apply IH.
Qed.

Lemma sample_tx_laws : @DpdkTxLaws _ _ _ _ sample_dpdk (fun n => n).
Proof.
  split.
  - intros cnt s Hc. exists (map Z.of_nat (seq 1 (Z.to_nat cnt))), (nic s). split; [by destruct s|].
    rewrite length_map, length_seq. split_and!; try done. apply NoDup_fmap_2; [apply _|apply NoDup_seq].
  - intros port ms s Hms. destruct (callbacks_total (nic s) (shm s)) as [m Em].
    exists (length ms), (nic s), m, (map (fun x => userdata (mbufs s x)) ms). cbn [rte_eth_tx_burst sample_dpdk]. rewrite Em.
    split_and!; try done; [destruct ms; [done|cbn; lia]|]. by rewrite take_ge.
Qed.

Lemma sample_rx_laws : @DpdkRxLaws _ _ _ _ sample_dpdk (fun _ x => x) (fun _ _ => 3) (fun _ f _ => sample_field f).
Proof.
  split; try done.
  - intros x s. exists (nic s). split; [by destruct s|done].
  - intros c d t s. exists 0, (nic s). by destruct s.
  - intros c s. exists (nic s). by destruct s.
Qed.

(** The ring of flow 5 in the pages at 65536 is new. *)
Definition flow_pages : Z := 65536.
Definition flow_mem (tail : Z) (n0 : eos_ring_node) : eosm :=
  mkMem (zupd (outr flow_pages) (mkRing (outr flow_pages + sizeof_ring) 0 0 0 0 0 0 0 tail (n_with_state PKT_SENT_READY zero_node))
           (fun _ => zero_ring))
        (zupd (outnode flow_pages 0) n0 (fun _ => zero_node)) (bytes sample_mem).

Lemma flow_mem_new : rx_ring (flow_mem 0 zero_node) flow_pages (mkRxh [] 0 0 []).
Proof.
  assert (forall a, nodes (flow_mem 0 zero_node) a = zero_node) as Hz by (intros a; cbn; unfold zupd; by destruct (_ =? _)).
  split; try reflexivity; try (by constructor).
  - cbn. lia.
  - intros i Hi. rewrite Hz. split; unfold x_S; cbn; lia || done.
Qed.

Definition sample_ninf (s : sysst (list sl_xcpu_request) ulist (list mca_op)) : sample_ni :=
  mkNi (f_with_sys s boot_state) [] (fun _ => mkMbuf 0 0 0 0 0 0)
    (mkTxs 0 0 (fun _ => mkTxRing 0 0 0 0) (fun _ => 0) (fun _ _ => mkTxPkt 0 0 0) zero_node 0 0)
    (mkRxs (fun i => if i =? 5 then outr flow_pages else 0) 4 0 (fun _ => 5400000) 0 1000 0).

(** A packet waits in the ring, beside the new segment [seg_a]. *)
Definition flow_node : eos_ring_node := mkNode 1 0 0 500 0 (replicate 8 (mkMeta 5000 3 2)) PKT_SENT_READY.
Definition flow_batch : batch := mkBatch [mkPkt [65; 66; 67] 2] 500 0.
Definition wait_mem : eosm :=
  match eos_rings_init (fun a => a) seg_a (flow_mem 1 flow_node) with Ok _ m => m | Panic _ => flow_mem 1 flow_node end.

Lemma wait_mem_facts :
  region wait_mem seg_a fresh /\ rx_ring wait_mem flow_pages (mkRxh [flow_batch] 0 0 []) /\
  rx_outside [seg_a] wait_mem flow_pages (mkRxh [flow_batch] 0 0 []).
Proof.
  destruct (eos_rings_init_Ok (fun a => a) (flow_mem 1 flow_node) seg_a) as (m & E & Hr & L1 & L2 & L3).
  { split; [|split]; rewrite ?memseg_size; unfold seg_a; lia || reflexivity. }
  assert (wait_mem = m) as -> by (unfold wait_mem; by rewrite E). split; [done|].
  assert (forall i, extern seg_a (outr flow_pages) (outnode flow_pages i)) as Hx.
  { intros i. apply rx_extern. right. unfold flow_pages, seg_a. lia. }
  assert (rings m (outr flow_pages) = rings (flow_mem 1 flow_node) (outr flow_pages)) as Er by (destruct (Hx 0%nat) as (X1 & X2 & _); by apply L1).
  assert (forall i, nodes m (outnode flow_pages i) = nodes (flow_mem 1 flow_node) (outnode flow_pages i)) as En.
  { intros i. destruct (Hx i) as (_ & _ & X3). apply L2; intros j; apply X3. }
  assert (carries m flow_node flow_batch) as Hcar.
  { split_and!; try done. intros j p Hj. destruct j; [|done]. injection Hj as <-. exists (mkMeta 5000 3 2). split; [done|].
    split_and!; try done. intros k y Hk. do 3 (destruct k; [injection Hk as <-; rewrite L3; [reflexivity|unfold pkt_base, seg_a; cbn; lia]|]). done. }
  split.
  - split; rewrite ?Er; try reflexivity.
    + cbn. lia.
    + constructor; [|done]. eexists. split; [reflexivity|]. unfold pkt_ok. cbn. lia.
    + intros i Hi. cbn [x_H] in Hi. rewrite En. cbn [nodes flow_mem]. unfold zupd. destruct i as [|i].
      * rewrite Z.eqb_refl. split; unfold x_S; cbn [x_M x_outs length]; try lia; [|done]. intros _. split; [done|]. by exists flow_batch.
      * rewrite (proj2 (Z.eqb_neq _ _)) by (intros H; apply (outnode_inj flow_pages 0) in H; lia).
        split; unfold x_S; cbn [x_M x_outs length]; lia || done.
    + by left.
  - intros a ->%list_elem_of_singleton. split.
    + intros i d Hi. unfold x_S in Hi. cbn [x_M x_outs length] in Hi. assert (i = 0)%nat as -> by lia. rewrite En.
      cbn. intros [= <-]. intros y Hy. unfold pkt_base, seg_a. cbn. lia.
    + rewrite Er. cbn. intros d [= <-] y Hy. unfold pkt_base, seg_a. cbn. lia.
Qed.

Definition wait_sys : sysst (list sl_xcpu_request) ulist (list mca_op) :=
  s_with_conns (fun _ => mkConn (outr flow_pages) seg_a 0 3 5 1) (s_with_mem wait_mem sample_sys).

(** The waiting packet is moved to the function. *)
Lemma rx_ring_feeds_chain_witness :
  exists s', mca_round 4 1 1 0 wait_sys = Ok (Some 1) s' /\ feedable [seg_a] wait_sys 1 seg_a flow_batch /\
    region (mem s') seg_a (with_ins [flow_batch] fresh).
Proof.
  destruct wait_mem_facts as (H1 & H2 & H3).
  destruct (mca_round 4 1 1 0 wait_sys) as [x s'|hh] eqn:E.
  2: { exfalso. assert (result (mca_round 4 1 1 0 wait_sys) = inl (Some 1)) as Hc by (vm_compute; reflexivity).
       rewrite E in Hc. done. }
  assert (x = Some 1) as ->.
  { assert (result (mca_round 4 1 1 0 wait_sys) = inl (Some 1)) as Hc by (vm_compute; reflexivity).
    rewrite E in Hc. by injection Hc. }
  destruct (rx_ring_feeds_chain [seg_a] 4 1 seg_a flow_pages 1 0 fresh (mkRxh [flow_batch] 0 0 []) flow_batch (Some 1) wait_sys s')
    as [F [G _]].
  - exact H2.
  - reflexivity.
  - exact H3.
  - intros a ->%list_elem_of_singleton. right. unfold flow_pages, seg_a. lia.
  - by left.
  - exact H1.
  - reflexivity.
  - reflexivity.
  - lia.
  - exact E.
  - exists s'. split; [reflexivity|]. split; [exact F|exact G].
Defined.

(** The function has received the packet and sent it to port 3. *)
Definition served : M eosm unit :=
  mca_move (mkConn (outr flow_pages) seg_a 0 3 5 1) (outnode flow_pages 0) (innode seg_a 0)
    (nodes wait_mem (outnode flow_pages 0)) (nodes wait_mem (innode seg_a 0)) ;;
  _ <- eos_pkt_recv_test 1 seg_a (outr seg_a) ;;
  _ <- eos_pkt_send_test (outr seg_a) (buf seg_a 0 0) 3 3 500 0 ;;
  ret tt.
Definition served_mem : eosm := match served wait_mem with Ok _ m => m | Panic _ => wait_mem end.
Definition served_ghost : ghost := mkG [flow_batch] [mkBatch [mkPkt [65; 66; 67] 3] 500 0] 0 0 1 0 [].

Lemma served_region : region served_mem seg_a served_ghost.
Proof.
  destruct wait_mem_facts as (H1 & H2 & H3).
  assert (forall i, extern seg_a (outr flow_pages) (outnode flow_pages i)) as Hx.
  { intros i. apply rx_extern. right. unfold flow_pages, seg_a. lia. }
  assert (feedable [seg_a] wait_sys 1 seg_a flow_batch) as F.
  { apply (rx_feedable [seg_a] wait_sys 1 seg_a flow_pages _ flow_batch H2 eq_refl eq_refl); [by left| |exact H3].
    intros a ->%list_elem_of_singleton. right. unfold flow_pages, seg_a. lia. }
  unfold feedable in F. cbv zeta in F. change (mem wait_sys) with wait_mem in F.
  change (c_src_ring (conns wait_sys 1)) with (outr flow_pages) in F. rewrite (rx_mca_node _ _ _ H2) in F.
  cbn [x_M] in F. destruct F as (F1 & F2 & F3 & _). set (c := mkConn (outr flow_pages) seg_a 0 3 5 1).
  destruct (Hx 0%nat) as (X1 & X2 & X3).
  assert (g_F fresh < g_H fresh + 128)%nat as HF by (cbn; lia).
  destruct (mca_move_raw wait_mem c (outnode flow_pages 0) (innode seg_a 0) seg_a fresh flow_batch (outr flow_pages)
    eq_refl eq_refl X1 H1 HF eq_refl (proj1 (X3 0%nat)) F1 F2 F3) as (m1 & n' & E1 & _).
  destruct (feed_move wait_mem c (outnode flow_pages 0) seg_a fresh flow_batch m1 eq_refl H1 HF (Hx 0%nat) F1 F2 F3 E1) as [R1 _].
  destruct (recv_next 1 m1 seg_a _ flow_batch (mkPkt [65; 66; 67] 2) R1 eq_refl (le_n 1) eq_refl eq_refl) as (m2 & E2 & R2 & Hh & _).
  destruct (send_test_Ok m2 seg_a _ flow_batch (mkPkt [65; 66; 67] 3) 500 0 R2 eq_refl eq_refl) as (m3 & E3 & R3 & _).
  { unfold pkt_ok. cbn. lia. }
  { cbn. lia. }
  { exact Hh. }
  assert (served_mem = m3) as ->; [|exact R3]. unfold served_mem, served. fold c.
  rewrite (bind_Ok _ _ _ _ _ E1), (bind_Ok _ _ _ _ _ E2). change (eos_pkt_send_test (outr seg_a) (buf seg_a 0 0) 3 3 500 0 m2 = Ok 0 m3) in E3.
  by rewrite (bind_Ok _ _ _ _ _ E3).
Qed.
Section witnesses.
#[local] Existing Instance granting_kernel.
#[local] Existing Instance sample_dpdk.
#[local] Existing Instance sample_tx_laws.
#[local] Existing Instance sample_rx_laws.


End witnesses.

(** *** Two batches in one burst

    [batch[i].meta] points into the copy of the node that was taken last: of
    two batches with packets of 3 and 200 bytes, the first packet is handed to
    the port with the length of the second. *)
Definition two_sent (n : Z) (len : Z) : eos_ring_node :=
  mkNode 1 0 0 500 0 (mkMeta (buf seg_a (Z.to_nat n) 0) len 0 :: replicate 7 zero_meta) PKT_SENT_READY.
Definition two_mem : eosm :=
  put_node (outnode seg_a 1) (two_sent 1 200) (put_node (outnode seg_a 0) (two_sent 0 3)
    (put_ring (outr seg_a) (mkRing (outr seg_a + sizeof_ring) (outr seg_a) 0 0 0 0 0 0 2 (n_with_state PKT_SENT_READY zero_node))
      wait_mem)).

Section aliasing.
#[local] Existing Instance sample_dpdk.

(** Descriptors of the two packets: physical address and length. *)
Definition handed_over : M sample_ni (list (Z * Z)) :=
  _ <- ninf_tx_process 32 (outr seg_a) ;;
  gets (fun s => map (fun i => (buf_physaddr (mbufs s i), mb_pkt_len (mbufs s i))) [1; 2]).

Example tx_lengths_mixed :
  result (handed_over (sample_ninf (s_with_mem two_mem sample_sys))) =
    inl [(buf seg_a 0 0, 200); (buf seg_a 1 0, 200)].
Proof. vm_compute. reflexivity. Qed.
End aliasing.

(** *** Unrolled processing of a burst

    The groups of four and the cases that fall through are the plain loop. *)
Section unrolled.
Context {R L Q N : Type} `{!CkRing R sl_xcpu_request, !PsList L, !KernelApi (slst R L), !CkRing Q mca_op}.
Context `{!FwpKernel (fwpst R L Q), !Dpdk (nist R L Q N)}.
Variable spin : nat.
Variable pgtbl : Z -> Z.

(** One packet after the other. *)
Fixpoint proc_each (port : Z) (l : list Z) : M (nist R L Q N) unit :=
  match l with [] => ret tt | x :: l => ninf_rx_proc_mbuf spin pgtbl port x ;; proc_each port l end.

Lemma proc_each_app port l k s :
  proc_each port (l ++ k) s = bind (proc_each port l) (fun _ => proc_each port k) s.
Proof.
  revert s. induction l as [|x l IH]; intros s; [done|]. cbn [proc_each app]. rewrite bind_assoc.
  unfold bind at 1 2. destruct (ninf_rx_proc_mbuf spin pgtbl port x s); [apply IH|done].
Qed.

Lemma proc_at_Ok l port (i : nat) x s :
  l !! i = Some x -> proc_at spin pgtbl l port (Z.of_nat i) s = ninf_rx_proc_mbuf spin pgtbl port x s.
Proof. intros H. unfold proc_at. by rewrite Nat2Z.id, H. Qed.

Lemma proc_next l port (i : nat) x k s :
  l !! i = Some x ->
  bind (proc_at spin pgtbl l port (Z.of_nat i)) (fun _ => proc_each port k) s = proc_each port (x :: k) s.
Proof. intros H. cbn [proc_each]. unfold bind. by rewrite (proc_at_Ok l port i x). Qed.

Lemma bind_cong {S A B} (m : M S A) (f g : A -> M S B) s : (forall a t, f a t = g a t) -> bind m f s = bind m g s.
Proof. intros H. unfold bind. by destruct (m s). Qed.

Lemma proc_quads_each n : forall l port (i : nat) s,
  (i + 4 * n <= length l)%nat ->
  proc_quads spin pgtbl n l port (Z.of_nat i) s = proc_each port (take (4 * n) (drop i l)) s.
Proof.
  induction n as [|n IH]; intros l port i s Hl; [done|]. cbn [proc_quads].
  destruct (lookup_lt_is_Some_2 l i) as [a Ha]; [lia|]. destruct (lookup_lt_is_Some_2 l (S i)) as [b Hb]; [lia|].
  destruct (lookup_lt_is_Some_2 l (S (S i))) as [c Hc]; [lia|]. destruct (lookup_lt_is_Some_2 l (S (S (S i)))) as [d Hd]; [lia|].
  rewrite (drop_S _ _ _ Ha), (drop_S _ _ _ Hb), (drop_S _ _ _ Hc), (drop_S _ _ _ Hd).
  replace (4 * S n)%nat with (S (S (S (S (4 * n))))) by lia. cbn [take].
  replace (Z.of_nat i + 1) with (Z.of_nat (S i)) by lia. replace (Z.of_nat i + 2) with (Z.of_nat (S (S i))) by lia.
  replace (Z.of_nat i + 3) with (Z.of_nat (S (S (S i)))) by lia. replace (Z.of_nat i + 4) with (Z.of_nat (S (S (S (S i))))) by lia.
  rewrite <- (proc_next l port i a _ s Ha). apply bind_cong. intros _ s1.
  rewrite <- (proc_next l port (S i) b _ s1 Hb). apply bind_cong. intros _ s2.
  rewrite <- (proc_next l port (S (S i)) c _ s2 Hc). apply bind_cong. intros _ s3.
  rewrite <- (proc_next l port (S (S (S i))) d _ s3 Hd). apply bind_cong. intros _ s4. apply IH. lia.
Qed.

(** [nbuf & ~3] and [nbuf & 3] *)
Lemma land_3 (n : nat) : (n <= 32)%nat ->
  Z.land (Z.of_nat n) (4294967295 - 3) = Z.of_nat (4 * (n / 4)) /\ Z.land (Z.of_nat n) 3 = Z.of_nat (n mod 4).
Proof. intros H. do 33 (destruct n as [|n]; [split; reflexivity|]). lia. Qed.

Lemma bind_unit {S} (m : M S unit) s : bind m (fun _ => ret tt) s = m s.
Proof. unfold bind. by destruct (m s) as [[]|]. Qed.

(** The rest of a burst: the last [c] packets. *)
Lemma proc_rest l port (i c : nat) s :
  (i + c = length l)%nat -> (c < 4)%nat ->
  (let z := Z.of_nat i in let c := Z.of_nat c in
   (if c =? 3 then proc_at spin pgtbl l port z else ret tt) ;;
   let z := if c =? 3 then z + 1 else z in
   (if (c =? 3) || (c =? 2) then proc_at spin pgtbl l port z else ret tt) ;;
   let z := if (c =? 3) || (c =? 2) then z + 1 else z in
   (if (c =? 3) || (c =? 2) || (c =? 1) then proc_at spin pgtbl l port z else ret tt)) s =
  proc_each port (drop i l) s.
Proof.
  intros Hi Hc.
  assert (forall j x s, l !! j = Some x -> S j = length l ->
    proc_at spin pgtbl l port (Z.of_nat j) s = proc_each port (drop j l) s) as Hlast.
  { intros j x t Hj Hl. rewrite (drop_S _ _ _ Hj), drop_ge by lia. cbn [proc_each]. rewrite bind_unit. by apply proc_at_Ok. }
  assert (forall j x k s, l !! j = Some x -> (forall t, k t = proc_each port (drop (S j) l) t) ->
    bind (proc_at spin pgtbl l port (Z.of_nat j)) (fun _ => k) s = proc_each port (drop j l) s) as Hmore.
  { intros j x k t Hj Hk. rewrite (drop_S _ _ _ Hj), <- (proc_next l port j x _ t Hj). apply bind_cong. intros _ u. apply Hk. }
  cbv zeta. destruct c as [|[|[|[|c]]]]; [change (Z.of_nat 0) with 0|change (Z.of_nat 1) with 1|change (Z.of_nat 2) with 2|change (Z.of_nat 3) with 3|lia];
    cbn [Z.eqb Pos.eqb orb].
  - by rewrite drop_ge by lia.
  - rewrite !n_ret. destruct (lookup_lt_is_Some_2 l i) as [x Hx]; [lia|]. apply (Hlast i x); [done|lia].
  - rewrite n_ret. destruct (lookup_lt_is_Some_2 l i) as [x Hx]; [lia|]. apply (Hmore i x); [done|]. intros t.
    replace (Z.of_nat i + 1) with (Z.of_nat (S i)) by lia. destruct (lookup_lt_is_Some_2 l (S i)) as [y Hy]; [lia|].
    apply (Hlast (S i) y); [done|lia].
  - destruct (lookup_lt_is_Some_2 l i) as [x Hx]; [lia|]. apply (Hmore i x); [done|]. intros t.
    replace (Z.of_nat i + 1) with (Z.of_nat (S i)) by lia. destruct (lookup_lt_is_Some_2 l (S i)) as [y Hy]; [lia|].
    apply (Hmore (S i) y); [done|]. intros u. replace (Z.of_nat (S i) + 1) with (Z.of_nat (S (S i))) by lia.
    destruct (lookup_lt_is_Some_2 l (S (S i))) as [w Hw]; [lia|]. apply (Hlast (S (S i)) w); [done|lia].
Qed.
End unrolled.

(** C29. The receiving core processes every packet of a burst once and in order:
    the unrolled loop is the loop over the packets. *)
Theorem rx_batch_is_loop {R L Q N : Type} `{!CkRing R sl_xcpu_request, !PsList L, !KernelApi (slst R L), !CkRing Q mca_op}
  `{!FwpKernel (fwpst R L Q), !Dpdk (nist R L Q N)} (spin : nat) (pgtbl : Z -> Z) (l : list Z) (port : Z) (s : nist R L Q N) :
  Z.of_nat (length l) <= BURST_SIZE ->
  ninf_rx_proc_batch spin pgtbl l (Z.of_nat (length l)) port s =
  bind (upd_rx (fun x => x_with_free (tot_free_mbuf x - Z.of_nat (length l)) x)) (fun _ => proc_each spin pgtbl port l) s.
Proof.
  intros Hl. unfold ninf_rx_proc_batch. rewrite !n_upd_rx. cbv zeta.
  destruct (land_3 (length l)) as [-> ->]; [unfold BURST_SIZE in Hl; lia|].
  pose proof (Nat.div_mod_eq (length l) 4) as Hd. pose proof (Nat.mod_upper_bound (length l) 4 ltac:(lia)) as Hm.
  replace (Z.to_nat (Z.of_nat (4 * (length l / 4)) / 4)) with (length l / 4)%nat by
    (rewrite Nat2Z.inj_mul, Z.mul_comm, Z.div_mul, Nat2Z.id by lia; done).
  set (k := (4 * (length l / 4))%nat) in *. set (s' := i_with_rxs _ _).
  transitivity (proc_each spin pgtbl port (take k l ++ drop k l) s'); [|by rewrite take_drop].
  rewrite proc_each_app. transitivity (bind (proc_quads spin pgtbl (length l / 4) l port 0) (fun _ => proc_each spin pgtbl port (drop k l)) s').
  - apply bind_cong. intros _ t. apply (proc_rest spin pgtbl l port k (length l mod 4)); lia.
  - unfold bind at 1 2. change 0 with (Z.of_nat 0).
    rewrite (proc_quads_each spin pgtbl (length l / 4) l port 0 s') by lia. reflexivity.
Qed.

(** A burst of five packets: one group of four, then one. *)
Lemma rx_batch_is_loop_witness :
  let s := sample_ninf (s_with_mem (flow_mem 0 zero_node) sample_sys) in
  let _ := granting_kernel in let _ := sample_dpdk in
  ninf_rx_proc_batch 1 (fun a => a) [5000; 5000; 5000; 5000; 5000] 5 1 s =
  bind (upd_rx (fun x => x_with_free (tot_free_mbuf x - 5) x)) (fun _ => proc_each 1 (fun a => a) 1 [5000; 5000; 5000; 5000; 5000]) s.
Proof. intros s K D. apply (rx_batch_is_loop 1 (fun a => a) [5000; 5000; 5000; 5000; 5000] 1 s). unfold BURST_SIZE. cbn. lia. Defined.
